(* ===== verification/_CoqProject ===== *)
-Q . S2P
Prelude.v
GoLang.v
KV.v
Chain.v
WebFS.v
WebPages.v
Sha2.v
Pow.v
Storage.v
StorageProps.v
State.v
StateProps.v
Fees.v
Pop.v
Config.v
Crypto.v
Validate.v
Apply.v
Frame.v
Typed.v
Ledger.v
LedgerProps.v
Mempool.v
TypedLedger.v
PoolOrder.v
Forkchoice.v
ForkchoiceProps.v
Finality.v
KeyVault.v
StorageDaemon.v
FinalityProps.v
Sync.v
SyncProps.v
Node.v
Wallet.v
NodeProps.v
SyncOnce.v
Gossip.v
Transport.v
Api.v
PlatformDB.v
HttpClient.v
Gateway.v
GatewayMux.v
GatewayServe.v
GossipProps.v
ApiProps.v
HttpProps.v
GatewayProps.v
TcpProxy.v
Boot.v
ServiceBoot.v
MempoolProps.v
TypedNode.v
TypeSafety.v
Instances.v
Witnesses.v
NodeWitnesses.v
NetWitnesses.v
ServiceWitnesses.v
HttpWitnesses.v
TypeWitnesses.v
WebWitnesses.v
GatewayWitnesses.v
BootWitnesses.v
