(* ===== verification/Prelude.v ===== *)
(** * ReserveOS: a verification development

    ReserveOS is a small proof-of-work block chain node in Go: accounts with balances and
    nonces, one-time ("OTAP") output addresses, a fee-ordered transaction pool, a block tree
    with cumulative work, checkpoints that validators finalize by signed votes, and fee pools
    that are paid out to participants.  Beside the node there are a vault for private keys, a
    wallet service that detects and claims payments to one-time addresses, a storage service
    that hands out receive slots, a small platform database, and a gateway that starts the
    others and serves the web pages in front of them.  This library models their logic,
    function by function, and proves what holds of it.

    ** The program and the files that model it

    A transaction reaches a node through the handler [/tx/submit], which checks it against the
    stored balances and hands it to the pool.  The miner drains the pool, filters what it got
    by simulating it on the state, and searches for a nonce.  A block, mined or received, goes
    through [SubmitBlock]: limits, state simulation, transaction rules, proof of work, parent
    link; then it is stored with its cumulative work, and it becomes the tip, or causes a
    switch of the main chain, or stays on a side branch.  Votes on checkpoints move the
    finalized height, below which a switch may not go.  Everything is kept in one flat
    LevelDB key space.  Nodes talk over encrypted sessions: announcements of transactions and
    blocks, requests for headers and blocks, finalized anchors; a sync manager keeps the queue
    of missing blocks and its workers ask peers for them.  (File names below are under src/.)

    - [Prelude]: tactics, strings and sums that the other files share.
    - [GoLang]: Go itself: [uint64], [int64], ... as [Z] with the wrap-around written out,
      byte orders, hex, decimal numbers; [outcome] (value, error, panic) and the
      state-and-error monad [GoM] every stateful function is written in.  [let!] is a call
      whose error is returned, [gignore] one whose error is dropped ([_ =]), [gtry] one whose
      error is inspected.
    - [KV]: goleveldb and encoding/json as classes [LevelDB], [JSON] with their laws
      [LevelDBOk], [JSONOk]; finite maps as an instance.
    - [Chain]: core/chain: blocks, transactions, canonical bytes, hashes, transaction root,
      genesis.  [Sha2]: an executable SHA-256.  [Pow]: core/consensus/pow: compact targets,
      work, retargeting, mining.
    - [Storage], [StorageProps]: internal/reservestorage: every typed access to the store.
    - [State], [StateProps]: core/state: balances, nonces, reset, snapshots.
    - [Fees], [Pop]: core/economics: fee split, participation payouts.
    - [Config]: core/node/config.go.  [Crypto]: core/crypto: account signatures, Schnorr
      signatures, one-time addresses, memos.
    - [Validate]: core/node/block_validate.go, block_validate_fork.go, limits_validate.go,
      block_assemble.go, block_header_match.go.  [Apply]: core/node/state_apply.go.
    - [Frame]: which keys an operation may change, with the tactic [frame].
    - [Ledger], [LedgerProps]: the abstract ledger over exact integers, and the proof that the
      simulation of [Validate] and the database updates of [Apply] both implement it.
    - [Mempool], [PoolOrder], [MempoolProps]: core/node/mempool.go with its priority queue, and
      the abstract merge of the senders' lanes that it implements.
    - [Forkchoice], [ForkchoiceProps]: core/node/forkchoice.go, reorg.go, reorg_best.go,
      reorg_txs.go, bestchain.go, locator.go.
    - [Finality], [FinalityProps]: core/consensus/finality/pos.go, core/node/
      finality_weighted.go, finality_gossip.go and the finality functions of node.go.
    - [Node], [NodeProps]: core/node/node.go: genesis, [SubmitBlock], [MineOne], the checks of
      [/tx/submit].
    - [Sync], [SyncProps]: core/node/sync_manager.go and the functions of node.go that move the
      tip ([TryAdvanceTip], [TryCommitNext], [TryConvergeToBest]).  The manager's methods are
      functions on its record; the workers are the step relation [step], one step per critical
      section, and [steps] are their interleavings with the message handlers.
    - [SyncOnce]: core/node/sync.go: a round of header-first synchronisation.
    - [Gossip], [GossipProps]: core/node/p2p_gossip.go, gossip.go, gossip_block.go: the message
      handler, its limiter in binary64 arithmetic, its caches with their mutex.
    - [Transport]: internal/reservep2p: identity, handshake, sessions, messages.
    - [Api], [ApiProps]: the HTTP handlers of core/node/node.go over one state; [routes] is the
      table of all of them and [serve] the dispatch.
    - [HttpClient], [HttpProps]: the HTTP clients of sync.go, finality_gossip.go and of the wallet,
      net/url's query strings, and the servers they reach.
    - [KeyVault]: internal/reservekeyvault.  [StorageDaemon]: services/storage-daemon/storaged.
      [Wallet]: services/wallet-daemon/walletd.  [PlatformDB]: services/platformdb-daemon.
    - [WebFS], [WebPages]: internal/reservewebfs: the flat directory of pages and assets, and the
      expansion of page templates.
    - [Gateway], [GatewayMux], [GatewayServe], [GatewayProps]: services/initialize-daemon: its
      configuration, services and limiter; [http.ServeMux] and the routes; the pages, the
      reverse proxy and the whole handler; their composition with [WebFS] and with the servers
      of [HttpClient].  [TcpProxy]: the TCP proxy as a step relation, over bound addresses.
    - [Boot]: how a node is started and stopped: internal/reserveconfig, internal/reserverpc,
      [New] of internal/reservep2p, [NewFromConfig], [Start] and [Stop] of core/node/node.go,
      core/cmd/node.  [ServiceBoot]: the same for the services.
    - [Typed], [TypedLedger], [TypedNode], [TypeSafety]: the type of every key of the store, the
      judgment [sound] (an operation keeps the types, and does not panic), and its proof for
      every entry point of a node.
    - [Instances], [Witnesses], [NodeWitnesses], [NetWitnesses], [ServiceWitnesses],
      [HttpWitnesses], [TypeWitnesses], [WebWitnesses], [GatewayWitnesses], [BootWitnesses]: an
      instance of every interface, and each theorem with hypotheses applied at concrete data.

    ** What the theorems show

    - Ledger ([LedgerProps]): a block the tip simulation accepts is applied without error and
      ends in the state of the abstract ledger; the supply changes by the reward, the fees and
      the outputs to nobody.  Block assembly keeps of the pool, greedily, what validates.  A
      claim pays its fee from the claimed bucket.
    - Finality and fork choice ([FinalityProps], [ForkchoiceProps]): weighted finality needs
      two thirds of the weight and only moves up; a first vote is never replaced; a switch or
      reorganisation never leaves the finalized block; locators end and reach genesis.
    - Submission ([NodeProps]): only admissible blocks change the store; an admitted
      transaction is minable by itself where the reward rules allow its fee.
    - Pool ([MempoolProps]): the counters count, limits hold, [Drain] ends and is the greedy
      merge of the senders' lanes by fee rate.
    - Synchronisation ([SyncProps]): in every interleaving the counters count, the number of
      blocks in flight is bounded, only announced blocks are asked for and none is forgotten;
      the queue is filled with exactly the missing blocks in order of height; two critical
      sections leave room for a race.
    - Messages ([GossipProps], [Transport]): a handshake gives both ends the same key,
      penalties ban, peers without the finalized block are ignored, headers are
      answered from the main chain, the limiter passes what it should; a repeated announcement
      stops the relay by the handler, and a recorded hello takes over a session.
    - HTTP ([ApiProps], [HttpProps]): a node's requests to a peer read the peer's main chain; a
      wallet's claims are refused and change nothing; no request other than [POST] changes anything; the header range; where
      the fee report ends and where it does not; hops of relays.
    - Types ([TypeSafety]): whatever a node is asked, told or does by itself, every value in its
      store can be read at the Go type of its key; on such a store reading does not fail, and
      no request or message panics but those that switch chains ([low_branch_panics] shows that
      they can).  This is said of the runs that do not depend on a function declared nowhere,
      of which nothing is assumed.  A round of asking for headers ends.
    - Vault and services ([KeyVault], [StorageDaemon], [Wallet], [PlatformDB], [ServiceBoot]): what
      was set is read after a restart and a failed opening costs nothing, but two processes on
      one file lose each other's keys, and a rotated key would lock the file; a wallet keeps its
      keys and its account over restarts as long as no rotation is due;
      slots stay consistent under failing statements; the claims for detected payments carry
      valid signatures, and yet the node refuses them.
    - Gateway and pages ([GatewayMux], [GatewayProps], [WebFS], [WebPages], [TcpProxy]): the mux
      routes own pages, configured prefixes and web pages in this order; a configured prefix is transparent; the site that was
      built is the site that is served, with the placeholders of a page without nested ones
      filled whatever the order of the map; the TCP proxy relays in order, and with its default addresses dials itself for ever.
    - Start ([Boot]): a node made from a configuration always panics in [Start], because the
      pool is read before the store is opened; a store keeps the chain of its first genesis.
    - Storage and state ([StorageProps], [StateProps]): the key space is one map over logical
      keys; balance updates are exact at 64 bits; snapshots round-trip; both resets agree.
    - Encodings ([Chain], [Crypto], [FinalityProps]): canonical transaction bytes, header
      bytes, vote messages and transaction roots determine what they encode, the hashed ones
      up to a collision among the strings that were hashed; one-time outputs are detected and claimable.
    - Arithmetic ([Pow], [Fees], [Pop], [Config]): precision of compact targets, direction of
      retargeting, what the work score sees, conservation of fee splits and payouts, the
      defaults of the configuration.
    - A last group records behaviour that is not what the code means to do: accepted blocks
      that are not applied, branches that overwrite the height index, negative outputs,
      rewards with a sender, votes that can never reach the threshold.

    ** Parameters, bounds and fuel

    Third-party packages, and functions the sources call and declare nowhere
    ([pow.NextWorkRequired], [hash256], [mustHex32], [ApplyBlock], [ListVotes],
    [findForkPointCached], [reservestorage.SetBalance], [validateTxAdmission],
    [reorgFromPeer], [setHeadersCount], [setLastHashes], [writeFrame], [readFrame],
    [deriveSessionKey], [maybeRotateLocked]), are arguments or classes; so are settings that the
    configuration does not declare (workers, blocks in flight, queue fill, time-outs).  No
    definition was made up for them.  The same goes for names that a function uses outside
    their scope.  Time, random bytes and the answers of peers are arguments.  The iteration
    order of a Go map is the class [MapOrder]: theorems hold for every order.

    A loop [for h := a; h <= b; h++] runs [b + 1 - a] times in the model; at [b = 2^64 - 1]
    the Go loop would not end, and heights are below that.  Loops along parent links and the
    nonce search take a number of steps and return [None] when they use it up; the theorems
    about them say how many steps are enough ([MineHeader_first], [BuildBlockLocator_spec],
    [header_round_ends], [GetAncestorHashAtHeight_total]).  The heap operations and [Drain] take the length of the
    heap, resp. a number of rounds that [Drain_greedy] shows to be enough.

    ** Not modelled

    Sockets beyond who has bound and reaches which address, deadlines, tickers, signals,
    logging, HTTP headers, and the encoding of HTTP responses.  Goroutines are modelled by the
    bodies they repeat.  Mutexes appear where they matter: in the workers of [Sync] and in the
    caches of [Gossip]; elsewhere a modelled function runs as a whole.  Patterns of
    [http.ServeMux] are paths only, and the file server is modelled for files. *)

From stdpp Require Export base tactics numbers list list_numbers sorting gmap fin_maps.
From stdpp Require Export strings.
From Stdlib Require Export Ascii ZArith Lia.
From Stdlib Require String.

#[export] Set Default Goal Selector "!".

Open Scope Z_scope.
Open Scope list_scope.

#[local] Arguments String.append : simpl nomatch.

(** ** Tactics *)

(** Case analysis on the innermost scrutinee of the goal or of a hypothesis. *)
Ltac case_goal :=
  match goal with
  | |- context [match ?x with _ => _ end] =>
      lazymatch x with
      | context [match _ with _ => _ end] => fail
      | _ => destruct x eqn:?
      end
  end.

Ltac case_hyp H :=
  match type of H with
  | context [match ?x with _ => _ end] =>
      lazymatch x with
      | context [match _ with _ => _ end] => fail
      | _ => destruct x eqn:?
      end
  end.

(** Turn boolean comparisons in the context into propositions. *)
Ltac zbool :=
  repeat match goal with
  | H : _ && _ = true |- _ => apply andb_true_iff in H as [? ?]
  | H : _ || _ = false |- _ => apply orb_false_iff in H as [? ?]
  | H : negb _ = true |- _ => apply negb_true_iff in H
  | H : negb _ = false |- _ => apply negb_false_iff in H
  | H : (_ =? _) = true |- _ => apply Z.eqb_eq in H
  | H : (_ =? _) = false |- _ => apply Z.eqb_neq in H
  | H : (_ <=? _) = true |- _ => apply Z.leb_le in H
  | H : (_ <=? _) = false |- _ => apply Z.leb_gt in H
  | H : (_ <? _) = true |- _ => apply Z.ltb_lt in H
  | H : (_ <? _) = false |- _ => apply Z.ltb_ge in H
  | H : (_ =? _)%string = true |- _ => apply String.eqb_eq in H
  | H : (_ =? _)%string = false |- _ => apply String.eqb_neq in H
  end.

(** [lia] with quotients and remainders by constants. *)
Ltac dlia := Z.to_euclidean_division_equations; lia.

(** ** Hint databases

    [go_arith] holds rewriting rules on machine integers and byte strings,
    [go_db] resolves facts about the key-value store. *)
Create HintDb go_arith discriminated.
Create HintDb go_db discriminated.

(** ** Byte strings

    Go's [string] and [[]byte] are both sequences of bytes; both are modelled by
    Rocq's [string], whose characters are 8-bit [ascii] values. *)

Lemma str_app_nil_r (s : string) : s +:+ "" = s.
Proof. induction s; simpl; congruence. Qed.

Lemma str_app_assoc (a b c : string) : (a +:+ b) +:+ c = a +:+ (b +:+ c).
Proof. induction a; simpl; congruence. Qed.

Lemma str_length_app (a b : string) :
  String.length (a +:+ b) = (String.length a + String.length b)%nat.
Proof. induction a; simpl; congruence. Qed.

(** Two concatenations whose first parts have the same length agree part by part. *)
Lemma str_app_inj_length (a1 a2 b1 b2 : string) :
  String.length a1 = String.length a2 ->
  a1 +:+ b1 = a2 +:+ b2 -> a1 = a2 /\ b1 = b2.
Proof.
  revert a2. induction a1 as [|c a1 IH]; intros [|c2 a2]; simpl; try discriminate; auto.
  intros [= Hl] [= -> He]. destruct (IH a2 Hl He) as [-> ->]. auto.
Qed.

(** [strings.HasPrefix] and the cut after a prefix. *)
Fixpoint str_prefix (p s : string) : bool :=
  match p, s with
  | EmptyString, _ => true
  | String a p', String b s' => Ascii.eqb a b && str_prefix p' s'
  | String _ _, EmptyString => false
  end.

Fixpoint str_drop (n : nat) (s : string) : string :=
  match n, s with
  | O, _ => s
  | S n', String _ s' => str_drop n' s'
  | S _, EmptyString => EmptyString
  end.

Fixpoint str_take (n : nat) (s : string) : string :=
  match n, s with
  | O, _ => EmptyString
  | S n', String a s' => String a (str_take n' s')
  | S _, EmptyString => EmptyString
  end.

Lemma str_prefix_app (p s : string) : str_prefix p (p +:+ s) = true.
Proof. induction p; simpl; [done|]. by rewrite Ascii.eqb_refl. Qed.

Lemma str_prefix_spec (p s : string) :
  str_prefix p s = true <-> exists r, s = p +:+ r.
Proof.
  split.
  - revert s. induction p as [|a p IH]; intros s; simpl.
    + eauto.
    + destruct s as [|b s]; [done|].
      intros [Ha Hp]%andb_true_iff. apply Ascii.eqb_eq in Ha as ->.
      destruct (IH _ Hp) as [r ->]. by exists r.
  - intros [r ->]. apply str_prefix_app.
Qed.

Lemma str_drop_app (p s : string) : str_drop (String.length p) (p +:+ s) = s.
Proof. induction p; simpl; auto. Qed.

Lemma str_take_app (p s : string) : str_take (String.length p) (p +:+ s) = p.
Proof. induction p; simpl; congruence. Qed.

Lemma str_take_drop n (s : string) : str_take n s +:+ str_drop n s = s.
Proof. revert s. induction n; intros [|a s]; simpl; auto. by rewrite IHn. Qed.

Lemma str_length_take n (s : string) :
  String.length (str_take n s) = Nat.min n (String.length s).
Proof. revert s. induction n; intros [|a s]; simpl; auto. Qed.

Lemma str_length_drop n (s : string) :
  String.length (str_drop n s) = (String.length s - n)%nat.
Proof. revert s. induction n; intros [|a s]; simpl; auto. Qed.

(** [strings.TrimPrefix]. *)
Definition str_trim_prefix (p s : string) : string :=
  if str_prefix p s then str_drop (String.length p) s else s.

Lemma str_trim_prefix_app (p s : string) : str_trim_prefix p (p +:+ s) = s.
Proof. unfold str_trim_prefix. by rewrite str_prefix_app, str_drop_app. Qed.

(** Suffixes, through reversal of the character list. *)
Definition str_suffix (p s : string) : bool :=
  let n := (String.length s - String.length p)%nat in
  Nat.leb (String.length p) (String.length s) && String.eqb (str_drop n s) p.

Definition str_trim_suffix (p s : string) : string :=
  if str_suffix p s then str_take (String.length s - String.length p)%nat s else s.

Lemma str_suffix_app (p s : string) : str_suffix p (s +:+ p) = true.
Proof.
  unfold str_suffix. rewrite str_length_app.
  replace (String.length s + String.length p - String.length p)%nat
    with (String.length s) by lia.
  rewrite str_drop_app, String.eqb_refl, andb_true_r.
  apply Nat.leb_le. lia.
Qed.

Lemma str_trim_suffix_app (p s : string) : str_trim_suffix p (s +:+ p) = s.
Proof.
  unfold str_trim_suffix. rewrite str_suffix_app, str_length_app.
  replace (String.length s + String.length p - String.length p)%nat
    with (String.length s) by lia.
  apply str_take_app.
Qed.

(** Characters of a string as a list, and back. *)
Notation str_list := String.list_ascii_of_string.
Notation list_str := String.string_of_list_ascii.

Lemma str_list_inj (a b : string) : str_list a = str_list b -> a = b.
Proof.
  intros H. rewrite <- (String.string_of_list_ascii_of_string a), H.
  apply String.string_of_list_ascii_of_string.
Qed.

Lemma str_list_app (a b : string) : str_list (a +:+ b) = str_list a ++ str_list b.
Proof. induction a; simpl; congruence. Qed.

Lemma list_str_app (a b : list ascii) : list_str (a ++ b) = list_str a +:+ list_str b.
Proof. induction a; simpl; congruence. Qed.

Lemma str_list_length (a : string) : length (str_list a) = String.length a.
Proof. induction a; simpl; congruence. Qed.

(** A character that occurs in no string of the left parts separates them. *)
Lemma str_sep_inj (c : ascii) (a1 a2 b1 b2 : string) :
  ~ In c (str_list a1) -> ~ In c (str_list a2) ->
  a1 +:+ String c b1 = a2 +:+ String c b2 -> a1 = a2 /\ b1 = b2.
Proof.
  revert a2. induction a1 as [|x a1 IH]; intros [|y a2]; simpl; intros H1 H2 He.
  - injection He as ->. auto.
  - injection He as -> _. tauto.
  - injection He as -> _. tauto.
  - injection He as -> He. destruct (IH a2) as [-> ->]; tauto.
Qed.

(** The last separator: the right parts hold none. *)
Lemma str_sep_inj_r c a1 a2 b1 b2 :
  ~ In c (str_list b1) -> ~ In c (str_list b2) ->
  a1 +:+ String c b1 = a2 +:+ String c b2 -> a1 = a2 /\ b1 = b2.
Proof.
  intros H1 H2. revert a2. induction a1 as [|x a1 IH]; intros [|y a2] H.
  - by injection H as ->.
  - change (String c b1 = String y (a2 +:+ String c b2)) in H. injection H as -> ->.
    destruct H1. rewrite str_list_app. apply in_app_iff. right. by left.
  - change (String x (a1 +:+ String c b1) = String c b2) in H. injection H as -> <-.
    destruct H2. rewrite str_list_app. apply in_app_iff. right. by left.
  - change (String x (a1 +:+ String c b1) = String y (a2 +:+ String c b2)) in H.
    injection H as -> H. by destruct (IH a2 H) as [-> ->].
Qed.

(** ** Lists and sums *)

Definition sumZ {A} (f : A -> Z) (l : list A) : Z := foldr (fun a acc => f a + acc) 0 l.
#[global] Arguments sumZ {A} f l : simpl never.

Lemma sumZ_nil {A} (f : A -> Z) : sumZ f [] = 0.
Proof. done. Qed.

Lemma sumZ_cons {A} (f : A -> Z) a l : sumZ f (a :: l) = f a + sumZ f l.
Proof. done. Qed.

Lemma sumZ_app {A} (f : A -> Z) l1 l2 : sumZ f (l1 ++ l2) = sumZ f l1 + sumZ f l2.
Proof.
  induction l1 as [|a l1 IH]; simpl; [by rewrite sumZ_nil|].
  rewrite !sumZ_cons. lia.
Qed.

Lemma sumZ_nonneg {A} (f : A -> Z) l : (forall a, In a l -> 0 <= f a) -> 0 <= sumZ f l.
Proof.
  induction l as [|a l IH]; intros H; [by rewrite sumZ_nil|].
  rewrite sumZ_cons. specialize (H a (or_introl eq_refl)) as Ha.
  assert (0 <= sumZ f l); [|lia]. apply IH. intros b Hb. apply H. by right.
Qed.

Lemma sumZ_ext {A} (f g : A -> Z) l : (forall a, In a l -> f a = g a) -> sumZ f l = sumZ g l.
Proof.
  induction l as [|a l IH]; intros H; [done|].
  rewrite !sumZ_cons, (H a (or_introl eq_refl)), IH; [done|].
  intros b Hb. apply H. by right.
Qed.

#[export] Instance sumZ_Permutation {A} (f : A -> Z) :
  Proper ((≡ₚ) ==> (=)) (sumZ f).
Proof.
  intros l1 l2 HP. induction HP as [|a l1 l2 _ IH|a b l|l1 l2 l3 _ IH1 _ IH2].
  - done.
  - rewrite !sumZ_cons. lia.
  - rewrite !sumZ_cons. lia.
  - congruence.
Qed.

(** Decision of membership in a list of strings, as Go's linear scans compute it. *)
Definition mem_str (x : string) (l : list string) : bool :=
  existsb (fun y => String.eqb x y) l.

Lemma mem_str_spec x l : mem_str x l = true <-> In x l.
Proof.
  unfold mem_str. rewrite existsb_exists. split.
  - intros (y & Hy & ->%String.eqb_eq). done.
  - intros Hx. exists x. split; [done|apply String.eqb_refl].
Qed.

#[export] Hint Rewrite str_app_nil_r str_length_app str_drop_app str_take_app
  str_trim_prefix_app str_trim_suffix_app : go_arith.
