(* ===== verification/GoLang.v ===== *)
(** * The Go language and the parts of its standard library the sources use

    Fixed-width integers with their wrap-around ([u8], [u32], [u64], [i64]; Go's
    [int] is 64 bits wide), byte orders of [encoding/binary], [encoding/hex],
    decimal printing ([strconv.FormatUint], [fmt]'s [%d]), results of calls that
    may return an error or panic, and the state-and-error monad in which stateful
    functions are written. *)

From Stdlib Require Import Zbitwise.
From S2P Require Import Prelude.

(** ** Machine integers *)

Notation M8 := 256.
Notation M32 := 4294967296.
Notation M63 := 9223372036854775808.
Notation M64 := 18446744073709551616.

Definition u8 (z : Z) : Z := z mod M8.
Definition u32 (z : Z) : Z := z mod M32.
Definition u64 (z : Z) : Z := z mod M64.
Definition i64 (z : Z) : Z := (z + M63) mod M64 - M63.

#[global] Arguments u8 : simpl never.
#[global] Arguments u32 : simpl never.
#[global] Arguments u64 : simpl never.
#[global] Arguments i64 : simpl never.

Definition is_u8 (z : Z) : Prop := 0 <= z < M8.
Definition is_u32 (z : Z) : Prop := 0 <= z < M32.
Definition is_u64 (z : Z) : Prop := 0 <= z < M64.
Definition is_i64 (z : Z) : Prop := - M63 <= z < M63.

Lemma u8_range z : is_u8 (u8 z).
Proof. apply Z.mod_pos_bound. lia. Qed.
Lemma u32_range z : is_u32 (u32 z).
Proof. apply Z.mod_pos_bound. lia. Qed.
Lemma u64_range z : is_u64 (u64 z).
Proof. apply Z.mod_pos_bound. lia. Qed.
Lemma i64_range z : is_i64 (i64 z).
Proof. unfold is_i64, i64. pose proof (Z.mod_pos_bound (z + M63) M64). lia. Qed.

Lemma u8_id z : is_u8 z -> u8 z = z.
Proof. apply Z.mod_small. Qed.
Lemma u32_id z : is_u32 z -> u32 z = z.
Proof. apply Z.mod_small. Qed.
Lemma u64_id z : is_u64 z -> u64 z = z.
Proof. apply Z.mod_small. Qed.
Lemma i64_id z : is_i64 z -> i64 z = z.
Proof. unfold is_i64, i64. intros. rewrite Z.mod_small; lia. Qed.

(** Conversions between the signed and the unsigned reading of 64 bits. *)
Lemma i64_u64 z : i64 (u64 z) = i64 z.
Proof. unfold i64, u64. rewrite Zplus_mod_idemp_l. done. Qed.

Lemma u64_i64 z : u64 (i64 z) = u64 z.
Proof.
  unfold i64, u64. rewrite Zminus_mod_idemp_l. f_equal. lia.
Qed.

Lemma i64_add_l a b : i64 (i64 a + b) = i64 (a + b).
Proof.
  unfold i64. replace ((a + M63) mod M64 - M63 + b + M63) with ((a + M63) mod M64 + b) by lia.
  rewrite Zplus_mod_idemp_l. do 2 f_equal. lia.
Qed.

Lemma i64_add_r a b : i64 (a + i64 b) = i64 (a + b).
Proof. rewrite Z.add_comm, i64_add_l. f_equal. lia. Qed.

Lemma i64_sub_r a b : i64 (a - i64 b) = i64 (a - b).
Proof.
  unfold i64. replace (a - ((b + M63) mod M64 - M63) + M63) with (a + M64 - (b + M63) mod M64) by lia.
  rewrite Zminus_mod_idemp_r. replace (a + M64 - (b + M63)) with (a - b - M63 + 1 * M64) by lia.
  rewrite Z.mod_add by lia. replace (a - b + M63) with (a - b - M63 + 1 * M64) by lia.
  by rewrite Z.mod_add by lia.
Qed.

Lemma i64_sub_l a b : i64 (i64 a - b) = i64 (a - b).
Proof. by rewrite <- !Z.add_opp_r, i64_add_l. Qed.

Lemma i64_cases z : exists k, i64 z = z + k * M64.
Proof.
  unfold i64. exists (- ((z + M63) / M64)).
  pose proof (Z.div_mod (z + M63) M64). lia.
Qed.

#[export] Hint Rewrite i64_u64 u64_i64 i64_add_l i64_add_r i64_sub_r i64_sub_l : go_arith.
#[export] Hint Resolve u8_range u32_range u64_range i64_range : go_db.

(** Joining a shifted high part with a low part that fits below it. *)
Lemma lor_shiftl a b k : 0 <= k -> 0 <= b < 2 ^ k -> Z.lor (Z.shiftl a k) b = a * 2 ^ k + b.
Proof.
  intros Hk Hb. assert (Z.land (Z.shiftl a k) b = 0) as H0.
  { apply Z.bits_inj'. intros n Hn. rewrite Z.land_spec, Z.bits_0.
    destruct (Z.lt_ge_cases n k); [by rewrite Z.shiftl_spec_low|].
    destruct (Z.eq_dec b 0) as [->|]; [by rewrite Z.bits_0, andb_false_r|].
    rewrite (Z.bits_above_log2 b n); [apply andb_false_r|lia|].
    apply Z.lt_le_trans with k; [apply Z.log2_lt_pow2; lia|done]. }
  pose proof (Z.add_lor_land (Z.shiftl a k) b).
  rewrite Z.shiftl_mul_pow2 in * by lia. lia.
Qed.

(** ** Slices *)

(** [make([]T, 0, n)] panics on a negative capacity and on one that exceeds the address
    space of a 64-bit platform (48 bits); [esz] is the size of an element. *)
Definition make_cap_ok (n esz : Z) : bool := (0 <=? n) && (n * esz <=? 2 ^ 48).

(** The two words of a Go string. *)
Definition string_size : Z := 16.

(** ** Bytes *)

Definition byte_of_Z (z : Z) : ascii := ascii_of_N (Z.to_N (z mod M8)).
Definition Z_of_byte (a : ascii) : Z := Z.of_N (N_of_ascii a).

Lemma Z_of_byte_range a : is_u8 (Z_of_byte a).
Proof.
  unfold is_u8, Z_of_byte. pose proof (N_ascii_bounded a). lia.
Qed.

Lemma Z_of_byte_of_Z z : Z_of_byte (byte_of_Z z) = z mod M8.
Proof.
  unfold Z_of_byte, byte_of_Z.
  pose proof (Z.mod_pos_bound z M8).
  rewrite N_ascii_embedding by lia. lia.
Qed.

Lemma byte_of_Z_of_byte a : byte_of_Z (Z_of_byte a) = a.
Proof.
  unfold byte_of_Z. rewrite Z.mod_small by apply Z_of_byte_range.
  unfold Z_of_byte. rewrite N2Z.id. apply ascii_N_embedding.
Qed.

Lemma Z_of_byte_inj a b : Z_of_byte a = Z_of_byte b -> a = b.
Proof. intros H. rewrite <- (byte_of_Z_of_byte a), H. apply byte_of_Z_of_byte. Qed.

(** Big-endian and little-endian encodings on [n] bytes. *)
Fixpoint be_put (n : nat) (z : Z) : string :=
  match n with
  | O => EmptyString
  | S n' => String (byte_of_Z (z / 256 ^ Z.of_nat n')) (be_put n' z)
  end.

Fixpoint be_get_acc (acc : Z) (s : string) : Z :=
  match s with
  | EmptyString => acc
  | String a s' => be_get_acc (acc * 256 + Z_of_byte a) s'
  end.
Definition be_get (s : string) : Z := be_get_acc 0 s.

Fixpoint le_put (n : nat) (z : Z) : string :=
  match n with
  | O => EmptyString
  | S n' => String (byte_of_Z z) (le_put n' (z / 256))
  end.

Fixpoint le_get (s : string) : Z :=
  match s with
  | EmptyString => 0
  | String a s' => Z_of_byte a + 256 * le_get s'
  end.

Lemma be_put_length n z : String.length (be_put n z) = n.
Proof. induction n; simpl; auto. Qed.

Lemma le_put_length n z : String.length (le_put n z) = n.
Proof. revert z. induction n; simpl; auto. Qed.

Lemma pow256_pos n : 0 < 256 ^ Z.of_nat n.
Proof. apply Z.pow_pos_nonneg; lia. Qed.

Lemma pow256_S n : 256 ^ Z.of_nat (S n) = 256 * 256 ^ Z.of_nat n.
Proof. rewrite Nat2Z.inj_succ, Z.pow_succ_r by lia. done. Qed.

Lemma be_get_acc_put n acc z :
  be_get_acc acc (be_put n z) = acc * 256 ^ Z.of_nat n + z mod 256 ^ Z.of_nat n.
Proof.
  revert acc. induction n as [|n IH]; intros acc; simpl be_put; simpl be_get_acc.
  - rewrite Z.pow_0_r, Z.mod_1_r. lia.
  - rewrite IH, Z_of_byte_of_Z, pow256_S.
    pose proof (pow256_pos n) as Hp.
    rewrite (Z.mul_comm 256 (256 ^ Z.of_nat n)).
    rewrite (Z.rem_mul_r z (256 ^ Z.of_nat n) 256) by lia. nia.
Qed.

Lemma be_get_put n z : be_get (be_put n z) = z mod 256 ^ Z.of_nat n.
Proof. unfold be_get. rewrite be_get_acc_put. lia. Qed.

Lemma le_get_put n z : le_get (le_put n z) = z mod 256 ^ Z.of_nat n.
Proof.
  revert z. induction n as [|n IH]; intros z; simpl le_put; simpl le_get.
  - by rewrite Z.pow_0_r, Z.mod_1_r.
  - rewrite IH, Z_of_byte_of_Z, pow256_S, Z.rem_mul_r; [done|lia|apply pow256_pos].
Qed.

Lemma le_put_inj n a b :
  0 <= a < 256 ^ Z.of_nat n -> 0 <= b < 256 ^ Z.of_nat n -> le_put n a = le_put n b -> a = b.
Proof.
  intros Ha Hb H%(f_equal le_get). rewrite !le_get_put, !Z.mod_small in H; done.
Qed.

Lemma be_put_inj n a b :
  0 <= a < 256 ^ Z.of_nat n -> 0 <= b < 256 ^ Z.of_nat n -> be_put n a = be_put n b -> a = b.
Proof.
  intros Ha Hb H%(f_equal be_get). rewrite !be_get_put, !Z.mod_small in H; done.
Qed.

Lemma be_get_acc_bound s acc :
  0 <= acc -> acc * 256 ^ Z.of_nat (String.length s) <= be_get_acc acc s
              < (acc + 1) * 256 ^ Z.of_nat (String.length s).
Proof.
  revert acc. induction s as [|a s IH]; intros acc Ha.
  - simpl. lia.
  - cbn [String.length be_get_acc]. rewrite pow256_S. pose proof (Z_of_byte_range a) as Hr.
    unfold is_u8 in Hr. specialize (IH (acc * 256 + Z_of_byte a) ltac:(lia)).
    pose proof (pow256_pos (String.length s)). nia.
Qed.

Lemma be_get_bound s : 0 <= be_get s < 256 ^ Z.of_nat (String.length s).
Proof. pose proof (be_get_acc_bound s 0 ltac:(lia)). unfold be_get. lia. Qed.

Lemma be_put_get s : be_put (String.length s) (be_get s) = s.
Proof.
  unfold be_get.
  assert (forall s acc, 0 <= acc -> be_put (String.length s) (be_get_acc acc s) = s) as H;
    [|apply H; lia].
  clear s. induction s as [|a s IH]; intros acc Hacc; [done|].
  simpl. f_equal; [|apply IH; pose proof (Z_of_byte_range a); unfold is_u8 in *; lia].
  pose proof (Z_of_byte_range a) as Hr. unfold is_u8 in Hr.
  pose proof (be_get_acc_bound s (acc * 256 + Z_of_byte a) ltac:(lia)) as Hb.
  rewrite <- (byte_of_Z_of_byte a) at 2. unfold byte_of_Z. do 2 f_equal.
  replace (be_get_acc (acc * 256 + Z_of_byte a) s / 256 ^ Z.of_nat (String.length s))
    with (acc * 256 + Z_of_byte a).
  - rewrite Z.add_comm, Z.mod_add by lia. done.
  - pose proof (pow256_pos (String.length s)).
    apply Z.div_unique_pos with
      (be_get_acc (acc * 256 + Z_of_byte a) s
       - (acc * 256 + Z_of_byte a) * 256 ^ Z.of_nat (String.length s)); lia.
Qed.

(** [binary.BigEndian.PutUint64] into a fresh 8-byte slice, and
    [binary.BigEndian.Uint64], which panics on fewer than 8 bytes ([None]). *)
Definition BE_PutUint64 (v : Z) : string := be_put 8 v.
Definition BE_Uint64 (b : string) : option Z :=
  if Nat.ltb (String.length b) 8 then None else Some (be_get (str_take 8 b)).

Lemma BE_PutUint64_length v : String.length (BE_PutUint64 v) = 8%nat.
Proof. apply be_put_length. Qed.

Lemma str_take_all (s : string) : str_take (String.length s) s = s.
Proof. rewrite <- (str_app_nil_r s) at 2. apply str_take_app. Qed.

Lemma BE_Uint64_put v : BE_Uint64 (BE_PutUint64 v) = Some (u64 v).
Proof.
  unfold BE_Uint64. rewrite BE_PutUint64_length. simpl Nat.ltb. cbv iota.
  pose proof (str_take_all (BE_PutUint64 v)) as Ht. rewrite BE_PutUint64_length in Ht.
  rewrite Ht. unfold BE_PutUint64. rewrite be_get_put. done.
Qed.

Lemma BE_Uint64_8 b :
  String.length b = 8%nat -> BE_Uint64 b = Some (be_get b) /\ is_u64 (be_get b).
Proof.
  intros Hl. unfold BE_Uint64. rewrite Hl. simpl Nat.ltb. cbv iota.
  pose proof (str_take_all b) as Ht. rewrite Hl in Ht. rewrite Ht. split; [done|].
  pose proof (be_get_bound b) as H. rewrite Hl in H. exact H.
Qed.
#[global] Arguments BE_PutUint64 : simpl never.
#[global] Arguments BE_Uint64 : simpl never.
#[export] Hint Rewrite be_put_length le_put_length BE_PutUint64_length BE_Uint64_put : go_arith.

(** ** encoding/hex *)

Definition hexd : string := "0123456789abcdef".

(** [hexd[v]] for a nibble [v]. *)
Definition hex_char (v : Z) : ascii :=
  match String.get (Z.to_nat v) hexd with Some c => c | None => "0"%char end.

(** The value of a hex digit, either case. *)
Definition hex_val (c : ascii) : option Z :=
  let z := Z_of_byte c in
  if (48 <=? z) && (z <=? 57) then Some (z - 48)
  else if (97 <=? z) && (z <=? 102) then Some (z - 97 + 10)
  else if (65 <=? z) && (z <=? 70) then Some (z - 65 + 10)
  else None.

(** [hex.EncodeToString]. *)
Fixpoint hex_EncodeToString (s : string) : string :=
  match s with
  | EmptyString => EmptyString
  | String a s' =>
      String (hex_char (Z.shiftr (Z_of_byte a) 4))
        (String (hex_char (Z.land (Z_of_byte a) 15)) (hex_EncodeToString s'))
  end.

Lemma hex_val_char v : 0 <= v < 16 -> hex_val (hex_char v) = Some v.
Proof.
  intros H. pose (f v := match hex_val (hex_char v) with Some w => w =? v | None => false end).
  assert (forallb f (List.map Z.of_nat (List.seq 0 16)) = true) as Hall by (vm_compute; reflexivity).
  rewrite forallb_forall in Hall. specialize (Hall v). unfold f in Hall.
  destruct (hex_val (hex_char v)); [f_equal; apply Z.eqb_eq|]; [|discriminate Hall].
  - apply Hall, in_map_iff. exists (Z.to_nat v). rewrite in_seq. lia.
  - apply in_map_iff. exists (Z.to_nat v). rewrite in_seq. lia.
Qed.

Lemma nibbles a :
  0 <= Z.shiftr (Z_of_byte a) 4 < 16 /\ 0 <= Z.land (Z_of_byte a) 15 < 16 /\
  Z.shiftr (Z_of_byte a) 4 * 16 + Z.land (Z_of_byte a) 15 = Z_of_byte a.
Proof.
  pose proof (Z_of_byte_range a) as Hr. unfold is_u8 in Hr.
  change 15 with (Z.ones 4). rewrite Z.shiftr_div_pow2, Z.land_ones by lia.
  change (2 ^ 4) with 16.
  pose proof (Z.div_mod (Z_of_byte a) 16). pose proof (Z.mod_pos_bound (Z_of_byte a) 16). lia.
Qed.

Lemma hex_EncodeToString_length s :
  String.length (hex_EncodeToString s) = (2 * String.length s)%nat.
Proof. induction s; simpl; lia. Qed.

(** ** Results: a value, an error, or a panic *)

Definition goerr : Type := string.

Inductive outcome (A : Type) : Type :=
| Ret (a : A)
| Err (e : goerr)
| Panic.
Arguments Ret {A} a.
Arguments Err {A} e.
Arguments Panic {A}.

Definition is_ret {A} (o : outcome A) : bool :=
  match o with Ret _ => true | _ => false end.

(** [hex.DecodeString]: an error on a byte that is no hex digit or on odd length. *)
Fixpoint hex_DecodeString (s : string) : outcome string :=
  match s with
  | EmptyString => Ret EmptyString
  | String a EmptyString =>
      match hex_val a with
      | None => Err "encoding/hex: invalid byte"
      | Some _ => Err "encoding/hex: odd length hex string"
      end
  | String a (String b s') =>
      match hex_val a, hex_val b with
      | Some x, Some y =>
          match hex_DecodeString s' with
          | Ret r => Ret (String (byte_of_Z (x * 16 + y)) r)
          | Err e => Err e
          | Panic => Panic
          end
      | _, _ => Err "encoding/hex: invalid byte"
      end
  end.

Lemma hex_Decode_Encode s : hex_DecodeString (hex_EncodeToString s) = Ret s.
Proof.
  induction s as [|a s IH]; [done|].
  cbn [hex_EncodeToString hex_DecodeString].
  destruct (nibbles a) as (H1 & H2 & H3).
  rewrite !hex_val_char by done. rewrite IH, H3. by rewrite byte_of_Z_of_byte.
Qed.

Lemma hex_EncodeToString_inj a b : hex_EncodeToString a = hex_EncodeToString b -> a = b.
Proof.
  intros H. assert (Ret a = Ret b) as [= ->]; [|done].
  rewrite <- (hex_Decode_Encode a), <- (hex_Decode_Encode b). by rewrite H.
Qed.

(** ** Decimal printing

    [digits_rev f v] are the decimal digits of [v], least significant first; 20
    digits are enough for 64 bits and [fuel] is at least that in every use. *)
Definition digit (d : Z) : ascii := byte_of_Z (48 + d).

Fixpoint digits_rev (fuel : nat) (v : Z) : list ascii :=
  match fuel with
  | O => []
  | S f => if v <=? 0 then [] else digit (v mod 10) :: digits_rev f (v / 10)
  end.

(** [strconv.FormatUint(v, 10)] and [fmt.Sprintf] of a uint64 with the verb d. *)
Definition FormatUint (v : Z) : string :=
  if v <=? 0 then "0" else list_str (rev (digits_rev 20 v)).

(** Reading decimal digits back. *)
Definition digit_val (c : ascii) : Z := Z_of_byte c - 48.
Definition is_digit (c : ascii) : bool := (48 <=? Z_of_byte c) && (Z_of_byte c <=? 57).

Fixpoint digits_val (l : list ascii) : Z :=
  match l with
  | [] => 0
  | c :: l' => digit_val c + 10 * digits_val l'
  end.

Lemma digit_spec d : 0 <= d < 10 -> is_digit (digit d) = true /\ digit_val (digit d) = d.
Proof.
  intros H. unfold is_digit, digit_val, digit.
  rewrite Z_of_byte_of_Z, Z.mod_small by lia. lia.
Qed.

Lemma digits_rev_digits f v c : In c (digits_rev f v) -> is_digit c = true.
Proof.
  revert v. induction f as [|f IH]; intros v; simpl; [done|].
  case_goal; simpl; [done|]. intros [<-|H]; [|by eapply IH].
  apply digit_spec. apply Z.mod_pos_bound. lia.
Qed.

Lemma digits_val_rev f v :
  0 <= v < 10 ^ Z.of_nat f -> digits_val (digits_rev f v) = v.
Proof.
  revert v. induction f as [|f IH]; intros v Hv.
  - simpl in *. change (10 ^ Z.of_nat 0) with 1 in Hv. lia.
  - rewrite Nat2Z.inj_succ, Z.pow_succ_r in Hv by lia. simpl digits_rev.
    destruct (Z.leb_spec v 0); simpl digits_val; [lia|].
    rewrite IH.
    + destruct (digit_spec (v mod 10)) as [_ ->]; [apply Z.mod_pos_bound; lia|].
      pose proof (Z.div_mod v 10). lia.
    + split; [apply Z.div_pos; lia|]. apply Z.div_lt_upper_bound; lia.
Qed.

Lemma FormatUint_digits v c : In c (str_list (FormatUint v)) -> is_digit c = true.
Proof.
  unfold FormatUint. case_goal.
  - simpl. intros [<-|[]]. done.
  - rewrite String.list_ascii_of_string_of_list_ascii, <- in_rev. apply digits_rev_digits.
Qed.

Lemma FormatUint_inj a b : is_u64 a -> is_u64 b -> FormatUint a = FormatUint b -> a = b.
Proof.
  unfold is_u64, FormatUint. intros Ha Hb.
  assert (forall v, 0 < v < M64 -> list_str (rev (digits_rev 20 v)) <> "0") as Hne.
  { intros v Hv He%(f_equal str_list). rewrite String.list_ascii_of_string_of_list_ascii in He.
    apply (f_equal (@rev _)) in He. rewrite rev_involutive in He.
    assert (digits_val (digits_rev 20 v) = v) as Hd by (apply digits_val_rev; simpl; lia).
    rewrite He in Hd. vm_compute in Hd. lia. }
  destruct (Z.leb_spec a 0), (Z.leb_spec b 0); intros H1.
  - lia.
  - symmetry in H1. apply Hne in H1; [done|lia].
  - apply Hne in H1; [done|lia].
  - apply (f_equal str_list) in H1. rewrite !String.list_ascii_of_string_of_list_ascii in H1.
    apply (f_equal (@rev _)) in H1. rewrite !rev_involutive in H1.
    apply (f_equal digits_val) in H1. rewrite !digits_val_rev in H1; simpl; lia.
Qed.

(** A digit string never contains the separator [:] of composite keys. *)
Lemma FormatUint_no_colon v : ~ In ":"%char (str_list (FormatUint v)).
Proof. intros H%FormatUint_digits. done. Qed.
#[global] Arguments FormatUint : simpl never.

(** ** The state-and-error monad

    [GoM S A] is a function that reads and changes a state [S] and returns a value,
    an error or a panic; what it changed before an error stays changed. *)
Definition GoM (S A : Type) : Type := S -> outcome A * S.

Section Monad.
Context {S : Type}.

Definition gret {A} (a : A) : GoM S A := fun s => (Ret a, s).
Definition gerr {A} (e : goerr) : GoM S A := fun s => (Err e, s).
Definition gpanic {A} : GoM S A := fun s => (Panic, s).

Definition gbind {A B} (m : GoM S A) (f : A -> GoM S B) : GoM S B :=
  fun s => match m s with
           | (Ret a, s') => f a s'
           | (Err e, s') => (Err e, s')
           | (Panic, s') => (Panic, s')
           end.

(** [v, err := m] with [err] inspected by the caller. *)
Definition gtry {A} (m : GoM S A) : GoM S (goerr + A) :=
  fun s => match m s with
           | (Ret a, s') => (Ret (inr a), s')
           | (Err e, s') => (Ret (inl e), s')
           | (Panic, s') => (Panic, s')
           end.

(** [v, _ := m]: the error is dropped and [d] are the values returned with it. *)
Definition gignore {A} (d : A) (m : GoM S A) : GoM S A :=
  fun s => match m s with
           | (Ret a, s') => (Ret a, s')
           | (Err _, s') => (Ret d, s')
           | (Panic, s') => (Panic, s')
           end.

Definition glift {A} (o : outcome A) : GoM S A := fun s => (o, s).
Definition gget : GoM S S := fun s => (Ret s, s).
Definition gput (s : S) : GoM S unit := fun _ => (Ret tt, s).
Definition gmodify (f : S -> S) : GoM S unit := fun s => (Ret tt, f s).

(** A panicking partial value, such as an index out of range. *)
Definition gpart {A} (o : option A) : GoM S A :=
  match o with Some a => gret a | None => gpanic end.

(** [for _, x := range l { body }] whose body may return an error. *)
Fixpoint gfor {A} (l : list A) (f : A -> GoM S unit) : GoM S unit :=
  match l with
  | [] => gret tt
  | x :: l' => gbind (f x) (fun _ => gfor l' f)
  end.

(** The same with variables [acc] assigned in the body. *)
Fixpoint gfold {A B} (l : list A) (f : B -> A -> GoM S B) (acc : B) : GoM S B :=
  match l with
  | [] => gret acc
  | x :: l' => gbind (f acc x) (fun b => gfold l' f b)
  end.
End Monad.

#[global] Arguments GoM S A : simpl never.

Declare Scope go_scope.
Delimit Scope go_scope with go.
Open Scope go_scope.

Notation "'let!' x ':=' m 'in' k" := (gbind m (fun x => k))
  (at level 200, x pattern, m at level 100, k at level 200) : go_scope.
Notation "m ';;;' k" := (gbind m (fun _ => k))
  (at level 199, right associativity) : go_scope.

(** Reading a part of a larger state: [gzoom get set m] runs [m] on that part. *)
Definition gzoom {S T A} (get : S -> T) (set : T -> S -> S) (m : GoM T A) : GoM S A :=
  fun s => let '(o, t) := m (get s) in (o, set t s).

Lemma gbind_ret {S A B} (m : GoM S A) (f : A -> GoM S B) s a s' :
  m s = (Ret a, s') -> gbind m f s = f a s'.
Proof. unfold gbind. by intros ->. Qed.

Lemma gbind_err {S A B} (m : GoM S A) (f : A -> GoM S B) s e s' :
  m s = (Err e, s') -> gbind m f s = (Err e, s').
Proof. unfold gbind. by intros ->. Qed.

Lemma gtry_ret {S A} (m : GoM S A) s a s' :
  m s = (Ret a, s') -> gtry m s = (Ret (inr a), s').
Proof. unfold gtry. by intros ->. Qed.

Lemma gignore_ret {S A} (d : A) (m : GoM S A) s a s' :
  m s = (Ret a, s') -> gignore d m s = (Ret a, s').
Proof. unfold gignore. by intros ->. Qed.

(** Inverting a bind that returned. *)
Lemma gbind_inv {S A B} (m : GoM S A) (f : A -> GoM S B) s b s2 :
  gbind m f s = (Ret b, s2) -> exists a s1, m s = (Ret a, s1) /\ f a s1 = (Ret b, s2).
Proof. unfold gbind. destruct (m s) as [[a|e|] s1]; naive_solver. Qed.
