(* ===== verification/KV.v ===== *)
(** * The key-value store and the JSON codec the storage layer is written against

    [github.com/syndtr/goleveldb] is a third-party package and [encoding/json] is
    used for values whose text does not matter, so both are interfaces: a class of
    operations ([LevelDB], [JSON]) that every storage function takes as an argument,
    and a class of laws ([LevelDBOk], [JSONOk]) that theorems assume.  The laws state
    the documented behaviour of a store that reports no I/O error: it is a finite map
    from byte strings to byte strings, iterated in key order, and a batch is applied
    as a whole.  [MapDB] at the end is an executable instance. *)

From S2P Require Import Prelude GoLang.

(** An operation of [leveldb.Batch]. *)
Inductive batch_op : Type :=
| BPut (k v : string)
| BDelete (k : string).

Class LevelDB := {
  db_t : Type;
  (** [db.Get(k, nil)]: [Ret None] is [leveldb.ErrNotFound]. *)
  db_get : string -> db_t -> outcome (option string);
  (** [db.Put], [db.Delete], [db.Write(batch)]. *)
  db_put : string -> string -> GoM db_t unit;
  db_delete : string -> GoM db_t unit;
  db_write : list batch_op -> GoM db_t unit;
  (** [db.NewIterator(util.BytesPrefix(p), nil)] read to the end: the entries seen
      and [it.Error()]. The iterator reads a snapshot. *)
  db_iter : string -> db_t -> list (string * string) * option goerr;
}.

Section Ops.
Context `{LevelDB}.

(** [db.Get] as a computation; the store is not changed. *)
Definition kv_get (k : string) : GoM db_t (option string) := fun d => (db_get k d, d).

(** Iteration: the entries and the iterator's error. *)
Definition kv_iter (p : string) : GoM db_t (list (string * string) * option goerr) :=
  fun d => (Ret (db_iter p d), d).
End Ops.

(** What a batch does to the map. *)
Definition batch_step (op : batch_op) (m : gmap string string) : gmap string string :=
  match op with
  | BPut k v => <[k := v]> m
  | BDelete k => delete k m
  end.
Definition batch_apply (ops : list batch_op) (m : gmap string string) : gmap string string :=
  fold_left (fun m op => batch_step op m) ops m.

(** [l] lists exactly the entries of [m] whose key starts with [p], in key order. *)
Definition key_lt (a b : string * string) : Prop :=
  String.le a.1 b.1 /\ a.1 <> b.1.

Definition iter_of (p : string) (m : gmap string string) (l : list (string * string)) : Prop :=
  StronglySorted key_lt l /\
  forall k v, In (k, v) l <-> m !! k = Some v /\ str_prefix p k = true.

Class LevelDBOk (L : LevelDB) := {
  db_view : db_t -> gmap string string;
  db_ins : string -> string -> db_t -> db_t;
  db_del : string -> db_t -> db_t;
  db_batch : list batch_op -> db_t -> db_t;
  db_entries : string -> db_t -> list (string * string);
  db_get_ok : forall k d, db_get k d = Ret (db_view d !! k);
  db_put_ok : forall k v d, db_put k v d = (Ret tt, db_ins k v d);
  db_delete_ok : forall k d, db_delete k d = (Ret tt, db_del k d);
  db_write_ok : forall b d, db_write b d = (Ret tt, db_batch b d);
  db_iter_ok : forall p d, db_iter p d = (db_entries p d, None);
  db_view_ins : forall k v d, db_view (db_ins k v d) = <[k := v]> (db_view d);
  db_view_del : forall k d, db_view (db_del k d) = delete k (db_view d);
  db_view_batch : forall b d, db_view (db_batch b d) = batch_apply b (db_view d);
  db_entries_ok : forall p d, iter_of p (db_view d) (db_entries p d);
}.

Section OpsOk.
Context {L : LevelDB} {HL : LevelDBOk L}.

Lemma kv_get_ok k d : kv_get k d = (Ret (db_view d !! k), d).
Proof. unfold kv_get. by rewrite db_get_ok. Qed.

Lemma kv_iter_ok p d : kv_iter p d = (Ret (db_entries p d, None), d).
Proof. unfold kv_iter. by rewrite db_iter_ok. Qed.
End OpsOk.

(** ** Iteration over Go maps

    [for k, v := range m] visits every entry once, in an order the language leaves open:
    [range] is that order. *)
Class MapOrder := range : forall A, gmap string A -> list (string * A).
Arguments range {_ A} m.

Class MapOrderOk (MO : MapOrder) : Prop :=
  range_perm : forall A (m : gmap string A), range m ≡ₚ map_to_list m.

#[export] Instance map_order_any : MapOrder := fun A m => map_to_list m.
#[export] Instance map_order_any_ok : MapOrderOk map_order_any.
Proof. intros A m. done. Qed.

(** ** JSON

    [json_marshal] and [json_unmarshal] at a Go type; [utf8_ok] says that every
    string inside the value is valid UTF-8, for which [encoding/json] documents that
    no byte is replaced, so decoding what was encoded gives the value back. *)
Class JSON (A : Type) := {
  json_marshal : A -> outcome string;
  json_unmarshal : string -> outcome A;
  (** What a failed [json.Unmarshal] leaves in the zero-initialised target. *)
  json_partial : string -> A;
}.

Class Utf8 (A : Type) := utf8_ok : A -> bool.

Class JSONOk (A : Type) `{JSON A} `{Utf8 A} : Prop := {
  json_round_trip : forall a : A, utf8_ok a = true ->
    exists b, json_marshal a = Ret b /\ json_unmarshal b = Ret a;
}.

(** [unicode/utf8.Valid]: no overlong form, no surrogate, at most U+10FFFF. *)
Definition utf8_cont (a : ascii) : bool := (128 <=? Z_of_byte a) && (Z_of_byte a <=? 191).
Definition in_range (lo hi : Z) (a : ascii) : bool := (lo <=? Z_of_byte a) && (Z_of_byte a <=? hi).

Fixpoint utf8_valid (s : string) : bool :=
  match s with
  | EmptyString => true
  | String a s1 =>
      let z := Z_of_byte a in
      if z <? 128 then utf8_valid s1
      else match s1 with
      | EmptyString => false
      | String b s2 =>
          if (194 <=? z) && (z <=? 223) then utf8_cont b && utf8_valid s2
          else match s2 with
          | EmptyString => false
          | String c s3 =>
              if (224 <=? z) && (z <=? 239) then
                in_range (if z =? 224 then 160 else 128) (if z =? 237 then 159 else 191) b
                && utf8_cont c && utf8_valid s3
              else match s3 with
              | EmptyString => false
              | String d s4 =>
                  if (240 <=? z) && (z <=? 244) then
                    in_range (if z =? 240 then 144 else 128) (if z =? 244 then 143 else 191) b
                    && utf8_cont c && utf8_cont d && utf8_valid s4
                  else false
              end
          end
      end
  end.

#[export] Instance utf8_string : Utf8 string := utf8_valid.
#[export] Instance utf8_Z : Utf8 Z := fun _ => true.
#[export] Instance utf8_bool : Utf8 bool := fun _ => true.
#[export] Instance utf8_list {A} `{Utf8 A} : Utf8 (list A) := fun l => forallb utf8_ok l.
#[export] Instance utf8_option {A} `{Utf8 A} : Utf8 (option A) :=
  fun o => match o with Some a => utf8_ok a | None => true end.
#[export] Instance utf8_prod {A B} `{Utf8 A} `{Utf8 B} : Utf8 (A * B) :=
  fun p => utf8_ok p.1 && utf8_ok p.2.

(** *** JSON integers

    A [uint64] is written in decimal ([v] stands for its value modulo 2^64); reading accepts surrounding white space, rejects
    leading zeros, signs, fractions and values that do not fit, and [null] leaves the
    zero-initialised target as it is. *)
Definition json_ws (c : ascii) : bool :=
  let z := Z_of_byte c in (z =? 32) || (z =? 9) || (z =? 10) || (z =? 13).

Fixpoint drop_ws (l : list ascii) : list ascii :=
  match l with
  | c :: l' => if json_ws c then drop_ws l' else l
  | [] => []
  end.

Definition json_trim (s : string) : list ascii := rev (drop_ws (rev (drop_ws (str_list s)))).

Definition json_u64_marshal (v : Z) : string := FormatUint (u64 v).

Definition json_u64_unmarshal (s : string) : outcome Z :=
  match json_trim s with
  | ["n"; "u"; "l"; "l"]%char => Ret 0
  | ["0"]%char => Ret 0
  | c :: l =>
      if negb (Ascii.eqb c "0") && forallb is_digit (c :: l)
      then let v := digits_val (rev (c :: l)) in
           if v <? M64 then Ret v else Err "json: number out of range"
      else Err "json: invalid character"
  | [] => Err "unexpected end of JSON input"
  end.

Lemma drop_ws_id l : (forall c, In c l -> json_ws c = false) -> drop_ws l = l.
Proof.
  destruct l as [|c l]; intros H; [done|]. simpl. by rewrite (H c (or_introl eq_refl)).
Qed.

Lemma json_trim_digits s :
  (forall c, In c (str_list s) -> is_digit c = true) -> json_trim s = str_list s.
Proof.
  intros H. unfold json_trim.
  assert (forall c, In c (str_list s) -> json_ws c = false) as Hw.
  { intros c Hc%H. unfold is_digit, json_ws in *. zbool. lia. }
  rewrite (drop_ws_id (str_list s)) by done.
  rewrite drop_ws_id by (intros c Hc%in_rev; auto). apply rev_involutive.
Qed.

(** The most significant digit is not zero. *)
Lemma digits_rev_last f v : 0 < v < 10 ^ Z.of_nat f ->
  exists l d, digits_rev f v = l ++ [digit d] /\ 0 < d < 10.
Proof.
  revert v. induction f as [|f IH]; intros v Hv.
  { change (10 ^ Z.of_nat 0) with 1 in Hv. lia. }
  rewrite Nat2Z.inj_succ, Z.pow_succ_r in Hv by lia.
  cbn [digits_rev]. rewrite (proj2 (Z.leb_gt v 0)) by lia.
  destruct (Z.lt_ge_cases v 10) as [Hs|Hs].
  - exists [], v. rewrite Z.div_small, Z.mod_small by lia. split; [|lia].
    by destruct f.
  - destruct (IH (v / 10)) as (l & d & He & Hd); [dlia|].
    exists (digit (v mod 10) :: l), d. split; [by rewrite He|done].
Qed.

Lemma json_u64_round_trip v : is_u64 v -> json_u64_unmarshal (json_u64_marshal v) = Ret v.
Proof.
  intros Hv. unfold json_u64_unmarshal, json_u64_marshal. rewrite u64_id by done.
  unfold is_u64 in Hv. rewrite json_trim_digits by apply FormatUint_digits.
  pose proof (FormatUint_digits v) as Hd. revert Hd. unfold FormatUint.
  destruct (Z.leb_spec v 0); [intros _; simpl; f_equal; lia|].
  rewrite String.list_ascii_of_string_of_list_ascii. intros Hd.
  destruct (digits_rev_last 20 v) as (l & d & He & Hr); [simpl; lia|].
  pose proof (digits_val_rev 20 v ltac:(simpl; lia)) as Hval.
  rewrite <- (rev_involutive (digits_rev 20 v)) in Hval.
  revert Hd Hval. rewrite He, rev_app_distr. cbn [rev app]. intros Hd Hval.
  assert (Z_of_byte (digit d) = 48 + d) as Hb.
  { unfold digit. rewrite Z_of_byte_of_Z, Z.mod_small; lia. }
  assert (forallb is_digit (digit d :: rev l) = true) as Hall
    by (apply forallb_forall; auto).
  assert (Ascii.eqb (digit d) "0" = false) as H0.
  { apply Ascii.eqb_neq. intros E. apply (f_equal Z_of_byte) in E. rewrite Hb in E.
    change (Z_of_byte "0") with 48 in E. lia. }
  assert (digit d <> "n"%char) as Hn.
  { intros E. apply (f_equal Z_of_byte) in E. rewrite Hb in E.
    change (Z_of_byte "n") with 110 in E. lia. }
  assert (digit d <> "0"%char) as Hz by (by apply Ascii.eqb_neq).
  rewrite H0, Hall, Hval, (proj2 (Z.ltb_lt v M64)) by lia. cbn [negb andb].
  destruct (digit d) as [[] [] [] [] [] [] [] []]; try done.
Qed.

(** ** An executable store: a finite map *)
Module MapDB.

Definition entry_le (a b : string * string) : Prop := String.le a.1 b.1.
#[export] Instance entry_le_dec a b : Decision (entry_le a b).
Proof. unfold entry_le. apply _. Defined.

Definition entries (p : string) (m : gmap string string) : list (string * string) :=
  merge_sort entry_le (base.filter (fun e => Is_true (str_prefix p e.1)) (map_to_list m)).

#[export] Instance map_db : LevelDB := {|
  db_t := gmap string string;
  db_get k d := Ret (d !! k);
  db_put k v := gmodify <[k := v]>;
  db_delete k := gmodify (delete k);
  db_write b := gmodify (batch_apply b);
  db_iter p d := (entries p d, None);
|}.

#[export] Instance entry_le_trans : Transitive entry_le.
Proof. intros a b c. unfold entry_le. apply (@transitivity _ String.le _). Qed.
#[export] Instance entry_le_total : Total entry_le.
Proof. intros a b. unfold entry_le. apply (@total _ String.le _). Qed.

Lemma NoDup_strict (l : list (string * string)) :
  NoDup l.*1 -> StronglySorted entry_le l -> StronglySorted key_lt l.
Proof.
  induction l as [|e l IH]; intros Hnd Hs; [constructor|].
  inversion Hs as [|? ? Hs' Hall]; subst.
  rewrite fmap_cons, NoDup_cons in Hnd. destruct Hnd as [Hni Hnd].
  constructor; [by apply IH|].
  rewrite Forall_forall in *. intros x Hx. split; [by apply Hall|].
  intros He. apply Hni. rewrite He. apply list_elem_of_fmap. eauto.
Qed.

Lemma entries_ok p m : iter_of p m (entries p m).
Proof.
  unfold entries. set (f := base.filter _ (map_to_list m)).
  assert (merge_sort entry_le f ≡ₚ f) as HP by apply merge_sort_Permutation.
  split.
  - apply NoDup_strict; [|apply StronglySorted_merge_sort; apply _].
    rewrite HP. unfold f. apply NoDup_fmap_fst; [|apply NoDup_filter, NoDup_map_to_list].
    intros k v1 v2. rewrite !list_elem_of_filter, !elem_of_map_to_list. naive_solver.
  - intros k v. rewrite <- list_elem_of_In, HP. unfold f.
    rewrite list_elem_of_filter, elem_of_map_to_list. simpl.
    destruct (str_prefix p k); naive_solver.
Qed.

#[export] Program Instance map_db_ok : LevelDBOk map_db := {|
  db_view d := d;
  db_ins k v d := <[k := v]> d;
  db_del k d := delete k d;
  db_batch b d := batch_apply b d;
  db_entries p d := entries p d;
|}.
Solve Obligations with try done.
Next Obligation. apply entries_ok. Qed.

End MapDB.

(** ** A reference codec

    For a type with an injective coding into positive numbers, writing the code in
    binary is an encoder and a decoder with the round-trip law; it instantiates [JSON]
    where a concrete codec is needed. *)
Module RefCodec.

Fixpoint bits_of (p : positive) : string :=
  match p with
  | xH => EmptyString
  | xO q => String "0" (bits_of q)
  | xI q => String "1" (bits_of q)
  end.

Fixpoint of_bits (s : string) : option positive :=
  match s with
  | EmptyString => Some xH
  | String c s' =>
      match of_bits s' with
      | Some q =>
          if Ascii.eqb c "0" then Some (xO q) else if Ascii.eqb c "1" then Some (xI q) else None
      | None => None
      end
  end.

Lemma of_bits_of p : of_bits (bits_of p) = Some p.
Proof. induction p; simpl; try rewrite IHp; done. Qed.

Definition countable_json {A} `{Countable A} (dflt : A) : JSON A := {|
  json_marshal a := Ret (bits_of (encode a));
  json_unmarshal s :=
    match of_bits s with
    | Some p => match decode p with Some a => Ret a | None => Err "invalid code" end
    | None => Err "invalid code"
    end;
  json_partial _ := dflt;
|}.

Lemma countable_json_ok {A} `{Countable A} `{Utf8 A} (dflt : A) :
  @JSONOk A (countable_json dflt) _.
Proof.
  split. intros a _. exists (bits_of (encode a)). split; [done|].
  simpl. by rewrite of_bits_of, decode_encode.
Qed.
End RefCodec.
