(* ===== verification/Chain.v ===== *)
(** * core/chain: transactions, blocks, hashes, the canonical codec and genesis

    The data types of [core/chain] with their deterministic byte encodings, the
    transaction Merkle root, hex forms of hashes and genesis validation.  SHA-256
    ([crypto/sha256]) and the function [hash256] that [Tx.ID] calls and the sources
    do not declare are operations of the class [Hashes]. *)

From S2P Require Import Prelude GoLang.

(** ** Hash functions *)

Class Hashes := {
  sha256 : string -> string;
  hash256 : string -> string;
}.

(** Both return 32 bytes. *)
Class HashesOk (H : Hashes) : Prop := {
  sha256_length : forall b, String.length (sha256 b) = 32%nat;
  hash256_length : forall b, String.length (hash256 b) = 32%nat;
}.

(** ** Data *)

(** [Hash [32]byte]. *)
Notation Hash := string (only parsing).

Record BlockHeader := {
  Version : Z; ChainID : string; Height : Z; TimeUnix : Z;
  PrevHash : Hash; StateRoot : Hash; HTxRoot : Hash; Bits : Z; Nonce : Z;
}.

Record TxOut := {
  Amount : Z; Asset : string; Address : string;
  OP : string; OR : string; OTag : string; EncMemo : string; PolicyBits : Z;
}.

(** The claim a transaction of type otap_claim carries; its fields are the ones the
    codec writes. *)
Record OTAPClaim := {
  CP : string; CR : string; CTag : string; CTo : string; CAmount : Z; ClaimSigHex : string;
}.

Record Tx := {
  From : string; PubKey : string; SigHex : string; TType : string;
  TClaim : option OTAPClaim;
  TVersion : Z; TNonce : Z; Fee : Z; GasAsset : string;
  Outputs : list TxOut; Memo : string;
}.

Record Block := { Header : BlockHeader; Txs : list Tx }.

#[export] Instance TxOut_eq_dec : EqDecision TxOut.
Proof. solve_decision. Defined.
#[export] Instance OTAPClaim_eq_dec : EqDecision OTAPClaim.
Proof. solve_decision. Defined.
#[export] Instance Tx_eq_dec : EqDecision Tx.
Proof. solve_decision. Defined.
#[export] Instance BlockHeader_eq_dec : EqDecision BlockHeader.
Proof. solve_decision. Defined.
#[export] Instance Block_eq_dec : EqDecision Block.
Proof. solve_decision. Defined.

(** ** Hex forms of hashes *)

(** [Hash.String]: the nibbles of each byte, high one first. *)
Fixpoint Hash_String (h : string) : string :=
  match h with
  | EmptyString => EmptyString
  | String b h' =>
      String (hex_char (Z.shiftr (Z_of_byte b) 4))
        (String (hex_char (Z.land (Z_of_byte b) 15)) (Hash_String h'))
  end.

(** [hex32], the same on a byte slice. *)
Definition hex32 (b : string) : string := Hash_String b.

(** [fromHex]: -1 on a character that is no hex digit. *)
Definition fromHex (c : ascii) : Z :=
  let z := Z_of_byte c in
  if (48 <=? z) && (z <=? 57) then z - 48
  else if (97 <=? z) && (z <=? 102) then z - 97 + 10
  else if (65 <=? z) && (z <=? 70) then z - 65 + 10
  else -1.

(** The loop of [HashFromHex] over pairs of characters. *)
Fixpoint HashFromHex_loop (s : string) : outcome string :=
  match s with
  | String c1 (String c2 s') =>
      let a := fromHex c1 in
      let b := fromHex c2 in
      if (a <? 0) || (b <? 0) then Err "bad_hex"
      else match HashFromHex_loop s' with
           | Ret r => Ret (String (byte_of_Z (Z.lor (Z.shiftl a 4) b)) r)
           | Err e => Err e
           | Panic => Panic
           end
  | _ => Ret EmptyString
  end.

Definition HashFromHex (s : string) : outcome string :=
  if negb (Nat.eqb (String.length s) 64) then Err "bad_len" else HashFromHex_loop s.

(** ** Canonical encodings *)

(** [BlockHeader.BytesForHash]. *)
Definition BytesForHash (h : BlockHeader) : string :=
  le_put 4 (Version h) +:+
  le_put 4 (u32 (Z.of_nat (String.length (ChainID h)))) +:+
  ChainID h +:+
  le_put 8 (Height h) +:+
  le_put 8 (u64 (TimeUnix h)) +:+
  PrevHash h +:+ StateRoot h +:+ HTxRoot h +:+
  le_put 4 (Bits h) +:+
  le_put 8 (Nonce h).

(** [bytes.Buffer] writers of codec.go; each returns the bytes it appends. *)
Definition putU32 (v : Z) : string := le_put 4 v.
Definition putU64 (v : Z) : string := le_put 8 v.
Definition putI64 (v : Z) : string := le_put 8 (u64 v).
Definition putBytes (x : string) : string :=
  putU32 (u32 (Z.of_nat (String.length x))) +:+ x.
Definition putString (s : string) : string := putBytes s.

Definition putOut (o : TxOut) : string :=
  putI64 (Amount o) +:+ putString (Asset o) +:+ putString (Address o) +:+
  putString (OP o) +:+ putString (OR o) +:+ putString (OTag o) +:+
  putString (EncMemo o) +:+ putU32 (PolicyBits o).

Fixpoint putOuts (l : list TxOut) : string :=
  match l with
  | [] => EmptyString
  | o :: l' => putOut o +:+ putOuts l'
  end.

Definition putClaim (c : option OTAPClaim) (includeSigs : bool) : string :=
  match c with
  | None => String (byte_of_Z 0) EmptyString
  | Some c =>
      String (byte_of_Z 1) EmptyString +:+
      putString (CP c) +:+ putString (CR c) +:+ putString (CTag c) +:+
      putString (CTo c) +:+ putI64 (CAmount c) +:+
      (if includeSigs then putString (ClaimSigHex c) else putString "")
  end.

(** [CanonicalTxBytes]. *)
Definition CanonicalTxBytes (tx : Tx) (includeSigs : bool) : string :=
  "RSVTX1" +:+
  putU32 (TVersion tx) +:+
  putString (TType tx) +:+ putString (From tx) +:+ putString (PubKey tx) +:+
  putU64 (TNonce tx) +:+ putI64 (Fee tx) +:+ putString (GasAsset tx) +:+
  putU32 (u32 (Z.of_nat (length (Outputs tx)))) +:+ putOuts (Outputs tx) +:+
  putClaim (TClaim tx) includeSigs +:+
  (if includeSigs then putString (SigHex tx) else putString "").

Definition SigningBytes (tx : Tx) : string := CanonicalTxBytes tx false.

(** [Block.SizeHint]. *)
Definition SizeHint (b : Block) : Z :=
  fold_left (fun sz tx => i64 (sz + Z.of_nat (length (Outputs tx)) * 64)) (Txs b)
    (i64 (256 + Z.of_nat (length (Txs b)) * 128)).

Section Hashing.
Context `{Hashes}.

Definition sha256d (b : string) : Hash := sha256 (sha256 b).

(** [BlockHeader.Hash]. *)
Definition HeaderHash (h : BlockHeader) : Hash := sha256d (BytesForHash h).

(** [Block.Hash], which the node calls, is the hash of the header. *)
Definition BlockHash (b : Block) : Hash := HeaderHash (Header b).

(** [Tx.ID]. *)
Definition TxID (tx : Tx) : string := Hash_String (hash256 (SigningBytes tx)).

(** [sha(a, b)]. *)
Definition sha (a b : string) : string := sha256 (a +:+ b).

(** One pass of the loop of [TxRoot]: an odd last entry is paired with itself. *)
Fixpoint next_level (level : list string) : list string :=
  match level with
  | [] => []
  | [a] => [sha a a]
  | a :: b :: r => sha a b :: next_level r
  end.

Fixpoint TxRoot_loop (fuel : nat) (level : list string) : list string :=
  match fuel with
  | O => level
  | S f => if Nat.leb (length level) 1 then level else TxRoot_loop f (next_level level)
  end.

Definition TxRoot (txs : list Tx) : Hash :=
  match txs with
  | [] => sha256d "txroot:empty"
  | _ => sha256 (hd EmptyString (TxRoot_loop (length txs) (List.map TxID txs)))
  end.
End Hashing.

(** ** Genesis *)

Record GenesisFinality := { gf_CheckpointInterval : Z; gf_ThresholdNum : Z; gf_ThresholdDen : Z }.
Record GenesisValidator := { gv_Name : string; gv_PubkeyHex : string; gv_Weight : Z }.
Record Allocation := { ga_Tag : string; ga_Address : string; ga_Balance : string }.

Record Genesis := {
  g_ChainID : string; g_Network : string; g_GenesisTimeUnix : Z; g_ProtocolVersion : Z;
  g_PoWLeadingZeroBits : Z;
  g_Finality : option GenesisFinality;
  g_Validators : list GenesisValidator;
  g_Allocations : list Allocation;
  g_Params : string; (* free-form parameters, kept as JSON text *)
}.

(** [itoa]; negating the least int gives it back, and then no digit is written. *)
Definition itoa (i : Z) : string :=
  if i =? 0 then "0"
  else let neg := i <? 0 in
       let v := if neg then i64 (- i) else i in
       let ds := list_str (rev (digits_rev 20 v)) in
       if neg then "-" +:+ ds else ds.

Fixpoint validate_allocs (i : Z) (l : list Allocation) : outcome unit :=
  match l with
  | [] => Ret tt
  | a :: l' =>
      if (ga_Address a =? "")%string
      then Err ("genesis.allocations[" +:+ itoa i +:+ "].address required")
      else if (ga_Balance a =? "")%string
      then Err ("genesis.allocations[" +:+ itoa i +:+ "].balance required")
      else validate_allocs (i + 1) l'
  end.

(** [Genesis.Validate]. *)
Definition Genesis_Validate (g : Genesis) : outcome unit :=
  if (g_ChainID g =? "")%string then Err "genesis.chain_id required"
  else if g_ProtocolVersion g =? 0 then Err "genesis.protocol_version required"
  else if g_GenesisTimeUnix g <=? 0 then Err "genesis.genesis_time_unix required"
  else if (g_PoWLeadingZeroBits g =? 0) || (255 <? g_PoWLeadingZeroBits g)
  then Err "genesis.consensus.pow_leading_zero_bits invalid"
  else match validate_allocs 0 (g_Allocations g) with
  | Ret _ =>
      match g_Finality g with
      | None => Ret tt
      | Some f =>
          if gf_CheckpointInterval f =? 0 then Err "genesis.finality.checkpoint_interval invalid"
          else if (gf_ThresholdNum f <=? 0) || (gf_ThresholdDen f <=? 0)
          then Err "genesis.finality.threshold invalid"
          else Ret tt
      end
  | o => o
  end.

(** [genesisStateRootPlaceholder]. *)
Definition genesisStateRootPlaceholder `{Hashes} (g : Genesis) : Hash :=
  sha256 ("reserveos:genesis:stateroot:v0" +:+ g_ChainID g +:+
    foldr (fun a acc => ga_Address a +:+ String (byte_of_Z 0) EmptyString +:+
                        ga_Balance a +:+ String (byte_of_Z 0) EmptyString +:+ acc)
      EmptyString (g_Allocations g) +:+
    le_put 8 (g_PoWLeadingZeroBits g)).

#[global] Arguments putU32 : simpl never.
#[global] Arguments putU64 : simpl never.
#[global] Arguments putI64 : simpl never.
#[global] Arguments putString : simpl never.
#[global] Arguments putOut : simpl never.
#[global] Arguments CanonicalTxBytes : simpl never.
#[global] Arguments BytesForHash : simpl never.

(** ** Prefix codes

    [pfx P enc]: on values satisfying [P], an encoding followed by anything
    determines the value and what follows. *)
Definition pfx {A} (P : A -> Prop) (enc : A -> string) : Prop :=
  forall a b r1 r2, P a -> P b -> enc a +:+ r1 = enc b +:+ r2 -> a = b /\ r1 = r2.

Definition len32 (s : string) : Prop := Z.of_nat (String.length s) < M32.

Lemma pfx_le n : pfx (fun z => 0 <= z < 256 ^ Z.of_nat n) (le_put n).
Proof.
  intros a b r1 r2 Ha Hb H.
  apply str_app_inj_length in H as [H ->]; [|by rewrite !le_put_length].
  by apply le_put_inj in H.
Qed.

Lemma pfx_putU32 : pfx is_u32 putU32.
Proof. exact (pfx_le 4). Qed.

Lemma pfx_putU64 : pfx is_u64 putU64.
Proof. exact (pfx_le 8). Qed.

Lemma u64_inj_i64 a b : is_i64 a -> is_i64 b -> u64 a = u64 b -> a = b.
Proof.
  intros Ha Hb H%(f_equal i64). rewrite !i64_u64 in H. by rewrite !i64_id in H.
Qed.

Lemma pfx_putI64 : pfx is_i64 putI64.
Proof.
  intros a b r1 r2 Ha Hb H. unfold putI64 in H.
  apply (pfx_le 8) in H as [H ->]; [|apply u64_range|apply u64_range].
  split; [|done]. by apply u64_inj_i64.
Qed.

Lemma pfx_putString : pfx len32 putString.
Proof.
  intros a b r1 r2 Ha Hb H. unfold putString, putBytes, len32 in *.
  rewrite !str_app_assoc in H.
  apply pfx_putU32 in H as [H1 H2]; [|apply u32_range|apply u32_range].
  rewrite !u32_id in H1 by (unfold is_u32; lia).
  apply str_app_inj_length in H2; [done|lia].
Qed.

(** Read one more field off both sides of an equation of encodings. *)
Ltac peel H :=
  rewrite ?str_app_assoc in H;
  lazymatch type of H with
  | putU32 _ +:+ _ = _ => apply pfx_putU32 in H as [? H]; [|done|done]
  | putU64 _ +:+ _ = _ => apply pfx_putU64 in H as [? H]; [|done|done]
  | putI64 _ +:+ _ = _ => apply pfx_putI64 in H as [? H]; [|done|done]
  | putString _ +:+ _ = _ => apply pfx_putString in H as [? H]; [|done|done]
  end.

Definition wf_out (o : TxOut) : Prop :=
  is_i64 (Amount o) /\ len32 (Asset o) /\ len32 (Address o) /\ len32 (OP o) /\
  len32 (OR o) /\ len32 (OTag o) /\ len32 (EncMemo o) /\ is_u32 (PolicyBits o).

Lemma pfx_putOut : pfx wf_out putOut.
Proof.
  intros a b r1 r2 Ha Hb H. unfold wf_out, putOut in *.
  destruct_and!. do 8 peel H. split; [|done]. destruct a, b; simpl in *; congruence.
Qed.

Lemma pfx_putOuts l1 l2 r1 r2 :
  length l1 = length l2 -> Forall wf_out l1 -> Forall wf_out l2 ->
  putOuts l1 +:+ r1 = putOuts l2 +:+ r2 -> l1 = l2 /\ r1 = r2.
Proof.
  revert l2. induction l1 as [|o l1 IH]; intros [|o2 l2]; simpl; try discriminate; auto.
  intros [= Hl] H1 H2 H. inversion H1; inversion H2; subst.
  rewrite !str_app_assoc in H. apply pfx_putOut in H as [-> H]; [|done|done].
  by apply IH in H as [-> ->].
Qed.

Definition wf_claim (c : OTAPClaim) : Prop :=
  len32 (CP c) /\ len32 (CR c) /\ len32 (CTag c) /\ len32 (CTo c) /\
  is_i64 (CAmount c) /\ len32 (ClaimSigHex c).

(** The claim with its signature dropped when signatures are not encoded. *)
Definition strip_claim (sigs : bool) (c : OTAPClaim) : OTAPClaim :=
  if sigs then c else
  {| CP := CP c; CR := CR c; CTag := CTag c; CTo := CTo c; CAmount := CAmount c;
     ClaimSigHex := "" |}.

Lemma pfx_putClaim sigs c1 c2 r1 r2 :
  (forall c, c1 = Some c -> wf_claim c) -> (forall c, c2 = Some c -> wf_claim c) ->
  putClaim c1 sigs +:+ r1 = putClaim c2 sigs +:+ r2 ->
  strip_claim sigs <$> c1 = strip_claim sigs <$> c2 /\ r1 = r2.
Proof.
  intros H1 H2 H. destruct c1 as [c1|], c2 as [c2|]; unfold putClaim in H;
    try discriminate H.
  - specialize (H1 _ eq_refl). specialize (H2 _ eq_refl). unfold wf_claim in *.
    rewrite !str_app_assoc in H. apply (inj (String.append _)) in H.
    destruct_and!. do 5 peel H.
    assert (len32 "") as He by done.
    destruct sigs; peel H; (split; [|done]); destruct c1, c2; simpl in *; congruence.
  - injection H as H. auto.
Qed.

(** Field widths of a transaction: what the Go types guarantee, and strings and
    output lists shorter than 2^32, which the length fields assume. *)
Definition wf_tx (tx : Tx) : Prop :=
  is_u32 (TVersion tx) /\ len32 (TType tx) /\ len32 (From tx) /\ len32 (PubKey tx) /\
  is_u64 (TNonce tx) /\ is_i64 (Fee tx) /\ len32 (GasAsset tx) /\
  Z.of_nat (length (Outputs tx)) < M32 /\ Forall wf_out (Outputs tx) /\
  (forall c, TClaim tx = Some c -> wf_claim c) /\ len32 (SigHex tx).

(** What the canonical bytes determine: everything but [Memo], and the two
    signatures only when they are included. *)
Definition strip_tx (sigs : bool) (tx : Tx) : Tx :=
  {| From := From tx; PubKey := PubKey tx; SigHex := if sigs then SigHex tx else "";
     TType := TType tx; TClaim := strip_claim sigs <$> TClaim tx;
     TVersion := TVersion tx; TNonce := TNonce tx; Fee := Fee tx; GasAsset := GasAsset tx;
     Outputs := Outputs tx; Memo := "" |}.

Lemma CanonicalTxBytes_strip sigs tx :
  CanonicalTxBytes (strip_tx sigs tx) sigs = CanonicalTxBytes tx sigs.
Proof.
  unfold CanonicalTxBytes, strip_tx; simpl.
  destruct sigs, (TClaim tx) as [c|]; reflexivity.
Qed.

Lemma CanonicalTxBytes_inj sigs t1 t2 :
  wf_tx t1 -> wf_tx t2 ->
  CanonicalTxBytes t1 sigs = CanonicalTxBytes t2 sigs -> strip_tx sigs t1 = strip_tx sigs t2.
Proof.
  intros H1 H2 H. unfold wf_tx, CanonicalTxBytes in *. destruct_and!.
  apply (inj (String.append "RSVTX1")) in H. do 7 peel H.
  apply pfx_putU32 in H as [Hlen H]; [|apply u32_range|apply u32_range].
  rewrite !u32_id in Hlen by (unfold is_u32; lia).
  apply pfx_putOuts in H as [Ho H]; [|lia|done|done].
  apply pfx_putClaim in H as [Hc H]; [|done|done].
  assert (len32 "") as He by done.
  unfold strip_tx. destruct sigs.
  - rewrite <- (str_app_nil_r (putString (SigHex t1))),
      <- (str_app_nil_r (putString (SigHex t2))) in H.
    apply pfx_putString in H as [? _]; [|done|done]. f_equal; congruence.
  - f_equal; congruence.
Qed.

(** C32. The canonical
    encoding of a transaction is unambiguous: two well-formed transactions have the
    same canonical bytes exactly when they agree on every field but [Memo], the two
    signatures counting only when they are included. *)
Theorem CanonicalTxBytes_binding sigs t1 t2 :
  wf_tx t1 -> wf_tx t2 ->
  (CanonicalTxBytes t1 sigs = CanonicalTxBytes t2 sigs <-> strip_tx sigs t1 = strip_tx sigs t2).
Proof.
  intros H1 H2. split; [by apply CanonicalTxBytes_inj|].
  intros H. by rewrite <- (CanonicalTxBytes_strip sigs t1), H, CanonicalTxBytes_strip.
Qed.

Definition wf_header (h : BlockHeader) : Prop :=
  is_u32 (Version h) /\ len32 (ChainID h) /\ is_u64 (Height h) /\ is_i64 (TimeUnix h) /\
  String.length (PrevHash h) = 32%nat /\ String.length (StateRoot h) = 32%nat /\
  String.length (HTxRoot h) = 32%nat /\ is_u32 (Bits h) /\ is_u64 (Nonce h).

(** The bytes a block header is hashed from determine every field. *)
Theorem BytesForHash_inj h1 h2 :
  wf_header h1 -> wf_header h2 -> BytesForHash h1 = BytesForHash h2 -> h1 = h2.
Proof.
  intros H1 H2 H. unfold wf_header, BytesForHash in *.
  destruct_and!.
  change (le_put 4) with putU32 in H. change (le_put 8) with putU64 in H.
  peel H.
  match type of H with putU32 ?a +:+ ?x +:+ ?r = putU32 ?b +:+ ?y +:+ ?r' =>
    assert (putString x +:+ r = putString y +:+ r') as H' end.
  { unfold putString, putBytes. by rewrite !str_app_assoc. }
  clear H; rename H' into H. peel H. peel H.
  apply pfx_putU64 in H as [Ht H]; [|apply u64_range|apply u64_range].
  apply u64_inj_i64 in Ht; [|done|done].
  apply str_app_inj_length in H as [? H]; [|congruence].
  apply str_app_inj_length in H as [? H]; [|congruence].
  apply str_app_inj_length in H as [? H]; [|congruence].
  peel H. rewrite <- (str_app_nil_r (putU64 (Nonce h1))), <- (str_app_nil_r (putU64 (Nonce h2))) in H.
  peel H. destruct h1, h2; simpl in *; congruence.
Qed.

(** ** Hex forms *)

(** [strings.ToLower] on ASCII letters. *)
Definition lower_char (c : ascii) : ascii :=
  let z := Z_of_byte c in if (65 <=? z) && (z <=? 90) then byte_of_Z (z + 32) else c.
Fixpoint str_lower (s : string) : string :=
  match s with EmptyString => EmptyString | String c s' => String (lower_char c) (str_lower s') end.

Lemma fromHex_val c : fromHex c = default (-1) (hex_val c).
Proof. unfold fromHex, hex_val. by repeat case_match. Qed.

Definition all_bytes : list ascii := List.map (fun n => ascii_of_nat n) (List.seq 0 256).

Lemma all_bytes_complete c : In c all_bytes.
Proof.
  unfold all_bytes. apply in_map_iff. exists (nat_of_ascii c).
  rewrite ascii_nat_embedding, in_seq. pose proof (nat_ascii_bounded c). split; [done|lia].
Qed.

(** A boolean property checked on all 256 bytes holds of every byte. *)
Lemma byte_forall (P : ascii -> bool) : forallb P all_bytes = true -> forall c, P c = true.
Proof. rewrite forallb_forall. eauto using all_bytes_complete. Qed.

Lemma fromHex_inv c :
  0 <= fromHex c -> 0 <= fromHex c < 16 /\ hex_char (fromHex c) = lower_char c.
Proof.
  pose (P c := (fromHex c <? 0) || ((fromHex c <? 16) && Ascii.eqb (hex_char (fromHex c)) (lower_char c))).
  intros H. pose proof (byte_forall P eq_refl c) as HP. unfold P in HP.
  apply orb_true_iff in HP as [HP|HP]; zbool; [lia|].
  split; [lia|]. by apply Ascii.eqb_eq.
Qed.

Lemma lor_nibbles a b : 0 <= a < 16 -> 0 <= b < 16 -> Z.lor (Z.shiftl a 4) b = a * 16 + b.
Proof. intros Ha Hb. by rewrite lor_shiftl by lia. Qed.

Lemma Hash_String_length h : String.length (Hash_String h) = (2 * String.length h)%nat.
Proof. induction h; simpl; lia. Qed.

Lemma HashFromHex_loop_String h : HashFromHex_loop (Hash_String h) = Ret h.
Proof.
  induction h as [|b h IH]; [done|].
  cbn [Hash_String HashFromHex_loop]. destruct (nibbles b) as (H1 & H2 & H3).
  rewrite !fromHex_val, !hex_val_char by done. cbn [default from_option id].
  rewrite !(proj2 (Z.ltb_ge _ _)) by lia. cbn [orb].
  by rewrite IH, lor_nibbles, H3, byte_of_Z_of_byte.
Qed.

Lemma Hash_String_inj a b : Hash_String a = Hash_String b -> a = b.
Proof.
  intros H. assert (Ret a = Ret b) as [= ->]; [|done].
  by rewrite <- (HashFromHex_loop_String a), <- (HashFromHex_loop_String b), H.
Qed.

Lemma HashFromHex_loop_inv n s h :
  String.length s = (2 * n)%nat -> HashFromHex_loop s = Ret h ->
  String.length h = n /\ Hash_String h = str_lower s.
Proof.
  revert s h. induction n as [|n IH]; intros s h Hl.
  - destruct s; [|discriminate Hl]. intros [= <-]. done.
  - destruct s as [|c1 [|c2 s]]; simpl in Hl; try lia.
    cbn [HashFromHex_loop]. case_goal; [done|]. apply orb_false_iff in Heqb as [Ha Hb].
    zbool. destruct (fromHex_inv c1 Ha) as [Ra La], (fromHex_inv c2 Hb) as [Rb Lb].
    destruct (HashFromHex_loop s) as [r| |] eqn:E; try done. intros [= <-].
    destruct (IH s r) as [Hr Hs]; [lia|done|].
    cbn [String.length Hash_String str_lower]. split; [lia|].
    rewrite lor_nibbles by done. rewrite Z_of_byte_of_Z, Z.mod_small by lia.
    rewrite Hs, <- La, <- Lb, Z.shiftr_div_pow2 by lia.
    change 15 with (Z.ones 4). rewrite Z.land_ones by lia. change (2 ^ 4) with 16.
    rewrite Z.div_add_l, Z.div_small by lia.
    rewrite (Z.add_comm (_ * _)), Z.mod_add, Z.mod_small by lia. by rewrite Z.add_0_r.
Qed.

(** [HashFromHex] inverts [Hash.String] on 32-byte hashes, accepts either
    letter case, and whatever it accepts prints back as the lower-case form. *)
Theorem HashFromHex_String :
  (forall h, String.length h = 32%nat -> HashFromHex (Hash_String h) = Ret h) /\
  (forall s h, HashFromHex s = Ret h ->
     String.length h = 32%nat /\ Hash_String h = str_lower s).
Proof.
  split.
  - intros h Hh. unfold HashFromHex. rewrite Hash_String_length, Hh. simpl.
    apply HashFromHex_loop_String.
  - intros s h. unfold HashFromHex. destruct (Nat.eqb_spec (String.length s) 64) as [E|]; [|done].
    apply (HashFromHex_loop_inv 32). by rewrite E.
Qed.

(** ** The Merkle root *)
Section Merkle.
Context {HS : Hashes} {HO : HashesOk HS}.

(** Two lists of hashed strings hold a collision: different strings, one of each list, with
    the same SHA-256 digest. *)
Definition collides (xs ys : list string) : Prop :=
  exists x y, x ∈ xs /\ y ∈ ys /\ x <> y /\ sha256 x = sha256 y.

(** The strings hashed in one pass over a level, in the order of the pass. *)
Fixpoint level_inputs (level : list string) : list string :=
  match level with
  | [] => []
  | [a] => [a +:+ a]
  | a :: b :: r => (a +:+ b) :: level_inputs r
  end.

(** The strings hashed from a level on up to the root, which hashes the last entry once more. *)
Fixpoint loop_inputs (fuel : nat) (level : list string) : list string :=
  match fuel with
  | O => level
  | S f => if Nat.leb (length level) 1 then level
           else level_inputs level ++ loop_inputs f (next_level level)
  end.

(** The strings [TxRoot] hashes for a block body (the ids themselves apart). *)
Definition TxRoot_inputs (txs : list Tx) : list string :=
  loop_inputs (length txs) (List.map TxID txs).

Lemma collides_mono xs ys xs' ys' : xs ⊆ xs' -> ys ⊆ ys' -> collides xs ys -> collides xs' ys'.
Proof. intros Hx Hy (x & y & ? & ? & ?). exists x, y. auto. Qed.

Lemma next_level_length l : length (next_level l) = ((length l + 1) / 2)%nat.
Proof.
  assert (forall n l, (length l <= n)%nat -> length (next_level l) = ((length l + 1) / 2)%nat) as H0;
    [|by apply (H0 (length l))].
  clear l. induction n as [|n IH]; intros [|a [|b l]] Hn; simpl in Hn; try lia; try done.
  cbn [next_level length]. rewrite IH by lia.
  replace (S (S (length l)) + 1)%nat with (length l + 1 + 1 * 2)%nat by lia.
  rewrite Nat.div_add by lia. lia.
Qed.

Lemma next_level_32 l : Forall (fun s => String.length s = 32%nat) (next_level l).
Proof.
  assert (forall n l, (length l <= n)%nat -> Forall (fun s => String.length s = 32%nat) (next_level l))
    as H0; [|by apply (H0 (length l))].
  clear l. induction n as [|n IH]; intros [|a [|b l]] Hn; simpl in Hn; try lia;
    cbn [next_level]; repeat constructor; try apply sha256_length. apply IH. lia.
Qed.

Lemma level_ind (P : list string -> Prop) :
  P [] -> (forall a, P [a]) -> (forall a b l, P l -> P (a :: b :: l)) -> forall l, P l.
Proof.
  intros H0 H1 H2 l. enough (P l /\ forall a, P (a :: l)) as [H _] by exact H.
  induction l as [|a l [IH IHa]]; [auto|]. split; [apply IHa|auto].
Qed.

Lemma next_level_inputs l : next_level l = sha256 <$> level_inputs l.
Proof. induction l as [| |a b l IH] using level_ind; [done..|]. cbn. by rewrite IH. Qed.

Lemma sha256_map_inj xs ys :
  sha256 <$> xs = sha256 <$> ys -> xs = ys \/ collides xs ys.
Proof.
  revert ys. induction xs as [|x xs IH]; intros [|y ys] He; try discriminate He; [auto|].
  injection He as Hxy He. destruct (decide (x = y)) as [->|N].
  - apply IH in He as [->|H]; [auto|right].
    eapply collides_mono; [..|exact H]; set_solver.
  - right. exists x, y. set_solver.
Qed.

(** Strings of one length are recovered from the concatenated pairs. *)
Lemma level_inputs_inj k l1 l2 :
  length l1 = length l2 ->
  Forall (fun s => String.length s = k) l1 -> Forall (fun s => String.length s = k) l2 ->
  level_inputs l1 = level_inputs l2 -> l1 = l2.
Proof.
  revert l2. induction l1 as [|a|a b l1 IH] using level_ind;
    intros [|c [|d l2]] Hl H1 H2 He; try discriminate Hl; [done|..];
    injection He as He; decompose_Forall_hyps.
  - apply str_app_inj_length in He as [-> _]; [done|congruence].
  - apply str_app_inj_length in He as [-> ->]; [|congruence]. f_equal. f_equal. auto.
Qed.

(** The loop ends with one entry: each pass halves the level, rounding up. *)
Lemma TxRoot_loop_single fuel l :
  (1 <= length l <= fuel)%nat -> length (TxRoot_loop fuel l) = 1%nat.
Proof.
  revert l. induction fuel as [|f IH]; intros l Hl; [lia|].
  cbn [TxRoot_loop]. destruct (Nat.leb_spec (length l) 1); [lia|].
  apply IH. rewrite next_level_length.
  split; [apply Nat.div_le_lower_bound; lia|].
  apply Nat.lt_succ_r, Nat.Div0.div_lt_upper_bound; lia.
Qed.

Lemma next_level_bounds f l : (2 <= length l <= S f)%nat -> (1 <= length (next_level l) <= f)%nat.
Proof.
  intros Hl. rewrite next_level_length. split; [apply Nat.div_le_lower_bound; lia|].
  apply Nat.lt_succ_r, Nat.Div0.div_lt_upper_bound; lia.
Qed.

Lemma TxRoot_loop_inj k f l1 l2 :
  (1 <= length l1 <= f)%nat -> length l1 = length l2 ->
  Forall (fun s => String.length s = k) l1 -> Forall (fun s => String.length s = k) l2 ->
  TxRoot_loop f l1 = TxRoot_loop f l2 -> l1 = l2 \/ collides (loop_inputs f l1) (loop_inputs f l2).
Proof.
  revert k l1 l2. induction f as [|f IH]; intros k l1 l2 Hl1 Hl H1 H2; [lia|].
  cbn [TxRoot_loop loop_inputs]. rewrite <- Hl.
  destruct (Nat.leb_spec (length l1) 1); [auto|]. intros He.
  apply (IH 32%nat) in He as [He|He]; [| |apply next_level_bounds; lia
    |by rewrite !next_level_length, Hl|apply next_level_32|apply next_level_32].
  - rewrite !next_level_inputs in He. apply sha256_map_inj in He as [He|He].
    + left. by eapply level_inputs_inj.
    + right. eapply collides_mono; [..|exact He]; set_solver.
  - right. eapply collides_mono; [..|exact He]; set_solver.
Qed.

(** The entry the loop ends with is among the hashed strings. *)
Lemma TxRoot_loop_input f l x : TxRoot_loop f l = [x] -> x ∈ loop_inputs f l.
Proof.
  revert l. induction f as [|f IH]; intros l; cbn [TxRoot_loop loop_inputs].
  - intros ->. set_solver.
  - destruct (length l <=? 1)%nat; [intros ->; set_solver|]. intros H%IH. set_solver.
Qed.

Lemma TxID_length tx : String.length (TxID tx) = 64%nat.
Proof. unfold TxID. by rewrite Hash_String_length, hash256_length. Qed.

Lemma TxIDs_64 txs : Forall (fun s => String.length s = 64%nat) (List.map TxID txs).
Proof. rewrite Forall_forall. intros x Hx. apply list_elem_of_In, in_map_iff in Hx as (t & <- & _). apply TxID_length. Qed.

(** C34. The transaction root binds the ordered list of transaction ids among
    blocks with the same number of transactions: equal roots mean equal ids, or
    two different strings with one SHA-256 digest are among the strings hashed
    for the two trees, one of each ([TxRoot_inputs]: the concatenated pairs of
    every level and the last entry). *)
Theorem TxRoot_binding txs1 txs2 :
  length txs1 = length txs2 -> TxRoot txs1 = TxRoot txs2 ->
  List.map TxID txs1 = List.map TxID txs2 \/
  collides (TxRoot_inputs txs1) (TxRoot_inputs txs2).
Proof.
  intros Hl He. destruct (decide (txs1 = [])) as [->|N1]; [by destruct txs2; auto|].
  assert (1 <= length txs1)%nat by (destruct txs1; simpl; [done|lia]).
  assert (forall txs, length txs = length txs1 -> exists x,
    TxRoot_loop (length txs1) (List.map TxID txs) = [x] /\ TxRoot txs = sha256 x) as Hroot.
  { intros txs E. destruct (TxRoot_loop (length txs1) (List.map TxID txs)) as [|x [|]] eqn:El;
      pose proof (TxRoot_loop_single (length txs1) (List.map TxID txs)) as Hs;
      rewrite length_map, E, El in Hs; specialize (Hs ltac:(lia)); try discriminate Hs.
    exists x. split; [done|]. unfold TxRoot. rewrite E, El. by destruct txs; [simpl in E; lia|]. }
  destruct (Hroot txs1 eq_refl) as (x & E1 & R1), (Hroot txs2 (eq_sym Hl)) as (y & E2 & R2).
  unfold TxRoot_inputs. rewrite <- Hl. destruct (decide (x = y)) as [->|N].
  - eapply (TxRoot_loop_inj 64); rewrite ?length_map; auto using TxIDs_64. by rewrite E1, E2.
  - right. exists x, y. split_and!; eauto using TxRoot_loop_input. by rewrite <- R1, <- R2.
Qed.
End Merkle.

Section MerkleShape.
Context {HS : Hashes}.

Lemma TxRoot_loop_fuel f l : (length l <= f)%nat -> TxRoot_loop (S f) l = TxRoot_loop f l.
Proof.
  revert l. induction f as [|f IH]; intros l Hl.
  - destruct l; [done|simpl in Hl; lia].
  - change (TxRoot_loop (S (S f)) l) with
      (if Nat.leb (length l) 1 then l else TxRoot_loop (S f) (next_level l)).
    cbn [TxRoot_loop]. destruct (Nat.leb_spec (length l) 1); [done|].
    apply IH. rewrite next_level_length. apply Nat.lt_succ_r, Nat.Div0.div_lt_upper_bound; lia.
Qed.

Lemma next_level_dup pre x :
  Nat.even (length pre) = true -> next_level ((pre ++ [x]) ++ [x]) = next_level (pre ++ [x]).
Proof.
  assert (forall n pre, (length pre <= n)%nat -> Nat.even (length pre) = true ->
    next_level ((pre ++ [x]) ++ [x]) = next_level (pre ++ [x])) as H0; [|by apply (H0 (length pre))].
  clear pre. induction n as [|n IH]; intros [|a [|b pre]] Hn He; simpl in Hn; try lia; try done.
  cbn [app next_level]. f_equal. apply IH; [lia|done].
Qed.

(** A block whose number of transactions is odd and at least three has the same
    transaction root as the block with its last transaction repeated: the root does
    not determine the transaction list when the number of transactions may differ. *)
Theorem TxRoot_duplicate_last pre x :
  Nat.even (length pre) = true -> pre <> [] ->
  TxRoot ((pre ++ [x]) ++ [x]) = TxRoot (pre ++ [x]).
Proof.
  intros He Hne. unfold TxRoot.
  destruct ((pre ++ [x]) ++ [x]) as [|t1 l1] eqn:E1; [by destruct pre|].
  destruct (pre ++ [x]) as [|t2 l2] eqn:E2; [by destruct pre|].
  rewrite <- E1, <- E2. do 2 f_equal. rewrite !map_app. cbn [List.map].
  rewrite !length_app. cbn [length].
  destruct pre as [|p1 [|p2 pre']]; [done|discriminate He|].
  set (P := p1 :: p2 :: pre') in *.
  assert (2 <= length P)%nat as Hp by (unfold P; simpl; lia).
  replace (length P + 1 + 1)%nat with (S (length P + 1)) by lia.
  replace (length P + 1)%nat with (S (length P)) by lia.
  cbn [TxRoot_loop]. rewrite !length_app, !length_map. cbn [length].
  destruct (Nat.leb_spec (length P + 1 + 1) 1); [lia|].
  destruct (Nat.leb_spec (length P + 1) 1); [lia|].
  rewrite next_level_dup by (by rewrite length_map).
  change (if Nat.leb (length ?l) 1 then ?l else TxRoot_loop ?f (next_level ?l))
    with (TxRoot_loop (S f) l).
  apply TxRoot_loop_fuel. rewrite next_level_length, length_app, length_map. cbn [length].
  apply Nat.lt_succ_r, Nat.Div0.div_lt_upper_bound; lia.
Qed.
End MerkleShape.

(** ** Genesis *)

Definition wf_genesis (g : Genesis) : Prop :=
  g_ChainID g <> "" /\ g_ProtocolVersion g <> 0 /\ 0 < g_GenesisTimeUnix g /\
  1 <= g_PoWLeadingZeroBits g <= 255 /\
  Forall (fun a => ga_Address a <> "" /\ ga_Balance a <> "") (g_Allocations g) /\
  match g_Finality g with
  | None => True
  | Some f => gf_CheckpointInterval f <> 0 /\ 0 < gf_ThresholdNum f /\ 0 < gf_ThresholdDen f
  end.

Lemma validate_allocs_ok i l :
  validate_allocs i l = Ret tt <->
  Forall (fun a => ga_Address a <> "" /\ ga_Balance a <> "") l.
Proof.
  revert i. induction l as [|a l IH]; intros i; cbn [validate_allocs]; [by split|].
  rewrite Forall_cons. destruct (String.eqb_spec (ga_Address a) "") as [E|E]; [naive_solver|].
  destruct (String.eqb_spec (ga_Balance a) "") as [E2|E2]; [naive_solver|].
  rewrite IH. naive_solver.
Qed.

Lemma validate_allocs_no_panic i l : validate_allocs i l <> Panic.
Proof.
  revert i. induction l as [|a l IH]; intros i; cbn [validate_allocs]; [done|].
  repeat case_goal; auto.
Qed.

(** [Genesis.Validate] accepts exactly the genesis files with a chain id, a
    protocol version, a positive time, 1 to 255 leading zero bits, complete
    allocations and, when finality is configured, an interval and a positive
    threshold; otherwise it returns an error, and it never panics. *)
Theorem Genesis_Validate_spec g :
  is_u32 (g_ProtocolVersion g) -> is_u32 (g_PoWLeadingZeroBits g) ->
  (Genesis_Validate g = Ret tt <-> wf_genesis g) /\ Genesis_Validate g <> Panic.
Proof.
  intros Hv Hp. unfold is_u32, Genesis_Validate, wf_genesis in *.
  pose proof (validate_allocs_no_panic 0 (g_Allocations g)) as Hnp.
  rewrite <- (validate_allocs_ok 0).
  destruct (String.eqb_spec (g_ChainID g) ""); [naive_solver|].
  destruct (Z.eqb_spec (g_ProtocolVersion g) 0); [naive_solver|].
  destruct (Z.leb_spec (g_GenesisTimeUnix g) 0); [split; [split; [done|lia]|done]|].
  destruct (Z.eqb_spec (g_PoWLeadingZeroBits g) 0); [split; [split; [done|lia]|done]|].
  destruct (Z.ltb_spec 255 (g_PoWLeadingZeroBits g)); [split; [split; [done|lia]|done]|].
  cbn [orb]. destruct (validate_allocs 0 (g_Allocations g)) as [[]|e|];
    [|split; [split; [done|naive_solver]|done]|done].
  destruct (g_Finality g) as [f|]; [|repeat split; auto; lia].
  destruct (Z.eqb_spec (gf_CheckpointInterval f) 0); [split; [split; [done|naive_solver]|done]|].
  destruct (Z.leb_spec (gf_ThresholdNum f) 0); [split; [split; [done|lia]|done]|].
  destruct (Z.leb_spec (gf_ThresholdDen f) 0); [split; [split; [done|lia]|done]|].
  repeat split; auto; lia.
Qed.
