(* ===== verification/WebFS.v ===== *)
(** * internal/reservewebfs: the flat directory the gateway serves pages from

    [EnsureFlatWebFS] with the file system as a class of operations ([WebFiles]) and the laws
    [os] documents ([WebFilesOk]): a directory listing may come with an error, writing and
    removing may fail and then concern no other file.  [strings.ReplaceAll] and [filepath.Ext]
    are written out; the iteration over the map of assets is Go's ([MapOrder]). *)

From S2P Require Import Prelude GoLang KV Chain.

Record Bundle := { wb_Name : string; wb_SourceDir : string; wb_Entry : string }.
Record WConfig := { wc_RuntimeWebDir : string; wc_Bundles : list Bundle }.

(** ** Strings *)

(** [strings.ReplaceAll(s, old, new)] for a non-empty [old]; [skip] characters of the occurrence
    being replaced are still to be passed over. *)
Fixpoint replace_from (skip : nat) (old new s : string) : string :=
  match s with
  | EmptyString => EmptyString
  | String c s' =>
      match skip with
      | S k => replace_from k old new s'
      | O => if str_prefix old s then new +:+ replace_from (String.length old - 1) old new s'
             else String c (replace_from 0 old new s')
      end
  end.
Definition ReplaceAll (s old new : string) : string := replace_from 0 old new s.

(** [filepath.Ext]: from the last dot of the last element on. *)
Fixpoint ext_loop (acc l : list ascii) : list ascii :=
  match l with
  | [] => []
  | c :: l' => if Ascii.eqb c "/" then [] else if Ascii.eqb c "." then c :: acc else ext_loop (c :: acc) l'
  end.
Definition Ext (p : string) : string := list_str (ext_loop [] (rev (str_list p))).

(** ** Files *)

Class WebFiles := {
  wfs : Type;
  filepath_Join : string -> string -> string;
  web_MkdirAll : string -> GoM wfs unit;
  (** [os.ReadDir]: the entries read, which are directories or not, and the error. *)
  web_ReadDir : string -> wfs -> list (string * bool) * option goerr;
  web_ReadFile : string -> wfs -> outcome string;
  web_WriteFile : string -> string -> GoM wfs unit;
  web_Remove : string -> GoM wfs unit;
}.

(** The name of an entry: not empty, without a slash, and neither [.] nor [..]. *)
Definition plain_name (n : string) : Prop :=
  n <> "" /\ n <> "." /\ n <> ".." /\ ~ In "/"%char (str_list n).

Lemma plain_dec n : plain_name n \/ ~ plain_name n.
Proof.
  unfold plain_name. destruct (decide (n = "")), (decide (n = ".")), (decide (n = "..")),
    (in_dec ascii_dec "/"%char (str_list n)); tauto.
Qed.

Class WebFilesOk (W : WebFiles) := {
  (** The regular files, by path. *)
  web_view : wfs -> gmap string string;
  join_inj : forall d n1 n2, plain_name n1 -> plain_name n2 -> filepath_Join d n1 = filepath_Join d n2 -> n1 = n2;
  mkdir_view : forall d f, web_view (web_MkdirAll d f).2 = web_view f;
  readdir_sound : forall d f n, In (n, false) (web_ReadDir d f).1 ->
    plain_name n /\ is_Some (web_view f !! filepath_Join d n);
  readdir_complete : forall d f n, (web_ReadDir d f).2 = None -> plain_name n ->
    is_Some (web_view f !! filepath_Join d n) -> In (n, false) (web_ReadDir d f).1;
  readfile_view : forall p f c, web_ReadFile p f = Ret c -> web_view f !! p = Some c;
  write_ok : forall p c f, (web_WriteFile p c f).1 = Ret tt -> web_view (web_WriteFile p c f).2 = <[p := c]> (web_view f);
  write_other : forall p c f q, q <> p -> web_view (web_WriteFile p c f).2 !! q = web_view f !! q;
  remove_other : forall p f q, q <> p -> web_view (web_Remove p f).2 !! q = web_view f !! q;
}.

Section WebFS.
Context {W : WebFiles} {HS : Hashes} {MO : MapOrder}.

Definition read_file (p : string) : GoM wfs string := fun f => (web_ReadFile p f, f).
Definition read_dir (d : string) : GoM wfs (list (string * bool) * option goerr) := fun f => (Ret (web_ReadDir d f), f).

(** [hex.EncodeToString(h[:])[:12]]. *)
Definition hash12 (b : string) : string := str_take 12 (hex_EncodeToString (sha256 b)).

(** The name a file with content [b] is copied under. *)
Definition hashed_name (name b : string) : string :=
  let ext := Ext name in
  let base := str_trim_suffix ext name in
  base +:+ "." +:+ hash12 b +:+ ext.

(** The body of the loop of [copyHashedAssets]. *)
Definition copy_asset (runtimeDir sourceDir : string) (out : gmap string string) (e : string * bool)
    : GoM wfs (gmap string string) :=
  if e.2 : bool then gret out
  else
    let name := e.1 in
    if str_suffix ".html" name then gret out
    else
      let! b := read_file (filepath_Join sourceDir name) in
      let dstName := hashed_name name b in
      web_WriteFile (filepath_Join runtimeDir dstName) b ;;;
      gret (<[name := dstName]> out).

Definition copyHashedAssets (runtimeDir sourceDir : string) : GoM wfs (gmap string string) :=
  let! (ents, err) := read_dir sourceDir in
  match err with
  | Some e => gerr e
  | None => gfold ents (copy_asset runtimeDir sourceDir) ∅
  end.

(** What an asset is written as in a page. *)
Definition placeholder (orig : string) : string := "{{asset:" +:+ orig +:+ "}}".

(** The loop over the map. *)
Definition expand (html : string) (assets : list (string * string)) : string :=
  fold_left (fun html e => ReplaceAll html (placeholder e.1) e.2) assets html.

Definition manifestHash (cfg : WConfig) : string :=
  hex_EncodeToString (sha256 (fold_left (fun s b =>
    s +:+ "|" +:+ wb_Name b +:+ "|" +:+ wb_SourceDir b +:+ "|" +:+ wb_Entry b) (wc_Bundles cfg) (wc_RuntimeWebDir cfg))).

Definition index_name (b : Bundle) : string := wb_Name b +:+ ".index.html".

(** One bundle. *)
Definition build_bundle (runtimeDir : string) (b : Bundle) : GoM wfs unit :=
  let! assetMap := copyHashedAssets runtimeDir (wb_SourceDir b) in
  let! raw := read_file (filepath_Join (wb_SourceDir b) (wb_Entry b)) in
  web_WriteFile (filepath_Join runtimeDir (index_name b)) (expand raw (range assetMap)).

Definition clear_dir (dir : string) : GoM wfs unit :=
  let! (ents, _) := read_dir dir in
  gfor ents (fun e => if e.2 : bool then gret tt else gignore tt (web_Remove (filepath_Join dir e.1))).

Definition EnsureFlatWebFS (cfg : WConfig) : GoM wfs unit :=
  let dir := if (wc_RuntimeWebDir cfg =? "")%string then filepath_Join "runtime" "web" else wc_RuntimeWebDir cfg in
  web_MkdirAll dir ;;;
  clear_dir dir ;;;
  gfor (wc_Bundles cfg) (build_bundle dir) ;;;
  gignore tt (web_WriteFile (filepath_Join dir "web.manifest")
    (manifestHash {| wc_RuntimeWebDir := dir; wc_Bundles := wc_Bundles cfg |})).
End WebFS.

(** ** Names *)

(** A character is not in a given text. *)
Ltac not_in := let H := fresh in intros H; vm_compute in H; intuition discriminate.

Lemma ext_loop_spec l : forall acc, ~ In "/"%char l ->
  (ext_loop acc l = [] /\ ~ In "."%char l) \/
  exists e b, l = e ++ "."%char :: b /\ ~ In "."%char e /\ ext_loop acc l = "."%char :: rev e ++ acc.
Proof.
  induction l as [|c l IH]; intros acc Hs; [left; split; [done|intros []]|]. cbn [ext_loop].
  destruct (Ascii.eqb_spec c "/") as [->|_]; [destruct Hs; by left|].
  destruct (Ascii.eqb_spec c ".") as [->|Hc].
  - right. exists [], l. split_and!; [done|intros []|done].
  - destruct (IH (c :: acc)) as [[-> Hn]|(e & b & -> & He & ->)].
    + intros H. apply Hs. by right.
    + left. split; [done|]. intros [H|H]; [by apply Hc|done].
    + right. exists (c :: e), b. split_and!; [done|intros [H|H]; [by apply Hc|done]|].
      cbn [rev]. by rewrite <- app_assoc.
Qed.

Lemma Ext_spec n : ~ In "/"%char (str_list n) ->
  (Ext n = "" /\ ~ In "."%char (str_list n)) \/
  exists b e, n = b +:+ "." +:+ e /\ ~ In "."%char (str_list e) /\ Ext n = "." +:+ e.
Proof.
  intros Hs. unfold Ext.
  destruct (ext_loop_spec (rev (str_list n)) []) as [[-> Hn]|(e & b & Hl & He & ->)].
  - by rewrite <- in_rev.
  - left. split; [done|]. by rewrite in_rev.
  - right. exists (list_str (rev b)), (list_str (rev e)). rewrite app_nil_r.
    assert (str_list n = rev b ++ "."%char :: rev e) as Hn.
    { rewrite <- (rev_involutive (str_list n)), Hl, rev_app_distr. cbn [rev]. by rewrite <- app_assoc. }
    split_and!; [|rewrite String.list_ascii_of_string_of_list_ascii; by rewrite <- in_rev|done].
    apply str_list_inj. rewrite Hn, !str_list_app, !String.list_ascii_of_string_of_list_ascii. done.
Qed.

Section Names.
Context {HS : Hashes} {HSO : HashesOk HS}.

Lemma hex_no_char c s : hex_val c = None -> ~ In c (str_list (hex_EncodeToString s)).
Proof.
  intros Hc. induction s as [|a s IH]; [intros []|]. destruct (nibbles a) as (H1 & H2 & _).
  cbn [hex_EncodeToString str_list]. intros [E|[E|E]]; [| |done];
    rewrite <- E, hex_val_char in Hc by done; discriminate Hc.
Qed.

Lemma in_str_take c n s : In c (str_list (str_take n s)) -> In c (str_list s).
Proof.
  intros H. rewrite <- (str_take_drop n s), str_list_app. apply in_app_iff. by left.
Qed.

Lemma hash12_length b : String.length (hash12 b) = 12%nat.
Proof.
  unfold hash12. rewrite str_length_take, hex_EncodeToString_length, sha256_length. done.
Qed.
Lemma hash12_no_dot b : ~ In "."%char (str_list (hash12 b)).
Proof. intros H%in_str_take. by apply hex_no_char in H. Qed.
Lemma hash12_no_slash b : ~ In "/"%char (str_list (hash12 b)).
Proof. intros H%in_str_take. by apply hex_no_char in H. Qed.

(** A copied name is the name with the digits before its extension. *)
Lemma hashed_shape n c : ~ In "/"%char (str_list n) ->
  (~ In "."%char (str_list n) /\ hashed_name n c = n +:+ "." +:+ hash12 c) \/
  exists b e, n = b +:+ "." +:+ e /\ ~ In "."%char (str_list e) /\
    hashed_name n c = (b +:+ "." +:+ hash12 c) +:+ "." +:+ e.
Proof.
  intros Hs. unfold hashed_name. destruct (Ext_spec n Hs) as [[-> Hn]|(b & e & Hn & He & ->)].
  - left. split; [done|]. rewrite <- (str_app_nil_r n) at 1. by rewrite str_trim_suffix_app, str_app_nil_r.
  - right. exists b, e. split_and!; [done..|]. rewrite Hn at 1. rewrite str_trim_suffix_app.
    by rewrite !str_app_assoc.
Qed.

(** The digits can be read off a copied name. *)
Lemma hashed_hash n1 n2 c1 c2 : ~ In "/"%char (str_list n1) -> ~ In "/"%char (str_list n2) ->
  hashed_name n1 c1 = hashed_name n2 c2 -> hash12 c1 = hash12 c2.
Proof.
  intros S1 S2. destruct (hashed_shape n1 c1 S1) as [[D1 ->]|(b1 & e1 & _ & E1 & ->)],
    (hashed_shape n2 c2 S2) as [[D2 ->]|(b2 & e2 & _ & E2 & ->)]; intros H.
  - apply (str_sep_inj "." n1 n2) in H as [_ H]; done.
  - apply (str_sep_inj_r "." n1) in H as [H _]; [|apply hash12_no_dot|done].
    destruct D1. rewrite H, str_list_app. apply in_app_iff. right. by left.
  - apply (str_sep_inj_r "." (b1 +:+ "." +:+ hash12 c1) n2) in H as [H _]; [|done|apply hash12_no_dot].
    destruct D2. rewrite <- H, str_list_app. apply in_app_iff. right. by left.
  - apply (str_sep_inj_r "." (b1 +:+ "." +:+ hash12 c1)) in H as [H _]; [|done..].
    apply (str_sep_inj_r "." b1) in H as [_ H]; [done|apply hash12_no_dot..].
Qed.

(** No copied name is that of a page or of the manifest. *)
Lemma hashed_not n c b e : ~ In "/"%char (str_list n) -> str_suffix ("." +:+ e) n = false ->
  ~ In "."%char (str_list e) -> String.length e <> 12%nat -> hashed_name n c <> b +:+ "." +:+ e.
Proof.
  intros Hs Hsuf He Hl H. destruct (hashed_shape n c Hs) as [[D E]|(b' & e' & Hn & E' & E)]; rewrite E in H.
  - apply (str_sep_inj_r "." n) in H as [_ H]; [|apply hash12_no_dot|done].
    apply Hl. by rewrite <- H, hash12_length.
  - apply (str_sep_inj_r "." (b' +:+ "." +:+ hash12 c)) in H as [_ ->]; [|done..].
    by rewrite Hn, str_suffix_app in Hsuf.
Qed.
Lemma hashed_not_manifest n c : ~ In "/"%char (str_list n) -> hashed_name n c <> "web.manifest".
Proof.
  intros Hs H. destruct (hashed_shape n c Hs) as [[D E]|(b & e & _ & E' & E)]; rewrite E in H.
  - apply (str_sep_inj_r "." n "web" (hash12 c) "manifest") in H as [_ H]; [|apply hash12_no_dot|not_in].
    pose proof (hash12_length c) as Hl. by rewrite H in Hl.
  - apply (str_sep_inj_r "." (b +:+ "." +:+ hash12 c) "web" e "manifest") in H as [H _]; [|done|not_in].
    assert (In "."%char (str_list "web")) as Hin; [|revert Hin; not_in].
    rewrite <- H, str_list_app. apply in_app_iff. right. by left.
Qed.

Lemma hashed_plain n c : ~ In "/"%char (str_list n) -> plain_name (hashed_name n c).
Proof.
  intros Hs. assert (~ In "/"%char (str_list (hashed_name n c)) /\ (12 < String.length (hashed_name n c))%nat) as [H1 H2].
  { pose proof (hash12_no_slash c) as Hh. pose proof (hash12_length c) as Hl.
    destruct (hashed_shape n c Hs) as [[_ ->]|(b & e & -> & _ & ->)]; generalize dependent (hash12 c);
      intros h Hh Hl; rewrite !str_length_app, !str_list_app, !in_app_iff in *; cbn in *; split; try lia.
    - intuition discriminate.
    - intuition discriminate. }
  unfold plain_name. split_and!; [..|done]; intros E; rewrite E in H2; cbn in H2; lia.
Qed.
End Names.

(** ** What is published *)
Section Publish.
Context {W : WebFiles} {HW : WebFilesOk W} {HS : Hashes} {HSO : HashesOk HS} {MO : MapOrder}.
Context (dir : string).

(** Only files of the runtime directory differ. *)
Definition outside (f f' : wfs) : Prop :=
  forall q, (forall n, plain_name n -> q <> filepath_Join dir n) -> web_view f' !! q = web_view f !! q.

(** A copy of [c] is there: the file under the copied name has the digits of that name. *)
Definition published (f : wfs) (n c : string) : Prop :=
  exists c', web_view f !! filepath_Join dir (hashed_name n c) = Some c' /\ hash12 c' = hash12 c.

Lemma outside_refl f : outside f f.
Proof. done. Qed.
Lemma outside_trans f1 f2 f3 : outside f1 f2 -> outside f2 f3 -> outside f1 f3.
Proof. intros H1 H2 q Hq. by rewrite H2, H1. Qed.

Lemma outside_write n c f : plain_name n -> outside f (web_WriteFile (filepath_Join dir n) c f).2.
Proof. intros Hn q Hq. apply write_other. by apply Hq. Qed.

(** A write under a name that is no copied name, or with the content its name says. *)
Lemma write_published n c x v f : ~ In "/"%char (str_list n) -> plain_name x ->
  (hashed_name n c = x -> (web_WriteFile (filepath_Join dir x) v f).1 = Ret tt /\ hash12 v = hash12 c) ->
  published f n c -> published (web_WriteFile (filepath_Join dir x) v f).2 n c.
Proof.
  intros Hn Hx Hw (c' & Hc & Hh). destruct (decide (hashed_name n c = x)) as [He|He].
  - destruct (Hw He) as [Ho Hv]. exists v. rewrite write_ok, He by done. by rewrite lookup_insert_eq.
  - exists c'. rewrite write_other; [done|]. intros Hj. apply He.
    apply (join_inj dir); [by apply hashed_plain|done|done].
Qed.

Lemma name_no_slash n : plain_name n -> ~ In "/"%char (str_list n).
Proof. by intros (_ & _ & _ & H). Qed.

(** Pages are the files whose name ends in [.html]. *)
Definition page_kept (f f' : wfs) : Prop :=
  forall y, plain_name (y +:+ ".html") ->
    web_view f' !! filepath_Join dir (y +:+ ".html") = web_view f !! filepath_Join dir (y +:+ ".html").

Lemma hashed_no_page n c y : ~ In "/"%char (str_list n) -> str_suffix ".html" n = false ->
  hashed_name n c <> y +:+ ".html".
Proof. intros Hn Hh. apply (hashed_not n c y "html"); [done|done|not_in|done]. Qed.

(** *** Copying *)

Section Copy.
Context (src : string) (src_apart : forall n m, plain_name n -> filepath_Join dir n <> filepath_Join src m).

(** [n] is an asset among the entries [l], to be copied as [v]. *)
Definition is_asset (f : wfs) (l : list (string * bool)) (n v : string) : Prop :=
  In (n, false) l /\ plain_name n /\ str_suffix ".html" n = false /\
  exists c, web_view f !! filepath_Join src n = Some c /\ v = hashed_name n c.

Lemma source_kept f f' n : outside f f' ->
  web_view f' !! filepath_Join src n = web_view f !! filepath_Join src n.
Proof. intros H. apply H. intros m Hm He. by apply (src_apart m n Hm). Qed.

(** What one step or the whole loop does from [f] to [f']. *)
Record copied (f f' : wfs) (l : list (string * bool)) (out out' : gmap string string) : Prop := {
  cp_outside : outside f f';
  cp_pages : page_kept f f';
  cp_keeps : forall n c, ~ In "/"%char (str_list n) -> published f n c -> published f' n c;
  cp_done : forall n v, is_asset f l n v -> exists c, web_view f !! filepath_Join src n = Some c /\ published f' n c;
  cp_map : forall n v, out' !! n = Some v <-> is_asset f l n v \/ (out !! n = Some v /\ ~ exists w, is_asset f l n w);
}.

Lemma is_asset_unique f l n v w : is_asset f l n v -> is_asset f l n w -> v = w.
Proof. intros (_ & _ & _ & c & Hc & ->) (_ & _ & _ & c' & Hc' & ->). congruence. Qed.

Lemma is_asset_dec f l n : (exists w, is_asset f l n w) \/ ~ exists w, is_asset f l n w.
Proof.
  destruct (in_dec (fun a b => decide (a = b)) (n, false) l) as [Hl|Hl]; [|right; by intros (w & ? & _)].
  destruct (web_view f !! filepath_Join src n) as [c|] eqn:Hc;
    [|right; intros (w & _ & _ & _ & c & Hx & _); congruence].
  destruct (str_suffix ".html" n) eqn:Hh; [right; intros (w & _ & _ & Hx & _); congruence|].
  destruct (plain_dec n) as [Hp|Hp]; [|right; by intros (w & _ & ? & _)].
  left. exists (hashed_name n c). split_and!; [done..|by exists c].
Qed.

Lemma copy_asset_step e f out out' f' : (e.2 = false -> plain_name e.1) ->
  copy_asset dir src out e f = (Ret out', f') -> copied f f' [e] out out'.
Proof.
  destruct e as [n [|]]; intros Hp; unfold copy_asset; cbn [fst snd] in *.
  { intros [= <- <-]. split; [done|done|done|by intros ?? ([[=]|[]] & _)|].
    intros k v. split; [|by intros [([[=]|[]] & _)|[]]].
    intros Hv. right. split; [done|]. by intros (w & [[=]|[]] & _). }
  specialize (Hp eq_refl). destruct (str_suffix ".html" n) eqn:Hh.
  { intros [= <- <-]. split; [done|done|done|intros ?? ([[= <-]|[]] & _ & Hx & _); congruence|].
    intros k v. split; [|intros [([[= <-]|[]] & _ & Hx & _)|[]]; congruence].
    intros Hv. right. split; [done|]. intros (w & [[= <-]|[]] & _ & Hx & _). congruence. }
  intros (b & f1 & Hb & H)%gbind_inv. unfold read_file in Hb. injection Hb as Hb <-.
  apply readfile_view in Hb. cbv zeta in H. apply gbind_inv in H as ([] & f2 & Hw & [= <- <-]).
  pose proof (hashed_plain n b (name_no_slash n Hp)) as Hpl.
  assert ((web_WriteFile (filepath_Join dir (hashed_name n b)) b f).1 = Ret tt) as Ho by (by rewrite Hw).
  assert ((web_WriteFile (filepath_Join dir (hashed_name n b)) b f).2 = f2) as <- by (by rewrite Hw).
  split.
  - by apply outside_write.
  - intros y Hy. apply write_other. intros He%join_inj; [|done|done].
    by apply (hashed_no_page n b y (name_no_slash n Hp) Hh).
  - intros k c Hk. apply write_published; [done|done|]. intros He. split; [done|].
    symmetry. apply (hashed_hash k n); [done|by apply name_no_slash|done].
  - intros k v ([[= <-]|[]] & _ & _ & c & Hc & ->). exists c. split; [done|]. rewrite Hb in Hc. injection Hc as <-.
    exists b. rewrite write_ok by done. by rewrite lookup_insert_eq.
  - assert (is_asset f [(n, false)] n (hashed_name n b)) as Ha by (split_and!; [by left|done|done|by exists b]).
    intros k v. rewrite lookup_insert_Some. split.
    + intros [[<- <-]|[Hne Hv]]; [by left|]. right. split; [done|]. by intros (w & [[= <-]|[]] & _).
    + intros [Hx|[Hv Hno]].
      * left. destruct (Hx) as ([[= <-]|[]] & _). split; [done|]. by eapply is_asset_unique.
      * right. split; [|done]. intros <-. apply Hno. by eexists.
Qed.

Lemma is_asset_kept f f' l n v : outside f f' -> is_asset f' l n v <-> is_asset f l n v.
Proof.
  intros H. unfold is_asset. by rewrite (source_kept f f' n H).
Qed.

Lemma copied_trans f1 f2 f3 e l out1 out2 out3 :
  copied f1 f2 [e] out1 out2 -> copied f2 f3 l out2 out3 -> copied f1 f3 (e :: l) out1 out3.
Proof.
  intros [O1 P1 K1 D1 M1] [O2 P2 K2 D2 M2].
  assert (forall n v, is_asset f1 (e :: l) n v <-> is_asset f1 [e] n v \/ is_asset f2 l n v) as Ha.
  { intros n v. rewrite (is_asset_kept f1 f2 l n v O1). unfold is_asset. cbn [In]. tauto. }
  assert (forall n v w, is_asset f1 (e :: l) n v -> is_asset f1 (e :: l) n w -> v = w) as Hu
    by (intros; by eapply is_asset_unique).
  split.
  - by eapply outside_trans.
  - intros y Hy. by rewrite P2, P1.
  - auto.
  - intros n v [Hn|Hn]%Ha.
    + destruct (D1 n v Hn) as (c & Hc & Hp). exists c. split; [done|]. apply K2; [|done].
      apply name_no_slash. apply Hn.
    + destruct (D2 n v Hn) as (c & Hc & Hp). exists c. split; [|done]. by rewrite <- (source_kept f1 f2 n O1).
  - intros n v. rewrite M2, M1. setoid_rewrite Ha. split.
    + intros [H|[[H|[H Hn1]] Hn2]]; [tauto|tauto|]. right. split; [done|].
      intros (w & [Hw|Hw]); [apply Hn1|apply Hn2]; by exists w.
    + intros [[H|H]|[H Hn]]; [|tauto|].
      * destruct (is_asset_dec f2 l n) as [(w & Hw)|Hno]; [|tauto].
        left. replace v with w; [done|]. apply (Hu n); apply Ha; tauto.
      * right. split; [|naive_solver]. right. split; [done|naive_solver].
Qed.

Lemma copy_loop l : forall f out out' f', (forall n, In (n, false) l -> plain_name n) ->
  gfold l (copy_asset dir src) out f = (Ret out', f') -> copied f f' l out out'.
Proof.
  induction l as [|e l IH]; intros f out out' f' Hl H; cbn [gfold] in H.
  - injection H as <- <-. split; [done|done|done|by intros ?? ([] & _)|].
    intros n v. split; [|by intros [([] & _)|[]]]. intros Hv. right. split; [done|]. by intros (w & [] & _).
  - apply gbind_inv in H as (out1 & f1 & He & H). eapply copied_trans.
    + apply copy_asset_step; [|exact He]. intros H2. destruct e as [n b]. cbn in *. subst b. apply Hl. by left.
    + apply IH; [|done]. intros n Hn. apply Hl. by right.
Qed.

(** The assets of the source directory. *)
Definition asset_of (f : wfs) (n v : string) : Prop :=
  plain_name n /\ str_suffix ".html" n = false /\
  exists c, web_view f !! filepath_Join src n = Some c /\ v = hashed_name n c.

Lemma copyHashedAssets_run f m f' : copyHashedAssets dir src f = (Ret m, f') ->
  outside f f' /\ page_kept f f' /\
  (forall n c, ~ In "/"%char (str_list n) -> published f n c -> published f' n c) /\
  (forall n v, asset_of f n v -> exists c, web_view f !! filepath_Join src n = Some c /\ published f' n c) /\
  (forall n v, m !! n = Some v <-> asset_of f n v).
Proof.
  unfold copyHashedAssets, read_dir, gbind. destruct (web_ReadDir src f) as [ents err] eqn:Hd.
  destruct err as [e|]; [done|]. intros H. apply copy_loop in H as [O P K D M].
  2:{ intros n Hn. apply (readdir_sound src f n). by rewrite Hd. }
  assert (forall n v, is_asset f ents n v <-> asset_of f n v) as Ha.
  { intros n v. unfold is_asset, asset_of. split; [tauto|]. intros (Hp & Hh & c & Hc & Hv). split_and!; [|done|done|by exists c].
    pose proof (readdir_complete src f n) as Hr. rewrite Hd in Hr. apply Hr; [done..|by exists c]. }
  split_and!; [done..| |].
  - intros n v Hn. by apply (D n v), Ha.
  - intros n v. rewrite M, Ha. split; [intros [H|[[=] _]]; done|tauto].
Qed.
End Copy.

(** *** Bundles *)

Definition bundle_ok (b : Bundle) : Prop :=
  plain_name (index_name b) /\ forall n m, plain_name n -> filepath_Join dir n <> filepath_Join (wb_SourceDir b) m.

(** The result of a bundle, relative to the sources in [f0]. *)
Definition bundle_done (f0 f : wfs) (b : Bundle) : Prop :=
  (forall n c, plain_name n -> str_suffix ".html" n = false ->
     web_view f0 !! filepath_Join (wb_SourceDir b) n = Some c -> published f n c) /\
  exists raw assets, web_view f0 !! filepath_Join (wb_SourceDir b) (wb_Entry b) = Some raw /\
    (forall n v, assets !! n = Some v <-> asset_of (wb_SourceDir b) f0 n v) /\
    web_view f !! filepath_Join dir (index_name b) = Some (expand raw (range assets)).

Lemma index_html b : index_name b = (wb_Name b +:+ ".index") +:+ ".html".
Proof. unfold index_name. by rewrite str_app_assoc. Qed.

Lemma asset_kept f f' b n v : bundle_ok b -> outside f f' ->
  asset_of (wb_SourceDir b) f' n v <-> asset_of (wb_SourceDir b) f n v.
Proof. intros [_ Hb] H. unfold asset_of. by rewrite (source_kept (wb_SourceDir b) Hb f f' n H). Qed.

(** A file is written beside what was published. *)
Lemma write_beside x v f : plain_name x ->
  (forall n c, ~ In "/"%char (str_list n) -> str_suffix ".html" n = false -> hashed_name n c <> x) ->
  forall n c, ~ In "/"%char (str_list n) -> str_suffix ".html" n = false -> published f n c ->
    published (web_WriteFile (filepath_Join dir x) v f).2 n c.
Proof. intros Hx Hne n c Hn Hh. apply write_published; [done|done|]. intros He. by destruct (Hne n c Hn Hh). Qed.

Lemma build_bundle_run f0 f b f' : bundle_ok b -> outside f0 f -> build_bundle dir b f = (Ret tt, f') ->
  outside f0 f' /\ bundle_done f0 f' b /\
  (forall n c, ~ In "/"%char (str_list n) -> str_suffix ".html" n = false -> published f n c -> published f' n c) /\
  (forall b', bundle_ok b' -> index_name b' <> index_name b ->
     web_view f' !! filepath_Join dir (index_name b') = web_view f !! filepath_Join dir (index_name b')).
Proof.
  intros Hb H0 H. destruct (Hb) as [Hi Hs]. apply gbind_inv in H as (m & f1 & Hc & H).
  apply (copyHashedAssets_run _ Hs) in Hc as (O & P & K & D & M).
  apply gbind_inv in H as (raw & f2 & [= Hr <-] & Hw). apply readfile_view in Hr.
  assert ((web_WriteFile (filepath_Join dir (index_name b)) (expand raw (range m)) f1).1 = Ret tt) as Ho by (by rewrite Hw).
  assert ((web_WriteFile (filepath_Join dir (index_name b)) (expand raw (range m)) f1).2 = f') as <- by (by rewrite Hw).
  pose proof (outside_trans _ _ _ H0 O) as H1.
  pose proof (write_beside (index_name b) (expand raw (range m)) f1 Hi) as Hbe.
  assert (forall n c, ~ In "/"%char (str_list n) -> str_suffix ".html" n = false -> hashed_name n c <> index_name b) as Hne.
  { intros n c Hn Hh. rewrite index_html. by apply hashed_no_page. }
  specialize (Hbe Hne). split_and!.
  - eapply outside_trans; [exact H1|]. by apply outside_write.
  - split.
    + intros n c Hp Hh Hc. apply Hbe; [by apply name_no_slash|done|].
      rewrite <- (source_kept _ Hs f0 f n H0) in Hc.
      destruct (D n (hashed_name n c)) as (c' & Hc' & Hpub); [split_and!; [done|done|by exists c]|]. congruence.
    + exists raw, m. split_and!.
      * rewrite <- (source_kept _ Hs f0 f1 _ H1). done.
      * intros n v. rewrite M. by apply asset_kept.
      * rewrite write_ok by done. by rewrite lookup_insert_eq.
  - intros n c Hn Hh Hp. apply Hbe; [done|done|]. by apply K.
  - intros b' [Hi' _] Hne'. rewrite write_other.
    + rewrite index_html in *. by apply P.
    + intros He%join_inj; done.
Qed.

Lemma bundles_run f0 bs : forall f f', Forall bundle_ok bs -> NoDup (List.map index_name bs) -> outside f0 f ->
  gfor bs (build_bundle dir) f = (Ret tt, f') ->
  outside f0 f' /\ (forall b, In b bs -> bundle_done f0 f' b) /\
  (forall n c, ~ In "/"%char (str_list n) -> str_suffix ".html" n = false -> published f n c -> published f' n c) /\
  (forall b', bundle_ok b' -> ~ In (index_name b') (List.map index_name bs) ->
     web_view f' !! filepath_Join dir (index_name b') = web_view f !! filepath_Join dir (index_name b')).
Proof.
  induction bs as [|b bs IH]; intros f f' Hok Hnd H0 H; cbn [gfor] in H.
  { injection H as <-. done. }
  apply Forall_cons in Hok as [Hb Hok]. apply NoDup_cons in Hnd as [Hni Hnd].
  apply gbind_inv in H as ([] & f1 & Hr & H).
  destruct (build_bundle_run f0 f b f1 Hb H0 Hr) as (O1 & B1 & K1 & P1).
  destruct (IH f1 f' Hok Hnd O1 H) as (O2 & B2 & K2 & P2). rewrite list_elem_of_In in Hni. split_and!.
  - done.
  - intros b' [<-|Hb']; [|by apply B2]. destruct B1 as [Ba (raw & m & R1 & R2 & R3)]. split.
    + intros n c Hp Hh Hc. apply K2; [by apply name_no_slash|done|by apply Ba].
    + exists raw, m. split_and!; [done|done|]. by rewrite P2.
  - intros n c Hn Hh Hp. apply K2; [done|done|by apply K1].
  - intros b' Hb' Hn. cbn [List.map In] in Hn. rewrite P2, P1; try done; intros E; apply Hn; [left|right]; congruence.
Qed.
End Publish.

Section Ensure.
Context {W : WebFiles} {HW : WebFilesOk W} {HS : Hashes} {HSO : HashesOk HS} {MO : MapOrder}.

Definition web_dir (cfg : WConfig) : string :=
  if (wc_RuntimeWebDir cfg =? "")%string then filepath_Join "runtime" "web" else wc_RuntimeWebDir cfg.

Lemma clear_outside dir f o f' : clear_dir dir f = (o, f') -> outside dir f f'.
Proof.
  unfold clear_dir, read_dir, gbind. destruct (web_ReadDir dir f) as [ents err] eqn:Hd.
  assert (forall n, In (n, false) ents -> plain_name n) as Hp.
  { intros n Hn. apply (readdir_sound dir f n). by rewrite Hd. }
  clear Hd. revert f o f'. induction ents as [|[n b] ents IH]; intros f o f' H; cbn [gfor] in H.
  { injection H as <- <-. apply outside_refl. }
  unfold gbind in H. destruct b; cbn [fst snd] in H.
  { apply (IH (fun m Hm => Hp m (or_intror Hm)) f o f' H). }
  destruct (gignore tt (web_Remove (filepath_Join dir n)) f) as [r f1] eqn:Hr.
  assert (outside dir f f1) as H1.
  { intros q Hq. unfold gignore in Hr. pose proof (remove_other (filepath_Join dir n) f q) as Hx.
    destruct (web_Remove (filepath_Join dir n) f) as [r' f2]. cbn [snd] in Hx.
    assert (f2 = f1) as -> by (destruct r'; congruence). apply Hx, Hq. apply Hp. by left. }
  destruct r as [[]|e|]; [|injection H as <- <-; done..].
  eapply outside_trans; [exact H1|]. exact (IH (fun m Hm => Hp m (or_intror Hm)) f1 o f' H).
Qed.

(** The run of the whole. *)
Lemma EnsureFlatWebFS_run cfg f f' : EnsureFlatWebFS cfg f = (Ret tt, f') ->
  Forall (bundle_ok (web_dir cfg)) (wc_Bundles cfg) -> NoDup (List.map index_name (wc_Bundles cfg)) ->
  outside (web_dir cfg) f f' /\ forall b, In b (wc_Bundles cfg) -> bundle_done (web_dir cfg) f f' b.
Proof.
  intros H Hok Hnd. unfold EnsureFlatWebFS in H. fold (web_dir cfg) in H. set (dir := web_dir cfg) in *.
  apply gbind_inv in H as ([] & f1 & H1 & H). apply gbind_inv in H as ([] & f2 & H2 & H).
  apply gbind_inv in H as ([] & f3 & H3 & H).
  assert (outside dir f f2) as O.
  { apply (outside_trans dir f f1); [|by apply (clear_outside dir f1 (Ret tt))].
    intros q _. pose proof (mkdir_view dir f) as Hm. rewrite H1 in Hm. cbn in Hm. by rewrite Hm. }
  destruct (bundles_run dir f _ f2 f3 Hok Hnd O H3) as (O3 & B3 & _ & _).
  assert (plain_name "web.manifest") as Hpl by (split_and!; [done..|not_in]).
  set (c := manifestHash _) in H. assert ((web_WriteFile (filepath_Join dir "web.manifest") c f3).2 = f') as <-.
  { unfold gignore in H. by destruct (web_WriteFile (filepath_Join dir "web.manifest") c f3) as [[] f4]; simplify_eq. }
  split; [eapply outside_trans; [exact O3|by apply outside_write]|].
  intros b Hb. destruct (B3 b Hb) as [Ba (raw & m & R1 & R2 & R3)]. split.
  - intros n x Hp Hh Hc. apply write_beside; [done|intros; by apply hashed_not_manifest|by apply name_no_slash|done|by apply Ba].
  - exists raw, m. split_and!; [done|done|]. rewrite write_other; [done|].
    apply Forall_forall with (x := b) in Hok; [|by apply list_elem_of_In].
    intros He%join_inj; [|apply Hok|done]. unfold index_name in He.
    change "web.manifest" with ("web" +:+ "." +:+ "manifest") in He.
    replace (wb_Name b +:+ ".index.html") with ((wb_Name b +:+ ".index") +:+ "." +:+ "html") in He
      by (by rewrite str_app_assoc).
    apply (str_sep_inj_r "." (wb_Name b +:+ ".index") "web" "html" "manifest") in He as [_ He]; [done|not_in|not_in].
Qed.

(** C18. When the flat directory has been built, every file of a bundle's source directory that
    is no page is there under its name with the first twelve digits of its hash, in a file whose
    content has these digits, and the bundle's page is its entry with every placeholder of such a
    file replaced by the new name; nothing outside the directory is changed. *)
Theorem EnsureFlatWebFS_publishes cfg f f' : EnsureFlatWebFS cfg f = (Ret tt, f') ->
  Forall (bundle_ok (web_dir cfg)) (wc_Bundles cfg) -> NoDup (List.map index_name (wc_Bundles cfg)) ->
  outside (web_dir cfg) f f' /\ forall b, In b (wc_Bundles cfg) -> bundle_done (web_dir cfg) f f' b.
Proof. apply EnsureFlatWebFS_run. Qed.
End Ensure.
