(* ===== verification/WebPages.v ===== *)
(** * Pages of the flat web directory as templates

    [EnsureFlatWebFS] replaces the placeholders of a page one asset after the other, in the order
    in which Go happens to iterate over a map.  For a page in which no placeholder is nested in
    another the result is that of filling all of them at once, whatever the order
    ([expand_fills]); a nested one is a counterexample ([nested_order_matters]). *)

From S2P Require Import Prelude GoLang KV Chain WebFS.

(** A page as characters and placeholders. *)
Inductive tok : Type := TChar (c : ascii) | THole (n : string).

Fixpoint render (l : list tok) : string :=
  match l with
  | [] => ""
  | TChar c :: l' => String c (render l')
  | THole n :: l' => placeholder n +:+ render l'
  end.

(** All known placeholders at once. *)
Fixpoint filled (m : gmap string string) (l : list tok) : string :=
  match l with
  | [] => ""
  | TChar c :: l' => String c (filled m l')
  | THole n :: l' => default (placeholder n) (m !! n) +:+ filled m l'
  end.

Definition opening : string := "{{asset:".

(** The characters up to the next placeholder. *)
Fixpoint run (l : list tok) : string :=
  match l with TChar c :: l' => String c (run l') | _ => "" end.

Definition no_char (c : ascii) (s : string) : Prop := ~ In c (str_list s).

(** Names that can stand in a placeholder, and what may replace one. *)
Definition hole_name (n : string) : Prop := no_char "{" n /\ no_char "}" n.
Definition hole_value (v : string) : Prop :=
  no_char "{" v /\ no_char ":" v /\ (8 <= String.length v)%nat.

(** No placeholder begins among the characters. *)
Fixpoint page_ok (l : list tok) : Prop :=
  match l with
  | [] => True
  | TChar c :: l' => str_prefix opening (run l) = false /\ page_ok l'
  | THole n :: l' => hole_name n /\ page_ok l'
  end.

Definition chars (s : string) : list tok := List.map TChar (str_list s).

(** One placeholder replaced. *)
Fixpoint fill1 (n v : string) (l : list tok) : list tok :=
  match l with
  | [] => []
  | TChar c :: l' => TChar c :: fill1 n v l'
  | THole k :: l' => (if String.eqb k n then chars v else [THole k]) ++ fill1 n v l'
  end.

(** ** Prefixes *)

Lemma str_prefix_cons c p s : str_prefix (String c p) s = true ->
  exists s', s = String c s' /\ str_prefix p s' = true.
Proof. intros [r ->]%str_prefix_spec. exists (p +:+ r). split; [done|apply str_prefix_app]. Qed.

Lemma prefix_no_char c p s : str_prefix p s = true -> no_char c s -> no_char c p.
Proof. intros [r ->]%str_prefix_spec Hs Hc. apply Hs. rewrite str_list_app. apply in_app_iff. by left. Qed.

Lemma prefix_app_long p a b : str_prefix p (a +:+ b) = true -> (String.length p <= String.length a)%nat ->
  str_prefix p a = true.
Proof.
  revert a. induction p as [|c p IH]; intros a H Hl; [by destruct a|].
  destruct a as [|x a]; [cbn in Hl; lia|].
  apply str_prefix_cons in H as (s' & [= -> <-] & H). cbn. rewrite Ascii.eqb_refl. apply IH; [done|]. cbn in Hl. lia.
Qed.

Lemma prefix_app_split p : forall a b, str_prefix p (a +:+ b) = true ->
  str_prefix p a = true \/ exists r, p = a +:+ r /\ r <> "" /\ str_prefix r b = true.
Proof.
  induction p as [|c p IH]; intros a b H; [left; by destruct a|].
  destruct a as [|x a]; [right; exists (String c p); done|].
  apply str_prefix_cons in H as (s' & [= -> <-] & H). destruct (IH a b H) as [Hp|(r & -> & Hr & Hb)].
  - left. cbn. by rewrite Ascii.eqb_refl.
  - right. by exists r.
Qed.

(** The proper ends of the opening; neither a placeholder nor a value begins with one. *)
Definition ends : list string := ["{asset:"; "asset:"; "sset:"; "set:"; "et:"; "t:"; ":"].

Lemma opening_ends a r : opening = a +:+ r -> a <> "" -> r <> "" -> In r ends.
Proof.
  intros He Ha Hr. unfold ends. destruct a as [|c a]; [done|]. injection He as <- He.
  do 7 (destruct a as [|c a]; [pose proof (eq_sym He : r = _) as ->; cbn; tauto|injection He as <- He]).
  destruct a, r; done.
Qed.

Lemma ends_placeholder n s r : In r ends -> str_prefix r (placeholder n +:+ s) = false.
Proof. intros Hr. by repeat (destruct Hr as [<-|Hr]; [reflexivity|]). Qed.

Lemma ends_value v s r : hole_value v -> In r ends -> str_prefix r (v +:+ s) = false.
Proof.
  intros (_ & Hc & Hl) Hr. destruct (str_prefix r (v +:+ s)) eqn:Hp; [|done]. exfalso.
  apply prefix_app_long in Hp.
  - apply (prefix_no_char ":" r v Hp) in Hc. by repeat (destruct Hr as [<-|Hr]; [apply Hc; cbn; tauto|]).
  - by repeat (destruct Hr as [<-|Hr]; [cbn; lia|]).
Qed.

(** A text that begins with no end of the opening. *)
Definition no_end (x : string) : Prop := forall r, In r ends -> str_prefix r x = false.

Lemma opening_run l x : l <> "" -> str_prefix opening l = false -> no_end x ->
  str_prefix opening (l +:+ x) = false.
Proof.
  intros Hl Hp Hx. destruct (str_prefix opening (l +:+ x)) eqn:H; [|done].
  apply prefix_app_split in H as [H|(r & He & Hr & H)]; [congruence|].
  by rewrite (Hx r (opening_ends l r He Hl Hr)) in H.
Qed.

(** ** Pages *)

Lemma render_run l : exists x, render l = run l +:+ x /\ no_end x.
Proof.
  induction l as [|[c|n] l (x & Hx & Hn)]; cbn [render run].
  - exists "". split; [done|]. intros r Hr. by repeat (destruct Hr as [<-|Hr]; [reflexivity|]).
  - exists x. by rewrite Hx.
  - exists (placeholder n +:+ render l). split; [done|]. intros r. apply ends_placeholder.
Qed.

Lemma page_char c l : page_ok (TChar c :: l) -> str_prefix opening (render (TChar c :: l)) = false.
Proof.
  intros [H _]. destruct (render_run (TChar c :: l)) as (x & -> & Hx). by apply opening_run.
Qed.

Lemma run_app_chars s l : run (chars s ++ l) = s +:+ run l.
Proof.
  induction s as [|a s IH]; [done|]. change (String a (run (chars s ++ l)) = String a (s +:+ run l)). by rewrite IH.
Qed.

Lemma run_fill1 n v l : hole_value v -> exists x, run (fill1 n v l) = run l +:+ x /\ no_end x.
Proof.
  intros Hv. induction l as [|[c|k] l (x & Hx & Hn)]; cbn [fill1 run].
  - exists "". split; [done|]. intros r Hr. by repeat (destruct Hr as [<-|Hr]; [reflexivity|]).
  - exists x. by rewrite Hx.
  - destruct (String.eqb k n).
    + exists (v +:+ run (fill1 n v l)). rewrite run_app_chars. split; [done|]. intros r. by apply ends_value.
    + exists "". split; [done|]. intros r Hr. by repeat (destruct Hr as [<-|Hr]; [reflexivity|]).
Qed.

Lemma page_ok_chars s l : no_char "{" s -> page_ok l -> page_ok (chars s ++ l).
Proof.
  intros Hs Hl. induction s as [|c s IH]; [done|]. cbn [chars str_list List.map app page_ok run]. split.
  - unfold opening. destruct (Ascii.eqb_spec "{" c) as [<-|Hc]; [destruct Hs; by left|].
    cbn [str_prefix]. destruct (Ascii.eqb_spec "{" c); done.
  - apply IH. intros H. apply Hs. by right.
Qed.

Lemma page_ok_fill1 n v l : hole_value v -> page_ok l -> page_ok (fill1 n v l).
Proof.
  intros Hv. induction l as [|[c|k] l IH]; [done| |]; cbn [fill1 page_ok]; intros [H1 H2].
  - split; [|auto]. destruct (run_fill1 n v (TChar c :: l) Hv) as (x & Hx & Hn).
    cbn [fill1] in Hx. rewrite Hx. by apply opening_run.
  - destruct (String.eqb k n); [apply page_ok_chars; [apply Hv|auto]|]. cbn. auto.
Qed.

Lemma render_chars s l : render (chars s ++ l) = s +:+ render l.
Proof.
  induction s as [|a s IH]; [done|]. change (String a (render (chars s ++ l)) = String a (s +:+ render l)). by rewrite IH.
Qed.

(** ** Replacing *)

Lemma replace_skip old new p s : replace_from (String.length p) old new (p +:+ s) = replace_from 0 old new s.
Proof. induction p as [|a p IH]; [done|exact IH]. Qed.

(** Characters none of which begins an occurrence are copied. *)
Lemma replace_copy n v p s : no_char "{" p ->
  replace_from 0 (placeholder n) v (p +:+ s) = p +:+ replace_from 0 (placeholder n) v s.
Proof.
  induction p as [|c p IH]; intros Hp; [done|].
  change (String c p +:+ s) with (String c (p +:+ s)). cbn [replace_from].
  destruct (str_prefix (placeholder n) (String c (p +:+ s))) eqn:H.
  - apply str_prefix_cons in H as (s' & [= -> _] & _). destruct Hp. by left.
  - change (String c p +:+ replace_from 0 (placeholder n) v s) with (String c (p +:+ replace_from 0 (placeholder n) v s)).
    f_equal. apply IH. intros Hc. apply Hp. by right.
Qed.

Lemma placeholder_prefix n k s : hole_name n -> hole_name k ->
  str_prefix (placeholder n) (placeholder k +:+ s) = true -> n = k.
Proof.
  intros [_ Hn] [_ Hk] [r Hr]%str_prefix_spec. unfold placeholder in Hr. rewrite !str_app_assoc in Hr.
  apply str_app_inj_length in Hr as [_ Hr]; [|done]. symmetry. by apply (str_sep_inj "}") in Hr as [Hr _].
Qed.

Lemma replace_hole n k v s : hole_name n -> hole_name k -> k <> n ->
  replace_from 0 (placeholder n) v (placeholder k +:+ s) = placeholder k +:+ replace_from 0 (placeholder n) v s.
Proof.
  intros Hn Hk Hne.
  assert (str_prefix (placeholder n) (placeholder k +:+ s) = false) as Hp.
  { destruct (str_prefix _ _) eqn:H; [|done]. by apply placeholder_prefix in H; [destruct Hne|..]. }
  set (t := "asset:" +:+ k +:+ "}}").
  change (placeholder k) with (String "{" (String "{" t)) in Hp |- *.
  change (String "{" (String "{" t) +:+ ?x) with (String "{" (String "{" (t +:+ x))) in Hp |- *.
  cbn [replace_from]. rewrite Hp. cbn [str_prefix placeholder String.append]. cbn [Ascii.eqb Bool.eqb].
  change (String "{" (String "{" t) +:+ replace_from 0 (placeholder n) v s)
    with (String "{" (String "{" (t +:+ replace_from 0 (placeholder n) v s))).
  do 2 f_equal. apply replace_copy. unfold t, no_char. rewrite !str_list_app, !in_app_iff.
  intros [H|[H|H]]; [revert H; not_in|by apply Hk in H|revert H; not_in].
Qed.

Lemma replace_render n v l : hole_name n -> hole_value v -> page_ok l ->
  ReplaceAll (render l) (placeholder n) v = render (fill1 n v l).
Proof.
  intros Hn Hv. unfold ReplaceAll. induction l as [|[c|k] l IH]; intros Hl; [done| |].
  - pose proof (page_char c l Hl) as Hc. destruct Hl as [_ Hl]. cbn [render fill1] in *. cbn [replace_from].
    destruct (str_prefix (placeholder n) (String c (render l))) eqn:H; [|f_equal; auto].
    exfalso. apply str_prefix_spec in H as [r H]. unfold placeholder in H. rewrite str_app_assoc in H.
    rewrite H in Hc. unfold opening in Hc. by rewrite str_prefix_app in Hc.
  - destruct Hl as [Hk Hl]. cbn [render fill1]. destruct (String.eqb_spec k n) as [->|Hne].
    + rewrite render_chars. unfold placeholder at 2.
      change (("{{asset:" +:+ n +:+ "}}") +:+ render l) with (String "{" (("{asset:" +:+ n +:+ "}}") +:+ render l)).
      cbn [replace_from]. fold (placeholder n).
      change (String "{" (("{asset:" +:+ n +:+ "}}") +:+ render l)) with (placeholder n +:+ render l).
      rewrite str_prefix_app. f_equal.
      change (String.length (placeholder n) - 1)%nat with (String.length ("{asset:" +:+ n +:+ "}}") - 0)%nat.
      rewrite Nat.sub_0_r, replace_skip. auto.
    + rewrite replace_hole by done. cbn [app render]. f_equal. auto.
Qed.

Lemma expand_render assets : forall l, Forall (fun e => hole_name e.1 /\ hole_value e.2) assets -> page_ok l ->
  expand (render l) assets = render (fold_left (fun l e => fill1 e.1 e.2 l) assets l).
Proof.
  induction assets as [|e assets IH]; intros l Ha Hl; [done|]. apply Forall_cons in Ha as [[Hn Hv] Ha].
  cbn [fold_left]. rewrite <- IH; [|done|by apply page_ok_fill1]. unfold expand at 1. cbn [fold_left].
  by rewrite replace_render.
Qed.

Lemma filled_chars m s l : filled m (chars s ++ l) = s +:+ filled m l.
Proof.
  induction s as [|a s IH]; [done|]. change (String a (filled m (chars s ++ l)) = String a (s +:+ filled m l)). by rewrite IH.
Qed.

Lemma filled_fill1 m n v l : filled m (fill1 n v l) = filled (<[n := v]> m) l.
Proof.
  induction l as [|[c|k] l IH]; [done|cbn; by rewrite IH|]. cbn [fill1 filled].
  destruct (String.eqb_spec k n) as [->|Hne].
  - by rewrite filled_chars, lookup_insert_eq, IH.
  - rewrite lookup_insert_ne by done. cbn [app filled]. by rewrite IH.
Qed.

Lemma fill_all assets : forall l,
  render (fold_left (fun l e => fill1 e.1 e.2 l) assets l) = filled (list_to_map assets) l.
Proof.
  induction assets as [|[n v] assets IH]; intros l; cbn [fold_left list_to_map foldr fst snd uncurry].
  - induction l as [|[c|k] l IHl]; [done|cbn; by rewrite IHl|]. cbn [render filled]. by rewrite lookup_empty, IHl.
  - by rewrite IH, filled_fill1.
Qed.

(** Filling a template from a map. *)
Lemma expand_filled {MO : MapOrder} {HMO : MapOrderOk MO} (m : gmap string string) l : page_ok l ->
  (forall n v, m !! n = Some v -> hole_name n /\ hole_value v) ->
  expand (render l) (range m) = filled m l.
Proof.
  intros Hl Hm. rewrite expand_render; [|apply Forall_forall; intros [n v]|done].
  - rewrite fill_all. f_equal. rewrite <- (list_to_map_to_list m) at 2.
    apply list_to_map_proper; [|apply range_perm]. rewrite (range_perm _ m). apply NoDup_fst_map_to_list.
  - rewrite (range_perm _ m), elem_of_map_to_list. apply Hm.
Qed.

(** C19. On a page without nested placeholders ([page_ok]), with asset names without braces
    and values of at least eight characters without an opening brace or a colon ([hole_name],
    [hole_value]; the names [copyHashedAssets] makes of such names fit), the loop over the map of assets replaces exactly the
    placeholders of the assets, all of them and each by its new name, whatever order Go iterates
    over the map in: the page written is the template with its known placeholders filled.  A
    nested placeholder is filled or not depending on the order ([nested_order_matters]). *)
Theorem expand_fills {MO : MapOrder} {HMO : MapOrderOk MO} (m : gmap string string) l : page_ok l ->
  (forall n v, m !! n = Some v -> hole_name n /\ hole_value v) ->
  expand (render l) (range m) = filled m l.
Proof. apply expand_filled. Qed.

(** The names [copyHashedAssets] gives fit: twelve digits make them long enough. *)
Lemma hashed_value {HS : Hashes} {HSO : HashesOk HS} n c : plain_name n -> no_char "{" n -> no_char ":" n ->
  hole_value (hashed_name n c).
Proof.
  intros (_ & _ & _ & Hs) Hb Hc.
  assert (forall x, hex_val x = None -> no_char x (hash12 c)) as Hh by (intros x Hx H%in_str_take; by apply hex_no_char in H).
  pose proof (Hh "{"%char eq_refl) as H1. pose proof (Hh ":"%char eq_refl) as H2. pose proof (hash12_length c) as Hl.
  unfold hole_value, no_char in *.
  destruct (hashed_shape n c Hs) as [[_ ->]|(b & e & -> & _ & ->)]; generalize dependent (hash12 c);
    intros h _ H1 H2 Hl; rewrite !str_length_app, !str_list_app, !in_app_iff in *; cbn in *;
    split_and!; try lia; intuition discriminate.
Qed.

(** A placeholder inside another is filled only if the inner asset comes first. *)
Theorem nested_order_matters :
  let page := "{{asset:{{asset:a.js}}.map}}" in
  let a := ("a.js", "a.0123456789ab.js") in
  let b := ("a.0123456789ab.js.map", "a.0123456789ab.js.ba9876543210.map") in
  expand page [a; b] = "a.0123456789ab.js.ba9876543210.map" /\ expand page [b; a] = "{{asset:a.0123456789ab.js.map}}".
Proof. by split. Qed.
