(* ===== verification/Sha2.v ===== *)
(** * crypto/sha256

    An executable SHA-256 (FIPS 180-4) on 32-bit words with their wrap-around: the hash
    function the sources import from Go's standard library. It is the instance at which
    concrete inputs are evaluated; theorems are stated for any [Hashes]. *)

From S2P Require Import Prelude GoLang Chain.

Definition rotr (n x : Z) : Z := Z.lor (Z.shiftr x n) (u32 (Z.shiftl x (32 - n))).

Definition ch (x y z : Z) : Z := Z.lxor (Z.land x y) (Z.land (Z.lxor x 4294967295) z).
Definition maj (x y z : Z) : Z := Z.lxor (Z.land x y) (Z.lxor (Z.land x z) (Z.land y z)).
Definition big_sigma0 (x : Z) : Z := Z.lxor (rotr 2 x) (Z.lxor (rotr 13 x) (rotr 22 x)).
Definition big_sigma1 (x : Z) : Z := Z.lxor (rotr 6 x) (Z.lxor (rotr 11 x) (rotr 25 x)).
Definition sigma0 (x : Z) : Z := Z.lxor (rotr 7 x) (Z.lxor (rotr 18 x) (Z.shiftr x 3)).
Definition sigma1 (x : Z) : Z := Z.lxor (rotr 17 x) (Z.lxor (rotr 19 x) (Z.shiftr x 10)).

(** The constants, computed from their definition: the leading 32 fractional bits of the cube
    and square roots of the first primes. *)
Definition is_prime (n : nat) : bool :=
  forallb (fun k => negb (Nat.eqb (n mod k) 0)) (seq 2 (n - 2)).
Definition primes (below : nat) : list Z :=
  map Z.of_nat (List.filter is_prime (seq 2 (below - 2))).

(** The largest number below [2 ^ 40] whose [k]-th power is at most [n], bit by bit. *)
Definition iroot (k n : Z) : Z :=
  fold_left (fun r i => let r' := r + 2 ^ Z.of_nat i in if r' ^ k <=? n then r' else r)
    (rev (seq 0 40)) 0.

Definition K256 : list Z :=
  Eval vm_compute in map (fun p => u32 (iroot 3 (p * 2 ^ 96))) (primes 312).
Definition H256 : list Z :=
  Eval vm_compute in map (fun p => u32 (iroot 2 (p * 2 ^ 64))) (primes 20).

(** Message and length, padded to a multiple of 64 bytes. *)
Definition pad (m : string) : string :=
  let l := String.length m in
  let z := ((119 - l mod 64) mod 64)%nat in
  m +:+ String (byte_of_Z 128) EmptyString +:+ list_str (repeat (byte_of_Z 0) z) +:+
  be_put 8 (8 * Z.of_nat l).

(** The 16 words of a block. *)
Fixpoint words (n : nat) (s : string) : list Z :=
  match n with
  | O => []
  | S n' => be_get (str_take 4 s) :: words n' (str_drop 4 s)
  end.

(** The message schedule, most recent word first. *)
Fixpoint schedule (n : nat) (w : list Z) : list Z :=
  match n with
  | O => w
  | S n' =>
      schedule n' (u32 (sigma1 (nth 1 w 0) + nth 6 w 0 + sigma0 (nth 14 w 0) + nth 15 w 0) :: w)
  end.

Definition round (s : list Z) (kw : Z * Z) : list Z :=
  match s with
  | [a; b; c; d; e; f; g; h] =>
      let t1 := h + big_sigma1 e + ch e f g + kw.1 + kw.2 in
      let t2 := big_sigma0 a + maj a b c in
      [u32 (t1 + t2); a; b; c; u32 (d + t1); e; f; g]
  | _ => s
  end.

Definition compress (hs : list Z) (block : string) : list Z :=
  let w := rev (schedule 48 (rev (words 16 block))) in
  zip_with (fun x y => u32 (x + y)) hs (fold_left round (zip K256 w) hs).

Fixpoint blocks (n : nat) (hs : list Z) (s : string) : list Z :=
  match n with
  | O => hs
  | S n' => blocks n' (compress hs (str_take 64 s)) (str_drop 64 s)
  end.

Definition Sum256 (m : string) : string :=
  let p := pad m in
  foldr (fun w acc => be_put 4 w +:+ acc) EmptyString (blocks (String.length p / 64) H256 p).

(** ** The digest has 32 bytes *)

Lemma round_length s kw : length s = 8%nat -> length (round s kw) = 8%nat.
Proof. destruct s as [|a [|b [|c [|d [|e [|f [|g [|h [|]]]]]]]]]; done. Qed.

Lemma compress_length hs b : length hs = 8%nat -> length (compress hs b) = 8%nat.
Proof.
  intros Hl. unfold compress. rewrite length_zip_with, Hl.
  assert (length (fold_left round (zip K256 (rev (schedule 48 (rev (words 16 b))))) hs) = 8%nat)
    as ->; [|done].
  generalize (zip K256 (rev (schedule 48 (rev (words 16 b))))). intros l. revert hs Hl.
  induction l as [|x l IH]; intros hs Hl; [done|]. apply IH. by apply round_length.
Qed.

Lemma blocks_length n hs s : length hs = 8%nat -> length (blocks n hs s) = 8%nat.
Proof.
  revert hs s. induction n as [|n IH]; intros hs s Hl; [done|].
  cbn [blocks]. apply IH. by apply compress_length.
Qed.

Lemma Sum256_length m : String.length (Sum256 m) = 32%nat.
Proof.
  unfold Sum256. cbv zeta.
  assert (forall l : list Z, String.length (foldr (fun w acc => be_put 4 w +:+ acc) EmptyString l)
                    = (4 * length l)%nat) as ->.
  { induction l as [|x l IH]; [done|]. cbn [foldr length].
    rewrite str_length_app, be_put_length, IH. lia. }
  by rewrite blocks_length.
Qed.

(** The hash functions the witnesses use; [hash256], which the sources call and do not
    declare, is read as SHA-256. *)
Definition sha2_hashes : Hashes := {| sha256 := Sum256; hash256 := Sum256 |}.

Lemma sha2_hashes_ok : HashesOk sha2_hashes.
Proof. split; intros b; apply Sum256_length. Qed.

(** Test vectors of FIPS 180-4. *)
Example Sum256_abc : hex_EncodeToString (Sum256 "abc") =
  "ba7816bf8f01cfea414140de5dae2223b00361a396177a9cb410ff61f20015ad".
Proof. vm_compute. reflexivity. Qed.

Example Sum256_two_blocks :
  hex_EncodeToString (Sum256 "abcdbcdecdefdefgefghfghighijhijkijkljklmklmnlmnomnopnopq") =
  "248d6a61d20638b8e5c026930c3e6039a33ce45964ff2167f6ecedd419db06c1".
Proof. vm_compute. reflexivity. Qed.
