(* ===== verification/Pow.v ===== *)
(** * core/consensus/pow: compact targets, work, retargeting and mining

    [math/big] integers are Rocq's [Z]; [big_Bytes] is [Int.Bytes], the minimal
    big-endian byte string.  The 8-bit and 32-bit arithmetic of the compact form and
    the 64-bit arithmetic of the work score are written out with their wrap-around. *)

From S2P Require Import Prelude GoLang Chain.

(** ** Definitions *)

(** [Int.Bytes]. *)
Definition big_len (t : Z) : nat := if t <=? 0 then 0%nat else Z.to_nat (Z.log2 t / 8 + 1).
Definition big_Bytes (t : Z) : string := be_put (big_len t) t.

(** [b[i]] of a slice read within its bounds. *)
Definition byte_at (i : nat) (b : string) : Z :=
  match String.get i b with Some a => Z_of_byte a | None => 0 end.

Definition CompactToBig (compact : Z) : Z :=
  let exponent := u8 (Z.shiftr compact 24) in
  let mantissa := Z.land compact 8388607 in
  if exponent <=? 3 then
    let shift := u8 (8 * u8 (3 - exponent)) in Z.shiftr mantissa shift
  else
    let shift := u8 (8 * u8 (exponent - 3)) in Z.shiftl mantissa shift.

Definition BigToCompact (target : Z) : Z :=
  if target <=? 0 then 0
  else
    let b := big_Bytes target in
    let exponent := u32 (Z.of_nat (String.length b)) in
    let mantissa :=
      if exponent <=? 3
      then Z.shiftr (be_get b) 8  (* copied right-aligned into four bytes, then >> 8 *)
      else Z.lor (u32 (Z.shiftl (byte_at 0 b) 16))
             (Z.lor (u32 (Z.shiftl (byte_at 1 b) 8)) (byte_at 2 b)) in
    let '(mantissa, exponent) :=
      if negb (Z.land mantissa 8388608 =? 0)
      then (Z.shiftr mantissa 8, u32 (exponent + 1)) else (mantissa, exponent) in
    Z.lor (u32 (Z.shiftl exponent 24)) (Z.land mantissa 8388607).

Definition LeadingZerosToTarget (lz : Z) : Z :=
  if 256 <=? lz then 0 else Z.shiftl 1 (256 - lz) - 1.

Definition HashToBig (h : string) : Z := be_get h.

Definition MeetsTarget (hash : string) (bits : Z) : bool :=
  let target := CompactToBig bits in
  if target <=? 0 then false else HashToBig hash <=? target.

(** The two loops of [Work64] that gather bytes into a 64-bit word. *)
Fixpoint gather (top : Z) (n : nat) (b : string) : Z :=
  match n, b with
  | S n', String a b' => gather (u64 (Z.lor (Z.shiftl top 8) (Z_of_byte a))) n' b'
  | _, _ => top
  end.

(** [^uint64(0) / (top + 1)] panics when [top + 1] wraps to 0. *)
Definition Work64 (bits : Z) : outcome Z :=
  let t := CompactToBig bits in
  if t <=? 0 then Ret 0
  else
    let bb := big_Bytes t in
    let top :=
      if Nat.leb 8 (String.length bb) then gather 0 8 bb
      else u64 (Z.shiftl (gather 0 (String.length bb) bb)
                  (8 * (8 - Z.of_nat (String.length bb)))) in
    if top =? 0 then Ret (M64 - 1)
    else if u64 (top + 1) =? 0 then Panic else Ret ((M64 - 1) / u64 (top + 1)).

Definition Cumulative (parent add : Z) : Z :=
  let sum := u64 (parent + add) in
  if sum <? parent then M64 - 1 else sum.

Definition Retarget (prevBits actualSpanSec targetSpanSec : Z) : Z :=
  if targetSpanSec <=? 0 then prevBits
  else
    let min := Z.quot targetSpanSec 4 in
    let max := i64 (targetSpanSec * 4) in
    let actual := if actualSpanSec <? min then min else actualSpanSec in
    let actual := if max <? actual then max else actual in
    if actual <? targetSpanSec then u32 (prevBits + 1)
    else if targetSpanSec <? actual then (if 1 <? prevBits then u32 (prevBits - 1) else prevBits)
    else prevBits.

Definition set_nonce (h : BlockHeader) (n : Z) : BlockHeader :=
  {| Version := Version h; ChainID := ChainID h; Height := Height h; TimeUnix := TimeUnix h;
     PrevHash := PrevHash h; StateRoot := StateRoot h; HTxRoot := HTxRoot h; Bits := Bits h;
     Nonce := n |}.

Section Mining.
Context {HS : Hashes}.

(** [MineHeader] loops until a nonce meets the target; [fuel] bounds the number of
    attempts.  It returns the hash, the nonce and the header it left behind. *)
Fixpoint MineHeader (fuel : nat) (h : BlockHeader) : option (string * Z * BlockHeader) :=
  match fuel with
  | O => None
  | S f =>
      let hash := HeaderHash h in
      if MeetsTarget hash (Bits h) then Some (hash, Nonce h, h)
      else MineHeader f (set_nonce h (u64 (Nonce h + 1)))
  end.

(** [GenesisBlock]. *)
Definition GenesisBlock (g : Genesis) : Block :=
  {| Header := {|
       Version := g_ProtocolVersion g; ChainID := g_ChainID g; Height := 0;
       TimeUnix := g_GenesisTimeUnix g; PrevHash := list_str (repeat (byte_of_Z 0) 32);
       StateRoot := genesisStateRootPlaceholder g;
       HTxRoot := sha256d "genesis:txroot:none";
       Bits := BigToCompact (LeadingZerosToTarget (g_PoWLeadingZeroBits g));
       Nonce := 0 |};
     Txs := [] |}.
End Mining.

(** ** Bytes of big integers *)

Lemma big_len_bound t : 0 < t ->
  256 ^ (Z.of_nat (big_len t) - 1) <= t < 256 ^ Z.of_nat (big_len t) /\ (1 <= big_len t)%nat.
Proof.
  intros Ht. unfold big_len. rewrite (proj2 (Z.leb_gt _ _)) by lia.
  pose proof (Z.log2_nonneg t) as Hl. pose proof (Z.log2_spec t Ht) as [H1 H2].
  assert (0 <= Z.log2 t / 8) by (apply Z.div_pos; lia).
  rewrite Z2Nat.id by lia. split; [|lia].
  pose proof (Z.div_mod (Z.log2 t) 8). pose proof (Z.mod_pos_bound (Z.log2 t) 8).
  replace (Z.log2 t / 8 + 1 - 1) with (Z.log2 t / 8) by lia.
  change 256 with (2 ^ 8). rewrite <- !Z.pow_mul_r by lia.
  split.
  - etransitivity; [|exact H1]. apply Z.pow_le_mono_r; lia.
  - eapply Z.lt_le_trans; [exact H2|]. apply Z.pow_le_mono_r; lia.
Qed.

Lemma big_len_unique t n :
  (1 <= n)%nat -> 256 ^ (Z.of_nat n - 1) <= t < 256 ^ Z.of_nat n -> big_len t = n.
Proof.
  intros Hn [Hlo Hhi].
  assert (0 < t) as Ht by (pose proof (Z.pow_pos_nonneg 256 (Z.of_nat n - 1)); lia).
  destruct (big_len_bound t Ht) as [[Blo Bhi] Hb].
  assert (Z.of_nat (big_len t) - 1 < Z.of_nat n) by (apply (Z.pow_lt_mono_r_iff 256); lia).
  assert (Z.of_nat n - 1 < Z.of_nat (big_len t)) by (apply (Z.pow_lt_mono_r_iff 256); lia).
  lia.
Qed.

Lemma big_len_scale t k : 0 < t -> big_len (t * 256 ^ Z.of_nat k) = (big_len t + k)%nat.
Proof.
  intros Ht. destruct (big_len_bound t Ht) as [[Hlo Hhi] Hb].
  apply big_len_unique; [lia|].
  rewrite Nat2Z.inj_add.
  replace (Z.of_nat (big_len t) + Z.of_nat k - 1)
    with (Z.of_nat (big_len t) - 1 + Z.of_nat k) by lia.
  rewrite !Z.pow_add_r by lia. pose proof (pow256_pos k). nia.
Qed.

Lemma get_be_put i n t : (i < n)%nat ->
  String.get i (be_put n t) = Some (byte_of_Z (t / 256 ^ Z.of_nat (n - 1 - i))).
Proof.
  revert i. induction n as [|n IH]; intros i Hi; [lia|]. destruct i as [|i].
  - cbn [be_put String.get]. by replace (S n - 1 - 0)%nat with n by lia.
  - cbn [be_put String.get]. rewrite IH by lia. do 5 f_equal. lia.
Qed.

Lemma byte_at_put i n t : (i < n)%nat ->
  byte_at i (be_put n t) = (t / 256 ^ Z.of_nat (n - 1 - i)) mod 256.
Proof. intros Hi. unfold byte_at. rewrite get_be_put by done. apply Z_of_byte_of_Z. Qed.

Lemma be_get_Bytes t : 0 <= t -> be_get (big_Bytes t) = t.
Proof.
  intros Ht. unfold big_Bytes. rewrite be_get_put. apply Z.mod_small.
  destruct (Z.eq_dec t 0) as [->|]; [by compute|].
  destruct (big_len_bound t ltac:(lia)) as [? _]. lia.
Qed.

(** ** Compact targets *)

(** The three leading bytes of a target of at least four bytes, read as one number. *)
Lemma top3_eq t n : (4 <= n)%nat -> 0 <= t < 256 ^ Z.of_nat n ->
  Z.lor (u32 (Z.shiftl (byte_at 0 (be_put n t)) 16))
    (Z.lor (u32 (Z.shiftl (byte_at 1 (be_put n t)) 8)) (byte_at 2 (be_put n t)))
  = t / 256 ^ (Z.of_nat n - 3).
Proof.
  intros Hn Ht. rewrite !byte_at_put by lia.
  replace (Z.of_nat (n - 1 - 2)) with (Z.of_nat n - 3) by lia.
  replace (Z.of_nat (n - 1 - 1)) with (Z.of_nat n - 3 + 1) by lia.
  replace (Z.of_nat (n - 1 - 0)) with (Z.of_nat n - 3 + 2) by lia.
  set (k := Z.of_nat n - 3). assert (0 < 256 ^ k) as Hk by (apply Z.pow_pos_nonneg; lia).
  rewrite !Z.pow_add_r by lia. rewrite <- !Z.div_div by lia.
  assert (0 <= t / 256 ^ k < 16777216) as Hq.
  { split; [apply Z.div_pos; lia|]. apply Z.div_lt_upper_bound; [lia|].
    replace (Z.of_nat n) with (k + 3) in Ht by lia. rewrite Z.pow_add_r in Ht by lia. lia. }
  generalize dependent (t / 256 ^ k). intros q Hq.
  change (256 ^ 2) with 65536. change (256 ^ 1) with 256.
  assert (0 <= q / 65536 < 256) as Hq2 by dlia. rewrite (Z.mod_small (q / 65536)) by lia.
  unfold u32. rewrite !Z.shiftl_mul_pow2 by lia.
  rewrite !(Z.mod_small (_ * _)) by dlia. rewrite <- !Z.shiftl_mul_pow2 by lia.
  rewrite (lor_shiftl _ (q mod 256) 8) by dlia. rewrite lor_shiftl by dlia. dlia.
Qed.

Lemma land_bit23 m : 0 <= m < 16777216 -> Z.land m 8388608 = if m <? 8388608 then 0 else 8388608.
Proof.
  intros Hm. apply Z.bits_inj'. intros i Hi. rewrite Z.land_spec.
  change 8388608 with (2 ^ 23) at 1. rewrite Z.pow2_bits_eqb by lia.
  destruct (Z.eqb_spec 23 i) as [<-|Hne].
  - rewrite andb_true_r.
    destruct (Z.ltb_spec m 8388608).
    + rewrite Z.bits_0. apply Z.bits_above_log2; [lia|]. destruct (Z.eq_dec m 0) as [->|]; [done|].
      apply Z.log2_lt_pow2; lia.
    + change 8388608 with (2 ^ 23). rewrite Z.pow2_bits_true by lia.
      apply Z.testbit_true; [lia|]. change (2 ^ 23) with 8388608. dlia.
  - rewrite andb_false_r. case_goal; [by rewrite Z.bits_0|].
    change 8388608 with (2 ^ 23). rewrite Z.pow2_bits_eqb by lia. symmetry. by apply Z.eqb_neq.
Qed.

Lemma land_mask23 m : 0 <= m -> Z.land m 8388607 = m mod 8388608.
Proof. intros. change 8388607 with (Z.ones 23). by rewrite Z.land_ones by lia. Qed.

(** A compact word of exponent [e] and mantissa [m] denotes [m * 256^(e-3)]. *)
Lemma CompactToBig_word e m : 3 < e <= 34 -> 0 <= m < 8388608 ->
  CompactToBig (Z.lor (u32 (Z.shiftl e 24)) m) = m * 256 ^ (e - 3).
Proof.
  intros He Hm. unfold u32. rewrite Z.shiftl_mul_pow2, Z.mod_small by lia.
  rewrite <- Z.shiftl_mul_pow2, lor_shiftl by lia. unfold CompactToBig.
  rewrite land_mask23, Z.shiftr_div_pow2 by lia. change (2 ^ 24) with 16777216.
  replace ((e * 16777216 + m) / 16777216) with e by dlia.
  replace ((e * 16777216 + m) mod 8388608) with m by dlia.
  unfold u8. rewrite (Z.mod_small e) by lia. rewrite (proj2 (Z.leb_gt e 3)) by lia.
  rewrite (Z.mod_small (e - 3)), (Z.mod_small (8 * _)) by lia.
  rewrite Z.shiftl_mul_pow2 by lia. f_equal.
  change 256 with (2 ^ 8). by rewrite <- Z.pow_mul_r by lia.
Qed.

(** What the compact form keeps of a target of [n >= 4] bytes: the three leading bytes,
    or only two of them when the first one has its high bit set. *)
Definition compact_drop (n : nat) (t : Z) : Z :=
  if t / 256 ^ (Z.of_nat n - 3) <? 8388608 then Z.of_nat n - 3 else Z.of_nat n - 2.

Lemma BigToCompact_word t n : big_len t = n -> (4 <= n <= 32)%nat -> 0 < t ->
  let k := compact_drop n t in
  BigToCompact t = Z.lor (u32 (Z.shiftl (k + 3) 24)) (t / 256 ^ k) /\
  0 <= t / 256 ^ k < 8388608 /\ 32768 <= t / 256 ^ k.
Proof.
  intros Hn Hr Ht. destruct (big_len_bound t Ht) as [Hb _]. rewrite Hn in Hb.
  unfold compact_drop, BigToCompact, big_Bytes. cbv zeta. rewrite (proj2 (Z.leb_gt t 0)), Hn by lia.
  rewrite be_put_length, (u32_id (Z.of_nat n)) by (unfold is_u32; lia).
  rewrite (proj2 (Z.leb_gt (Z.of_nat n) 3)), top3_eq by lia.
  set (k := Z.of_nat n - 3) in *. replace (Z.of_nat n - 2) with (k + 1) by lia.
  assert (0 < 256 ^ k) as Hk by (apply Z.pow_pos_nonneg; lia).
  assert (65536 <= t / 256 ^ k < 16777216) as Hq.
  { replace (Z.of_nat n - 1) with (k + 2) in Hb by lia.
    replace (Z.of_nat n) with (k + 3) in Hb by lia. rewrite !Z.pow_add_r in Hb by lia.
    split; [apply Z.div_le_lower_bound|apply Z.div_lt_upper_bound]; lia. }
  rewrite land_bit23 by lia.
  destruct (Z.ltb_spec (t / 256 ^ k) 8388608); cbn.
  - rewrite land_mask23, Z.mod_small by lia. split; [|lia]. do 3 f_equal. lia.
  - rewrite Z.pow_add_r, <- Z.div_div by lia. change (256 ^ 1) with 256.
    rewrite land_mask23 by (apply Z.shiftr_nonneg; lia).
    rewrite Z.shiftr_div_pow2 by lia. change (2 ^ 8) with 256.
    rewrite Z.mod_small by dlia. split; [|dlia]. do 3 f_equal. rewrite u32_id; unfold is_u32; lia.
Qed.

Lemma Compact_Big_floor t : 16777216 <= t < 2 ^ 256 ->
  let k := compact_drop (big_len t) t in
  1 <= k <= 31 /\ CompactToBig (BigToCompact t) = t / 256 ^ k * 256 ^ k /\ 32768 <= t / 256 ^ k.
Proof.
  intros Ht. destruct (big_len_bound t ltac:(lia)) as [Hb _].
  assert (4 <= big_len t)%nat as H4.
  { assert (256 ^ 3 < 256 ^ Z.of_nat (big_len t)) as H%Z.pow_lt_mono_r_iff by lia; lia. }
  assert (big_len t <= 32)%nat as H32.
  { assert (256 ^ (Z.of_nat (big_len t) - 1) < 256 ^ 32) as H%Z.pow_lt_mono_r_iff by lia; lia. }
  destruct (BigToCompact_word t _ eq_refl ltac:(lia) ltac:(lia)) as (He & Hm & Hl).
  set (k := compact_drop (big_len t) t) in *.
  assert (1 <= k <= 30) by (subst k; unfold compact_drop; case_goal; lia).
  split_and!; [lia|lia| |done].
  rewrite He, CompactToBig_word by lia. by replace (k + 3 - 3) with k by lia.
Qed.

(** Converting a target of at least 2^24 (and of at most 256 bits) to compact form and
    back never makes it larger and loses less than one part in 2^15. *)
Theorem Compact_Big_precision t : 2 ^ 24 <= t < 2 ^ 256 ->
  let r := CompactToBig (BigToCompact t) in r <= t /\ (t - r) * 2 ^ 15 < t.
Proof.
  intros Ht. destruct (Compact_Big_floor t ltac:(lia)) as (Hk & -> & Hq).
  set (k := compact_drop _ _) in *. assert (0 < 256 ^ k) by (apply Z.pow_pos_nonneg; lia).
  pose proof (Z.div_mod t (256 ^ k)). pose proof (Z.mod_pos_bound t (256 ^ k)). nia.
Qed.

(** ** Work *)

(** The cumulative work is the sum clipped at 2^64 - 1. *)
Theorem Cumulative_saturates a b : is_u64 a -> is_u64 b ->
  Cumulative a b = Z.min (a + b) (M64 - 1).
Proof.
  unfold is_u64, Cumulative, u64. intros Ha Hb.
  destruct (Z.lt_ge_cases (a + b) M64).
  - rewrite Z.mod_small by lia. rewrite (proj2 (Z.ltb_ge _ _)) by lia. lia.
  - replace ((a + b) mod M64) with (a + b - M64)
      by (apply Z.mod_unique_pos with 1; lia).
    rewrite (proj2 (Z.ltb_lt _ _)) by lia. lia.
Qed.

Lemma gather_take n : forall top b, (n <= 8)%nat -> (n <= String.length b)%nat ->
  0 <= top < 256 ^ Z.of_nat (8 - n) -> gather top n b = be_get_acc top (str_take n b).
Proof.
  induction n as [|n IH]; intros top b Hn Hl Ht; [done|].
  destruct b as [|a b]; cbn [String.length] in Hl; [lia|].
  cbn [gather str_take be_get_acc]. pose proof (Z_of_byte_range a) as Ha. unfold is_u8 in Ha.
  rewrite lor_shiftl by lia. change (2 ^ 8) with 256.
  assert (top * 256 + Z_of_byte a < 256 ^ Z.of_nat (8 - n)).
  { replace (8 - n)%nat with (S (8 - S n)) by lia. rewrite pow256_S. lia. }
  assert (256 ^ Z.of_nat (8 - n) <= 256 ^ 8) as H8 by (apply Z.pow_le_mono_r; lia).
  rewrite u64_id by (unfold is_u64; lia). apply IH; lia.
Qed.

Lemma take_be_put n k t : (n <= k)%nat ->
  str_take n (be_put k t) = be_put n (t / 256 ^ Z.of_nat (k - n)).
Proof.
  revert k. induction n as [|n IH]; intros [|k] Hk; try done; [lia|].
  cbn [be_put str_take]. rewrite IH by lia. replace (S k - S n)%nat with (k - n)%nat by lia.
  do 2 f_equal. rewrite Z.div_div by (pose proof (pow256_pos (k - n)); pose proof (pow256_pos n); lia).
  rewrite <- Z.pow_add_r by lia. do 2 f_equal. lia.
Qed.

(** The word [Work64] divides by: the target's leading bytes, shifted up to 64 bits. *)
Definition work_top (t : Z) : Z :=
  if Nat.leb 8 (big_len t) then t / 256 ^ (Z.of_nat (big_len t) - 8)
  else t * 256 ^ (8 - Z.of_nat (big_len t)).

Lemma Work64_top bits : 0 < CompactToBig bits ->
  Work64 bits = (let top := work_top (CompactToBig bits) in
    if top =? 0 then Ret (M64 - 1)
    else if u64 (top + 1) =? 0 then Panic else Ret ((M64 - 1) / u64 (top + 1))).
Proof.
  intros Ht. unfold Work64, work_top, big_Bytes. set (t := CompactToBig bits) in *.
  rewrite (proj2 (Z.leb_gt _ _)) by lia. destruct (big_len_bound t Ht) as [Hb Hp].
  rewrite be_put_length. cbv zeta.
  destruct (Nat.leb_spec 8 (big_len t)) as [H8|H8].
  - rewrite gather_take, take_be_put by (rewrite ?be_put_length; simpl; lia).
    fold (be_get (be_put 8 (t / 256 ^ Z.of_nat (big_len t - 8)))). rewrite be_get_put.
    replace (Z.of_nat (big_len t - 8)) with (Z.of_nat (big_len t) - 8) by lia.
    rewrite Z.mod_small; [done|].
    split; [apply Z.div_pos; [lia|]; apply Z.pow_pos_nonneg; lia|].
    apply Z.div_lt_upper_bound; [apply Z.pow_pos_nonneg; lia|].
    rewrite <- Z.pow_add_r by lia. replace (_ - 8 + _) with (Z.of_nat (big_len t)) by lia. lia.
  - rewrite gather_take by (rewrite ?be_put_length; pose proof (pow256_pos (8 - big_len t)); lia).
    pose proof (str_take_all (be_put (big_len t) t)) as Ha. rewrite be_put_length in Ha.
    rewrite Ha. fold (be_get (be_put (big_len t) t)). rewrite be_get_put, (Z.mod_small t) by lia.
    rewrite Z.shiftl_mul_pow2, Z.pow_mul_r by lia. change (2 ^ 8) with 256.
    rewrite u64_id; [done|]. unfold is_u64.
    assert (256 ^ Z.of_nat (big_len t) * 256 ^ (8 - Z.of_nat (big_len t)) = 256 ^ 8) as H256.
    { rewrite <- Z.pow_add_r by lia. f_equal. lia. }
    assert (0 < 256 ^ (8 - Z.of_nat (big_len t))) by (apply Z.pow_pos_nonneg; lia).
    change M64 with (256 ^ 8). nia.
Qed.

(** Scaling a target by whole bytes leaves [work_top] as it is. *)
Lemma work_top_scale m j : 0 < m < 256 ^ 8 ->
  work_top (m * 256 ^ Z.of_nat j) = m * 256 ^ (8 - Z.of_nat (big_len m)).
Proof.
  intros Hm. destruct (big_len_bound m ltac:(lia)) as [Hb Hp].
  assert (big_len m <= 8)%nat as H8.
  { assert (256 ^ (Z.of_nat (big_len m) - 1) < 256 ^ 8) as H%Z.pow_lt_mono_r_iff by lia; lia. }
  unfold work_top. rewrite big_len_scale, Nat2Z.inj_add by lia.
  destruct (Nat.leb_spec 8 (big_len m + j)).
  - replace (Z.of_nat j) with (8 - Z.of_nat (big_len m) + (Z.of_nat (big_len m) + Z.of_nat j - 8))
      at 1 by lia.
    rewrite Z.pow_add_r, Z.mul_assoc, Z.div_mul by (try (apply Z.pow_nonzero); lia). done.
  - rewrite <- Z.mul_assoc, <- Z.pow_add_r by lia. do 2 f_equal. lia.
Qed.

(** Every compact word denotes its mantissa, or the mantissa shifted right, scaled by
    whole bytes: the 8-bit shift amount is a multiple of 8. *)
Lemma CompactToBig_scaled bits : is_u32 bits ->
  exists m j, CompactToBig bits = m * 256 ^ Z.of_nat j /\ 0 <= m < 8388608.
Proof.
  intros Hb. unfold CompactToBig. rewrite land_mask23 by (unfold is_u32 in Hb; lia).
  assert (0 <= bits mod 8388608 < 8388608) as Hm by (apply Z.mod_pos_bound; lia).
  set (e := u8 (Z.shiftr bits 24)). case_goal.
  - exists (Z.shiftr (bits mod 8388608) (u8 (8 * u8 (3 - e)))), 0%nat. split; [simpl; lia|].
    pose proof (u8_range (8 * u8 (3 - e))) as Hs. unfold is_u8 in Hs.
    rewrite Z.shiftr_div_pow2 by lia.
    assert (0 < 2 ^ u8 (8 * u8 (3 - e))) by (apply Z.pow_pos_nonneg; lia).
    split; [apply Z.div_pos; lia|]. apply Z.div_lt_upper_bound; nia.
  - exists (bits mod 8388608), (Z.to_nat (u8 (e - 3) mod 32)). split; [|done].
    pose proof (u8_range (e - 3)) as He. unfold is_u8 in He.
    replace (u8 (8 * u8 (e - 3))) with (8 * (u8 (e - 3) mod 32)) by (unfold u8 at 2; dlia).
    rewrite Z2Nat.id, Z.shiftl_mul_pow2, Z.pow_mul_r by dlia. done.
Qed.

Lemma work_top_bound m : 0 < m < 8388608 ->
  0 < m * 256 ^ (8 - Z.of_nat (big_len m)) < M64 - 1.
Proof.
  intros Hm. destruct (big_len_bound m ltac:(lia)) as [Hb Hp].
  assert (big_len m <= 3)%nat as H3.
  { assert (256 ^ (Z.of_nat (big_len m) - 1) < 256 ^ 3) as H%Z.pow_lt_mono_r_iff by lia; lia. }
  destruct (big_len m) as [|[|[|[|n]]]]; try lia; cbn in Hb |- *; lia.
Qed.

(** The work of a compact target depends only on its significant bytes: [Work64]
    never panics, and targets that differ by a power of 256 score the same work. *)
Theorem Work64_exponent_blind bits : is_u32 bits -> CompactToBig bits <> 0 ->
  exists m j, CompactToBig bits = m * 256 ^ Z.of_nat j /\ 0 < m < 2 ^ 23 /\
    Work64 bits = Ret ((M64 - 1) / (m * 256 ^ (8 - Z.of_nat (big_len m)) + 1)).
Proof.
  intros Hb Hnz. destruct (CompactToBig_scaled bits Hb) as (m & j & He & Hm).
  assert (0 < m) as Hpos by (destruct (Z.eq_dec m 0) as [->|]; lia).
  exists m, j. split_and!; [done|lia|lia|].
  rewrite Work64_top by (rewrite He; pose proof (pow256_pos j); nia).
  rewrite He, work_top_scale by lia. pose proof (work_top_bound m ltac:(lia)). cbv zeta.
  rewrite (proj2 (Z.eqb_neq _ _)) by lia. rewrite u64_id by (unfold is_u64; lia).
  by rewrite (proj2 (Z.eqb_neq _ _)) by lia.
Qed.

(** The comment on [Work64] calls it monotonic, smaller target to larger work. It is
    not: the harder target 255 scores less work than the easier target 256. *)
Theorem Work64_not_monotone :
  exists b1 b2 w1 w2, is_u32 b1 /\ is_u32 b2 /\ 0 < CompactToBig b1 < CompactToBig b2 /\
    Work64 b1 = Ret w1 /\ Work64 b2 = Ret w2 /\ w1 < w2.
Proof.
  exists 50331903, 50331904, 1, 255. unfold is_u32.
  split_and!; try lia; vm_compute; reflexivity.
Qed.

(** ** Retargeting *)

Lemma Retarget_step prev actual target :
  0 < target < 2 ^ 61 -> is_i64 actual ->
  Retarget prev actual target =
    if actual <? target then u32 (prev + 1)
    else if target <? actual then (if 1 <? prev then u32 (prev - 1) else prev) else prev.
Proof.
  intros Ht Ha. unfold Retarget, is_i64 in *. rewrite (proj2 (Z.leb_gt _ _)) by lia.
  rewrite i64_id by (unfold is_i64; lia).
  assert (0 <= Z.quot target 4 < target) by dlia. set (q := Z.quot target 4) in *.
  destruct (Z.ltb_spec actual q) as [Hq|Hq]; destruct (Z.ltb_spec actual target) as [Hc|Hc];
    try lia; destruct (Z.ltb_spec target actual); try lia;
    repeat match goal with
    | |- context [?a <? ?b] =>
        lazymatch constr:((a, b)) with context [if _ then _ else _] => fail | _ => idtac end;
        lazymatch a with 1 => fail | _ => destruct (Z.ltb_spec a b); try lia end
    end; reflexivity.
Qed.

(** [Retarget] moves the compact bits by one step. After a window faster than the
    target span the new compact target is strictly larger, that is easier to meet; after a
    slower window it is strictly smaller, that is harder. The comment above the code asks
    for the opposite direction. *)
Theorem Retarget_direction e m actual target :
  4 <= e <= 32 -> 0 < m < 2 ^ 23 - 1 -> 0 < target < 2 ^ 61 -> is_i64 actual ->
  let prev := Z.lor (u32 (Z.shiftl e 24)) m in
  let next := Retarget prev actual target in
  (actual < target -> CompactToBig prev < CompactToBig next) /\
  (actual = target -> next = prev) /\
  (target < actual -> CompactToBig next < CompactToBig prev).
Proof.
  intros He Hm Ht Ha. cbv zeta. rewrite Retarget_step by done.
  assert (forall k, 0 <= k < 2 ^ 23 -> Z.lor (u32 (Z.shiftl e 24)) k = e * 16777216 + k) as Hw.
  { intros k Hk. rewrite u32_id by (unfold is_u32; rewrite Z.shiftl_mul_pow2; lia).
    by rewrite lor_shiftl by lia. }
  assert (forall d, -1 <= d <= 1 ->
    u32 (Z.lor (u32 (Z.shiftl e 24)) m + d) = Z.lor (u32 (Z.shiftl e 24)) (m + d)) as Hd.
  { intros d Hd. rewrite !Hw by lia. rewrite u32_id by (unfold is_u32; lia). lia. }
  assert (0 < 256 ^ (e - 3)) by (apply Z.pow_pos_nonneg; lia).
  split_and!; intros Hc.
  - rewrite (proj2 (Z.ltb_lt _ _)), (Hd 1), !CompactToBig_word by lia. nia.
  - by rewrite !(proj2 (Z.ltb_ge _ _)) by lia.
  - rewrite (proj2 (Z.ltb_ge actual target)), (proj2 (Z.ltb_lt target actual)) by lia.
    rewrite (proj2 (Z.ltb_lt 1 _)) by (rewrite Hw; lia).
    rewrite <- (Z.add_opp_r _ 1), (Hd (-(1))), !CompactToBig_word by lia. nia.
Qed.

(** ** Mining *)
Section MiningProofs.
Context {HS : Hashes}.

(** The header of the [k]-th attempt. *)
Definition attempt (h : BlockHeader) (k : nat) : BlockHeader :=
  set_nonce h (u64 (Nonce h + Z.of_nat k)).
Definition solves (h : BlockHeader) (k : nat) : bool :=
  MeetsTarget (HeaderHash (attempt h k)) (Bits h).

Lemma attempt_0 h : is_u64 (Nonce h) -> attempt h 0 = h.
Proof.
  intros Hn. unfold attempt. rewrite Z.add_0_r, u64_id by done. by destruct h.
Qed.

Lemma attempt_S h k : attempt (set_nonce h (u64 (Nonce h + 1))) k = attempt h (S k).
Proof.
  unfold attempt, set_nonce; simpl. f_equal. unfold u64. rewrite Zplus_mod_idemp_l.
  f_equal. lia.
Qed.

(** Mining returns exactly the first attempt, counting up from the header's nonce
    modulo 2^64, whose hash meets the header's target; the loop stops as soon as such an
    attempt exists and never otherwise. *)
Theorem MineHeader_first fuel h hash n h' : is_u64 (Nonce h) ->
  MineHeader fuel h = Some (hash, n, h') <->
  exists k, (k < fuel)%nat /\ solves h k = true /\ (forall i, (i < k)%nat -> solves h i = false) /\
    h' = attempt h k /\ hash = HeaderHash h' /\ n = Nonce h'.
Proof.
  revert h. induction fuel as [|fuel IH]; intros h Hn; cbn [MineHeader].
  { split; [done|]. intros (k & Hk & _). lia. }
  assert (solves h 0 = MeetsTarget (HeaderHash h) (Bits h)) as H0.
  { unfold solves. by rewrite attempt_0. }
  assert (forall k, solves (set_nonce h (u64 (Nonce h + 1))) k = solves h (S k)) as HS'.
  { intros k. unfold solves. by rewrite attempt_S. }
  rewrite <- H0. destruct (solves h 0) eqn:E0.
  - split.
    + intros [= <- <- <-]. exists 0%nat. rewrite attempt_0 by done.
      split_and!; try done; try lia.
    + intros (k & Hk & Hs & Hl & -> & -> & ->). destruct k as [|k].
      * by rewrite attempt_0.
      * rewrite (Hl 0%nat) in E0 by lia. done.
  - rewrite IH by apply u64_range. split.
    + intros (k & Hk & Hs & Hl & -> & -> & ->). exists (S k). rewrite <- HS', attempt_S.
      split_and!; try done; try lia. intros [|i] Hi; [done|]. rewrite <- HS'. apply Hl. lia.
    + intros (k & Hk & Hs & Hl & -> & -> & ->). destruct k as [|k]; [congruence|].
      exists k. rewrite HS', attempt_S. split_and!; try done; try lia.
      intros i Hi. rewrite HS'. apply Hl. lia.
Qed.
End MiningProofs.
