(* ===== verification/Storage.v ===== *)
(** * internal/reservestorage: the typed accesses to the key-value store

    One definition per function of the package, over any [LevelDB] and any JSON codec.
    A result [(v, ok, err)] is [Ret (Some v)], [Ret None] (not found) or [Err e]; where
    the code returns [ok = true] together with a decoding error, the result is of type
    [found]. [time.Now().Unix()] is the argument [now]. *)

From S2P Require Import Prelude GoLang KV Chain.

(** ** Data *)

Record Checkpoint := { cp_Height : Z; cp_HashHex : string; cp_TimeUnix : Z }.
Record VoteRecord := {
  vr_Height : Z; vr_BlockHash : string; vr_ChainID : string;
  vr_PubkeyHex : string; vr_SigHex : string; vr_TimeUnix : Z }.
Record Validator := {
  va_PubkeyHex : string; va_Name : string; va_Weight : Z; va_AddedUnix : Z; va_Slashed : bool }.
Record Participant := { pt_ID : string; pt_Weight : Z; pt_AddedAt : Z }.
Record PoPEvent := { ev_ID : string; ev_Type : string; ev_Delta : Z; ev_TimeUnix : Z }.
Record Candidate := { ca_Height : Z; ca_Hash : string; ca_PrevHash : string }.
Record Peer := { pe_Addr : string; pe_AddedUnix : Z }.
Record PeerStat := {
  ps_PubkeyHex : string; ps_Score : Z; ps_BannedUntil : Z; ps_UpdatedUnix : Z }.
Record memTx := { mt_Origin : string; mt_Tx : Tx; mt_ExpiresUnix : Z }.

(** The codecs of the values the store holds. *)
Class Codecs := {
  codec_Block :: JSON Block; codec_Header :: JSON BlockHeader; codec_Tx :: JSON Tx;
  codec_Genesis :: JSON Genesis; codec_Checkpoint :: JSON Checkpoint;
  codec_Vote :: JSON VoteRecord; codec_Validator :: JSON Validator;
  codec_Participant :: JSON Participant; codec_Event :: JSON PoPEvent;
  codec_Candidate :: JSON Candidate; codec_Peer :: JSON Peer;
  codec_PeerStat :: JSON PeerStat; codec_memTx :: JSON memTx;
}.

(** A value, its absence, or a stored text that does not decode: then [ok] is true, the
    error is set and the target holds what decoding left in it. *)
Inductive found (A : Type) : Type := NotFound | Found (a : A) | BadJSON (a : A) (e : goerr).
Arguments NotFound {A}.
Arguments Found {A} a.
Arguments BadJSON {A} a e.

(** The pair [(ok, value)] with the error ignored. *)
Definition found_ok {A} (r : found A) : option A :=
  match r with Found a | BadJSON a _ => Some a | NotFound => None end.

(** ** Keys *)

Definition keyBlockByHash (hashHex : string) : string := "blk:hash:" +:+ hashHex.
Definition keyHashByHeight (h : Z) : string := "blk:height:" +:+ BE_PutUint64 h.
Definition keyHeaderByHash (hashHex : string) : string := "hdr:hash:" +:+ hashHex.
Definition keyHdrHash (hash : string) : string := "hdr:" +:+ hash.
Definition prefHdrAtHeight (h : Z) : string := "hdrh:" +:+ FormatUint h +:+ ":".
Definition keyHdrAtHeight (h : Z) (hash : string) : string :=
  "hdrh:" +:+ FormatUint h +:+ ":" +:+ hash.
Definition keyHeaderTipH : string := "hdrtip:h".
Definition keyHeaderTipHash : string := "hdrtip:hash".
Definition keyFrontierH : string := "sync:frontier_height".
Definition keyFrontierHash : string := "sync:frontier_hash".
Definition keyGenesis : string := "meta:genesis".
Definition keyTipHeight : string := "meta:tip_height".
Definition keyTipBlockID : string := "meta:tip_block_id".
Definition keyTipWork : string := "meta:tip_work".
Definition keyBestChainTip : string := "bestchain:tip_hash".
Definition keyBestAtHeight (h : Z) : string := "besth:" +:+ FormatUint h.
Definition keyWork (hashHex : string) : string := "work:" +:+ hashHex.
Definition keyCumWork (hashHex : string) : string := "cumwork:" +:+ hashHex.
Definition prefCand (height : Z) : string := "cand:" +:+ FormatUint height +:+ ":".
Definition keyCand (height : Z) (hash : string) : string :=
  "cand:" +:+ FormatUint height +:+ ":" +:+ hash.
Definition keyTx (txid : string) : string := "tx:" +:+ txid.
Definition keyCheckpoint (height : Z) : string := "finality:checkpoint:" +:+ FormatUint height.
Definition keyFinalizedHeight : string := "meta:finalized_height".
Definition keyFinalizedHash_meta : string := "meta:finalized_hash".
Definition keyFinalized : string := "finality:finalized_height".
Definition keyFinalizedHash : string := "finality:finalized_hash".
Definition prefVote (height : Z) : string := "finality:vote:" +:+ FormatUint height +:+ ":".
Definition keyVote (height : Z) (pubkeyHex : string) : string :=
  "finality:vote:" +:+ FormatUint height +:+ ":" +:+ pubkeyHex.
Definition keyValidator (pub : string) : string := "pos:validator:" +:+ pub.
Definition keyFeePoolValidators : string := "fees:pool:validators".
Definition keyFeePoolParticipation : string := "fees:pool:participation".
Definition keyFeePoolTreasury : string := "fees:pool:treasury".
Definition keyFeePoolDefense : string := "fees:pool:defense".
Definition keyBlockFees (height : Z) : string := "fees:block:" +:+ FormatUint height.
Definition keyParticipant (id : string) : string := "pop:participant:" +:+ id.
Definition keyScore (id : string) : string := "pop:score:" +:+ id.
Definition keyMempoolTx (id : string) : string := "mempool:tx:" +:+ id.
Definition keySeenTx (id : string) : string := "seen:tx:" +:+ id.
Definition keySeenBlk (h : string) : string := "seen:blk:" +:+ h.
Definition keyPeer (addr : string) : string := "net:peer:" +:+ addr.
Definition keyPeerStat (pub : string) : string := "net:peerstat:" +:+ pub.
Definition keyPeerHdrEnd (peer : string) : string := "peerhdrend:" +:+ peer.
Definition keyPeerHdrFrom (peer : string) : string := "peerhdrfrom:" +:+ peer.
Definition keyPeerGetBlock (peer hash : string) : string :=
  "peergetblk:" +:+ peer +:+ ":" +:+ hash.

(** [%d] of an int64 in event keys. *)
Definition FormatInt (v : Z) : string :=
  if v <? 0 then "-" +:+ FormatUint (- v) else FormatUint v.

(** ** Text helpers *)

(** [strings.SplitN(s, ":", n)] for [n >= 1]. *)
Fixpoint cut_colon (s : string) : option (string * string) :=
  match s with
  | EmptyString => None
  | String c s' =>
      if Ascii.eqb c ":" then Some (EmptyString, s')
      else match cut_colon s' with
           | Some (a, b) => Some (String c a, b)
           | None => None
           end
  end.

Fixpoint SplitN (n : nat) (s : string) : list string :=
  match n with
  | O => []
  | S O => [s]
  | S n' => match cut_colon s with Some (a, b) => a :: SplitN n' b | None => [s] end
  end.

(** [parseU64]: the leading digits, modulo 2^64. *)
Fixpoint parseU64_loop (n : Z) (s : string) : Z :=
  match s with
  | EmptyString => n
  | String c s' =>
      if negb (is_digit c) then n else parseU64_loop (u64 (u64 (n * 10) + digit_val c)) s'
  end.
Definition parseU64 (s : string) : Z := parseU64_loop 0 s.

(** [if limit <= 0 || limit > cap { limit = cap }]. *)
Definition clamp_limit (cap limit : Z) : Z := if (limit <=? 0) || (cap <? limit) then cap else limit.

(** ** Iteration

    What the loop body does with an entry: skip it, append a value, or return an error. *)
Inductive scan_step (A : Type) : Type := Skip | Take (a : A) | Fail (e : goerr).
Arguments Skip {A}.
Arguments Take {A} a.
Arguments Fail {A} e.

(** The loop, which stops once [room] more values have been appended. *)
Fixpoint scan {A} (body : string * string -> scan_step A) (room : Z)
    (l : list (string * string)) : outcome (list A) :=
  match l with
  | [] => Ret []
  | e :: l' =>
      match body e with
      | Fail err => Err err
      | Skip => scan body room l'
      | Take a =>
          if room <=? 1 then Ret [a]
          else match scan body (room - 1) l' with
               | Ret out => Ret (a :: out)
               | o => o
               end
      end
  end.

(** Loop bodies: decode or fail, decode or skip, decode what is possible. *)
Definition dec_fail {A} `{JSON A} (e : string * string) : scan_step A :=
  match json_unmarshal e.2 with Ret a => Take a | Err x => Fail x | Panic => Fail "" end.
Definition dec_skip {A} `{JSON A} (e : string * string) : scan_step A :=
  match json_unmarshal e.2 with Ret a => Take a | _ => Skip end.
Definition dec_any {A} `{JSON A} (e : string * string) : scan_step A :=
  match json_unmarshal e.2 with Ret a => Take a | _ => Take (json_partial e.2) end.

Section Store.
Context {L : LevelDB} {HS : Hashes} {CD : Codecs}.

(** *** Shapes of reads and writes *)

(** Read 8 big-endian bytes; [Uint64] panics on a shorter value. *)
Definition get_be64 (k : string) : GoM db_t (option Z) :=
  let! o := kv_get k in
  match o with
  | None => gret None
  | Some b => let! v := gpart (BE_Uint64 b) in gret (Some v)
  end.

(** The same guarded by [len(b) == 8]; any other length reads as absent. *)
Definition get_be64_len8 (k : string) : GoM db_t (option Z) :=
  let! o := kv_get k in
  match o with
  | None => gret None
  | Some b => gret (if Nat.eqb (String.length b) 8 then BE_Uint64 b else None)
  end.

Definition put_be64 (k : string) (v : Z) : GoM db_t unit := db_put k (BE_PutUint64 v).

Definition put_json {A} `{JSON A} (k : string) (a : A) : GoM db_t unit :=
  let! b := glift (json_marshal a) in db_put k b.

(** [b, _ := json.Marshal(a); _ = db.Put(k, b)]. *)
Definition put_json_best_effort {A} `{JSON A} (k : string) (a : A) : GoM db_t unit :=
  let! b := gignore "" (glift (json_marshal a)) in gignore tt (db_put k b).

Definition get_json_found {A} `{JSON A} (k : string) : GoM db_t (found A) :=
  let! o := kv_get k in
  match o with
  | None => gret NotFound
  | Some b => match json_unmarshal b with
              | Ret a => gret (Found a)
              | Err e => gret (BadJSON (json_partial b) e)
              | Panic => gpanic
              end
  end.

Definition get_json {A} `{JSON A} (k : string) : GoM db_t (option A) :=
  let! o := kv_get k in
  match o with
  | None => gret None
  | Some b => let! a := glift (json_unmarshal b) in gret (Some a)
  end.

Definition has_key (k : string) : GoM db_t bool :=
  let! o := kv_get k in gret (match o with Some _ => true | None => false end).

(** Iterate over a prefix, then report [it.Error()]. *)
Definition scan_prefix {A} (p : string) (body : string * string -> scan_step A)
    (limit : Z) : GoM db_t (list A) :=
  let! (l, err) := kv_iter p in
  let! out := glift (scan body limit l) in
  match err with Some e => gerr e | None => gret out end.

(** *** blocks.go, query.go *)

Definition PutBlock (hashHex : string) (height : Z) (block : Block) : GoM db_t unit :=
  let! b := glift (json_marshal block) in
  db_write [BPut (keyBlockByHash hashHex) b; BPut (keyHashByHeight height) hashHex].

Definition GetHashByHeight (height : Z) : GoM db_t (option string) :=
  kv_get (keyHashByHeight height).

Definition GetBlockByHash (hashHex : string) : GoM db_t (found Block) :=
  get_json_found (keyBlockByHash hashHex).

Definition PutHashByHeightOverwrite (height : Z) (hashHex : string) : GoM db_t unit :=
  db_put (keyHashByHeight height) hashHex.

Definition GetBlockByHeight (height : Z) : GoM db_t (found Block * string) :=
  let! o := GetHashByHeight height in
  match o with
  | None => gret (NotFound, "")
  | Some h => let! r := GetBlockByHash h in gret (r, h)
  end.

(** *** headers.go, headers_index.go (two declarations of PutHeader/GetHeaderByHash) *)

Definition PutHeader_any {A} `{JSON A} (hashHex : string) (header : A) : GoM db_t unit :=
  put_json (keyHeaderByHash hashHex) header.
Definition GetHeaderByHash_any {A} `{JSON A} (hashHex : string) : GoM db_t (found A) :=
  get_json_found (keyHeaderByHash hashHex).

Definition PutHeader (header : BlockHeader) (hash : string) : GoM db_t unit :=
  let! b := gignore "" (glift (json_marshal header)) in
  db_put (keyHdrHash hash) b ;;;
  gignore tt (db_put (keyHdrAtHeight (Height header) hash) (String (byte_of_Z 1) EmptyString)).

Definition GetHeaderByHash (hash : string) : GoM db_t (option BlockHeader) :=
  get_json (keyHdrHash hash).

Definition ListHeaderHashesAtHeight (h limit : Z) : GoM db_t (list string) :=
  scan_prefix (prefHdrAtHeight h)
    (fun e => match SplitN 3 e.1 with [_; _; x] => Take x | _ => Skip end)
    (clamp_limit 5000 limit).

Definition SetHeaderTip (h : Z) (hash : string) : GoM db_t unit :=
  put_be64 keyHeaderTipH h ;;; db_put keyHeaderTipHash hash.

Definition GetHeaderTip : GoM db_t (option (Z * string)) :=
  let! o := get_be64_len8 keyHeaderTipH in
  match o with
  | None => gret None
  | Some h =>
      let! x := gignore None (kv_get keyHeaderTipHash) in
      gret (Some (h, default "" x))
  end.

(** *** headers_frontier.go *)

Definition GetHeaderFrontier : GoM db_t (option (Z * string)) :=
  let! o := get_be64_len8 keyFrontierH in
  match o with
  | None => gret None
  | Some h =>
      let! x := gignore None (kv_get keyFrontierHash) in
      gret (Some (h, default "" x))
  end.

Definition SetHeaderFrontier (h : Z) (hash : string) : GoM db_t unit :=
  put_be64 keyFrontierH h ;;;
  if negb (hash =? "")%string then gignore tt (db_put keyFrontierHash hash) else gret tt.

(** *** headers_gc.go *)

Definition DeleteHeadersBelowHeight (hLimit : Z) : GoM db_t unit :=
  let! (l, _) := kv_iter "hdrh:" in
  gfor l (fun e =>
    match SplitN 3 e.1 with
    | [_; x; _] =>
        let h := parseU64 x in
        if h <? hLimit then gignore tt (db_delete e.1) else gret tt
    | _ => gret tt
    end).

(** *** header_ancestors.go, ancestors.go

    The loops follow parent links; [fuel] bounds the number of steps. [None] is
    running out of it. *)

Fixpoint GetHeaderAncestorHashAtHeight (fuel : nat) (cur : string) (targetHeight : Z)
    : GoM db_t (option (option string)) :=
  match fuel with
  | O => gret None
  | S f =>
      let! o := GetHeaderByHash cur in
      match o with
      | None => gret (Some None)
      | Some hdr =>
          if Height hdr =? targetHeight then gret (Some (Some cur))
          else if Height hdr <? targetHeight then gret (Some None)
          else if Height hdr =? 0 then gret (Some None)
          else GetHeaderAncestorHashAtHeight f (Hash_String (PrevHash hdr)) targetHeight
      end
  end.

Fixpoint GetAncestorHashAtHeight (fuel : nat) (cur : string) (targetHeight : Z)
    : GoM db_t (option (option string)) :=
  match fuel with
  | O => gret None
  | S f =>
      let! o := GetBlockByHash cur in
      match o with
      | BadJSON _ e => gerr e
      | NotFound => gret (Some None)
      | Found b =>
          if Height (Header b) =? targetHeight then gret (Some (Some (Hash_String (BlockHash b))))
          else if Height (Header b) <? targetHeight then gret (Some None)
          else if Height (Header b) =? 0 then gret (Some None)
          else GetAncestorHashAtHeight f (Hash_String (PrevHash (Header b))) targetHeight
      end
  end.

(** *** chainmeta.go *)

Definition HasGenesis : GoM db_t bool := has_key keyGenesis.
Definition PutGenesis (g : Genesis) : GoM db_t unit := put_json keyGenesis g.
Definition GetGenesis : GoM db_t (found Genesis) := get_json_found keyGenesis.

Definition PutTip (height : Z) (blockID : string) : GoM db_t unit :=
  db_put keyTipHeight (json_u64_marshal height) ;;; db_put keyTipBlockID blockID.

Definition GetTip : GoM db_t (option (Z * string)) :=
  let! o := kv_get keyTipHeight in
  match o with
  | None => gret None
  | Some hb =>
      let! height := glift (json_u64_unmarshal hb) in
      let! th := kv_get keyTipBlockID in
      match th with
      | None => gerr "leveldb: not found"
      | Some th => gret (Some (height, th))
      end
  end.

Definition SetTip (height : Z) (hashHex : string) : GoM db_t unit := PutTip height hashHex.

Definition PutTipWork (work : Z) : GoM db_t unit := put_be64 keyTipWork work.
Definition GetTipWork : GoM db_t (option Z) := get_be64 keyTipWork.

(** *** bestchain_marker.go, bestchain_cache.go, work.go, cumwork.go *)

Definition SetBestChainTip (hash : string) : GoM db_t unit := db_put keyBestChainTip hash.
Definition GetBestChainTip : GoM db_t (option string) := kv_get keyBestChainTip.

Definition PutBestHashAtHeight (h : Z) (hash : string) : GoM db_t unit :=
  db_put (keyBestAtHeight h) hash.
Definition GetBestHashAtHeight (h : Z) : GoM db_t (option string) := kv_get (keyBestAtHeight h).

Definition PutWork (hashHex : string) (work : Z) : GoM db_t unit := put_be64 (keyWork hashHex) work.
Definition GetWork (hashHex : string) : GoM db_t (option Z) := get_be64 (keyWork hashHex).

Definition PutCumWork (hashHex : string) (cw : Z) : GoM db_t unit :=
  put_be64 (keyCumWork hashHex) cw.
Definition GetCumWork (hashHex : string) : GoM db_t (option Z) := get_be64_len8 (keyCumWork hashHex).

(** *** candidates.go, txindex.go *)

Definition PutCandidate (c : Candidate) : GoM db_t unit :=
  put_json_best_effort (keyCand (ca_Height c) (ca_Hash c)) c.
Definition DelCandidate (height : Z) (hash : string) : GoM db_t unit :=
  gignore tt (db_delete (keyCand height hash)).
Definition ListCandidatesAtHeight (height limit : Z) : GoM db_t (list Candidate) :=
  scan_prefix (prefCand height) dec_any (clamp_limit 2000 limit).

Definition PutTx (tx : Tx) : GoM db_t unit := put_json (keyTx (TxID tx)) tx.
Definition GetTx (txid : string) : GoM db_t (option Tx) := get_json (keyTx txid).

(** *** checkpoints.go, finality.go, finality_finalized.go, finality_finalized_hash.go *)

Definition PutCheckpoint (height : Z) (cp : Checkpoint) : GoM db_t unit :=
  put_json (keyCheckpoint height) cp.
Definition GetCheckpoint (height : Z) : GoM db_t (option Checkpoint) :=
  get_json (keyCheckpoint height).
Definition ListCheckpoints (limit : Z) : GoM db_t (list Checkpoint) :=
  scan_prefix "finality:checkpoint:" dec_fail (clamp_limit 5000 limit).

Definition GetFinalized : GoM db_t (option (Z * string)) :=
  let! o := kv_get keyFinalizedHeight in
  match o with
  | None => gret None
  | Some hb =>
      let! height := glift (json_u64_unmarshal hb) in
      let! hh := kv_get keyFinalizedHash_meta in
      match hh with
      | None => gerr "leveldb: not found"
      | Some hh => gret (Some (height, hh))
      end
  end.

Definition PutFinalized (height : Z) (hashHex : string) : GoM db_t unit :=
  db_put keyFinalizedHeight (json_u64_marshal height) ;;; db_put keyFinalizedHash_meta hashHex.

Definition PutCheckpoint_any {A} `{JSON A} (height : Z) (checkpoint : A) : GoM db_t unit :=
  put_json (keyCheckpoint height) checkpoint.

Definition GetFinalizedHeight : GoM db_t (option Z) := get_be64_len8 keyFinalized.
Definition SetFinalizedHeight (h : Z) : GoM db_t unit := put_be64 keyFinalized h.
Definition GetFinalizedHash : GoM db_t (option string) := kv_get keyFinalizedHash.
Definition SetFinalizedHash (hash : string) : GoM db_t unit := db_put keyFinalizedHash hash.

(** *** finality_votes.go *)

Definition PutVote (v : VoteRecord) : GoM db_t unit :=
  put_json (keyVote (vr_Height v) (vr_PubkeyHex v)) v.
Definition HasVote (height : Z) (pubkeyHex : string) : GoM db_t bool :=
  has_key (keyVote height pubkeyHex).

(** No limit: the loop runs to the end of the entries. *)
Definition ListVotesForHeight (height : Z) : GoM db_t (list VoteRecord) :=
  let! (l, err) := kv_iter (prefVote height) in
  let! out := glift (scan dec_fail (Z.of_nat (length l) + 1) l) in
  match err with Some e => gerr e | None => gret out end.

(** *** pos_validators.go *)

Definition PutValidator (now : Z) (v : Validator) : GoM db_t unit :=
  let v := if va_AddedUnix v =? 0
           then {| va_PubkeyHex := va_PubkeyHex v; va_Name := va_Name v; va_Weight := va_Weight v;
                   va_AddedUnix := now; va_Slashed := va_Slashed v |}
           else v in
  put_json (keyValidator (va_PubkeyHex v)) v.

Definition GetValidator (pub : string) : GoM db_t (option Validator) :=
  get_json (keyValidator pub).

Definition ListValidators (limit : Z) : GoM db_t (list Validator) :=
  scan_prefix "pos:validator:" dec_fail (clamp_limit 5000 limit).

Definition SlashValidator (now : Z) (pub : string) : GoM db_t unit :=
  let! o := GetValidator pub in
  let v := default {| va_PubkeyHex := pub; va_Name := "unknown"; va_Weight := 0;
                      va_AddedUnix := 0; va_Slashed := false |} o in
  PutValidator now {| va_PubkeyHex := va_PubkeyHex v; va_Name := va_Name v;
                      va_Weight := va_Weight v; va_AddedUnix := va_AddedUnix v;
                      va_Slashed := true |}.

(** *** fees.go, fees_block.go *)

(** An I/O error reads as absent here. *)
Definition getU64 (key : string) : GoM db_t (option Z) :=
  let! o := gignore None (kv_get key) in
  match o with
  | None => gret None
  | Some b => let! v := gpart (BE_Uint64 b) in gret (Some v)
  end.

Definition addU64 (key : string) (add : Z) : GoM db_t unit :=
  let! o := getU64 key in
  let cur := default 0 o in
  let next := u64 (cur + add) in
  put_be64 key next.

Definition AddFeePools (v pop tr def : Z) : GoM db_t unit :=
  (if 0 <? v then gignore tt (addU64 keyFeePoolValidators v) else gret tt) ;;;
  (if 0 <? pop then gignore tt (addU64 keyFeePoolParticipation pop) else gret tt) ;;;
  (if 0 <? tr then gignore tt (addU64 keyFeePoolTreasury tr) else gret tt) ;;;
  (if 0 <? def then gignore tt (addU64 keyFeePoolDefense def) else gret tt) ;;;
  gret tt.

Definition GetFeePools : GoM db_t (gmap string Z) :=
  let add (name : string) (o : option Z) (m : gmap string Z) :=
    match o with Some v => <[name := v]> m | None => m end in
  let! a := getU64 keyFeePoolValidators in
  let! b := getU64 keyFeePoolParticipation in
  let! c := getU64 keyFeePoolTreasury in
  let! d := getU64 keyFeePoolDefense in
  gret (add "defense" d (add "treasury" c (add "participation" b (add "validators" a ∅)))).

Definition SetFeePool (name : string) (value : Z) : GoM db_t unit :=
  if (name =? "validators")%string then put_be64 keyFeePoolValidators value
  else if (name =? "participation")%string then put_be64 keyFeePoolParticipation value
  else if (name =? "treasury")%string then put_be64 keyFeePoolTreasury value
  else if (name =? "defense")%string then put_be64 keyFeePoolDefense value
  else gret tt.

Definition DrainFeePool (name : string) (amount : Z) : GoM db_t (Z * Z) :=
  let! pools := GetFeePools in
  let cur := default 0 (pools !! name) in
  if cur =? 0 then gret (0, 0)
  else
    let amount := if (amount =? 0) || (cur <? amount) then cur else amount in
    let drained := amount in
    let remaining := u64 (cur - amount) in
    SetFeePool name remaining ;;; gret (drained, remaining).

Definition PutBlockFeeSum (height sum : Z) : GoM db_t unit :=
  gignore tt (put_be64 (keyBlockFees height) (u64 sum)).

Definition GetBlockFeeSum (height : Z) : GoM db_t (option Z) :=
  let! o := gignore None (kv_get (keyBlockFees height)) in
  match o with
  | None => gret None
  | Some b =>
      gret (if Nat.eqb (String.length b) 8 then option_map i64 (BE_Uint64 b) else None)
  end.

(** *** pop.go, pop_events.go, pop_scores.go *)

Definition PutParticipant (p : Participant) : GoM db_t unit := put_json (keyParticipant (pt_ID p)) p.
Definition GetParticipant (id : string) : GoM db_t (option Participant) :=
  get_json (keyParticipant id).
Definition ListParticipants (limit : Z) : GoM db_t (list Participant) :=
  scan_prefix "pop:participant:" dec_fail (clamp_limit 5000 limit).

Definition PutPoPEvent (now : Z) (ev : PoPEvent) : GoM db_t unit :=
  let ev := if ev_TimeUnix ev =? 0
            then {| ev_ID := ev_ID ev; ev_Type := ev_Type ev; ev_Delta := ev_Delta ev;
                    ev_TimeUnix := now |} else ev in
  put_json ("pop:event:" +:+ FormatInt (ev_TimeUnix ev) +:+ ":" +:+ ev_ID ev +:+ ":" +:+ ev_Type ev) ev.

Definition GetScore (id : string) : GoM db_t (option Z) := getU64 (keyScore id).

Definition AddScore (id : string) (delta : Z) : GoM db_t unit :=
  let! o := GetScore id in
  let cur := default 0 o in
  let next := u64 (cur + delta) in
  put_be64 (keyScore id) next.

Definition ResetScores : GoM db_t unit :=
  let! (l, _) := kv_iter "pop:score:" in
  db_write (List.map (fun e => BDelete e.1) l).

(** *** mempool_persist.go, mempool_list.go *)

Definition PutMempoolTx (now : Z) (tx : Tx) (ttlSeconds : Z) : GoM db_t unit :=
  put_json_best_effort (keyMempoolTx (TxID tx))
    {| mt_Origin := ""; mt_Tx := tx; mt_ExpiresUnix := i64 (now + ttlSeconds) |}.

Definition PutMempoolTxWithOrigin (now : Z) (tx : Tx) (ttlSeconds : Z) (origin : string)
    : GoM db_t unit :=
  put_json_best_effort (keyMempoolTx (TxID tx))
    {| mt_Origin := origin; mt_Tx := tx; mt_ExpiresUnix := i64 (now + ttlSeconds) |}.

Definition DelMempoolTx (txid : string) : GoM db_t unit :=
  gignore tt (db_delete (keyMempoolTx txid)).

(** The loop of [LoadMempoolTxs]: expired entries are deleted as they are met. *)
Fixpoint LoadMempoolTxs_loop (now room : Z) (l : list (string * string)) : GoM db_t (list Tx) :=
  match l with
  | [] => gret []
  | e :: l' =>
      match json_unmarshal (A := memTx) e.2 with
      | Ret m =>
          if mt_ExpiresUnix m <=? now
          then gignore tt (db_delete e.1) ;;; LoadMempoolTxs_loop now room l'
          else if room <=? 1 then gret [mt_Tx m]
          else let! out := LoadMempoolTxs_loop now (room - 1) l' in gret (mt_Tx m :: out)
      | _ => LoadMempoolTxs_loop now room l'
      end
  end.

Definition LoadMempoolTxs (now limit : Z) : GoM db_t (list Tx) :=
  let! (l, err) := kv_iter "mempool:tx:" in
  let! out := LoadMempoolTxs_loop now (clamp_limit 10000 limit) l in
  match err with Some e => gerr e | None => gret out end.

(** Over the generic maps [A] that [json.Unmarshal] fills. *)
Definition ListPersistedMempool {A} `{JSON A} (limit : Z) : GoM db_t (list A) :=
  scan_prefix "mempool:tx:" dec_any (clamp_limit 5000 limit).

(** *** state_import.go *)

Definition WipeStatePrefixes : GoM db_t unit :=
  gfor ["bal:"; "nonce:"] (fun pref =>
    let! (l, err) := kv_iter pref in
    gfor l (fun e => gignore tt (db_delete e.1)) ;;;
    match err with Some e => gerr e | None => gret tt end).

Definition ImportStateMaps {MO : MapOrder} (bal non : gmap string Z) : GoM db_t unit :=
  gfor (range bal) (fun e => gignore tt (put_be64 ("bal:" +:+ e.1) (u64 e.2))) ;;;
  gfor (range non) (fun e => gignore tt (put_be64 ("nonce:" +:+ e.1) e.2)).

(** *** seen.go *)

Definition MarkSeenTx (now : Z) (id : string) : GoM db_t unit :=
  gignore tt (put_be64 (keySeenTx id) (u64 now)).
Definition HasSeenTx (id : string) : GoM db_t bool := gignore false (has_key (keySeenTx id)).
Definition MarkSeenBlk (now : Z) (h : string) : GoM db_t unit :=
  gignore tt (put_be64 (keySeenBlk h) (u64 now)).
Definition HasSeenBlk (h : string) : GoM db_t bool := gignore false (has_key (keySeenBlk h)).

(** *** peers.go, peerstats.go, peerstats_list.go *)

Definition PutPeer (p : Peer) : GoM db_t unit := put_json (keyPeer (pe_Addr p)) p.
Definition ListPeers (limit : Z) : GoM db_t (list Peer) :=
  scan_prefix "net:peer:" dec_fail (clamp_limit 5000 limit).
Definition HasPeer (addr : string) : GoM db_t bool := has_key (keyPeer addr).

(** A missing entry is returned as [PeerStat{PubkeyHex: pub}] with [ok = false]. *)
Definition GetPeerStat (pub : string) : GoM db_t (PeerStat * bool) :=
  let! o := get_json (keyPeerStat pub) in
  gret match o with
       | Some ps => (ps, true)
       | None => ({| ps_PubkeyHex := pub; ps_Score := 0; ps_BannedUntil := 0;
                     ps_UpdatedUnix := 0 |}, false)
       end.

Definition zero_PeerStat : PeerStat :=
  {| ps_PubkeyHex := ""; ps_Score := 0; ps_BannedUntil := 0; ps_UpdatedUnix := 0 |}.

Definition PutPeerStat (now : Z) (ps : PeerStat) : GoM db_t unit :=
  put_json (keyPeerStat (ps_PubkeyHex ps))
    {| ps_PubkeyHex := ps_PubkeyHex ps; ps_Score := ps_Score ps;
       ps_BannedUntil := ps_BannedUntil ps; ps_UpdatedUnix := now |}.

Definition AddPeerScore (now : Z) (pub : string) (delta : Z) : GoM db_t PeerStat :=
  let! (ps, _) := gignore (zero_PeerStat, false) (GetPeerStat pub) in
  let ps := {| ps_PubkeyHex := pub; ps_Score := i64 (ps_Score ps + delta);
               ps_BannedUntil := ps_BannedUntil ps; ps_UpdatedUnix := ps_UpdatedUnix ps |} in
  gignore tt (PutPeerStat now ps) ;;; gret ps.

Definition BanPeer (now : Z) (pub : string) (seconds : Z) : GoM db_t unit :=
  let! (ps, _) := gignore (zero_PeerStat, false) (GetPeerStat pub) in
  PutPeerStat now {| ps_PubkeyHex := pub; ps_Score := ps_Score ps;
                     ps_BannedUntil := i64 (now + seconds); ps_UpdatedUnix := ps_UpdatedUnix ps |}.

Definition IsBanned (now : Z) (pub : string) : GoM db_t (bool * Z) :=
  let! (ps, ok) := gignore (zero_PeerStat, false) (GetPeerStat pub) in
  gret (if negb ok then (false, 0)
        else if now <? ps_BannedUntil ps then (true, ps_BannedUntil ps) else (false, 0)).

Definition ListPeerStats (limit : Z) : GoM db_t (list PeerStat) :=
  scan_prefix "net:peerstat:" dec_skip (clamp_limit 5000 limit).

Definition UnbanPeer (now : Z) (pub : string) : GoM db_t unit :=
  let! (ps, _) := gignore (zero_PeerStat, false) (GetPeerStat pub) in
  PutPeerStat now {| ps_PubkeyHex := pub; ps_Score := ps_Score ps; ps_BannedUntil := 0;
                     ps_UpdatedUnix := ps_UpdatedUnix ps |}.

(** *** peer_headers_end.go, peer_headers_state.go, peer_getblock.go *)

Definition GetPeerLastHeadersEnd (peer : string) : GoM db_t (option Z) :=
  get_be64_len8 (keyPeerHdrEnd peer).
Definition SetPeerLastHeadersEnd (peer : string) (end_ : Z) : GoM db_t unit :=
  put_be64 (keyPeerHdrEnd peer) end_.
Definition GetPeerLastHeadersFrom (peer : string) : GoM db_t (option Z) :=
  get_be64_len8 (keyPeerHdrFrom peer).
Definition SetPeerLastHeadersFrom (peer : string) (from : Z) : GoM db_t unit :=
  put_be64 (keyPeerHdrFrom peer) from.

Definition MarkPeerGetBlock (now : Z) (peer hash : string) : GoM db_t unit :=
  gignore tt (put_be64 (keyPeerGetBlock peer hash) (u64 now)).

Definition PeerGetBlockRecently (now : Z) (peer hash : string) (withinSec : Z) : GoM db_t bool :=
  let! o := gignore None (kv_get (keyPeerGetBlock peer hash)) in
  match o with
  | None => gret false
  | Some b =>
      if negb (Nat.eqb (String.length b) 8) then gret false
      else let! u := gpart (BE_Uint64 b) in
           let ts := i64 u in
           gret (i64 (now - ts) <=? withinSec)
  end.
End Store.
