(* ===== verification/StorageProps.v ===== *)
(** * Properties of the storage layer

    The keys of the store as a data type ([skey]) whose byte strings never collide, the
    exactness of the vote listing, conservation in the fee pools, the behaviour of the
    ancestor walk, and the put/get round trips. *)

From S2P Require Import Prelude GoLang KV Chain Storage.

(** ** Logical keys *)

Inductive skey : Type :=
| KBlock (h : string) | KHeight (z : Z) | KHdrAny (h : string) | KHdr (h : string)
| KHdrAt (z : Z) (h : string) | KHdrTipH | KHdrTipHash | KFrontierH | KFrontierHash
| KGenesis | KTipHeight | KTipBlockID | KTipWork | KFinHeightMeta | KFinHashMeta
| KBestTip | KBestAt (z : Z) | KWork (h : string) | KCumWork (h : string)
| KCand (z : Z) (h : string) | KTx (h : string) | KCheckpoint (z : Z) | KFinalized
| KFinalizedHash | KVote (z : Z) (p : string) | KValidator (p : string) | KPoolValidators
| KPoolParticipation | KPoolTreasury | KPoolDefense | KBlockFees (z : Z)
| KParticipant (i : string) | KScore (i : string) | KMempool (i : string)
| KSeenTx (i : string) | KSeenBlk (h : string) | KPeer (a : string) | KPeerStat (p : string)
| KPeerHdrEnd (p : string) | KPeerHdrFrom (p : string) | KPeerGetBlock (p h : string)
| KBal (i : string) | KNonce (i : string).

Definition skey_bytes (k : skey) : string :=
  match k with
  | KBlock h => keyBlockByHash h | KHeight z => keyHashByHeight z
  | KHdrAny h => keyHeaderByHash h | KHdr h => keyHdrHash h
  | KHdrAt z h => keyHdrAtHeight z h | KHdrTipH => keyHeaderTipH
  | KHdrTipHash => keyHeaderTipHash | KFrontierH => keyFrontierH
  | KFrontierHash => keyFrontierHash | KGenesis => keyGenesis | KTipHeight => keyTipHeight
  | KTipBlockID => keyTipBlockID | KTipWork => keyTipWork
  | KFinHeightMeta => keyFinalizedHeight | KFinHashMeta => keyFinalizedHash_meta
  | KBestTip => keyBestChainTip | KBestAt z => keyBestAtHeight z | KWork h => keyWork h
  | KCumWork h => keyCumWork h | KCand z h => keyCand z h | KTx h => keyTx h
  | KCheckpoint z => keyCheckpoint z | KFinalized => keyFinalized
  | KFinalizedHash => keyFinalizedHash | KVote z p => keyVote z p
  | KValidator p => keyValidator p | KPoolValidators => keyFeePoolValidators
  | KPoolParticipation => keyFeePoolParticipation | KPoolTreasury => keyFeePoolTreasury
  | KPoolDefense => keyFeePoolDefense | KBlockFees z => keyBlockFees z
  | KParticipant i => keyParticipant i | KScore i => keyScore i | KMempool i => keyMempoolTx i
  | KSeenTx i => keySeenTx i | KSeenBlk h => keySeenBlk h | KPeer a => keyPeer a
  | KPeerStat p => keyPeerStat p | KPeerHdrEnd p => keyPeerHdrEnd p
  | KPeerHdrFrom p => keyPeerHdrFrom p | KPeerGetBlock p h => keyPeerGetBlock p h
  | KBal i => "bal:" +:+ i | KNonce i => "nonce:" +:+ i
  end.

Definition no_colon (s : string) : Prop := ~ In ":"%char (str_list s).

(** Heights are 64-bit; a header hash is not itself of the form [hash:...], and the hash of
    a block request holds no colon (hashes are hex). *)
Definition skey_ok (k : skey) : Prop :=
  match k with
  | KHeight z | KHdrAt z _ | KBestAt z | KCand z _ | KCheckpoint z | KVote z _
  | KBlockFees z => is_u64 z
  | KHdr h => str_prefix "hash:" h = false
  | KPeerGetBlock _ h => no_colon h
  | _ => True
  end.

(** The fixed part of each key, by position in a table. *)
Definition skey_tag (k : skey) : nat :=
  match k with
  | KBlock _ => 0 | KHeight _ => 1 | KHdrAny _ => 2 | KHdr _ => 3 | KHdrAt _ _ => 4
  | KHdrTipH => 5 | KHdrTipHash => 6 | KFrontierH => 7 | KFrontierHash => 8 | KGenesis => 9
  | KTipHeight => 10 | KTipBlockID => 11 | KTipWork => 12 | KFinHeightMeta => 13
  | KFinHashMeta => 14 | KBestTip => 15 | KBestAt _ => 16 | KWork _ => 17 | KCumWork _ => 18
  | KCand _ _ => 19 | KTx _ => 20 | KCheckpoint _ => 21 | KFinalized => 22
  | KFinalizedHash => 23 | KVote _ _ => 24 | KValidator _ => 25 | KPoolValidators => 26
  | KPoolParticipation => 27 | KPoolTreasury => 28 | KPoolDefense => 29 | KBlockFees _ => 30
  | KParticipant _ => 31 | KScore _ => 32 | KMempool _ => 33 | KSeenTx _ => 34
  | KSeenBlk _ => 35 | KPeer _ => 36 | KPeerStat _ => 37 | KPeerHdrEnd _ => 38
  | KPeerHdrFrom _ => 39 | KPeerGetBlock _ _ => 40 | KBal _ => 41 | KNonce _ => 42
  end%nat.

(** The flag says that the entry is the whole key. *)
Definition skey_table : list (string * bool) :=
  [("blk:hash:", false); ("blk:height:", false); ("hdr:hash:", false); ("hdr:", false);
   ("hdrh:", false); ("hdrtip:h", true); ("hdrtip:hash", true); ("sync:frontier_height", true);
   ("sync:frontier_hash", true); ("meta:genesis", true); ("meta:tip_height", true);
   ("meta:tip_block_id", true); ("meta:tip_work", true); ("meta:finalized_height", true);
   ("meta:finalized_hash", true); ("bestchain:tip_hash", true); ("besth:", false);
   ("work:", false); ("cumwork:", false); ("cand:", false); ("tx:", false);
   ("finality:checkpoint:", false); ("finality:finalized_height", true);
   ("finality:finalized_hash", true); ("finality:vote:", false); ("pos:validator:", false);
   ("fees:pool:validators", true); ("fees:pool:participation", true);
   ("fees:pool:treasury", true); ("fees:pool:defense", true); ("fees:block:", false);
   ("pop:participant:", false); ("pop:score:", false); ("mempool:tx:", false);
   ("seen:tx:", false); ("seen:blk:", false); ("net:peer:", false); ("net:peerstat:", false);
   ("peerhdrend:", false); ("peerhdrfrom:", false); ("peergetblk:", false); ("bal:", false);
   ("nonce:", false)].

(** Comparable strings: one is a prefix of the other. *)
Definition comparable (p q : string) : bool := str_prefix p q || str_prefix q p.

Lemma app_comparable p q a b : p +:+ a = q +:+ b -> comparable p q = true.
Proof.
  unfold comparable. revert q. induction p as [|x p IH]; intros [|y q]; try done.
  intros H. change (String x (p +:+ a) = String y (q +:+ b)) in H. injection H as -> H.
  cbn [str_prefix]. rewrite Ascii.eqb_refl. by apply IH in H.
Qed.

Lemma str_app_inj_l p a b : p +:+ a = p +:+ b -> a = b.
Proof. intros H. by apply str_app_inj_length in H as [_ H]. Qed.

Definition skey_entry (t : nat) : string * bool := nth t skey_table ("", false).

(** Can keys of two entries of the table be the same string? *)
Definition clash (e1 e2 : string * bool) : bool :=
  if e1.2 then (if e2.2 then String.eqb e1.1 e2.1 else str_prefix e2.1 e1.1)
  else if e2.2 then str_prefix e1.1 e2.1 else comparable e1.1 e2.1.

(** Only the two declarations of the header index share a prefix. *)
Lemma table_clash t1 t2 : (t1 < 43)%nat -> (t2 < 43)%nat ->
  clash (skey_entry t1) (skey_entry t2) = true ->
  t1 = t2 \/ (t1 = 2 /\ t2 = 3)%nat \/ (t1 = 3 /\ t2 = 2)%nat.
Proof.
  intros H1 H2 Hc.
  assert (forallb (fun i => forallb (fun j =>
    negb (clash (skey_entry i) (skey_entry j)) || Nat.eqb i j
    || (Nat.eqb i 2 && Nat.eqb j 3) || (Nat.eqb i 3 && Nat.eqb j 2)) (List.seq 0 43)) (List.seq 0 43) = true)
    as Hall by (vm_compute; reflexivity).
  rewrite forallb_forall in Hall. specialize (Hall t1 ltac:(apply in_seq; lia)).
  rewrite forallb_forall in Hall. specialize (Hall t2 ltac:(apply in_seq; lia)).
  rewrite Hc in Hall. cbn [negb orb] in Hall.
  repeat rewrite orb_true_iff in Hall. rewrite !andb_true_iff, !Nat.eqb_eq in Hall. tauto.
Qed.

(** A key is its entry of the table, or starts with it. *)
Lemma skey_head k :
  if (skey_entry (skey_tag k)).2 then skey_bytes k = (skey_entry (skey_tag k)).1
  else exists b, skey_bytes k = (skey_entry (skey_tag k)).1 +:+ b.
Proof. destruct k; cbn [skey_tag]; try reflexivity; eexists; reflexivity. Qed.

Lemma skey_tag_lt k : (skey_tag k < 43)%nat.
Proof. destruct k; simpl; lia. Qed.

Lemma skey_tag_eq k1 k2 : skey_ok k1 -> skey_ok k2 ->
  skey_bytes k1 = skey_bytes k2 -> skey_tag k1 = skey_tag k2.
Proof.
  intros O1 O2 He. pose proof (skey_head k1) as H1. pose proof (skey_head k2) as H2.
  destruct (table_clash (skey_tag k1) (skey_tag k2)) as [Ht|[[T1 T2]|[T1 T2]]];
    try apply skey_tag_lt; try done.
  - unfold clash. destruct (skey_entry (skey_tag k1)) as [p1 []];
      destruct (skey_entry (skey_tag k2)) as [p2 []]; cbn [fst snd] in *.
    + rewrite <- H1, <- H2, He. apply String.eqb_refl.
    + destruct H2 as [b H2]. rewrite <- H1, He, H2. apply str_prefix_app.
    + destruct H1 as [b H1]. rewrite <- H2, <- He, H1. apply str_prefix_app.
    + destruct H1 as [b1 H1], H2 as [b2 H2]. apply app_comparable with b1 b2. congruence.
  - destruct k1; try discriminate T1; destruct k2; try discriminate T2.
    cbn [skey_ok] in O2. unfold skey_bytes, keyHeaderByHash, keyHdrHash in He.
    change ("hdr:" +:+ ("hash:" +:+ h) = "hdr:" +:+ h0) in He.
    apply str_app_inj_l in He as <-. by rewrite str_prefix_app in O2.
  - destruct k1; try discriminate T1; destruct k2; try discriminate T2.
    cbn [skey_ok] in O1. unfold skey_bytes, keyHeaderByHash, keyHdrHash in He.
    change ("hdr:" +:+ h = "hdr:" +:+ ("hash:" +:+ h0)) in He.
    apply str_app_inj_l in He as ->. by rewrite str_prefix_app in O1.
Qed.

Lemma height_colon_inj z1 z2 s1 s2 : is_u64 z1 -> is_u64 z2 ->
  FormatUint z1 +:+ ":" +:+ s1 = FormatUint z2 +:+ ":" +:+ s2 -> z1 = z2 /\ s1 = s2.
Proof.
  intros H1 H2 H. apply (str_sep_inj ":") in H as [H ->]; try apply FormatUint_no_colon.
  by apply FormatUint_inj in H.
Qed.

Lemma skey_inj k1 k2 : skey_ok k1 -> skey_ok k2 -> skey_bytes k1 = skey_bytes k2 -> k1 = k2.
Proof.
  intros O1 O2 He. pose proof (skey_tag_eq k1 k2 O1 O2 He) as Ht.
  destruct k1; destruct k2; try discriminate Ht; try reflexivity;
    cbn [skey_bytes skey_ok] in *; apply str_app_inj_l in He;
    first
      [ by rewrite He
      | by apply be_put_inj in He as ->
      | by apply FormatUint_inj in He as ->
      | by apply height_colon_inj in He as [-> ->]
      | by apply (str_sep_inj_r ":") in He as [-> ->] ].
Qed.

#[export] Instance skey_eq_dec : EqDecision skey.
Proof. solve_decision. Defined.

Section Typed.
Context {L : LevelDB} {HL : LevelDBOk L}.

(** The store behaves as one map over logical keys: writing under a key changes what
    is read under that key and under no other, although all components share one flat
    name space of byte strings. *)
Theorem skey_put_get k1 k2 v d : skey_ok k1 -> skey_ok k2 ->
  exists d', db_put (skey_bytes k1) v d = (Ret tt, d') /\
    kv_get (skey_bytes k2) d' =
      (Ret (if decide (k1 = k2) then Some v else db_view d !! skey_bytes k2), d').
Proof.
  intros O1 O2. rewrite db_put_ok. eexists. split; [done|].
  rewrite kv_get_ok, db_view_ins. case_decide as Hk; [subst; by rewrite lookup_insert_eq|].
  rewrite lookup_insert_ne; [done|]. intros He. by apply skey_inj in He.
Qed.
End Typed.

(** ** Listings *)

Lemma scan_take {A} (body : string * string -> scan_step A) f l : forall room,
  (forall e, In e l -> body e = Take (f e)) -> Z.of_nat (length l) <= room ->
  scan body room l = Ret (List.map f l).
Proof.
  induction l as [|e l IH]; intros room Hb Hr; [done|]. cbn [scan List.map length] in *.
  rewrite (Hb e (or_introl eq_refl)). destruct (Z.leb_spec room 1).
  - destruct l; [done|]. cbn [length] in Hr. lia.
  - rewrite IH; [done|intros x Hx; apply Hb; by right|lia].
Qed.

Lemma sorted_keys_NoDup l : StronglySorted key_lt l -> NoDup l.*1.
Proof.
  induction 1 as [|e l _ IH Hall]; [constructor|]. rewrite fmap_cons. constructor; [|done].
  intros (x & He & Hx)%list_elem_of_fmap. rewrite Forall_forall in Hall.
  destruct (Hall x Hx) as [_ Hne]. congruence.
Qed.

Section Votes.
Context {L : LevelDB} {HL : LevelDBOk L} {CD : Codecs}.
Context {U : Utf8 VoteRecord} {HJ : JSONOk VoteRecord}.

(** Every stored vote decodes to a record that agrees with its key. *)
Definition votes_wf (d : db_t) : Prop :=
  forall h p b, is_u64 h -> db_view d !! keyVote h p = Some b ->
    exists r, json_unmarshal b = Ret r /\ vr_Height r = h /\ vr_PubkeyHex r = p.

Definition stored_vote (d : db_t) (r : VoteRecord) : Prop :=
  exists b, db_view d !! keyVote (vr_Height r) (vr_PubkeyHex r) = Some b /\ json_unmarshal b = Ret r.

Lemma prefVote_key h k : str_prefix (prefVote h) k = true -> exists p, k = keyVote h p.
Proof.
  intros [p ->]%str_prefix_spec. exists p. unfold keyVote, prefVote.
  by rewrite !str_app_assoc.
Qed.

Lemma keyVote_prefix h p : str_prefix (prefVote h) (keyVote h p) = true.
Proof.
  apply str_prefix_spec. exists p. unfold keyVote, prefVote. by rewrite !str_app_assoc.
Qed.

Lemma keyVote_inj h1 h2 p1 p2 : is_u64 h1 -> is_u64 h2 ->
  keyVote h1 p1 = keyVote h2 p2 -> h1 = h2 /\ p1 = p2.
Proof.
  intros H1 H2 He. by apply (skey_inj (KVote h1 p1) (KVote h2 p2)) in He as [= -> ->].
Qed.

Lemma ListVotes_run d h : votes_wf d -> is_u64 h ->
  exists out, ListVotesForHeight h d = (Ret out, d) /\ NoDup (List.map vr_PubkeyHex out) /\
    forall r, In r out <-> stored_vote d r /\ vr_Height r = h.
Proof.
  intros Hwf Hh. unfold ListVotesForHeight. erewrite gbind_ret by apply kv_iter_ok. cbv beta iota.
  destruct (db_entries_ok (prefVote h) d) as [Hs Hin]. set (l := db_entries _ d) in *.
  assert (forall e, In e l -> exists r, json_unmarshal e.2 = Ret r /\ vr_Height r = h /\
            e.1 = keyVote h (vr_PubkeyHex r)) as Hl.
  { intros [k b] [Hk Hp]%Hin. apply prefVote_key in Hp as [p ->].
    destruct (Hwf h p b Hh Hk) as (r & Hu & Hhr & Hpr). exists r. cbn. by rewrite Hpr. }
  set (f := fun e : string * string =>
    match json_unmarshal (A := VoteRecord) e.2 with Ret r => r | _ => json_partial e.2 end).
  erewrite gbind_ret; cycle 1.
  { unfold glift. rewrite (scan_take _ f l); [done| |lia].
    intros e He. destruct (Hl e He) as (r & Hu & _). unfold dec_fail, f. by rewrite Hu. }
  eexists. split; [reflexivity|]. split.
  - apply sorted_keys_NoDup in Hs. revert Hs Hl. clear Hin. induction l as [|e l IH]; [constructor|].
    rewrite fmap_cons, NoDup_cons. intros [Hni Hnd] Hl. cbn [List.map]. constructor.
    + intros Hm%list_elem_of_In%in_map_iff. destruct Hm as (r' & Hp & (e' & <- & He')%in_map_iff).
      apply Hni, list_elem_of_fmap. exists e'. split; [|by apply list_elem_of_In].
      destruct (Hl e (or_introl eq_refl)) as (r1 & U1 & _ & K1).
      destruct (Hl e' (or_intror He')) as (r2 & U2 & _ & K2).
      unfold f in Hp. rewrite U1, U2 in Hp. congruence.
    + apply IH; [done|]. intros x Hx. apply Hl. by right.
  - intros r. rewrite in_map_iff. split.
    + intros (e & <- & He). destruct (Hl e He) as (r & Hu & Hr & Hk).
      unfold f. rewrite Hu. split; [|done]. exists e.2. rewrite Hr, <- Hk.
      destruct e as [k b]. apply Hin in He as [He _]. done.
    + intros [(b & Hb & Hu) Hr]. exists (keyVote (vr_Height r) (vr_PubkeyHex r), b).
      unfold f. cbn. rewrite Hu. split; [done|]. apply Hin. rewrite Hr in *.
      split; [done|apply keyVote_prefix].
Qed.

Lemma PutVote_run v d : utf8_ok v = true ->
  exists b, json_marshal v = Ret b /\ json_unmarshal b = Ret v /\
    PutVote v d = (Ret tt, db_ins (keyVote (vr_Height v) (vr_PubkeyHex v)) b d).
Proof.
  intros Hu. destruct (json_round_trip v Hu) as (b & Hm & Hd). exists b. split_and!; [done..|].
  unfold PutVote, put_json. rewrite Hm. erewrite gbind_ret by reflexivity. apply db_put_ok.
Qed.

(** Recording a vote keeps the vote table well formed, and a later listing of a height
    holds the new vote once, every other stored vote of that height, and nothing else: a
    second vote by the same key for the same height replaces the first. *)
Theorem PutVote_listing v d h : votes_wf d -> utf8_ok v = true -> is_u64 (vr_Height v) -> is_u64 h ->
  exists d' out, PutVote v d = (Ret tt, d') /\ votes_wf d' /\
    ListVotesForHeight h d' = (Ret out, d') /\ NoDup (List.map vr_PubkeyHex out) /\
    forall r, In r out <->
      (r = v /\ vr_Height v = h) \/
      (stored_vote d r /\ vr_Height r = h /\
       ~ (vr_Height v = h /\ vr_PubkeyHex v = vr_PubkeyHex r)).
Proof.
  intros Hwf Hu Hv Hh. destruct (PutVote_run v d Hu) as (b & Hm & Hd & Hrun).
  set (d' := db_ins _ b d) in *.
  assert (votes_wf d') as Hwf'.
  { intros h' p' b' Hh' Hb'. unfold d' in Hb'. rewrite db_view_ins in Hb'.
    apply lookup_insert_Some in Hb' as [[Hk <-]|[_ Hb']]; [|by apply Hwf].
    apply keyVote_inj in Hk as [<- <-]; [|done..]. by exists v. }
  destruct (ListVotes_run d' h Hwf' Hh) as (out & Hl & Hnd & Hin).
  exists d', out. split_and!; [done..|]. intros r. rewrite Hin. unfold stored_vote, d'.
  rewrite db_view_ins. split.
  - intros [(b' & Hb' & Hr) Hrh].
    apply lookup_insert_Some in Hb' as [[Hk <-]|[Hk Hb']].
    + left. rewrite Hd in Hr. injection Hr as <-. done.
    + right. split_and!; [by exists b'|done|]. intros [H1 H2]. apply Hk. by rewrite H1, H2, Hrh.
  - intros [[-> Hvh]|((b' & Hb' & Hr) & Hrh & Hne)].
    + split; [|done]. exists b. by rewrite lookup_insert_eq.
    + split; [|done]. exists b'. rewrite lookup_insert_ne; [done|].
      intros Hk. apply keyVote_inj in Hk; [naive_solver congruence|done|by rewrite Hrh].
Qed.
End Votes.

(** ** 64-bit counters and the fee pools *)

Definition cell_ok (m : gmap string string) (k : string) : Prop :=
  match m !! k with Some b => String.length b = 8%nat | None => True end.
Definition cell (m : gmap string string) (k : string) : Z :=
  match m !! k with Some b => be_get b | None => 0 end.

Lemma cell_range m k : cell_ok m k -> is_u64 (cell m k).
Proof.
  unfold cell_ok, cell. destruct (m !! k) as [b|]; [|done]. intros Hb. by apply BE_Uint64_8.
Qed.

Lemma cell_ok_put m k k' v : cell_ok m k' -> cell_ok (<[k := BE_PutUint64 v]> m) k'.
Proof.
  unfold cell_ok. destruct (decide (k = k')) as [->|];
    [by rewrite lookup_insert_eq, BE_PutUint64_length|by rewrite lookup_insert_ne].
Qed.

Lemma cell_put m k k' v :
  cell (<[k := BE_PutUint64 v]> m) k' = if decide (k = k') then u64 v else cell m k'.
Proof.
  unfold cell. case_decide as Hk; [subst|by rewrite lookup_insert_ne].
  rewrite lookup_insert_eq. unfold BE_PutUint64. by rewrite be_get_put.
Qed.

Definition pool_keys : list string :=
  [keyFeePoolValidators; keyFeePoolParticipation; keyFeePoolTreasury; keyFeePoolDefense].

Section Pools.
Context {L : LevelDB} {HL : LevelDBOk L}.

Definition pools_ok (d : db_t) : Prop := forall k, In k pool_keys -> cell_ok (db_view d) k.
Definition pool (d : db_t) (k : string) : Z := cell (db_view d) k.

Lemma getU64_run d k : cell_ok (db_view d) k ->
  getU64 k d = (Ret (option_map be_get (db_view d !! k)), d).
Proof.
  unfold cell_ok, getU64. intros Hk.
  erewrite gbind_ret by (apply gignore_ret, kv_get_ok).
  destruct (db_view d !! k) as [b|]; [|done]. cbn [option_map].
  destruct (BE_Uint64_8 b Hk) as [-> _]. done.
Qed.

Lemma get_be64_len8_run k d : cell_ok (db_view d) k ->
  get_be64_len8 k d = (Ret (option_map be_get (db_view d !! k)), d).
Proof.
  intros Hok. unfold get_be64_len8. erewrite gbind_ret by apply kv_get_ok.
  unfold cell_ok in Hok. destruct (db_view d !! k) as [b|]; [|done].
  rewrite Hok. cbn [Nat.eqb]. by rewrite (proj1 (BE_Uint64_8 b Hok)).
Qed.

Lemma addU64_run d k v : cell_ok (db_view d) k ->
  addU64 k v d = (Ret tt, db_ins k (BE_PutUint64 (u64 (pool d k + v))) d).
Proof.
  intros Hk. unfold addU64. erewrite gbind_ret by (by apply getU64_run).
  unfold put_be64. rewrite db_put_ok. unfold pool, cell.
  by destruct (db_view d !! k).
Qed.

(** One conditional [addU64] of [AddFeePools]. *)
Lemma add_pool_run d k v : pools_ok d -> In k pool_keys -> is_u64 v ->
  exists d', (if 0 <? v then gignore tt (addU64 k v) else gret tt) d = (Ret tt, d') /\
    pools_ok d' /\ forall k', pool d' k' =
      if decide (k = k') then u64 (pool d k + v) else pool d k'.
Proof.
  intros Hok Hk Hv. destruct (Z.ltb_spec 0 v) as [Hp|Hp].
  - eexists. split_and!.
    + apply gignore_ret, addU64_run. by apply Hok.
    + intros k' Hk'. rewrite db_view_ins. by apply cell_ok_put, Hok.
    + intros k'. unfold pool. rewrite db_view_ins, cell_put. case_decide; [|done].
      by rewrite (u64_id (u64 _)) by apply u64_range.
  - exists d. split_and!; [done..|]. intros k'. case_decide as He; [subst k'|done].
    unfold is_u64 in Hv. replace v with 0 by lia. rewrite Z.add_0_r.
    symmetry. apply u64_id. by apply cell_range, Hok.
Qed.

Lemma AddFeePools_run d v pop tr def : pools_ok d ->
  is_u64 v -> is_u64 pop -> is_u64 tr -> is_u64 def ->
  exists d', AddFeePools v pop tr def d = (Ret tt, d') /\ pools_ok d' /\
    pool d' keyFeePoolValidators = u64 (pool d keyFeePoolValidators + v) /\
    pool d' keyFeePoolParticipation = u64 (pool d keyFeePoolParticipation + pop) /\
    pool d' keyFeePoolTreasury = u64 (pool d keyFeePoolTreasury + tr) /\
    pool d' keyFeePoolDefense = u64 (pool d keyFeePoolDefense + def).
Proof.
  intros Hok H1 H2 H3 H4. unfold AddFeePools.
  destruct (add_pool_run d keyFeePoolValidators v Hok ltac:(by left) H1) as (d1 & R1 & O1 & P1).
  destruct (add_pool_run d1 keyFeePoolParticipation pop O1 ltac:(right; by left) H2)
    as (d2 & R2 & O2 & P2).
  destruct (add_pool_run d2 keyFeePoolTreasury tr O2 ltac:(do 2 right; by left) H3)
    as (d3 & R3 & O3 & P3).
  destruct (add_pool_run d3 keyFeePoolDefense def O3 ltac:(do 3 right; by left) H4)
    as (d4 & R4 & O4 & P4).
  exists d4. rewrite (gbind_ret _ _ _ _ _ R1), (gbind_ret _ _ _ _ _ R2),
    (gbind_ret _ _ _ _ _ R3), (gbind_ret _ _ _ _ _ R4).
  split_and!; [done..| | | |]; repeat first [rewrite P4|rewrite P3|rewrite P2|rewrite P1];
    repeat case_decide; try done.
Qed.

(** The store key of a pool name. *)
Definition pool_key (name : string) : option string :=
  if (name =? "validators")%string then Some keyFeePoolValidators
  else if (name =? "participation")%string then Some keyFeePoolParticipation
  else if (name =? "treasury")%string then Some keyFeePoolTreasury
  else if (name =? "defense")%string then Some keyFeePoolDefense else None.

Lemma pool_key_in name k : pool_key name = Some k -> In k pool_keys.
Proof. unfold pool_key. repeat case_goal; intros [= <-]; simpl; tauto. Qed.

Lemma SetFeePool_run name k v d : pool_key name = Some k ->
  SetFeePool name v d = (Ret tt, db_ins k (BE_PutUint64 v) d).
Proof.
  unfold pool_key, SetFeePool, put_be64. intros H.
  repeat case_goal; simplify_eq; by rewrite db_put_ok.
Qed.

Lemma GetFeePools_run d : pools_ok d ->
  exists m, GetFeePools d = (Ret m, d) /\
    forall name k, pool_key name = Some k -> default 0 (m !! name) = pool d k.
Proof.
  intros Hok. unfold GetFeePools.
  erewrite gbind_ret by (apply getU64_run, Hok; by left).
  erewrite gbind_ret by (apply getU64_run, Hok; right; by left).
  erewrite gbind_ret by (apply getU64_run, Hok; do 2 right; by left).
  erewrite gbind_ret by (apply getU64_run, Hok; do 3 right; by left).
  eexists. split; [reflexivity|]. intros name k Hk. unfold pool, cell.
  unfold pool_key in Hk. repeat case_hyp Hk; zbool; simplify_eq;
    destruct (db_view d !! keyFeePoolValidators), (db_view d !! keyFeePoolParticipation),
      (db_view d !! keyFeePoolTreasury), (db_view d !! keyFeePoolDefense);
    cbn [option_map]; reflexivity.
Qed.

Lemma DrainFeePool_run d name k amount : pools_ok d -> pool_key name = Some k -> is_u64 amount ->
  let drained := if (amount =? 0) || (pool d k <? amount) then pool d k else amount in
  exists d', DrainFeePool name amount d = (Ret (drained, pool d k - drained), d') /\
    db_view d' = (if pool d k =? 0 then db_view d
                  else <[k := BE_PutUint64 (pool d k - drained)]> (db_view d)).
Proof.
  intros Hok Hk Ha. unfold is_u64 in Ha.
  pose proof (cell_range _ _ (Hok k (pool_key_in _ _ Hk))) as Hr.
  fold (pool d k) in Hr. unfold is_u64 in Hr. cbv zeta.
  destruct (GetFeePools_run d Hok) as (m & Hm & Hpools).
  unfold DrainFeePool. erewrite gbind_ret by exact Hm. cbv zeta. rewrite (Hpools _ _ Hk).
  destruct (Z.eqb_spec (pool d k) 0) as [Hz|Hz].
  - exists d. rewrite Hz. split; [|done]. unfold gret. do 3 f_equal; destruct (Z.eqb_spec amount 0), (Z.ltb_spec 0 amount); cbn; lia.
  - assert (0 <= pool d k - (if (amount =? 0) || (pool d k <? amount) then pool d k else amount) < M64)
      as Hd by (destruct (Z.eqb_spec amount 0), (Z.ltb_spec (pool d k) amount); cbn; lia).
    rewrite u64_id by exact Hd. erewrite gbind_ret by (by apply SetFeePool_run).
    eexists. split; [reflexivity|]. by rewrite db_view_ins.
Qed.

(** Draining a fee pool takes at most the pool, leaves exactly the rest in it, and
    touches no other pool; amount 0 drains it all. *)
Theorem DrainFeePool_conserves d name k amount :
  pools_ok d -> pool_key name = Some k -> is_u64 amount ->
  exists d' drained remaining,
    DrainFeePool name amount d = (Ret (drained, remaining), d') /\ pools_ok d' /\
    drained + remaining = pool d k /\ 0 <= drained /\ pool d' k = remaining /\
    drained = (if amount =? 0 then pool d k else Z.min amount (pool d k)) /\
    forall k', k' <> k -> pool d' k' = pool d k'.
Proof.
  intros Hok Hk Ha. pose proof (cell_range _ _ (Hok k (pool_key_in _ _ Hk))) as Hr.
  fold (pool d k) in Hr. unfold is_u64 in Hr, Ha.
  destruct (DrainFeePool_run d name k amount Hok Hk Ha) as (d' & Hrun & Hv).
  set (dr := if (amount =? 0) || (pool d k <? amount) then pool d k else amount) in *.
  assert (dr = if amount =? 0 then pool d k else Z.min amount (pool d k)) as Hdr.
  { unfold dr. destruct (Z.eqb_spec amount 0), (Z.ltb_spec (pool d k) amount); cbn; lia. }
  assert (0 <= dr <= pool d k) by (rewrite Hdr; case_goal; lia).
  exists d', dr, (pool d k - dr). unfold pools_ok, pool in *. rewrite Hv.
  destruct (Z.eqb_spec (cell (db_view d) k) 0) as [Hz|Hz].
  - split_and!; [done|done|lia..|done|done].
  - split_and!; [done| |lia|lia| |done|].
    + intros k' Hk'. by apply cell_ok_put, Hok.
    + rewrite cell_put, decide_True by done. apply u64_id. unfold is_u64. lia.
    + intros k' Hne. by rewrite cell_put, decide_False.
Qed.
End Pools.

(** ** Walking parent links *)
Section Ancestors.
Context {L : LevelDB} {HL : LevelDBOk L} {HS : Hashes} {CD : Codecs}.

(** The block stored under a hash. *)
Definition block_at (d : db_t) (h : string) : option Block :=
  match db_view d !! keyBlockByHash h with
  | Some b => match json_unmarshal b with Ret x => Some x | _ => None end
  | None => None
  end.

(** Stored blocks decode, and a stored parent is one lower than its child. *)
Record linked (d : db_t) : Prop := {
  linked_decodes : forall h b, db_view d !! keyBlockByHash h = Some b ->
    exists x, json_unmarshal (A := Block) b = Ret x;
  linked_nonneg : forall h b, block_at d h = Some b -> 0 <= Height (Header b);
  linked_parent : forall h b p, block_at d h = Some b ->
    block_at d (Hash_String (PrevHash (Header b))) = Some p ->
    Height (Header p) = Height (Header b) - 1;
}.

(** [b] is reached from the block stored under [h] by following parent links. *)
Inductive ancestor (d : db_t) : string -> Block -> Prop :=
| anc_here h b : block_at d h = Some b -> ancestor d h b
| anc_up h b a : block_at d h = Some b ->
    ancestor d (Hash_String (PrevHash (Header b))) a -> ancestor d h a.

Lemma GetBlockByHash_run d h : linked d ->
  GetBlockByHash h d =
    (Ret match block_at d h with Some b => Found b | None => NotFound end, d).
Proof.
  intros Hl. unfold GetBlockByHash, get_json_found. erewrite gbind_ret by apply kv_get_ok.
  unfold block_at. destruct (db_view d !! keyBlockByHash h) as [b|] eqn:E; [|done].
  destruct (linked_decodes d Hl h b E) as [x ->]. done.
Qed.

Lemma ancestor_height d h a : linked d -> ancestor d h a ->
  forall b, block_at d h = Some b -> a = b \/ Height (Header a) < Height (Header b).
Proof.
  intros Hl. induction 1 as [h b Hb|h b a Hb Ha IH]; intros b' Hb'; [left; congruence|].
  right. assert (b' = b) as -> by congruence.
  assert (exists p, block_at d (Hash_String (PrevHash (Header b))) = Some p) as [p Hp]
    by (inversion Ha; eauto).
  pose proof (linked_parent d Hl _ _ _ Hb Hp). destruct (IH p Hp) as [->|]; lia.
Qed.

(** On a store whose parents are one block lower than their children the walk ends
    within as many steps as the tip is high, and it returns a hash exactly when the tip has
    a stored ancestor (or is itself a block) at the wanted height, namely that block's
    hash. *)
Lemma GetAncestorHashAtHeight_total d tip b target fuel :
  linked d -> block_at d tip = Some b -> 0 <= target ->
  (Z.to_nat (Height (Header b)) < fuel)%nat ->
  exists r, GetAncestorHashAtHeight fuel tip target d = (Ret (Some r), d) /\
    forall h, r = Some h <->
      exists a, ancestor d tip a /\ Height (Header a) = target /\ h = Hash_String (BlockHash a).
Proof.
  intros Hl Hb Ht. revert tip b Hb. induction fuel as [|fuel IH]; intros tip b Hb Hf; [lia|].
  pose proof (linked_nonneg d Hl _ _ Hb) as Hnn.
  cbn [GetAncestorHashAtHeight]. erewrite gbind_ret by (by apply GetBlockByHash_run).
  rewrite Hb. pose proof (fun a Ha => ancestor_height d tip a Hl Ha b Hb) as Hlow.
  destruct (Z.eqb_spec (Height (Header b)) target) as [He|He].
  { eexists. split; [reflexivity|]. intros h. split.
    - intros [= <-]. exists b. split_and!; [by constructor|done|done].
    - intros (a & Ha & Hat & ->). destruct (Hlow a Ha) as [->|]; [done|lia]. }
  assert (forall x : option string, (forall a, ancestor d tip a -> Height (Header a) <> target) ->
    x = None -> forall h, x = Some h <->
      exists a, ancestor d tip a /\ Height (Header a) = target /\ h = Hash_String (BlockHash a))
    as Hnone by naive_solver.
  destruct (Z.ltb_spec (Height (Header b)) target).
  { eexists. split; [reflexivity|]. apply Hnone; [|done].
    intros a Ha. destruct (Hlow a Ha) as [->|]; lia. }
  destruct (Z.eqb_spec (Height (Header b)) 0); [lia|].
  destruct (block_at d (Hash_String (PrevHash (Header b)))) as [p|] eqn:Hp.
  - pose proof (linked_parent d Hl _ _ _ Hb Hp).
    pose proof (linked_nonneg d Hl _ _ Hp).
    destruct (IH _ p Hp ltac:(lia)) as (r & Hrun & Hr). exists r. split; [done|].
    intros h. rewrite Hr. split; intros (a & Ha & Hat & ->); exists a; split_and!; try done.
    + by apply anc_up with b.
    + inversion Ha as [? b' Hb'|? b' ? Hb' Ha']; subst; [congruence|].
      by assert (b' = b) as -> by congruence.
  - exists None. split.
    + destruct fuel; [lia|]. cbn [GetAncestorHashAtHeight].
      erewrite gbind_ret by (by apply GetBlockByHash_run). by rewrite Hp.
    + apply Hnone; [|done]. intros a Ha Hat.
      inversion Ha as [? b' Hb'|? b' ? Hb' Ha']; subst; [congruence|].
      assert (b' = b) as -> by congruence. inversion Ha'; congruence.
Qed.
End Ancestors.
