(* ===== verification/State.v ===== *)
(** * core/state: balances, nonces and state snapshots

    The package declares [GetBalance], [AddBalance] and [keyBal] twice (state.go and
    balances.go); the version of balances.go is [AddBalance_clamp].  Snapshots go through
    the file system, gzip and the JSON and gob encoders, which are the operations of the
    class [SnapFiles]. *)

From S2P Require Import Prelude GoLang KV Chain Storage.

Definition keyBal (id : string) : string := "bal:" +:+ id.
Definition keyNonce (id : string) : string := "nonce:" +:+ id.

Record Snapshot := {
  sn_Version : Z; sn_Height : Z; sn_TipHash : string; sn_CreatedUnix : Z;
  sn_Balances : gmap string Z; sn_Nonces : gmap string Z;
}.

(** Eight bytes as the scans of the package read them, most significant first. *)
Definition be_shifts (v : string) : Z :=
  let b i := match String.get i v with Some a => Z_of_byte a | None => 0 end in
  Z.lor (Z.shiftl (b 0%nat) 56) (Z.lor (Z.shiftl (b 1%nat) 48) (Z.lor (Z.shiftl (b 2%nat) 40)
    (Z.lor (Z.shiftl (b 3%nat) 32) (Z.lor (Z.shiftl (b 4%nat) 24) (Z.lor (Z.shiftl (b 5%nat) 16)
      (Z.lor (Z.shiftl (b 6%nat) 8) (b 7%nat))))))).

Section Ops.
Context {L : LevelDB} {MO : MapOrder}.

(** *** state.go *)

Definition GetBalance (id : string) : GoM db_t (option Z) :=
  let! o := kv_get (keyBal id) in
  match o with
  | None => gret None
  | Some b => let! u := gpart (BE_Uint64 b) in gret (Some (i64 u))
  end.

Definition SetBalance (id : string) (value : Z) : GoM db_t unit :=
  let value := if value <? 0 then 0 else value in
  put_be64 (keyBal id) (u64 value).

Definition AddBalance (id : string) (delta : Z) : GoM db_t Z :=
  let! o := GetBalance id in
  let cur := default 0 o in
  let next := i64 (cur + delta) in
  if next <? 0 then gerr "insufficient funds"
  else SetBalance id next ;;; gret next.

Definition GetNonce (id : string) : GoM db_t (option Z) := get_be64 (keyNonce id).

Definition SetNonce (id : string) (nonce : Z) : GoM db_t unit := put_be64 (keyNonce id) nonce.

Definition ResetState : GoM db_t unit :=
  let! (l1, _) := kv_iter "bal:" in
  let! (l2, _) := kv_iter "nonce:" in
  db_write (List.map (fun e => BDelete e.1) l1 ++ List.map (fun e => BDelete e.1) l2).

(** *** balances.go *)

Definition AddBalance_clamp (id : string) (delta : Z) : GoM db_t Z :=
  let! o := GetBalance id in
  let cur := default 0 o in
  let next := i64 (cur + delta) in
  let next := if next <? 0 then 0 else next in
  put_be64 (keyBal id) (u64 next) ;;; gret next.

(** *** snapshot_bin.go *)

(** The loop over one prefix: [conv] is the conversion of the 64-bit word. *)
Definition collect (prefix : string) (conv : Z -> Z) (l : list (string * string)) : gmap string Z :=
  fold_left (fun m e =>
    if Nat.eqb (String.length e.2) 8
    then <[str_trim_prefix prefix e.1 := conv (be_shifts e.2)]> m else m) l ∅.

Definition ExportStateMaps : GoM db_t (gmap string Z * gmap string Z) :=
  let! (l1, err1) := kv_iter "bal:" in
  match err1 with Some e => gerr e | None =>
  let! (l2, err2) := kv_iter "nonce:" in
  match err2 with Some e => gerr e | None =>
  gret (collect "bal:" i64 l1, collect "nonce:" (fun u => u) l2)
  end end.

(** *** snapshot.go *)

(** The snapshot [WriteSnapshot] builds; iterator errors are not looked at. *)
Definition BuildSnapshot (now height : Z) (tipHash : string) : GoM db_t Snapshot :=
  let! (l1, _) := kv_iter "bal:" in
  let! (l2, _) := kv_iter "nonce:" in
  gret {| sn_Version := 1; sn_Height := height; sn_TipHash := tipHash; sn_CreatedUnix := now;
          sn_Balances := collect "bal:" i64 l1;
          sn_Nonces := collect "nonce:" (fun u => u) l2 |}.

Definition RestoreSnapshot (s : Snapshot) : GoM db_t unit :=
  ResetState ;;;
  gfor (range (sn_Balances s)) (fun e => gignore tt (SetBalance e.1 e.2)) ;;;
  gfor (range (sn_Nonces s)) (fun e => gignore tt (SetNonce e.1 e.2)).
End Ops.

(** ** Snapshot files *)

(** The file system ([os], [path/filepath]) and the two compressed encodings
    ([gzip] over [json], [gzip] over [gob]). *)
Class SnapFiles := {
  fs_t : Type;
  Join : string -> string -> string;
  MkdirAll : string -> GoM fs_t unit;
  (** [os.Create] (an empty file) and the content written until it is closed. *)
  WriteFile : string -> string -> GoM fs_t unit;
  ReadFile : string -> fs_t -> outcome string;
  (** [os.ReadDir]: the names of the directory and whether each is a directory. *)
  ReadDir : string -> fs_t -> outcome (list (string * bool));
  enc_json : Snapshot -> outcome string;
  dec_json : string -> outcome Snapshot;
  enc_gob : Snapshot -> outcome string;
  dec_gob : string -> outcome Snapshot;
}.

Section Files.
Context {L : LevelDB} {MO : MapOrder} {FS : SnapFiles}.

Definition on_db {A} (m : GoM db_t A) : GoM (db_t * fs_t) A := gzoom fst (fun d s => (d, s.2)) m.
Definition on_fs {A} (m : GoM fs_t A) : GoM (db_t * fs_t) A := gzoom snd (fun f s => (s.1, f)) m.

Definition snap_dir (dir : string) : string :=
  if (dir =? "")%string then Join "runtime" "snapshots" else dir.

Definition WriteSnapshot (now : Z) (dir : string) (height : Z) (tipHash : string)
    : GoM (db_t * fs_t) string :=
  let dir := snap_dir dir in
  on_fs (MkdirAll dir) ;;;
  let! s := on_db (BuildSnapshot now height tipHash) in
  let name := Join dir ("state_" +:+ FormatUint height +:+ ".json.gz") in
  on_fs (WriteFile name "") ;;;
  let! b := glift (enc_json s) in
  on_fs (WriteFile name b) ;;; gret name.

Definition WriteSnapshotBin (now : Z) (dir : string) (height : Z) (tipHash : string)
    : GoM (db_t * fs_t) string :=
  let dir := snap_dir dir in
  on_fs (MkdirAll dir) ;;;
  let! (bal, non) := on_db ExportStateMaps in
  let s := {| sn_Version := 2; sn_Height := height; sn_TipHash := tipHash;
              sn_CreatedUnix := now; sn_Balances := bal; sn_Nonces := non |} in
  let name := Join dir ("state_" +:+ FormatUint height +:+ ".gob.gz") in
  on_fs (WriteFile name "") ;;;
  let! b := glift (enc_gob s) in
  on_fs (WriteFile name b) ;;; gret name.

Definition ReadSnapshot (path : string) : GoM fs_t Snapshot :=
  fun f => (match ReadFile path f with Ret b => dec_json b | Err e => Err e | Panic => Panic end, f).

Definition ReadSnapshotBin (path : string) : GoM fs_t Snapshot :=
  fun f => (match ReadFile path f with Ret b => dec_gob b | Err e => Err e | Panic => Panic end, f).

Definition ReadSnapshotAuto (path : string) : GoM fs_t Snapshot :=
  if str_suffix ".gob.gz" path then ReadSnapshotBin path else ReadSnapshot path.

Definition ListSnapshots (dir : string) : GoM fs_t (list string) :=
  let dir := snap_dir dir in
  fun f =>
    (match ReadDir dir f with
     | Ret ents =>
         Ret (merge_sort String.le
           (List.map (fun e => Join dir e.1)
             (List.filter (fun e : string * bool => negb e.2 && str_prefix "state_" e.1 &&
                (str_suffix ".json.gz" e.1 || str_suffix ".gob.gz" e.1)) ents)))
     | Err e => Err e
     | Panic => Panic
     end, f).
End Files.
