(* ===== verification/StateProps.v ===== *)
(** * Properties of the account state

    The exact behaviour of balance updates at 64 bits in both versions the package
    declares, what a reset removes, and the snapshot round trip. *)

From S2P Require Import Prelude GoLang KV Chain Storage StorageProps State.

(** ** The abstract account state *)

Definition balance (m : gmap string string) (id : string) : Z := i64 (cell m (keyBal id)).
Definition nonce (m : gmap string string) (id : string) : Z := cell m (keyNonce id).

(** Every balance is eight bytes and not negative, every nonce is eight bytes. *)
Definition state_ok (m : gmap string string) : Prop :=
  forall id, cell_ok m (keyBal id) /\ 0 <= balance m id /\ cell_ok m (keyNonce id).

Lemma keyBal_inj a b : keyBal a = keyBal b -> a = b.
Proof. apply str_app_inj_l. Qed.
Lemma keyNonce_inj a b : keyNonce a = keyNonce b -> a = b.
Proof. apply str_app_inj_l. Qed.
Lemma keyBal_keyNonce a b : keyBal a <> keyNonce b.
Proof. intros H. by apply (skey_inj (KBal a) (KNonce b)) in H. Qed.

Lemma balance_put m id v id' : is_i64 v ->
  balance (<[keyBal id := BE_PutUint64 (u64 v)]> m) id' =
    if decide (id = id') then v else balance m id'.
Proof.
  intros Hv. unfold balance. rewrite cell_put. destruct (decide (id = id')) as [->|Hne].
  - rewrite decide_True by done. rewrite (u64_id (u64 v)) by apply u64_range.
    rewrite i64_u64. by apply i64_id.
  - rewrite decide_False; [done|]. by intros ->%keyBal_inj.
Qed.

Lemma nonce_put_bal m id v id' : nonce (<[keyBal id := v]> m) id' = nonce m id'.
Proof.
  unfold nonce, cell. rewrite lookup_insert_ne; [done|]. apply keyBal_keyNonce.
Qed.

Lemma balance_put_nonce m id v id' : balance (<[keyNonce id := v]> m) id' = balance m id'.
Proof.
  unfold balance, cell. rewrite lookup_insert_ne; [done|]. intros H. by symmetry in H; apply keyBal_keyNonce in H.
Qed.

Lemma nonce_put m id v id' :
  nonce (<[keyNonce id := BE_PutUint64 v]> m) id' = if decide (id = id') then u64 v else nonce m id'.
Proof.
  unfold nonce. rewrite cell_put. destruct (decide (id = id')) as [->|Hne].
  - by rewrite decide_True.
  - rewrite decide_False; [done|]. by intros ->%keyNonce_inj.
Qed.

Lemma state_ok_put_bal m id v : state_ok m -> is_i64 v -> 0 <= v ->
  state_ok (<[keyBal id := BE_PutUint64 (u64 v)]> m).
Proof.
  intros Hok Hv H0 id'. destruct (Hok id') as (H1 & H2 & H3). split_and!.
  - by apply cell_ok_put.
  - rewrite balance_put by done. by case_decide.
  - by apply cell_ok_put.
Qed.

Lemma state_ok_put_nonce m id v : state_ok m -> state_ok (<[keyNonce id := BE_PutUint64 v]> m).
Proof.
  intros Hok id'. destruct (Hok id') as (H1 & H2 & H3).
  split_and!; [by apply cell_ok_put|by rewrite balance_put_nonce|by apply cell_ok_put].
Qed.

(** Only the entry [k] differs. *)
Definition same_but (k : string) (m m' : gmap string string) : Prop :=
  forall k', k' <> k -> m' !! k' = m !! k'.

Lemma same_but_insert k v m : same_but k m (<[k := v]> m).
Proof. intros k' Hk. by rewrite lookup_insert_ne. Qed.

#[export] Hint Resolve state_ok_put_bal state_ok_put_nonce same_but_insert i64_range : go_db.

Section Balances.
Context {L : LevelDB} {HL : LevelDBOk L}.

Lemma GetBalance_run d id : cell_ok (db_view d) (keyBal id) ->
  exists o, GetBalance id d = (Ret o, d) /\ default 0 o = balance (db_view d) id /\
            (o = None <-> db_view d !! keyBal id = None).
Proof.
  unfold cell_ok, GetBalance, balance, cell. intros Hk. erewrite gbind_ret by apply kv_get_ok.
  destruct (db_view d !! keyBal id) as [b|].
  - destruct (BE_Uint64_8 b Hk) as [-> _]. eexists. by split_and!.
  - eexists. by split_and!.
Qed.

Lemma SetBalance_run d id v : 0 <= v ->
  SetBalance id v d = (Ret tt, db_ins (keyBal id) (BE_PutUint64 (u64 v)) d).
Proof.
  intros Hv. unfold SetBalance, put_be64. rewrite (proj2 (Z.ltb_ge _ _)) by lia. apply db_put_ok.
Qed.

Lemma GetNonce_run d id : cell_ok (db_view d) (keyNonce id) ->
  exists o, GetNonce id d = (Ret o, d) /\ default 0 o = nonce (db_view d) id.
Proof.
  unfold cell_ok, GetNonce, get_be64, nonce, cell. intros Hk. erewrite gbind_ret by apply kv_get_ok.
  destruct (db_view d !! keyNonce id) as [b|]; [|by eexists].
  destruct (BE_Uint64_8 b Hk) as [-> _]. by eexists.
Qed.

Lemma SetNonce_run d id v : SetNonce id v d = (Ret tt, db_ins (keyNonce id) (BE_PutUint64 v) d).
Proof. apply db_put_ok. Qed.

(** The sum of a balance and a delta, as 64 bits see it. *)
Lemma add_i64_sign m id delta : state_ok m -> is_i64 delta ->
  0 <= i64 (balance m id + delta) <-> 0 <= balance m id + delta < M63.
Proof.
  intros Hok Hd. destruct (Hok id) as (_ & Hb & _).
  pose proof (i64_range (cell m (keyBal id))) as Hr. fold (balance m id) in Hr.
  pose proof (i64_range (balance m id + delta)).
  destruct (i64_cases (balance m id + delta)) as [k Hk].
  unfold is_i64 in *. rewrite Hk in *. lia.
Qed.

Lemma AddBalance_run d id delta : state_ok (db_view d) -> is_i64 delta ->
  AddBalance id delta d =
    (let s := balance (db_view d) id + delta in
     if (0 <=? s) && (s <? M63)
     then (Ret s, db_ins (keyBal id) (BE_PutUint64 (u64 s)) d)
     else (Err "insufficient funds", d)).
Proof.
  intros Hok Hd. pose proof (add_i64_sign _ id delta Hok Hd) as Hs.
  destruct (GetBalance_run d id (proj1 (Hok id))) as (o & Hg & Hdef & _).
  unfold AddBalance. erewrite gbind_ret by exact Hg. cbv zeta. rewrite Hdef.
  set (s := balance (db_view d) id + delta) in *.
  destruct (Z.leb_spec 0 s), (Z.ltb_spec s M63); cbn [andb];
    try (rewrite (proj2 (Z.ltb_lt _ _)) by lia; done).
  rewrite (i64_id s) by (unfold is_i64; lia). rewrite (proj2 (Z.ltb_ge _ _)) by lia.
  erewrite gbind_ret by (apply SetBalance_run; lia). done.
Qed.

(** C10. [AddBalance] (state.go) moves a balance by exactly the delta when the result fits
    in 0 .. 2^63-1 and otherwise fails without changing anything: neither an overdraft nor
    an overflow alters the state, no other entry of the store is touched, and balances stay
    non-negative eight-byte values. *)
Theorem AddBalance_exact d id delta : state_ok (db_view d) -> is_i64 delta ->
  let s := balance (db_view d) id + delta in
  (0 <= s < 2 ^ 63 -> exists d', AddBalance id delta d = (Ret s, d') /\
     state_ok (db_view d') /\ balance (db_view d') id = s /\
     same_but (keyBal id) (db_view d) (db_view d')) /\
  (~ 0 <= s < 2 ^ 63 -> AddBalance id delta d = (Err "insufficient funds", d)).
Proof.
  intros Hok Hd s. rewrite AddBalance_run by done. cbv zeta. fold s. change (2 ^ 63) with M63.
  split; intros Hs.
  - rewrite (proj2 (Z.leb_le 0 s)), (proj2 (Z.ltb_lt s M63)) by lia. cbn [andb].
    assert (is_i64 s) by (unfold is_i64; lia).
    eexists. split; [reflexivity|]. rewrite db_view_ins. split_and!; auto with go_db.
    + apply state_ok_put_bal; [done..|lia].
    + by rewrite balance_put, decide_True.
  - destruct (Z.leb_spec 0 s), (Z.ltb_spec s M63); try done. lia.
Qed.

(** The other declaration of [AddBalance] (balances.go) never fails: whenever the exact
    one would reject the update, an overdraft as well as a credit that overflows, it
    silently sets the balance to zero. On all other updates the two agree. *)
Theorem AddBalance_clamp_differs d id delta : state_ok (db_view d) -> is_i64 delta ->
  let s := balance (db_view d) id + delta in
  (0 <= s < 2 ^ 63 -> AddBalance_clamp id delta d = AddBalance id delta d) /\
  (~ 0 <= s < 2 ^ 63 -> exists d', AddBalance_clamp id delta d = (Ret 0, d') /\
     balance (db_view d') id = 0 /\ AddBalance id delta d = (Err "insufficient funds", d)).
Proof.
  intros Hok Hd s. rewrite AddBalance_run by done. cbv zeta. fold s. change (2 ^ 63) with M63.
  pose proof (add_i64_sign _ id delta Hok Hd) as Hsg. fold s in Hsg.
  destruct (GetBalance_run d id (proj1 (Hok id))) as (o & Hg & Hdef & _).
  unfold AddBalance_clamp. erewrite gbind_ret by exact Hg. cbv zeta. rewrite Hdef. fold s.
  split; intros Hs.
  - rewrite (i64_id s) by (unfold is_i64; lia).
    rewrite (proj2 (Z.ltb_ge s 0)), (proj2 (Z.leb_le 0 s)), (proj2 (Z.ltb_lt s M63)) by lia.
    unfold put_be64. erewrite gbind_ret by apply db_put_ok. done.
  - rewrite (proj2 (Z.ltb_lt (i64 s) 0)) by lia.
    unfold put_be64. erewrite gbind_ret by apply db_put_ok. eexists. split_and!; [reflexivity| |].
    + rewrite db_view_ins, balance_put by done. by rewrite decide_True.
    + destruct (Z.leb_spec 0 s), (Z.ltb_spec s M63); try done. lia.
Qed.
End Balances.

(** ** Reset *)

Definition is_state_key (k : string) : bool := str_prefix "bal:" k || str_prefix "nonce:" k.

Lemma batch_deletes ks m k :
  batch_apply (List.map (fun e : string * string => BDelete e.1) ks) m !! k =
    if decide (k ∈ ks.*1) then None else m !! k.
Proof.
  unfold batch_apply. revert m. induction ks as [|e ks IH]; intros m; cbn [List.map fold_left].
  { by rewrite decide_False by (apply not_elem_of_nil). }
  rewrite IH. cbn [batch_step]. rewrite fmap_cons. destruct (decide (k ∈ ks.*1)) as [H|H].
  - rewrite decide_True; [done|]. by right.
  - destruct (decide (k = e.1)) as [->|Hne].
    + rewrite decide_True by (by left). apply lookup_delete_eq.
    + rewrite decide_False by (rewrite elem_of_cons; tauto). by rewrite lookup_delete_ne.
Qed.

Lemma batch_apply_app a b m : batch_apply (a ++ b) m = batch_apply b (batch_apply a m).
Proof. unfold batch_apply. apply fold_left_app. Qed.

(** A key is listed by an iteration exactly when it is stored and has the prefix. *)
Lemma iter_keys p m l k : iter_of p m l ->
  k ∈ l.*1 <-> (is_Some (m !! k) /\ str_prefix p k = true).
Proof.
  intros [_ Hin]. rewrite list_elem_of_fmap. split.
  - intros ([k' v] & -> & He%list_elem_of_In). apply Hin in He as [Hv Hp]. cbn. eauto.
  - intros [[v Hv] Hp]. exists (k, v). split; [done|]. apply list_elem_of_In, Hin. done.
Qed.

Section Reset.
Context {L : LevelDB} {HL : LevelDBOk L}.

Lemma ResetState_run d : exists d', ResetState d = (Ret tt, d') /\
  forall k, db_view d' !! k = if is_state_key k then None else db_view d !! k.
Proof.
  unfold ResetState. erewrite gbind_ret by apply kv_iter_ok. cbv beta iota.
  erewrite gbind_ret by apply kv_iter_ok. cbv beta iota. rewrite db_write_ok.
  eexists. split; [done|]. intros k. rewrite db_view_batch, batch_apply_app, !batch_deletes.
  pose proof (iter_keys _ _ _ k (db_entries_ok "bal:" d)) as H1.
  pose proof (iter_keys _ _ _ k (db_entries_ok "nonce:" d)) as H2.
  unfold is_state_key. destruct (db_view d !! k) as [v|] eqn:E.
  - repeat case_decide; destruct (str_prefix "bal:" k), (str_prefix "nonce:" k); cbn; try done;
      naive_solver.
  - repeat case_decide; by case_goal.
Qed.

Lemma deletes_run l d : exists d',
  gfor l (fun e : string * string => gignore tt (db_delete e.1)) d = (Ret tt, d') /\
  forall k, db_view d' !! k = if decide (k ∈ l.*1) then None else db_view d !! k.
Proof.
  revert d. induction l as [|e l IH]; intros d.
  - exists d. split; [done|]. intros k. by rewrite decide_False by apply not_elem_of_nil.
  - cbn [gfor]. erewrite gbind_ret by (apply gignore_ret, db_delete_ok).
    destruct (IH (db_del e.1 d)) as (d' & Hr & Hv). exists d'. split; [done|]. intros k.
    rewrite Hv, db_view_del, fmap_cons. destruct (decide (k ∈ l.*1)) as [H|H].
    + rewrite decide_True; [done|]. by right.
    + destruct (decide (k = e.1)) as [->|Hne].
      * rewrite decide_True by (by left). apply lookup_delete_eq.
      * rewrite decide_False by (rewrite elem_of_cons; tauto). by rewrite lookup_delete_ne.
Qed.

Lemma wipe_prefix_run p d : exists d',
  (let! (l, err) := kv_iter p in
   gfor l (fun e => gignore tt (db_delete e.1)) ;;;
   match err with Some e => gerr e | None => gret tt end) d = (Ret tt, d') /\
  forall k, db_view d' !! k = if str_prefix p k then None else db_view d !! k.
Proof.
  erewrite gbind_ret by apply kv_iter_ok. cbv beta iota.
  destruct (deletes_run (db_entries p d) d) as (d' & Hr & Hv).
  erewrite gbind_ret by exact Hr. exists d'. split; [done|]. intros k. rewrite Hv.
  pose proof (iter_keys _ _ _ k (db_entries_ok p d)) as H1.
  destruct (db_view d !! k) as [v|] eqn:E.
  - case_decide; destruct (str_prefix p k); naive_solver.
  - case_decide; by case_goal.
Qed.

Lemma WipeStatePrefixes_run d : exists d', WipeStatePrefixes d = (Ret tt, d') /\
  forall k, db_view d' !! k = if is_state_key k then None else db_view d !! k.
Proof.
  unfold WipeStatePrefixes. cbn [gfor].
  destruct (wipe_prefix_run "bal:" d) as (d1 & R1 & V1). erewrite gbind_ret by exact R1.
  destruct (wipe_prefix_run "nonce:" d1) as (d2 & R2 & V2). erewrite gbind_ret by exact R2.
  exists d2. split; [done|]. intros k. rewrite V2, V1. unfold is_state_key.
  by destruct (str_prefix "bal:" k), (str_prefix "nonce:" k).
Qed.

(** The two wipes of the account state, one batch in [state.ResetState] and one delete
    after the other in [reservestorage.WipeStatePrefixes], do the same to the store: every
    balance and nonce entry goes and nothing else does. *)
Theorem ResetState_equiv_Wipe d : exists d1 d2,
  ResetState d = (Ret tt, d1) /\ WipeStatePrefixes d = (Ret tt, d2) /\
  db_view d1 = db_view d2 /\
  forall k, db_view d1 !! k = if is_state_key k then None else db_view d !! k.
Proof.
  destruct (ResetState_run d) as (d1 & R1 & V1), (WipeStatePrefixes_run d) as (d2 & R2 & V2).
  exists d1, d2. split_and!; [done..| |done]. apply map_eq. intros k. by rewrite V1, V2.
Qed.
End Reset.

(** ** Snapshots *)

Lemma be_shifts_eq v : String.length v = 8%nat -> be_shifts v = be_get v.
Proof.
  destruct v as [|b0 [|b1 [|b2 [|b3 [|b4 [|b5 [|b6 [|b7 [|]]]]]]]]]; try discriminate. intros _.
  unfold be_shifts, be_get. cbn [String.get be_get_acc].
  pose proof (Z_of_byte_range b0). pose proof (Z_of_byte_range b1). pose proof (Z_of_byte_range b2).
  pose proof (Z_of_byte_range b3). pose proof (Z_of_byte_range b4). pose proof (Z_of_byte_range b5).
  pose proof (Z_of_byte_range b6). pose proof (Z_of_byte_range b7). unfold is_u8 in *.
  rewrite (lor_shiftl _ _ 8) by lia. rewrite (lor_shiftl _ _ 16) by lia.
  rewrite (lor_shiftl _ _ 24) by lia. rewrite (lor_shiftl _ _ 32) by lia.
  rewrite (lor_shiftl _ _ 40) by lia. rewrite (lor_shiftl _ _ 48) by lia.
  rewrite (lor_shiftl _ _ 56) by lia. lia.
Qed.

Section Collect.
Context (p : string) (conv : Z -> Z).

Let step (m : gmap string Z) (e : string * string) : gmap string Z :=
  if Nat.eqb (String.length e.2) 8
  then <[str_trim_prefix p e.1 := conv (be_shifts e.2)]> m else m.

Lemma fold_step_lookup l : forall m id,
  NoDup l.*1 -> (forall e, In e l -> str_prefix p e.1 = true /\ String.length e.2 = 8%nat) ->
  fold_left step l m !! id =
    match list_find (fun e => e.1 = p +:+ id) l with
    | Some (_, e) => Some (conv (be_get e.2))
    | None => m !! id
    end.
Proof.
  induction l as [|e l IH]; intros m id Hnd Hl; [done|].
  rewrite fmap_cons, NoDup_cons in Hnd. destruct Hnd as [Hni Hnd].
  destruct (Hl e (or_introl eq_refl)) as [Hp H8]. apply str_prefix_spec in Hp as [r Hr].
  cbn [fold_left list_find]. rewrite IH; [|done|intros x Hx; apply Hl; by right].
  unfold step. rewrite H8, Hr, str_trim_prefix_app. cbn [Nat.eqb].
  destruct (decide (r = id)) as [->|He].
  - rewrite (decide_True (P := p +:+ id = p +:+ id)) by done.
    destruct (list_find (fun e0 => e0.1 = p +:+ id) l) as [[i x]|] eqn:Ef.
    + apply list_find_Some in Ef as (Hx & Hk & _). destruct Hni.
      rewrite Hr, <- Hk. apply list_elem_of_fmap. exists x. split; [done|].
      by eapply list_elem_of_lookup_2.
    + rewrite lookup_insert_eq, be_shifts_eq by done. reflexivity.
  - rewrite (decide_False (P := p +:+ r = p +:+ id)) by (by intros ?%str_app_inj_l).
    destruct (list_find (fun e0 => e0.1 = p +:+ id) l) as [[i x]|]; [done|].
    by rewrite lookup_insert_ne.
Qed.

Lemma collect_lookup m l id : iter_of p m l ->
  (forall k v, m !! k = Some v -> str_prefix p k = true -> String.length v = 8%nat) ->
  collect p conv l !! id = option_map (fun b => conv (be_get b)) (m !! (p +:+ id)).
Proof.
  intros [Hs Hin] H8. unfold collect. fold step.
  rewrite (fold_step_lookup l ∅ id); [|by apply sorted_keys_NoDup|].
  - destruct (list_find (fun e => e.1 = p +:+ id) l) as [[i [k v]]|] eqn:Ef.
    + apply list_find_Some in Ef as (Hx & Hk & _). cbn in Hk. subst k.
      apply list_elem_of_lookup_2, list_elem_of_In, Hin in Hx as [-> _]. done.
    + rewrite lookup_empty. destruct (m !! (p +:+ id)) as [v|] eqn:E; [|done]. exfalso.
      apply list_find_None in Ef. rewrite Forall_forall in Ef.
      apply (Ef (p +:+ id, v)); [|done]. apply list_elem_of_In, Hin.
      split; [done|apply str_prefix_app].
  - intros [k v] He%Hin. destruct He. split; [done|]. by eapply H8.
Qed.
End Collect.

Section Snapshots.
Context {L : LevelDB} {HL : LevelDBOk L} {MO : MapOrder} {HMO : MapOrderOk MO}.

(** Writing all entries of a Go map under a prefix. *)
Lemma puts_run p f (l : list (string * Z)) : forall d, NoDup l.*1 ->
  exists d', gfor l (fun e => gignore tt (put_be64 (p +:+ e.1) (f e.2))) d = (Ret tt, d') /\
    (forall id v, In (id, v) l -> db_view d' !! (p +:+ id) = Some (BE_PutUint64 (f v))) /\
    (forall k, (forall id, id ∈ l.*1 -> k <> p +:+ id) -> db_view d' !! k = db_view d !! k).
Proof.
  induction l as [|[id v] l IH]; intros d Hnd.
  { exists d. split_and!; [done|by intros ? ? []|done]. }
  rewrite fmap_cons, NoDup_cons in Hnd. destruct Hnd as [Hni Hnd]. cbn [gfor].
  erewrite gbind_ret by (apply gignore_ret, db_put_ok).
  destruct (IH (db_ins (p +:+ id) (BE_PutUint64 (f v)) d) Hnd) as (d' & Hr & Hin & Hout).
  exists d'. split_and!; [done| |].
  - intros id' v' [[= -> ->]|H]; [|by apply Hin].
    rewrite Hout, db_view_ins, lookup_insert_eq; [done|].
    intros id'' Hin'' He%str_app_inj_l. by subst.
  - intros k Hk. rewrite Hout, db_view_ins, lookup_insert_ne; [done| |].
    + apply not_eq_sym, Hk. by left.
    + intros id' Hid'. apply Hk. by right.
Qed.

Lemma range_NoDup {A} (m : gmap string A) : NoDup (range m).*1.
Proof. rewrite (range_perm _ m). apply NoDup_fst_map_to_list. Qed.

Lemma range_In {A} (m : gmap string A) id v : In (id, v) (range m) <-> m !! id = Some v.
Proof. rewrite <- list_elem_of_In, (range_perm _ m). apply elem_of_map_to_list. Qed.

Lemma range_keys {A} (m : gmap string A) id : id ∈ (range m).*1 <-> is_Some (m !! id).
Proof.
  rewrite list_elem_of_fmap. split.
  - intros ([i v] & -> & H%list_elem_of_In%range_In). eauto.
  - intros [v Hv%range_In]. exists (id, v). by rewrite list_elem_of_In.
Qed.

(** The maps an export reads off a well-formed state. *)
Lemma Export_run d : state_ok (db_view d) ->
  exists bal non, ExportStateMaps d = (Ret (bal, non), d) /\
    (forall id, bal !! id = option_map (fun b => i64 (be_get b)) (db_view d !! keyBal id)) /\
    (forall id, non !! id = option_map be_get (db_view d !! keyNonce id)).
Proof.
  intros Hok. unfold ExportStateMaps.
  erewrite gbind_ret by apply kv_iter_ok. cbv beta iota.
  erewrite gbind_ret by apply kv_iter_ok. cbv beta iota.
  eexists _, _. split; [reflexivity|]. split; intros id.
  - apply (collect_lookup "bal:" i64 (db_view d)); [apply db_entries_ok|].
    intros k v Hv [r ->]%str_prefix_spec. destruct (Hok r) as (Hc & _ & _).
    unfold cell_ok, keyBal in Hc. by rewrite Hv in Hc.
  - apply (collect_lookup "nonce:" (fun u => u) (db_view d)); [apply db_entries_ok|].
    intros k v Hv [r ->]%str_prefix_spec. destruct (Hok r) as (_ & _ & Hc).
    unfold cell_ok, keyNonce in Hc. by rewrite Hv in Hc.
Qed.

Lemma put_of_get b : String.length b = 8%nat -> BE_PutUint64 (be_get b) = b.
Proof. intros Hb. unfold BE_PutUint64. rewrite <- Hb at 1. apply be_put_get. Qed.

(** Writing maps read off [m] under the two prefixes reproduces [m]'s state entries. *)
Lemma restore_view m bal non d0 d1 d2 :
  state_ok m ->
  (forall id, bal !! id = option_map (fun b => i64 (be_get b)) (m !! keyBal id)) ->
  (forall id, non !! id = option_map be_get (m !! keyNonce id)) ->
  (forall k, is_state_key k = true -> db_view d0 !! k = None) ->
  (forall id v, In (id, v) (range bal) -> db_view d1 !! keyBal id = Some (BE_PutUint64 (u64 v))) ->
  (forall k, (forall id, id ∈ (range bal).*1 -> k <> keyBal id) -> db_view d1 !! k = db_view d0 !! k) ->
  (forall id v, In (id, v) (range non) -> db_view d2 !! keyNonce id = Some (BE_PutUint64 v)) ->
  (forall k, (forall id, id ∈ (range non).*1 -> k <> keyNonce id) -> db_view d2 !! k = db_view d1 !! k) ->
  forall k, db_view d2 !! k = if is_state_key k then m !! k else db_view d0 !! k.
Proof.
  intros Hok Hbal Hnon H0 B1 B2 N1 N2 k. unfold is_state_key in *.
  destruct (str_prefix "bal:" k) eqn:Eb.
  { apply str_prefix_spec in Eb as [id ->]. cbn [orb]. fold (keyBal id).
    rewrite N2 by (intros i _; apply keyBal_keyNonce). specialize (Hbal id).
    destruct (Hok id) as (Hc & Hp & _). unfold cell_ok, balance, cell in *.
    destruct (m !! keyBal id) as [b|] eqn:Em.
    - erewrite B1 by (by apply range_In). f_equal. rewrite u64_i64, u64_id by (by apply BE_Uint64_8).
      by apply put_of_get.
    - rewrite B2.
      + apply H0. unfold keyBal. by rewrite str_prefix_app.
      + intros id' Hid' <-%keyBal_inj. apply range_keys in Hid'. rewrite Hbal in Hid'.
        by destruct Hid'. }
  destruct (str_prefix "nonce:" k) eqn:En; cbn [orb].
  { apply str_prefix_spec in En as [id ->]. fold (keyNonce id). specialize (Hnon id).
    destruct (Hok id) as (_ & _ & Hc). unfold cell_ok in Hc.
    destruct (m !! keyNonce id) as [b|] eqn:Em.
    - erewrite N1 by (by apply range_In). f_equal. by apply put_of_get.
    - rewrite N2, B2.
      + apply H0. unfold keyNonce. rewrite str_prefix_app. by destruct (str_prefix _ _).
      + intros id' _ Hk. symmetry in Hk. by apply keyBal_keyNonce in Hk.
      + intros id' Hid' <-%keyNonce_inj. apply range_keys in Hid'. rewrite Hnon in Hid'.
        by destruct Hid'. }
  rewrite N2, B2; [done| |].
  - intros id _ ->. unfold keyBal in Eb. by rewrite str_prefix_app in Eb.
  - intros id _ ->. unfold keyNonce in En. by rewrite str_prefix_app in En.
Qed.

Lemma gfor_ext {S A} (l : list A) (f g : A -> GoM S unit) s :
  (forall a t, In a l -> f a t = g a t) -> gfor l f s = gfor l g s.
Proof.
  revert s. induction l as [|a l IH]; intros s H; [done|]. cbn [gfor]. unfold gbind.
  rewrite (H a s (or_introl eq_refl)). destruct (g a s) as [[] s']; try done.
  apply IH. intros. apply H. by right.
Qed.

(** C35. Exporting the account state of one store and restoring it into any other store
    reproduces every balance and nonce entry byte for byte, removes the ones the second
    store had before, and changes nothing else. *)
Theorem Export_Restore_roundtrip d d' : state_ok (db_view d) ->
  exists bal non d2,
    ExportStateMaps d = (Ret (bal, non), d) /\
    (forall ver h tip t, RestoreSnapshot {| sn_Version := ver; sn_Height := h; sn_TipHash := tip;
       sn_CreatedUnix := t; sn_Balances := bal; sn_Nonces := non |} d' = (Ret tt, d2)) /\
    forall k, db_view d2 !! k = if is_state_key k then db_view d !! k else db_view d' !! k.
Proof.
  intros Hok. destruct (Export_run d Hok) as (bal & non & Hrun & Hbal & Hnon).
  destruct (ResetState_run d') as (d0 & R0 & V0).
  assert (forall id v, In (id, v) (range bal) -> 0 <= v) as Hpos.
  { intros id v Hin%range_In. rewrite Hbal in Hin. destruct (Hok id) as (_ & Hp & _).
    unfold balance, cell in Hp. by destruct (db_view d !! keyBal id); simplify_eq/=. }
  destruct (puts_run "bal:" u64 (range bal) d0 (range_NoDup _)) as (d1 & R1 & B1 & B2).
  destruct (puts_run "nonce:" (fun u => u) (range non) d1 (range_NoDup _)) as (d2 & R2 & N1 & N2).
  exists bal, non, d2. split_and!; [done| |].
  - intros ver h tip t. unfold RestoreSnapshot. cbn [sn_Balances sn_Nonces].
    erewrite gbind_ret by exact R0. erewrite gbind_ret; [exact R2|].
    rewrite <- R1. apply gfor_ext. intros [id v] t' Hin. cbn [fst snd].
    unfold SetBalance. by rewrite (proj2 (Z.ltb_ge v 0)) by (by eapply Hpos).
  - intros k.
    rewrite (restore_view (db_view d) bal non d0 d1 d2 Hok Hbal Hnon); [|intros k' Hk'; by rewrite V0, Hk'|done..].
    rewrite V0. by destruct (is_state_key k).
Qed.
End Snapshots.
