(* ===== verification/Fees.v ===== *)
(** * core/economics/fees: fee estimation and the split of collected fees

    [int] and [int64] arithmetic is written with its 64-bit wrap-around; Go's [/] on
    integers truncates toward zero ([Z.quot]). *)

From S2P Require Import Prelude GoLang KV Chain Storage StorageProps.

Definition ModeNormal : string := "NORMAL".
Definition ModeDefense : string := "DEFENSE".
Definition ModeContainment : string := "CONTAINMENT".

Record FeeParams := {
  fp_GasAsset : string; fp_BaseFeeMin : Z; fp_PerByte : Z; fp_OTAPMultiplier : Z; fp_Mode : string }.

Record Split := {
  ToValidators : Z; ToParticipation : Z; ToTreasury : Z; ToDefensePool : Z }.

Definition EstimateFee (txBytes : Z) (isOTAP : bool) (p : FeeParams) : Z :=
  let txBytes := if txBytes <? 0 then 0 else txBytes in
  let units := txBytes in
  let fee := i64 (fp_BaseFeeMin p + i64 (fp_PerByte p * units)) in
  let fee := if isOTAP && (1 <? fp_OTAPMultiplier p) then i64 (fee * fp_OTAPMultiplier p) else fee in
  let fee := if (fp_Mode p =? ModeDefense)%string then i64 (fee * 2)
             else if (fp_Mode p =? ModeContainment)%string then i64 (fee * 4) else fee in
  if fee <? fp_BaseFeeMin p then fp_BaseFeeMin p else fee.

(** [total*c/100]. *)
Definition percent (total c : Z) : Z := Z.quot (i64 (total * c)) 100.

Definition SplitFees (total : Z) (p : FeeParams) : Split :=
  if total <=? 0 then {| ToValidators := 0; ToParticipation := 0; ToTreasury := 0; ToDefensePool := 0 |}
  else if (fp_Mode p =? ModeDefense)%string then
    let v := percent total 35 in
    let pop := percent total 15 in
    let tr := percent total 20 in
    let def := i64 (i64 (i64 (total - v) - pop) - tr) in
    {| ToValidators := v; ToParticipation := pop; ToTreasury := tr; ToDefensePool := def |}
  else if (fp_Mode p =? ModeContainment)%string then
    let v := percent total 25 in
    let pop := percent total 10 in
    let tr := percent total 15 in
    let def := i64 (i64 (i64 (total - v) - pop) - tr) in
    {| ToValidators := v; ToParticipation := pop; ToTreasury := tr; ToDefensePool := def |}
  else
    let v := percent total 50 in
    let pop := percent total 20 in
    let tr := i64 (i64 (total - v) - pop) in
    {| ToValidators := v; ToParticipation := pop; ToTreasury := tr; ToDefensePool := 0 |}.

(** [TxSizeHint]: the hash of the identifier is computed and dropped. *)
Definition TxSizeHint (txid : string) (outputs : Z) : Z :=
  let outputs := if outputs <? 0 then 0 else outputs in
  i64 (180 + i64 (80 * outputs)).

(** ** Properties *)

Definition split_sum (s : Split) : Z :=
  ToValidators s + ToParticipation s + ToTreasury s + ToDefensePool s.

Lemma percent_exact total c : 0 < total -> 0 <= c <= 50 -> total * 50 < M63 ->
  percent total c = total * c / 100.
Proof.
  intros Ht Hc Hb. unfold percent. rewrite i64_id by (unfold is_i64; nia).
  apply Z.quot_div_nonneg; lia.
Qed.

(** Below 2^63/50 units the split of a fee total loses nothing and creates nothing in
    every mode: the four shares are non-negative and add up to the total. *)
Theorem SplitFees_conserves total p : 0 < total -> total * 50 < 2 ^ 63 ->
  let s := SplitFees total p in
  split_sum s = total /\ 0 <= ToValidators s /\ 0 <= ToParticipation s /\ 0 <= ToTreasury s /\
  0 <= ToDefensePool s.
Proof.
  intros Ht Hb. change (2 ^ 63) with M63 in Hb. unfold SplitFees, split_sum.
  rewrite (proj2 (Z.leb_gt total 0)) by lia. cbv zeta. rewrite !percent_exact by lia.
  repeat case_goal; cbn [ToValidators ToParticipation ToTreasury ToDefensePool];
    rewrite !(i64_id (total - total * _ / 100)) by (unfold is_i64; dlia);
    rewrite ?i64_sub_l, ?i64_id by (unfold is_i64; dlia); split_and!; dlia.
Qed.

(** The fee asked for is never below the configured minimum, for all parameters and
    sizes, also where the 64-bit products wrap around. *)
Theorem EstimateFee_floor n otap p : fp_BaseFeeMin p <= EstimateFee n otap p.
Proof.
  unfold EstimateFee. cbv zeta.
  match goal with |- context [if ?f <? fp_BaseFeeMin p then _ else _] => destruct (Z.ltb_spec f (fp_BaseFeeMin p)) end; lia.
Qed.
