(* ===== verification/Pop.v ===== *)
(** * core/economics/pop: the epoch payout of the participation pool

    [DistributeIfEpoch] drains the pool, weighs the participants by score or weight,
    credits the shares and resets the scores.  It returns the amount paid and the error. *)

From S2P Require Import Prelude GoLang KV Chain Storage StorageProps State StateProps.

Record PopParams := { pp_EpochBlocks : Z; pp_MinPayout : Z }.
Definition DefaultParams : PopParams := {| pp_EpochBlocks := 50; pp_MinPayout := 100 |}.

Section Distribute.
Context {L : LevelDB} {CD : Codecs}.

(** The first loop: the weights of the participants, 0 for the ones left out, and their sum. *)
Fixpoint weights_loop (parts : list Participant) (totalW : Z) : GoM db_t (list Z * Z) :=
  match parts with
  | [] => gret ([], totalW)
  | p :: rest =>
      if pt_Weight p <=? 0
      then let! (ws, t) := weights_loop rest totalW in gret (0 :: ws, t)
      else
        let! sc := GetScore (pt_ID p) in
        let w := i64 (default 0 sc) in
        let w := if w <=? 0 then pt_Weight p else w in
        let! (ws, t) := weights_loop rest (i64 (totalW + w)) in gret (w :: ws, t)
  end.

(** [int64(drain) * weights[i] / totalW]. *)
Definition share_of (drain w totalW : Z) : Z := Z.quot (i64 (i64 drain * w)) totalW.

(** The second loop; the last element of the list takes what remains. *)
Fixpoint pay_loop (drain totalW remaining : Z) (l : list (Participant * Z))
    : GoM db_t (Z * option goerr) :=
  match l with
  | [] => gret (remaining, None)
  | (p, w) :: rest =>
      if pt_Weight p <=? 0 then pay_loop drain totalW remaining rest
      else
        let share := share_of drain w totalW in
        let share := match rest with [] => remaining | _ => share end in
        if share <=? 0 then pay_loop drain totalW remaining rest
        else
          let remaining := i64 (remaining - share) in
          let! r := gtry (AddBalance ("pop:" +:+ pt_ID p) share) in
          match r with
          | inl e => gret (remaining, Some e)
          | inr _ => pay_loop drain totalW remaining rest
          end
  end.

Definition DistributeIfEpoch (height : Z) (params : PopParams) : GoM db_t (Z * option goerr) :=
  let params := if pp_EpochBlocks params =? 0 then DefaultParams else params in
  if (height =? 0) || negb (height mod pp_EpochBlocks params =? 0) then gret (0, None)
  else
    let! r := gtry (DrainFeePool "participation" 0) in
    match r with
    | inl e => gret (0, Some e)
    | inr (drain, _) =>
    if drain <? pp_MinPayout params then
      gignore (0, 0) (DrainFeePool "participation" 0) ;;;
      gignore tt (SetFeePool "participation" drain) ;;;
      gret (0, None)
    else
      let! r := gtry (ListParticipants 5000) in
      match r with
      | inl e => gret (0, Some e)
      | inr parts =>
      if Nat.eqb (length parts) 0
      then gignore tt (SetFeePool "participation" drain) ;;; gret (0, None)
      else
        let! (weights, totalW) := weights_loop parts 0 in
        if totalW <=? 0
        then gignore tt (SetFeePool "participation" drain) ;;; gret (0, None)
        else
          let! (remaining, err) := pay_loop drain totalW (i64 drain) (combine parts weights) in
          match err with
          | Some e => gret (u64 (i64 (i64 drain - remaining)), Some e)
          | None => gignore tt ResetScores ;;; gret (drain, None)
          end
      end
    end.
End Distribute.

(** ** The payout without machine arithmetic *)

Fixpoint payouts (drain totalW remaining : Z) (l : list (Participant * Z)) : list (string * Z) :=
  match l with
  | [] => []
  | (p, w) :: rest =>
      if pt_Weight p <=? 0 then payouts drain totalW remaining rest
      else
        let share := match rest with [] => remaining | _ => drain * w / totalW end in
        if share <=? 0 then payouts drain totalW remaining rest
        else (pt_ID p, share) :: payouts drain totalW (remaining - share) rest
  end.

Definition wsum (l : list (Participant * Z)) : Z :=
  sumZ (fun e => if pt_Weight e.1 <=? 0 then 0 else e.2) l.
Definition wcount (l : list (Participant * Z)) : Z :=
  sumZ (fun e => if pt_Weight e.1 <=? 0 then 0 else 1) l.
Definition paid_sum (l : list (string * Z)) : Z := sumZ snd l.

(** Weights of counted participants are positive. *)
Definition weights_pos (l : list (Participant * Z)) : Prop :=
  forall p w, In (p, w) l -> 0 < pt_Weight p -> 0 < w.

Definition last_counts (l : list (Participant * Z)) : bool :=
  match last l with Some (p, _) => negb (pt_Weight p <=? 0) | None => false end.

Lemma wsum_nonneg l : weights_pos l -> 0 <= wsum l /\ 0 <= wcount l.
Proof.
  intros H. split; apply sumZ_nonneg; intros [p w] Hin; cbn; case_goal; zbool; try lia.
  specialize (H p w Hin). lia.
Qed.

Lemma floor_share drain w t : 0 <= drain -> 0 < w -> 0 < t ->
  0 <= drain * w / t /\ drain * w / t * t <= drain * w < (drain * w / t + 1) * t.
Proof.
  intros. pose proof (Z.div_mod (drain * w) t). pose proof (Z.mod_pos_bound (drain * w) t).
  split; [apply Z.div_pos; nia|]. lia.
Qed.

(** What is left never becomes negative, the last counted participant takes all of it, and
    otherwise at most one unit per counted participant is left. *)
Lemma payouts_sum drain t l : forall rem, 0 <= drain -> 0 < t -> weights_pos l ->
  drain * wsum l <= rem * t ->
  0 <= rem - paid_sum (payouts drain t rem l) /\
  (last_counts l = true -> paid_sum (payouts drain t rem l) = rem) /\
  (last_counts l = false ->
     (rem - paid_sum (payouts drain t rem l)) * t <= rem * t - drain * wsum l + wcount l * t).
Proof.
  unfold paid_sum. induction l as [|[p w] l IH]; intros rem Hd Ht Hw Hr.
  { unfold wsum, wcount in *. cbn. rewrite !sumZ_nil in *. split_and!; [nia|done|nia]. }
  assert (weights_pos l) as Hw' by (intros p' w' Hin; apply Hw; by right).
  assert (wsum ((p, w) :: l) = (if pt_Weight p <=? 0 then 0 else w) + wsum l) as Ews by done.
  assert (wcount ((p, w) :: l) = (if pt_Weight p <=? 0 then 0 else 1) + wcount l) as Ewc by done.
  destruct (wsum_nonneg l Hw') as [Hs0 Hc0].
  assert (l <> [] -> last_counts ((p, w) :: l) = last_counts l) as Hlast by (by destruct l).
  assert (last_counts [] = false) as Hl0 by done.
  cbn [payouts]. rewrite Ews, Ewc in *. destruct (Z.leb_spec (pt_Weight p) 0) as [Hp|Hp].
  - destruct (IH rem Hd Ht Hw' ltac:(lia)) as (I1 & I2 & I3).
    destruct l as [|x l']; [|rewrite Hlast by done; split_and!;
      [done|done|intros E; specialize (I3 E); lia]].
    cbn [payouts] in *. unfold last_counts. cbn [last]. rewrite (proj2 (Z.leb_le _ _)) by lia.
    split_and!; [done|done|]. intros _. specialize (I3 Hl0). lia.
  - specialize (Hw p w (or_introl eq_refl) Hp).
    destruct (floor_share drain w t Hd Hw Ht) as [Hf0 Hf]. destruct l as [|x l'].
    + unfold last_counts. cbn [last]. rewrite (proj2 (Z.leb_gt (pt_Weight p) 0)) by lia. cbn [negb].
      assert (0 <= rem) by nia. destruct (Z.leb_spec rem 0); cbn [payouts];
        rewrite ?sumZ_cons, sumZ_nil; cbn [snd]; split_and!; try done; lia.
    + rewrite Hlast by done. set (q := drain * w / t) in *.
      destruct (Z.leb_spec q 0) as [Hq|Hq].
      * destruct (IH rem Hd Ht Hw' ltac:(nia)) as (I1 & I2 & I3).
        split_and!; [done|done|]. intros E. specialize (I3 E). nia.
      * destruct (IH (rem - q) Hd Ht Hw' ltac:(nia)) as (I1 & I2 & I3).
        rewrite sumZ_cons. cbn [snd]. split_and!; [lia| |].
        -- intros E. specialize (I2 E). lia.
        -- intros E. specialize (I3 E). nia.
Qed.

Definition credited (l : list (string * Z)) (id : string) : Z :=
  sumZ (fun e => if decide ("pop:" +:+ e.1 = id) then e.2 else 0) l.

Section PayProofs.
Context {L : LevelDB} {HL : LevelDBOk L} {CD : Codecs}.

Lemma pay_loop_run drain t : 0 <= drain < M63 -> 0 < t < M63 -> forall l rem d,
  state_ok (db_view d) -> weights_pos l -> drain * wsum l <= rem * t -> 0 <= rem <= drain ->
  NoDup (List.map (fun e : Participant * Z => pt_ID e.1) l) ->
  (forall p w, In (p, w) l -> drain * w < M63 /\ balance (db_view d) ("pop:" +:+ pt_ID p) + rem < M63) ->
  exists d', pay_loop drain t rem l d =
      (Ret (rem - paid_sum (payouts drain t rem l), None), d') /\ state_ok (db_view d') /\
    forall id, balance (db_view d') id = balance (db_view d) id + credited (payouts drain t rem l) id.
Proof.
  intros Hd Ht. induction l as [|[p w] l IH]; intros rem d Hok Hw Hr Hrem Hnd Hb.
  { exists d. unfold paid_sum, credited. cbn. rewrite sumZ_nil, Z.sub_0_r.
    split_and!; [done..|]. intros id. rewrite sumZ_nil. lia. }
  assert (weights_pos l) as Hw' by (intros p' w' Hin; apply Hw; by right).
  assert (wsum ((p, w) :: l) = (if pt_Weight p <=? 0 then 0 else w) + wsum l) as Ews by done.
  cbn [List.map fst] in Hnd. apply NoDup_cons in Hnd as [Hni Hnd].
  assert (forall p' w', In (p', w') l -> drain * w' < M63 /\
    balance (db_view d) ("pop:" +:+ pt_ID p') + rem < M63) as Hb' by (intros; apply Hb; by right).
  cbn [pay_loop payouts]. rewrite Ews in Hr.
  destruct (Z.leb_spec (pt_Weight p) 0) as [Hp|Hp]; [by apply IH|].
  destruct (Hb p w (or_introl eq_refl)) as [Hdw Hbal]. specialize (Hw p w (or_introl eq_refl) Hp).
  destruct (floor_share drain w t ltac:(lia) Hw ltac:(lia)) as [Hf0 Hf].
  assert (share_of drain w t = drain * w / t) as Hsh.
  { unfold share_of. rewrite (i64_id drain), i64_id by (unfold is_i64; nia).
    apply Z.quot_div_nonneg; nia. }
  destruct (wsum_nonneg l Hw') as [Hs0 _].
  rewrite Hsh. set (share := match l with [] => rem | _ => drain * w / t end).
  assert (0 <= share <= rem) as Hsr by (unfold share; destruct l; nia).
  destruct (Z.leb_spec share 0) as [Hz|Hz].
  { apply IH; try done. nia. }
  assert (drain * wsum l <= (rem - share) * t) as Hr'.
  { unfold share. destruct l; [|nia]. unfold wsum. rewrite sumZ_nil. nia. }
  rewrite i64_id by (unfold is_i64; lia).
  destruct (Hok ("pop:" +:+ pt_ID p)) as (_ & Hnn & _).
  unfold gbind, gtry. rewrite AddBalance_run by (try done; unfold is_i64; lia). cbv zeta.
  set (s := balance (db_view d) ("pop:" +:+ pt_ID p) + share) in *.
  rewrite (proj2 (Z.leb_le 0 s)), (proj2 (Z.ltb_lt s M63)) by lia. cbn [andb].
  set (d1 := db_ins _ _ d).
  assert (is_i64 s) as His by (unfold is_i64; lia).
  assert (state_ok (db_view d1)) as Hok1.
  { unfold d1. rewrite db_view_ins. apply state_ok_put_bal; [done..|lia]. }
  assert (forall id, balance (db_view d1) id =
    if decide ("pop:" +:+ pt_ID p = id) then s else balance (db_view d) id) as Hb1.
  { intros id. unfold d1. by rewrite db_view_ins, balance_put. }
  destruct (IH (rem - share) d1 Hok1 Hw' Hr' ltac:(lia) Hnd) as (d' & Hrun & Hok' & Hbals).
  { intros p' w' Hin. destruct (Hb' p' w' Hin). split; [done|]. rewrite Hb1.
    rewrite decide_False; [lia|]. intros He%str_app_inj_l. apply Hni. rewrite He.
    apply list_elem_of_In, in_map_iff. by exists (p', w'). }
  exists d'. unfold paid_sum, credited in *. rewrite Hrun.
  split_and!; [by rewrite sumZ_cons, Z.sub_add_distr|done|].
  intros id. rewrite Hbals, Hb1, sumZ_cons. cbn [fst snd]. case_decide as E; [subst id; lia|lia].
Qed.

(** Within the 64-bit range, paying out a drained pool credits to the participants
    exactly what is not left over: all of it when the last listed participant counts (has
    positive weight), and all but at most one unit per counted participant when it does not;
    in that case the rest is credited to nobody. *)
Theorem pay_loop_conserves drain l d :
  let t := wsum l in
  0 <= drain < 2 ^ 63 -> 0 < t < 2 ^ 63 -> state_ok (db_view d) -> weights_pos l ->
  NoDup (List.map (fun e : Participant * Z => pt_ID e.1) l) ->
  (forall p w, In (p, w) l ->
     drain * w < 2 ^ 63 /\ balance (db_view d) ("pop:" +:+ pt_ID p) + drain < 2 ^ 63) ->
  exists d' lost paid, pay_loop drain t drain l d = (Ret (lost, None), d') /\
    state_ok (db_view d') /\
    (forall id, balance (db_view d') id = balance (db_view d) id + credited paid id) /\
    paid_sum paid + lost = drain /\
    (if last_counts l then lost = 0 else 0 <= lost <= wcount l).
Proof.
  change (2 ^ 63) with M63. intros t Hd Ht Hok Hw Hnd Hb.
  destruct (pay_loop_run drain t Hd Ht l drain d Hok Hw ltac:(fold t; lia) ltac:(lia) Hnd Hb)
    as (d' & Hrun & Hok' & Hbal).
  destruct (payouts_sum drain t l drain ltac:(lia) ltac:(lia) Hw ltac:(fold t; lia)) as (S1 & S2 & S3).
  exists d', (drain - paid_sum (payouts drain t drain l)), (payouts drain t drain l).
  split_and!; [done..|lia|]. destruct (last_counts l).
  - rewrite S2 by done. lia.
  - specialize (S3 eq_refl). fold t in S3. split; [done|].
    assert (drain - paid_sum (payouts drain t drain l) <= wcount l); [nia|done].
Qed.

Lemma participation_key : pool_key "participation" = Some keyFeePoolParticipation.
Proof. done. Qed.

(** At a height that is no epoch boundary nothing happens; at a boundary where the
    participation pool holds less than the minimum payout nothing is paid and every fee
    pool keeps its value, and no other entry of the store changes. *)
Theorem DistributeIfEpoch_no_payout d height params : pools_ok d -> is_u64 (pp_MinPayout params) ->
  pp_EpochBlocks params <> 0 ->
  (height mod pp_EpochBlocks params <> 0 -> DistributeIfEpoch height params d = (Ret (0, None), d)) /\
  (height mod pp_EpochBlocks params = 0 -> pool d keyFeePoolParticipation < pp_MinPayout params ->
   exists d', DistributeIfEpoch height params d = (Ret (0, None), d') /\
     (forall k, pool d' k = pool d k) /\
     same_but keyFeePoolParticipation (db_view d) (db_view d')).
Proof.
  intros Hok Hmin Hep. unfold DistributeIfEpoch. rewrite (proj2 (Z.eqb_neq _ _) Hep).
  split.
  - intros Hne. rewrite (proj2 (Z.eqb_neq _ _) Hne). by destruct (height =? 0).
  - intros He Hlt. rewrite He. cbn [negb Z.eqb orb].
    destruct (Z.eqb_spec height 0) as [->|Hh]; cbn [orb].
    { exists d. split_and!; [done..|]. by intros k'. }
    set (K := keyFeePoolParticipation) in *.
    destruct (DrainFeePool_run d "participation" K 0 Hok participation_key ltac:(done))
      as (d1 & R1 & V1). cbn [Z.eqb orb] in R1, V1. rewrite Z.sub_diag in R1, V1.
    unfold gbind at 1. unfold gtry. rewrite R1. cbv beta iota.
    rewrite (proj2 (Z.ltb_lt _ _)) by done.
    pose proof (cell_range _ _ (Hok K ltac:(right; by left))) as Hr. fold (pool d K) in Hr.
    assert (pools_ok d1) as Hok1.
    { intros k Hk. rewrite V1. case_goal; [by apply Hok|]. by apply cell_ok_put, Hok. }
    destruct (DrainFeePool_run d1 "participation" K 0 Hok1 participation_key ltac:(done))
      as (d2 & R2 & V2). cbn [Z.eqb orb] in R2, V2.
    erewrite gbind_ret by (apply gignore_ret; exact R2).
    erewrite gbind_ret by (apply gignore_ret, SetFeePool_run, participation_key).
    assert (forall k, k <> K -> db_view d2 !! k = db_view d !! k) as Hother.
    { intros k Hk. rewrite V2. case_goal; [|rewrite lookup_insert_ne by done];
        rewrite V1; (case_goal; [done|by rewrite lookup_insert_ne]). }
    eexists. split; [reflexivity|]. rewrite db_view_ins. split.
    + intros k. unfold pool. rewrite db_view_ins, cell_put. case_decide as E; [subst k; by apply u64_id|].
      unfold cell. by rewrite Hother.
    + intros k Hk. rewrite lookup_insert_ne by done. by apply Hother.
Qed.
End PayProofs.
