(* ===== verification/Config.v ===== *)
(** * core/node/config.go: the node's configuration and its validation

    [Validate] checks the required entries and fills in defaults in place; what it filled
    in before an error stays, so it returns the outcome and the configuration.  A
    [float64] is a [spec_float] of the Standard Library (53 bits, exponent range 1024). *)

From Stdlib Require Import SpecFloat.
From S2P Require Import Prelude GoLang.

(** ** float64 *)
Notation f64 := spec_float.
Definition f64_of_Z (z : Z) : f64 := binary_normalize 53 1024 z 0 false.
Definition f64_mul (a b : f64) : f64 := SFmul 53 1024 a b.
Definition f64_div (a b : f64) : f64 := SFdiv 53 1024 a b.
Definition f64_eqb (a b : f64) : bool := SFeqb a b.
Definition f64_ltb (a b : f64) : bool := SFltb a b.
Definition f64_leb (a b : f64) : bool := SFleb a b.
Definition f64_zero : f64 := S754_zero false.
(** The literal [1.10], rounded to nearest. *)
Definition f64_1_10 : f64 := f64_div (f64_of_Z 11) (f64_of_Z 10).

(** [int64(x)] for a value in range: truncation toward zero. *)
Definition f64_to_int64 (x : f64) : Z :=
  match x with
  | S754_finite s m e =>
      let v := if 0 <=? e then Zpos m * 2 ^ e else Z.quot (Zpos m) (2 ^ (- e)) in
      i64 (if s then - v else v)
  | _ => 0
  end.

#[global] Arguments f64_1_10 : simpl never.
#[global] Arguments f64_leb : simpl never.
#[global] Arguments f64_to_int64 : simpl never.
#[global] Arguments f64_of_Z : simpl never.

(** ** Data *)

Record FinalityValidator := { fv_Name : string; fv_PubkeyHex : string; fv_Weight : Z }.
Record FinalityConfig := {
  fc_Enabled : bool; fc_CheckpointInterval : Z; fc_ThresholdNum : Z; fc_ThresholdDen : Z;
  fc_Validators : list FinalityValidator; fc_Peers : list string; fc_GossipIntervalSeconds : Z }.
Record SyncConfig := {
  sc_Enabled : bool; sc_Peers : list string; sc_IntervalSeconds : Z; sc_MaxBlocksPerRound : Z }.
Record PoPConfig := { pc_EpochBlocks : Z; pc_MinPayout : Z }.
Record MempoolConfig := {
  mc_MaxTxsPerSender : Z; mc_MaxTxs : Z; mc_MaxBytes : Z; mc_TxTTLSeconds : Z;
  mc_AllowFutureNonces : bool; mc_MaxNonceGap : Z; mc_RBFMinFeeBump : f64 }.
(** [ic_Reward] is the field [Issuance.Reward] that block validation reads and the
    structure does not declare. *)
Record IssuanceConfig := {
  ic_Enabled : bool; ic_BlockReward : Z; ic_RewardAsset : string; ic_CoinbaseTo : string;
  ic_Reward : Z }.
Record ValidationConfig := { vc_ValidateForkState : bool; vc_MaxReplayBlocks : Z }.
Record PoSConfig := { pos_ValidatorSource : string }.
Record LimitsConfig := { lc_MaxBlockBytes : Z; lc_MaxBlockTxs : Z; lc_MaxTxOutputs : Z }.
Record NodeRoleConfig := { nc_Role : string; nc_ReadOnly : bool; nc_AllowPublicSubmit : bool }.
Record StateConfig := { st_SnapshotInterval : Z; st_SnapshotDir : string; st_SnapshotFormat : string }.
Record GossipConfig := {
  gc_Enabled : bool; gc_Peers : list string; gc_TimeoutSeconds : Z; gc_MaxHops : Z }.
Record P2PConfig := { p2_Enabled : bool; p2_Bind : string; p2_Port : Z; p2_Allowlist : list string }.
Record FeesConfig := {
  fe_GasAsset : string; fe_BaseFeeMin : Z; fe_PerByte : Z; fe_OTAPMultiplier : Z; fe_Mode : string }.
Record KeyvaultConfig := { kc_Path : string; kc_KEKEnv : string; kc_RotationDays : Z }.
Record RPCConfig := { rc_Bind : string; rc_Port : Z }.
(** The first of the two fields called [Node]. *)
Record NodeInfo := { ni_Name : string; ni_RuntimeRoot : string; ni_LogFile : string }.

Record Config := {
  c_Info : NodeInfo; c_LevelDBPath : string; c_Keyvault : KeyvaultConfig; c_RPC : RPCConfig;
  c_GenesisFile : string; c_Finality : FinalityConfig; c_Sync : SyncConfig; c_Fees : FeesConfig;
  c_PoP : PoPConfig; c_Mempool : MempoolConfig; c_Issuance : IssuanceConfig; c_P2P : P2PConfig;
  c_Gossip : GossipConfig; c_State : StateConfig; c_Node : NodeRoleConfig; c_PoS : PoSConfig;
  c_Limits : LimitsConfig; c_Validation : ValidationConfig }.

(** ** Validate *)

(** [if x == "" { x = d }], [if x == 0 { x = d }], [if x <= 0 { x = d }]. *)
Definition dflt_s (x d : string) : string := if (x =? "")%string then d else x.
Definition dflt_0 (x d : Z) : Z := if x =? 0 then d else x.
Definition dflt_le0 (x d : Z) : Z := if x <=? 0 then d else x.

Definition set_Keyvault (k : KeyvaultConfig) (c : Config) : Config :=
  {| c_Info := c_Info c; c_LevelDBPath := c_LevelDBPath c; c_Keyvault := k; c_RPC := c_RPC c;
     c_GenesisFile := c_GenesisFile c; c_Finality := c_Finality c; c_Sync := c_Sync c;
     c_Fees := c_Fees c; c_PoP := c_PoP c; c_Mempool := c_Mempool c; c_Issuance := c_Issuance c;
     c_P2P := c_P2P c; c_Gossip := c_Gossip c; c_State := c_State c; c_Node := c_Node c;
     c_PoS := c_PoS c; c_Limits := c_Limits c; c_Validation := c_Validation c |}.

Definition set_RPC (r : RPCConfig) (c : Config) : Config :=
  {| c_Info := c_Info c; c_LevelDBPath := c_LevelDBPath c; c_Keyvault := c_Keyvault c; c_RPC := r;
     c_GenesisFile := c_GenesisFile c; c_Finality := c_Finality c; c_Sync := c_Sync c;
     c_Fees := c_Fees c; c_PoP := c_PoP c; c_Mempool := c_Mempool c; c_Issuance := c_Issuance c;
     c_P2P := c_P2P c; c_Gossip := c_Gossip c; c_State := c_State c; c_Node := c_Node c;
     c_PoS := c_PoS c; c_Limits := c_Limits c; c_Validation := c_Validation c |}.

(** The assignments after the last check. *)
Definition fill_defaults (c : Config) : Config :=
  let f := c_Finality c in let s := c_Sync c in let e := c_Fees c in let p := c_PoP c in
  let m := c_Mempool c in let i := c_Issuance c in let q := c_P2P c in let g := c_Gossip c in
  let t := c_State c in let n := c_Node c in let l := c_Limits c in let v := c_Validation c in
  {| c_Info := c_Info c; c_LevelDBPath := c_LevelDBPath c; c_Keyvault := c_Keyvault c;
     c_RPC := c_RPC c; c_GenesisFile := c_GenesisFile c;
     c_Finality := {| fc_Enabled := fc_Enabled f;
       fc_CheckpointInterval := dflt_0 (fc_CheckpointInterval f) 20;
       fc_ThresholdNum := dflt_0 (fc_ThresholdNum f) 2;
       fc_ThresholdDen := dflt_0 (fc_ThresholdDen f) 3;
       fc_Validators := fc_Validators f; fc_Peers := fc_Peers f;
       fc_GossipIntervalSeconds := dflt_le0 (fc_GossipIntervalSeconds f) 3 |};
     c_Sync := {| sc_Enabled := sc_Enabled s; sc_Peers := sc_Peers s;
       sc_IntervalSeconds := dflt_le0 (sc_IntervalSeconds s) 3;
       sc_MaxBlocksPerRound := dflt_le0 (sc_MaxBlocksPerRound s) 50 |};
     c_Fees := {| fe_GasAsset := dflt_s (fe_GasAsset e) "USDR";
       fe_BaseFeeMin := dflt_le0 (fe_BaseFeeMin e) 100; fe_PerByte := dflt_le0 (fe_PerByte e) 2;
       fe_OTAPMultiplier := dflt_le0 (fe_OTAPMultiplier e) 10;
       fe_Mode := dflt_s (fe_Mode e) "NORMAL" |};
     c_PoP := {| pc_EpochBlocks := dflt_0 (pc_EpochBlocks p) 50;
       pc_MinPayout := dflt_0 (pc_MinPayout p) 100 |};
     c_Mempool := {| mc_MaxTxsPerSender := mc_MaxTxsPerSender m;
       mc_MaxTxs := dflt_le0 (mc_MaxTxs m) 5000;
       mc_MaxBytes := dflt_le0 (mc_MaxBytes m) 8000000;
       mc_TxTTLSeconds := dflt_le0 (mc_TxTTLSeconds m) 1800;
       mc_AllowFutureNonces := mc_AllowFutureNonces m;
       mc_MaxNonceGap := dflt_0 (mc_MaxNonceGap m) 50;
       mc_RBFMinFeeBump :=
         if f64_leb (mc_RBFMinFeeBump m) f64_zero then f64_1_10 else mc_RBFMinFeeBump m |};
     c_Issuance := {| ic_Enabled := ic_Enabled i;
       ic_BlockReward := dflt_0 (ic_BlockReward i) 5000;
       ic_RewardAsset := dflt_s (ic_RewardAsset i) "USDR";
       ic_CoinbaseTo := dflt_s (ic_CoinbaseTo i) "miner:local"; ic_Reward := ic_Reward i |};
     c_P2P := {| p2_Enabled := p2_Enabled q; p2_Bind := dflt_s (p2_Bind q) "0.0.0.0";
       p2_Port := dflt_0 (p2_Port q) 18444; p2_Allowlist := p2_Allowlist q |};
     c_Gossip := {| gc_Enabled := gc_Enabled g; gc_Peers := gc_Peers g;
       gc_TimeoutSeconds := dflt_le0 (gc_TimeoutSeconds g) 3;
       gc_MaxHops := dflt_le0 (gc_MaxHops g) 1 |};
     c_State := {| st_SnapshotInterval := dflt_0 (st_SnapshotInterval t) 200;
       st_SnapshotDir := dflt_s (st_SnapshotDir t) "runtime/snapshots";
       st_SnapshotFormat := dflt_s (st_SnapshotFormat t) "json" |};
     c_Node := {| nc_Role := dflt_s (nc_Role n) "developer"; nc_ReadOnly := nc_ReadOnly n;
       nc_AllowPublicSubmit := nc_AllowPublicSubmit n |};
     c_PoS := {| pos_ValidatorSource := dflt_s (pos_ValidatorSource (c_PoS c)) "registry" |};
     c_Limits := {| lc_MaxBlockBytes := dflt_0 (lc_MaxBlockBytes l) 1000000;
       lc_MaxBlockTxs := dflt_0 (lc_MaxBlockTxs l) 5000;
       lc_MaxTxOutputs := dflt_0 (lc_MaxTxOutputs l) 256 |};
     c_Validation := {| vc_ValidateForkState := vc_ValidateForkState v;
       vc_MaxReplayBlocks := dflt_0 (vc_MaxReplayBlocks v) 2000 |} |}.

Definition Config_Validate (c : Config) : outcome unit * Config :=
  if (c_LevelDBPath c =? "")%string then (Err "storage.leveldb_path required", c)
  else if (kc_Path (c_Keyvault c) =? "")%string then (Err "keyvault.path required", c)
  else
    let k := c_Keyvault c in
    let c := set_Keyvault {| kc_Path := kc_Path k;
               kc_KEKEnv := dflt_s (kc_KEKEnv k) "RESERVEOS_KEYMASTER";
               kc_RotationDays := dflt_0 (kc_RotationDays k) 5 |} c in
    if rc_Port (c_RPC c) =? 0 then (Err "rpc.port required", c)
    else
      let c := set_RPC {| rc_Bind := dflt_s (rc_Bind (c_RPC c)) "127.0.0.1";
                          rc_Port := rc_Port (c_RPC c) |} c in
      if (c_GenesisFile c =? "")%string then (Err "chain.genesis_file required", c)
      else (Ret tt, fill_defaults c).

#[global] Arguments dflt_s : simpl never.
#[global] Arguments dflt_0 : simpl never.
#[global] Arguments dflt_le0 : simpl never.

(** ** Properties *)

Lemma dflt_s_idem x d : dflt_s (dflt_s x d) d = dflt_s x d.
Proof. unfold dflt_s. destruct (x =? "")%string eqn:E; [by case_goal|by rewrite E]. Qed.
Lemma dflt_0_idem x d : dflt_0 (dflt_0 x d) d = dflt_0 x d.
Proof. unfold dflt_0. destruct (x =? 0) eqn:E; [by case_goal|by rewrite E]. Qed.
Lemma dflt_le0_idem x d : dflt_le0 (dflt_le0 x d) d = dflt_le0 x d.
Proof. unfold dflt_le0. destruct (x <=? 0) eqn:E; [by case_goal|by rewrite E]. Qed.
Lemma dflt_0_nz x d : d <> 0 -> dflt_0 x d <> 0.
Proof. unfold dflt_0. case_goal; zbool; lia. Qed.
Lemma dflt_le0_pos x d : 0 < d -> 0 < dflt_le0 x d.
Proof. unfold dflt_le0. case_goal; zbool; lia. Qed.
Lemma dflt_s_ne x d : d <> "" -> dflt_s x d <> "".
Proof. unfold dflt_s. case_goal; zbool; done. Qed.

(** What the rest of the node relies on. *)
Record Config_wf (c : Config) : Prop := {
  wf_epoch : pc_EpochBlocks (c_PoP c) <> 0;
  wf_interval : fc_CheckpointInterval (c_Finality c) <> 0;
  wf_den : fc_ThresholdDen (c_Finality c) <> 0;
  wf_fee : 0 < fe_BaseFeeMin (c_Fees c) /\ 0 < fe_PerByte (c_Fees c) /\ 0 < fe_OTAPMultiplier (c_Fees c);
  wf_mempool : 0 < mc_MaxTxs (c_Mempool c) /\ 0 < mc_MaxBytes (c_Mempool c) /\
               0 < mc_TxTTLSeconds (c_Mempool c);
  wf_bump : f64_leb (mc_RBFMinFeeBump (c_Mempool c)) f64_zero = false;
  wf_limits : lc_MaxBlockBytes (c_Limits c) <> 0 /\ lc_MaxBlockTxs (c_Limits c) <> 0 /\
              lc_MaxTxOutputs (c_Limits c) <> 0;
  wf_role : nc_Role (c_Node c) <> "" /\ kc_KEKEnv (c_Keyvault c) <> "";
}.

Lemma bump_idem (b : f64) : f64_leb (if f64_leb b f64_zero then f64_1_10 else b) f64_zero = false.
Proof. destruct (f64_leb b f64_zero) eqn:Eb; [by vm_compute|done]. Qed.

Lemma fill_defaults_idem c : fill_defaults (fill_defaults c) = fill_defaults c.
Proof.
  destruct c. unfold fill_defaults.
  cbv -[dflt_s dflt_0 dflt_le0 f64_leb f64_1_10 f64_zero].
  fold f64_1_10. rewrite !dflt_s_idem, !dflt_0_idem, !dflt_le0_idem. by rewrite bump_idem.
Qed.

Lemma set_Keyvault_same c k : c_Keyvault c = k -> set_Keyvault k c = c.
Proof. intros <-. by destruct c. Qed.
Lemma set_RPC_same c r : c_RPC c = r -> set_RPC r c = c.
Proof. intros <-. by destruct c. Qed.

(** Validation succeeds exactly on configurations that name the store, the key vault,
    the RPC port and the genesis file; what it then leaves behind has non-zero epoch,
    checkpoint and limit settings and positive fee and mempool settings, and validating it
    again changes nothing. *)
Theorem Config_Validate_ok c :
  let '(r, c') := Config_Validate c in
  (r = Ret tt <-> c_LevelDBPath c <> "" /\ kc_Path (c_Keyvault c) <> "" /\
                  rc_Port (c_RPC c) <> 0 /\ c_GenesisFile c <> "") /\
  (r = Ret tt -> Config_wf c' /\ Config_Validate c' = (Ret tt, c')).
Proof.
  unfold Config_Validate.
  destruct (c_LevelDBPath c =? "")%string eqn:E1; zbool; [split; [split; [done|by intros (? & ? & ? & ?)]|done]|].
  destruct (kc_Path (c_Keyvault c) =? "")%string eqn:E2; zbool; [split; [split; [done|by intros (? & ? & ? & ?)]|done]|].
  cbn [c_RPC c_GenesisFile set_Keyvault set_RPC].
  destruct (rc_Port (c_RPC c) =? 0) eqn:E3; zbool; [split; [split; [done|by intros (? & ? & ? & ?)]|done]|].
  destruct (c_GenesisFile c =? "")%string eqn:E4; zbool; [split; [split; [done|by intros (? & ? & ? & ?)]|done]|].
  split; [done|]. intros _.
  set (c2 := set_RPC _ _).
  assert (c_LevelDBPath c2 = c_LevelDBPath c /\ kc_Path (c_Keyvault c2) = kc_Path (c_Keyvault c) /\
    rc_Port (c_RPC c2) = rc_Port (c_RPC c) /\ c_GenesisFile c2 = c_GenesisFile c)
    as (F1 & F2 & F3 & F4) by done.
  split.
  - constructor; cbn [fill_defaults c_PoP c_Finality c_Fees c_Mempool c_Limits c_Node c_Keyvault
      pc_EpochBlocks fc_CheckpointInterval fc_ThresholdDen fe_BaseFeeMin fe_PerByte fe_OTAPMultiplier
      mc_MaxTxs mc_MaxBytes mc_TxTTLSeconds mc_RBFMinFeeBump lc_MaxBlockBytes lc_MaxBlockTxs
      lc_MaxTxOutputs nc_Role]; split_and?;
      first [apply dflt_0_nz; lia | apply dflt_le0_pos; lia | apply dflt_s_ne; done | apply bump_idem].
  - change (c_LevelDBPath (fill_defaults c2)) with (c_LevelDBPath c2).
    change (c_Keyvault (fill_defaults c2)) with (c_Keyvault c2).
    change (c_RPC (fill_defaults c2)) with (c_RPC c2).
    change (c_GenesisFile (fill_defaults c2)) with (c_GenesisFile c2).
    rewrite F1, F2, F3, F4, !(proj2 (String.eqb_neq _ _)), (proj2 (Z.eqb_neq _ _)) by done.
    rewrite (set_Keyvault_same (fill_defaults c2)), (set_RPC_same (fill_defaults c2)).
    + by rewrite fill_defaults_idem.
    + unfold c2. cbn. by rewrite dflt_s_idem.
    + unfold c2. cbn. by rewrite dflt_s_idem, dflt_0_idem.
Qed.
