(* ===== verification/Crypto.v ===== *)
(** * core/crypto: account signatures, Schnorr signatures and one-time addresses

    [filippo.io/edwards25519], the AEAD of [golang.org/x/crypto/chacha20poly1305], HKDF and
    the ed25519 primitive are classes of operations with the documented laws; SHA-512 is an
    operation too.  Base64 is written out.  Random bytes are an argument: the outcome of
    [rand.Read]. *)

From S2P Require Import Prelude GoLang Chain.

(** ** Interfaces *)

Class Ed25519 := {
  ed_Verify : string -> string -> string -> bool;  (* public key, message, signature *)
  ed_Sign : string -> string -> string;            (* private key, message *)
}.

Class Edwards := {
  scalar : Type; point : Type;
  sc_Add : scalar -> scalar -> scalar; sc_Multiply : scalar -> scalar -> scalar;
  ScalarBaseMult : scalar -> point; ScalarMult : scalar -> point -> point;
  pt_Add : point -> point -> point; pt_Equal : point -> point -> bool;
  pt_Bytes : point -> string; sc_Bytes : scalar -> string;
  pt_SetBytes : string -> outcome point; sc_SetCanonicalBytes : string -> outcome scalar;
  sc_SetUniformBytes : string -> outcome scalar;
  sha512 : string -> string;
}.

(** Points form a group on which scalars act; encodings are 32 bytes and decode to what
    was encoded; 64 bytes always reduce to a scalar, and SHA-512 has 64. *)
Class EdwardsOk (E : Edwards) : Prop := {
  base_add : forall a b, ScalarBaseMult (sc_Add a b) = pt_Add (ScalarBaseMult a) (ScalarBaseMult b);
  mult_base : forall a b, ScalarMult a (ScalarBaseMult b) = ScalarBaseMult (sc_Multiply a b);
  sc_mul_comm : forall a b, sc_Multiply a b = sc_Multiply b a;
  pt_Equal_eq : forall p q, pt_Equal p q = true <-> p = q;
  pt_Bytes_32 : forall p, String.length (pt_Bytes p) = 32%nat;
  sc_Bytes_32 : forall s, String.length (sc_Bytes s) = 32%nat;
  pt_decode : forall p, pt_SetBytes (pt_Bytes p) = Ret p;
  sc_decode : forall s, sc_SetCanonicalBytes (sc_Bytes s) = Ret s;
  sc_uniform : forall b, String.length b = 64%nat -> exists s, sc_SetUniformBytes b = Ret s;
  sha512_length : forall b, String.length (sha512 b) = 64%nat;
}.

Class AEAD := {
  aead_Seal : string -> string -> string -> string -> string;           (* key nonce plaintext aad *)
  aead_Open : string -> string -> string -> string -> outcome string;   (* key nonce ciphertext aad *)
  hkdf_key : string -> string -> outcome string;                        (* secret info, 32 bytes out *)
}.

Class AEADOk (A : AEAD) : Prop := {
  aead_open_seal : forall k n p a, aead_Open k n (aead_Seal k n p a) a = Ret p;
  hkdf_key_32 : forall s i, exists k, hkdf_key s i = Ret k /\ String.length k = 32%nat;
}.

(** Sequencing of outcomes without state. *)
Definition obind {A B} (o : outcome A) (f : A -> outcome B) : outcome B :=
  match o with Ret a => f a | Err e => Err e | Panic => Panic end.
Notation "'olet' x ':=' m 'in' k" := (obind m (fun x => k))
  (at level 200, x pattern, m at level 100, k at level 200) : go_scope.

(** ** core/crypto/sig *)
Section Sig.
Context {ED : Ed25519}.

Definition sig_ParsePub (hexPub : string) : outcome string :=
  olet b := hex_DecodeString hexPub in
  if negb (Nat.eqb (String.length b) 32) then Err "bad pubkey size" else Ret b.

Definition sig_ParseSig (hexSig : string) : outcome string :=
  olet b := hex_DecodeString hexSig in
  if negb (Nat.eqb (String.length b) 64) then Err "bad sig size" else Ret b.

Definition sig_Verify (pubHex sigHex msg : string) : bool :=
  match sig_ParsePub pubHex with
  | Ret pub => match sig_ParseSig sigHex with
               | Ret sig => ed_Verify pub msg sig
               | _ => false
               end
  | _ => false
  end.

Definition VerifyWithPubHex (pubHex sigHex msg : string) : bool := sig_Verify pubHex sigHex msg.

(** [ed25519]: a signature verifies under the public half of the key, and the sizes. *)
Definition key_pair (pub priv : string) : Prop :=
  String.length pub = 32%nat /\ forall m, ed_Verify pub m (ed_Sign priv m) = true /\ String.length (ed_Sign priv m) = 64%nat.

Lemma VerifyWithPubHex_signed pub priv msg : key_pair pub priv ->
  VerifyWithPubHex (hex_EncodeToString pub) (hex_EncodeToString (ed_Sign priv msg)) msg = true.
Proof.
  intros [Hl Hs]. destruct (Hs msg) as [Hv H64].
  unfold VerifyWithPubHex, sig_Verify, sig_ParsePub, sig_ParseSig. rewrite !hex_Decode_Encode. cbn [obind].
  by rewrite Hl, H64.
Qed.
End Sig.

(** ** core/crypto/schnorr *)
Section Schnorr.
Context {E : Edwards}.

Definition randomScalar (rnd : outcome string) : outcome scalar :=
  olet buf := rnd in sc_SetUniformBytes buf.

Definition challenge (R P : point) (msg : string) : outcome scalar :=
  let sum := sha512 ("ReserveOS:Schnorr25519:v1|" +:+ pt_Bytes R +:+ pt_Bytes P +:+ msg) in
  if negb (Nat.eqb (String.length sum) 64) then Err "bad hash length"
  else sc_SetUniformBytes sum.

Definition schnorr_Sign (rnd : outcome string) (x : scalar) (P : point) (msg : string) : outcome string :=
  olet k := randomScalar rnd in
  let R := ScalarBaseMult k in
  olet e := challenge R P msg in
  let ex := sc_Multiply e x in
  let s := sc_Add k ex in
  Ret (hex_EncodeToString (pt_Bytes R +:+ sc_Bytes s)).

Definition schnorr_Verify (P : point) (msg sigHex : string) : bool :=
  match hex_DecodeString sigHex with
  | Ret sig =>
      if negb (Nat.eqb (String.length sig) 64) then false
      else match pt_SetBytes (str_take 32 sig) with
      | Ret R =>
          match sc_SetCanonicalBytes (str_drop 32 sig) with
          | Ret s =>
              match challenge R P msg with
              | Ret e =>
                  let lhs := ScalarBaseMult s in
                  let eP := ScalarMult e P in
                  let rhs := pt_Add R eP in
                  pt_Equal lhs rhs
              | _ => false
              end
          | _ => false
          end
      | _ => false
      end
  | _ => false
  end.
End Schnorr.

(** ** core/crypto/otap *)

Definition DomainSep : string := "ReserveOS:OTAP:v1".

Record RegistryKeys := { rk_ScanPub : string; rk_SpendPub : string }.
Record PrivateKeys := { pk_ScanPriv : string; pk_SpendPriv : string }.
Record OTAPOutput := { oo_P : string; oo_R : string; oo_Tag : string }.

Section Otap.
Context {HS : Hashes} {E : Edwards}.

Definition GenerateKeys (rnd1 rnd2 : outcome string) : outcome (RegistryKeys * PrivateKeys) :=
  olet s := randomScalar rnd1 in
  olet v := randomScalar rnd2 in
  let Sp := ScalarBaseMult s in
  let V := ScalarBaseMult v in
  Ret ({| rk_ScanPub := hex_EncodeToString (pt_Bytes Sp);
          rk_SpendPub := hex_EncodeToString (pt_Bytes V) |},
       {| pk_ScanPriv := hex_EncodeToString (sc_Bytes s);
          pk_SpendPriv := hex_EncodeToString (sc_Bytes v) |}).

Definition decodePoint (hexComp : string) : outcome point :=
  olet b := hex_DecodeString hexComp in
  if negb (Nat.eqb (String.length b) 32) then Err "point must be 32 bytes" else pt_SetBytes b.

Definition decodeScalar (hex32 : string) : outcome scalar :=
  olet b := hex_DecodeString hex32 in
  if negb (Nat.eqb (String.length b) 32) then Err "scalar must be 32 bytes"
  else sc_SetCanonicalBytes b.

Definition DecodePointHex (hexStr : string) : outcome point := decodePoint hexStr.

Definition tag16 (K : string) : string :=
  hex_EncodeToString (str_take 2 (sha256 (K +:+ "tag"))).

Definition hToScalar (K chainID context : string) : outcome scalar :=
  let sum := sha512 (DomainSep +:+ "|" +:+ chainID +:+ "|" +:+ context +:+ "|" +:+ K) in
  if negb (Nat.eqb (String.length sum) 64) then Err "bad sha512 length"
  else sc_SetUniformBytes sum.

Definition BuildOutput (rnd : outcome string) (chainID context : string) (reg : RegistryKeys)
    : outcome (OTAPOutput * string) :=
  olet Sp := decodePoint (rk_ScanPub reg) in
  olet V := decodePoint (rk_SpendPub reg) in
  olet r := randomScalar rnd in
  let R := ScalarBaseMult r in
  let K := ScalarMult r Sp in
  olet k := hToScalar (pt_Bytes K) chainID context in
  let kG := ScalarBaseMult k in
  let P := pt_Add V kG in
  Ret ({| oo_P := hex_EncodeToString (pt_Bytes P); oo_R := hex_EncodeToString (pt_Bytes R);
          oo_Tag := tag16 (pt_Bytes K) |}, pt_Bytes K).

Definition Detect (chainID context : string) (out : OTAPOutput) (sPrivHex VpubHex : string)
    : outcome (option string) :=
  olet s := decodeScalar sPrivHex in
  olet R := decodePoint (oo_R out) in
  olet V := decodePoint VpubHex in
  olet P := decodePoint (oo_P out) in
  let K := ScalarMult s R in
  olet k := hToScalar (pt_Bytes K) chainID context in
  let kG := ScalarBaseMult k in
  let Pp := pt_Add V kG in
  if negb (pt_Equal Pp P) then Ret None else Ret (Some (pt_Bytes K)).

Definition DetectWithK (chainID context : string) (out : OTAPOutput) (sPrivHex VpubHex : string)
    : outcome (option (string * scalar)) :=
  olet s := decodeScalar sPrivHex in
  olet R := decodePoint (oo_R out) in
  olet V := decodePoint VpubHex in
  olet P := decodePoint (oo_P out) in
  let K := ScalarMult s R in
  olet k2 := hToScalar (pt_Bytes K) chainID context in
  let kG := ScalarBaseMult k2 in
  let Pp := pt_Add V kG in
  if negb (pt_Equal Pp P) then Ret None else Ret (Some (pt_Bytes K, k2)).

Definition OneTimePriv (vPrivHex : string) (k : scalar) : outcome scalar :=
  olet v := decodeScalar vPrivHex in
  Ret (sc_Add v k).
End Otap.

(** *** encoding/base64, standard alphabet with padding *)

Definition b64_alphabet : string :=
  "ABCDEFGHIJKLMNOPQRSTUVWXYZabcdefghijklmnopqrstuvwxyz0123456789+/".
Definition b64_char (v : Z) : ascii :=
  match String.get (Z.to_nat v) b64_alphabet with Some c => c | None => "A"%char end.
Definition b64_val (c : ascii) : option Z :=
  let z := Z_of_byte c in
  if (65 <=? z) && (z <=? 90) then Some (z - 65)
  else if (97 <=? z) && (z <=? 122) then Some (z - 97 + 26)
  else if (48 <=? z) && (z <=? 57) then Some (z - 48 + 52)
  else if z =? 43 then Some 62 else if z =? 47 then Some 63 else None.

Fixpoint b64_Encode (s : string) : string :=
  match s with
  | EmptyString => EmptyString
  | String a EmptyString =>
      let v := Z_of_byte a * 16 in
      String (b64_char (v / 64)) (String (b64_char (v mod 64)) "==")
  | String a (String b EmptyString) =>
      let v := (Z_of_byte a * 256 + Z_of_byte b) * 4 in
      String (b64_char (v / 4096)) (String (b64_char (v / 64 mod 64)) (String (b64_char (v mod 64)) "="))
  | String a (String b (String c s')) =>
      let v := (Z_of_byte a * 256 + Z_of_byte b) * 256 + Z_of_byte c in
      String (b64_char (v / 262144)) (String (b64_char (v / 4096 mod 64))
        (String (b64_char (v / 64 mod 64)) (String (b64_char (v mod 64)) (b64_Encode s'))))
  end.

(** Line breaks are skipped before the groups are read. *)
Fixpoint b64_strip (s : string) : string :=
  match s with
  | EmptyString => EmptyString
  | String c s' =>
      if (Z_of_byte c =? 10) || (Z_of_byte c =? 13) then b64_strip s' else String c (b64_strip s')
  end.

Definition b64_err : outcome string := Err "illegal base64 data".

Fixpoint b64_groups (s : string) : outcome string :=
  match s with
  | EmptyString => Ret EmptyString
  | String a (String b (String c (String d s'))) =>
      match b64_val a, b64_val b with
      | Some x, Some y =>
          match b64_val c, b64_val d with
          | Some z, Some w =>
              let v := ((x * 64 + y) * 64 + z) * 64 + w in
              olet r := b64_groups s' in
              Ret (String (byte_of_Z (v / 65536)) (String (byte_of_Z (v / 256)) (String (byte_of_Z v) r)))
          | Some z, None =>
              if Ascii.eqb d "=" && (s' =? "")%string then
                let v := (x * 64 + y) * 64 + z in
                Ret (String (byte_of_Z (v / 1024)) (String (byte_of_Z (v / 4)) EmptyString))
              else b64_err
          | None, _ =>
              if Ascii.eqb c "=" && Ascii.eqb d "=" && (s' =? "")%string then
                Ret (String (byte_of_Z ((x * 64 + y) / 16)) EmptyString)
              else b64_err
          end
      | _, _ => b64_err
      end
  | _ => b64_err
  end.
Definition b64_Decode (s : string) : outcome string := b64_groups (b64_strip s).

(** *** memo.go *)
Section Memo.
Context {HS : Hashes} {A : AEAD}.

Definition deriveMemoKey (K : string) : outcome string :=
  hkdf_key (sha256 K) "ReserveOS:OTAP:memo".

(** [chacha20poly1305.New]. *)
Definition aead_New (key : string) : outcome string :=
  if Nat.eqb (String.length key) 32 then Ret key else Err "chacha20poly1305: bad key length".

Definition EncryptMemo (rnd : outcome string) (sharedSecretK plaintext aad : string) : outcome string :=
  olet memoKey := deriveMemoKey sharedSecretK in
  olet memoKey := aead_New memoKey in
  olet nonce := rnd in
  let ct := aead_Seal memoKey nonce plaintext aad in
  Ret (b64_Encode (nonce +:+ ct)).

Definition DecryptMemo (sharedSecretK enc aad : string) : outcome string :=
  olet memoKey := deriveMemoKey sharedSecretK in
  olet memoKey := aead_New memoKey in
  olet b := b64_Decode enc in
  let ns := 12%nat in
  if Nat.ltb (String.length b) ns then Err "enc_memo too short"
  else aead_Open memoKey (str_take ns b) (str_drop ns b) aad.
End Memo.

(** ** Properties *)

(** What [hex.DecodeString] and the length checks give on an encoding. *)
Lemma decodePoint_encode `{EdwardsOk} p : decodePoint (hex_EncodeToString (pt_Bytes p)) = Ret p.
Proof.
  unfold decodePoint. rewrite hex_Decode_Encode. cbn [obind]. rewrite pt_Bytes_32. apply pt_decode.
Qed.

Lemma decodeScalar_encode `{EdwardsOk} s : decodeScalar (hex_EncodeToString (sc_Bytes s)) = Ret s.
Proof.
  unfold decodeScalar. rewrite hex_Decode_Encode. cbn [obind]. rewrite sc_Bytes_32. apply sc_decode.
Qed.

Section Proofs.
Context {HS : Hashes} {E : Edwards} {HE : EdwardsOk E}.

Lemma challenge_some R P msg : exists e, challenge R P msg = Ret e.
Proof. unfold challenge. rewrite sha512_length. cbn. apply sc_uniform, sha512_length. Qed.

Lemma hToScalar_some K c x : exists k, hToScalar K c x = Ret k.
Proof. unfold hToScalar. rewrite sha512_length. cbn. apply sc_uniform, sha512_length. Qed.

Lemma randomScalar_some rnd : String.length rnd = 64%nat -> exists k, randomScalar (Ret rnd) = Ret k.
Proof. intros H. by apply sc_uniform. Qed.

(** A signature made with the secret of a public key verifies under that key. *)
Lemma schnorr_complete rnd x msg : String.length rnd = 64%nat ->
  exists sig, schnorr_Sign (Ret rnd) x (ScalarBaseMult x) msg = Ret sig /\
    schnorr_Verify (ScalarBaseMult x) msg sig = true.
Proof.
  intros Hr. destruct (randomScalar_some rnd Hr) as [k Hk].
  unfold schnorr_Sign. rewrite Hk. cbn [obind].
  destruct (challenge_some (ScalarBaseMult k) (ScalarBaseMult x) msg) as [e He].
  rewrite He. cbn [obind]. eexists. split; [reflexivity|].
  unfold schnorr_Verify. rewrite hex_Decode_Encode, str_length_app, pt_Bytes_32, sc_Bytes_32.
  cbn [Nat.add Nat.eqb negb].
  pose proof (str_take_app (pt_Bytes (ScalarBaseMult k)) (sc_Bytes (sc_Add k (sc_Multiply e x)))) as Ht.
  pose proof (str_drop_app (pt_Bytes (ScalarBaseMult k)) (sc_Bytes (sc_Add k (sc_Multiply e x)))) as Hd.
  rewrite pt_Bytes_32 in Ht, Hd. rewrite Ht, Hd, pt_decode, sc_decode, He.
  apply pt_Equal_eq. by rewrite base_add, mult_base.
Qed.

(** Keys, an output built for them and what the owner derives from it. *)
Lemma otap_derivation s v r chainID context (rnd : outcome string) : randomScalar rnd = Ret r ->
  let reg := {| rk_ScanPub := hex_EncodeToString (pt_Bytes (ScalarBaseMult s));
                rk_SpendPub := hex_EncodeToString (pt_Bytes (ScalarBaseMult v)) |} in
  let sPriv := hex_EncodeToString (sc_Bytes s) in let vPriv := hex_EncodeToString (sc_Bytes v) in
  exists out K k, let x := sc_Add v k in
    BuildOutput rnd chainID context reg = Ret (out, K) /\
    Detect chainID context out sPriv (rk_SpendPub reg) = Ret (Some K) /\
    DetectWithK chainID context out sPriv (rk_SpendPub reg) = Ret (Some (K, k)) /\
    OneTimePriv vPriv k = Ret x /\ DecodePointHex (oo_P out) = Ret (ScalarBaseMult x) /\
    oo_P out = hex_EncodeToString (pt_Bytes (ScalarBaseMult x)) /\
    oo_R out = hex_EncodeToString (pt_Bytes (ScalarBaseMult r)).
Proof.
  intros Hr. cbv zeta. set (K := ScalarBaseMult (sc_Multiply r s)).
  destruct (hToScalar_some (pt_Bytes K) chainID context) as [k Hk].
  exists {| oo_P := hex_EncodeToString (pt_Bytes (ScalarBaseMult (sc_Add v k)));
            oo_R := hex_EncodeToString (pt_Bytes (ScalarBaseMult r)); oo_Tag := tag16 (pt_Bytes K) |}, (pt_Bytes K), k.
  unfold BuildOutput, Detect, DetectWithK, OneTimePriv, DecodePointHex.
  cbn [rk_ScanPub rk_SpendPub oo_P oo_R oo_Tag].
  rewrite !decodePoint_encode, !decodeScalar_encode, Hr. cbn [obind].
  rewrite !mult_base, (sc_mul_comm s r). fold K. rewrite Hk. cbn [obind].
  rewrite <- base_add. rewrite (proj2 (pt_Equal_eq _ _) eq_refl). by split_and!.
Qed.

(** One-time addresses: with generated keys, an output built from the public ones is
    detected with the private ones, sender and receiver derive the same shared secret, the
    derived one-time secret opens the output's key, and a claim signed with it verifies
    against that key. *)
Theorem otap_claimable rnd1 rnd2 rnd3 rnd4 chainID context msg :
  String.length rnd1 = 64%nat -> String.length rnd2 = 64%nat ->
  String.length rnd3 = 64%nat -> String.length rnd4 = 64%nat ->
  exists reg priv out K k x P sig,
    GenerateKeys (Ret rnd1) (Ret rnd2) = Ret (reg, priv) /\
    BuildOutput (Ret rnd3) chainID context reg = Ret (out, K) /\
    Detect chainID context out (pk_ScanPriv priv) (rk_SpendPub reg) = Ret (Some K) /\
    DetectWithK chainID context out (pk_ScanPriv priv) (rk_SpendPub reg) = Ret (Some (K, k)) /\
    OneTimePriv (pk_SpendPriv priv) k = Ret x /\
    DecodePointHex (oo_P out) = Ret P /\ ScalarBaseMult x = P /\
    schnorr_Sign (Ret rnd4) x P msg = Ret sig /\ schnorr_Verify P msg sig = true.
Proof.
  intros H1 H2 H3 H4.
  destruct (randomScalar_some _ H1) as [s Hs], (randomScalar_some _ H2) as [v Hv],
    (randomScalar_some _ H3) as [r Hr].
  destruct (otap_derivation s v r chainID context _ Hr) as (out & K & k & Hb & Hd & Hdk & Ho & Hp & _).
  destruct (schnorr_complete rnd4 (sc_Add v k) msg H4) as (sig & Hsig & Hver).
  eexists _, _, out, K, k, (sc_Add v k), _, sig.
  split; [unfold GenerateKeys; rewrite Hs, Hv; reflexivity|]. by split_and!.
Qed.
End Proofs.

(** *** Base64 round trip *)

Lemma b64_val_char v : 0 <= v < 64 -> b64_val (b64_char v) = Some v.
Proof.
  intros H. pose (f v := match b64_val (b64_char v) with Some w => w =? v | None => false end).
  assert (forallb f (List.map Z.of_nat (List.seq 0 64)) = true) as Hall by (vm_compute; reflexivity).
  rewrite forallb_forall in Hall. specialize (Hall v). unfold f in Hall.
  assert (In v (List.map Z.of_nat (List.seq 0 64))) as Hin
    by (apply in_map_iff; exists (Z.to_nat v); rewrite in_seq; lia).
  specialize (Hall Hin). destruct (b64_val (b64_char v)); [|done]. f_equal. by apply Z.eqb_eq.
Qed.

Lemma b64_char_line v : 0 <= v < 64 ->
  (Z_of_byte (b64_char v) =? 10) || (Z_of_byte (b64_char v) =? 13) = false.
Proof.
  intros H%b64_val_char. destruct (Z.eqb_spec (Z_of_byte (b64_char v)) 10) as [E|];
    [unfold b64_val in H; rewrite E in H; done|].
  destruct (Z.eqb_spec (Z_of_byte (b64_char v)) 13) as [E|];
    [unfold b64_val in H; rewrite E in H; done|done].
Qed.

(** Induction over three characters at a time. *)
Lemma string_ind3 (P : string -> Prop) :
  P "" -> (forall a, P (String a "")) -> (forall a b, P (String a (String b ""))) ->
  (forall a b c s, P s -> P (String a (String b (String c s)))) -> forall s, P s.
Proof.
  intros H0 H1 H2 H3 s. assert (forall n s, (String.length s <= n)%nat -> P s) as H; [|by eapply H].
  induction n as [|n IH]; intros [|a [|b [|c t]]] Hl; cbn in Hl; auto; [lia..|].
  apply H3, IH. lia.
Qed.

Lemma b64_strip_Encode s : b64_strip (b64_Encode s) = b64_Encode s.
Proof.
  induction s as [|a|a b|a b c s IH] using string_ind3; [done|..]; cbn [b64_Encode b64_strip];
    pose proof (Z_of_byte_range a) as Ha; unfold is_u8 in Ha.
  - rewrite !b64_char_line by dlia. done.
  - pose proof (Z_of_byte_range b) as Hb; unfold is_u8 in Hb.
    rewrite !b64_char_line by dlia. done.
  - pose proof (Z_of_byte_range b) as Hb; unfold is_u8 in Hb.
    pose proof (Z_of_byte_range c) as Hc; unfold is_u8 in Hc.
    rewrite !b64_char_line by dlia. by rewrite IH.
Qed.

Lemma byte_of_Z_eq z a : z mod 256 = Z_of_byte a -> byte_of_Z z = a.
Proof. intros H. rewrite <- (byte_of_Z_of_byte a). unfold byte_of_Z. do 2 f_equal. rewrite H.
  symmetry. apply Z.mod_small, Z_of_byte_range. Qed.

Lemma b64_groups_Encode s : b64_groups (b64_Encode s) = Ret s.
Proof.
  induction s as [|a|a b|a b c s IH] using string_ind3; [done|..]; cbn [b64_Encode b64_groups];
    pose proof (Z_of_byte_range a) as Ha; unfold is_u8 in Ha.
  - rewrite !b64_val_char by dlia. cbn. do 2 f_equal. apply byte_of_Z_eq. dlia.
  - pose proof (Z_of_byte_range b) as Hb; unfold is_u8 in Hb.
    rewrite !b64_val_char by dlia. cbn -[Z.mul Z.div Z.modulo].
    do 2 f_equal; [|f_equal]; apply byte_of_Z_eq; dlia.
  - pose proof (Z_of_byte_range b) as Hb; unfold is_u8 in Hb.
    pose proof (Z_of_byte_range c) as Hc; unfold is_u8 in Hc.
    rewrite !b64_val_char by dlia. cbv zeta. rewrite IH. cbn [obind].
    do 2 f_equal; [|f_equal; [|f_equal]]; apply byte_of_Z_eq; dlia.
Qed.

Lemma b64_Decode_Encode s : b64_Decode (b64_Encode s) = Ret s.
Proof. unfold b64_Decode. rewrite b64_strip_Encode. apply b64_groups_Encode. Qed.

(** A memo comes back under the same secret and associated data. *)
Lemma memo_round_trip {HS : Hashes} {A : AEAD} {AOk : AEADOk A} rnd K plaintext aad :
  String.length rnd = 12%nat ->
  exists enc, EncryptMemo (Ret rnd) K plaintext aad = Ret enc /\ DecryptMemo K enc aad = Ret plaintext.
Proof.
  intros Hr. unfold EncryptMemo, DecryptMemo, deriveMemoKey.
  destruct (hkdf_key_32 (sha256 K) "ReserveOS:OTAP:memo") as (k & -> & Hk).
  cbn [obind]. unfold aead_New. rewrite Hk. cbn [Nat.eqb obind]. eexists. split; [reflexivity|].
  rewrite b64_Decode_Encode. cbn [obind]. rewrite str_length_app, Hr.
  pose proof (str_take_app rnd (aead_Seal k rnd plaintext aad)) as Ht.
  pose proof (str_drop_app rnd (aead_Seal k rnd plaintext aad)) as Hd.
  rewrite Hr in Ht, Hd. rewrite Ht, Hd. rewrite aead_open_seal.
  rewrite (proj2 (Nat.ltb_ge _ _)) by lia. done.
Qed.
