(* ===== verification/Validate.v ===== *)
(** * core/node: block validation and block assembly

    block_validate.go, block_validate_fork.go, limits_validate.go, block_assemble.go and
    block_header_match.go.  The closures [getBal], [setBal], [getNon], [setNon] that the
    simulations share are a record of operations [SimOps]; [cached_ops] reads through to
    the database and remembers, [plain_ops] is a bare map.  [mustHex32] is called by the
    sources and not declared; it is a parameter, as is the order [sort.Slice] leaves equal
    elements in. *)

From S2P Require Import Prelude GoLang KV Chain Storage State Fees Config Crypto.

(** ** Simulated state *)

Record sim := { s_bal : gmap string Z; s_non : gmap string Z }.
Definition empty_sim : sim := {| s_bal := ∅; s_non := ∅ |}.

Record SimOps (S : Type) := {
  getBal : string -> GoM S Z;
  setBal : string -> Z -> GoM S unit;
  getNon : string -> GoM S Z;
  setNon : string -> Z -> GoM S unit;
}.
Arguments getBal {S} s id.
Arguments setBal {S} s id v.
Arguments getNon {S} s id.
Arguments setNon {S} s id v.

Definition put_bal (id : string) (v : Z) (s : sim) : sim :=
  {| s_bal := <[id := v]> (s_bal s); s_non := s_non s |}.
Definition put_non (id : string) (v : Z) (s : sim) : sim :=
  {| s_bal := s_bal s; s_non := <[id := v]> (s_non s) |}.

(** [simBal[id]]: 0 when absent. *)
Definition plain_ops : SimOps sim := {|
  getBal id := fun s => (Ret (default 0 (s_bal s !! id)), s);
  setBal id v := gmodify (put_bal id v);
  getNon id := fun s => (Ret (default 0 (s_non s !! id)), s);
  setNon id v := gmodify (put_non id v);
|}.

Section Cached.
Context {L : LevelDB}.

Definition sim_db {A} (m : GoM db_t A) : GoM (db_t * sim) A := gzoom fst (fun d s => (d, s.2)) m.
Definition sim_mod (f : sim -> sim) : GoM (db_t * sim) unit := gmodify (fun s => (s.1, f s.2)).

Definition cached_ops : SimOps (db_t * sim) := {|
  getBal id :=
    let! s := gget in
    match s_bal s.2 !! id with
    | Some v => gret v
    | None =>
        let! o := sim_db (gignore None (GetBalance id)) in
        let v := default 0 o in
        sim_mod (put_bal id v) ;;; gret v
    end;
  setBal id v := sim_mod (put_bal id v);
  getNon id :=
    let! s := gget in
    match s_non s.2 !! id with
    | Some v => gret v
    | None =>
        let! o := sim_db (gignore None (GetNonce id)) in
        let v := default 0 o in
        sim_mod (put_non id v) ;;; gret v
    end;
  setNon id v := sim_mod (put_non id v);
|}.
End Cached.

(** ** Parts shared by the simulations *)

(** [for _, o := range outs { t += o.Amount }]. *)
Definition out_total (outs : list TxOut) : Z :=
  fold_left (fun t o => i64 (t + Amount o)) outs 0.

Definition sumFees (txs : list Tx) : Z :=
  fold_left (fun s tx => if (TType tx =? "coinbase")%string then s else i64 (s + Fee tx)) txs 0.

Section Sim.
Context {S : Type} (o : SimOps S).

(** Credit of one output: to an address, or to the claim bucket of a one-time key. *)
Definition credit_out (out : TxOut) : GoM S unit :=
  if negb (Address out =? "")%string then
    let! v := getBal o (Address out) in setBal o (Address out) (i64 (v + Amount out))
  else if negb (OP out =? "")%string then
    let k := "otap:" +:+ OP out in
    let! v := getBal o k in setBal o k (i64 (v + Amount out))
  else gret tt.

(** The loop body of [ValidateBlockStateTip]. *)
Definition tip_tx (tx : Tx) : GoM S unit :=
  let ty := if (TType tx =? "")%string then "transfer" else TType tx in
  let! cur := getNon o (From tx) in
  if negb (TNonce tx =? u64 (cur + 1)) then gerr "bad nonce in block"
  else
    setNon o (From tx) (TNonce tx) ;;;
    if (ty =? "otap_claim")%string then
      match TClaim tx with
      | None => gpanic
      | Some c =>
          let bucket := "otap:" +:+ CP c in
          let! bBal := getBal o bucket in
          let need := i64 (CAmount c + Fee tx) in
          if bBal <? need then gerr "insufficient otap bucket"
          else
            setBal o bucket (i64 (bBal - need)) ;;;
            let! toBal := getBal o (CTo c) in
            setBal o (CTo c) (i64 (toBal + CAmount c))
      end
    else
      let outTotal := out_total (Outputs tx) in
      let! fromBal := getBal o (From tx) in
      if fromBal <? i64 (outTotal + Fee tx) then gerr "insufficient funds"
      else
        setBal o (From tx) (i64 (fromBal - i64 (outTotal + Fee tx))) ;;;
        gfor (Outputs tx) credit_out.

(** The loop body of [applyBlockToSim]. *)
Definition sim_tx (tx : Tx) : GoM S unit :=
  if (TType tx =? "coinbase")%string then
    gfor (Outputs tx) (fun out =>
      let! v := getBal o (Address out) in setBal o (Address out) (i64 (v + Amount out)))
  else
    let from := From tx in
    let! n := getNon o from in
    let exp := u64 (n + 1) in
    if negb (TNonce tx =? exp) then gerr "bad_nonce"
    else
      match (if (TType tx =? "otap_claim")%string then TClaim tx else None) with
      | Some c =>
          let bucket := "otap:" +:+ CP c in
          let need := i64 (CAmount c + Fee tx) in
          let! bb := getBal o bucket in
          if bb <? need then gerr "insufficient_otap_bucket"
          else
            setBal o bucket (i64 (bb - need)) ;;;
            let! t := getBal o (CTo c) in
            setBal o (CTo c) (i64 (t + CAmount c)) ;;;
            setNon o from (TNonce tx)
      | None =>
          let outTotal := out_total (Outputs tx) in
          let! bal := getBal o from in
          let need := i64 (outTotal + Fee tx) in
          if bal <? need then gerr "insufficient_funds"
          else
            setBal o from (i64 (bal - need)) ;;;
            setNon o from (TNonce tx) ;;;
            gfor (Outputs tx) credit_out
      end.

(** The loop body of [FilterTxsBySimState]: whether the transaction is kept. *)
Definition filter_tx (tx : Tx) : GoM S bool :=
  if (TType tx =? "coinbase")%string then
    gfor (Outputs tx) (fun out =>
      let! v := getBal o (Address out) in setBal o (Address out) (i64 (v + Amount out))) ;;;
    gret true
  else
    let from := From tx in
    let! n := getNon o from in
    let exp := u64 (n + 1) in
    if negb (TNonce tx =? exp) then gret false
    else
      match (if (TType tx =? "otap_claim")%string then TClaim tx else None) with
      | Some c =>
          let bucket := "otap:" +:+ CP c in
          let! bb := getBal o bucket in
          let need := i64 (CAmount c + Fee tx) in
          if bb <? need then gret false
          else
            setBal o bucket (i64 (bb - need)) ;;;
            let! t := getBal o (CTo c) in
            setBal o (CTo c) (i64 (t + CAmount c)) ;;;
            setNon o from (TNonce tx) ;;;
            gret true
      | None =>
          let outTotal := out_total (Outputs tx) in
          let! bal := getBal o from in
          let need := i64 (outTotal + Fee tx) in
          if bal <? need then gret false
          else
            setBal o from (i64 (bal - need)) ;;;
            setNon o from (TNonce tx) ;;;
            gfor (Outputs tx) credit_out ;;;
            gret true
      end.

Fixpoint filter_loop (txs : list Tx) : GoM S (list Tx) :=
  match txs with
  | [] => gret []
  | tx :: rest =>
      let! keep := filter_tx tx in
      let! out := filter_loop rest in
      gret (if keep : bool then tx :: out else out)
  end.
End Sim.

(** [sort.Slice] with fees descending, then identifiers ascending. *)
Class TxSort := sort_txs : list Tx -> list Tx.

Definition fee_before `{Hashes} (a b : Tx) : Prop :=
  Fee b < Fee a \/ (Fee a = Fee b /\ String.le (TxID a) (TxID b)).

Class TxSortOk `{Hashes} (TS : TxSort) : Prop := {
  sort_perm : forall l, sort_txs l ≡ₚ l;
  sort_sorted : forall l, StronglySorted fee_before (sort_txs l);
}.

Section Node.
Context {L : LevelDB} {HS : Hashes} {CD : Codecs} {ED : Ed25519} {E : Edwards} {MO : MapOrder}
  {FS : SnapFiles} {TS : TxSort}.
Context (cfg : Config) (mustHex32 : string -> string) (genesis : Genesis).

(** *** limits_validate.go *)

Fixpoint limits_outputs (txs : list Tx) : outcome unit :=
  match txs with
  | [] => Ret tt
  | tx :: rest =>
      let m := lc_MaxTxOutputs (c_Limits cfg) in
      if (0 <? m) && (m <? Z.of_nat (length (Outputs tx))) then Err "tx_too_many_outputs"
      else limits_outputs rest
  end.

Definition ValidateLimits (b : Block) : outcome unit :=
  let l := c_Limits cfg in
  if (0 <? lc_MaxBlockTxs l) && (lc_MaxBlockTxs l <? Z.of_nat (length (Txs b))) then Err "too_many_txs"
  else if (0 <? lc_MaxBlockBytes l) && (lc_MaxBlockBytes l <? SizeHint b) then Err "block_too_large"
  else limits_outputs (Txs b).

(** *** block_validate.go *)

Definition fee_params : FeeParams :=
  {| fp_GasAsset := fe_GasAsset (c_Fees cfg); fp_BaseFeeMin := fe_BaseFeeMin (c_Fees cfg);
     fp_PerByte := fe_PerByte (c_Fees cfg); fp_OTAPMultiplier := fe_OTAPMultiplier (c_Fees cfg);
     fp_Mode := fe_Mode (c_Fees cfg) |}.

Definition isOTAP (tx : Tx) : bool :=
  existsb (fun o => negb (OP o =? "")%string && negb (OR o =? "")%string) (Outputs tx).

(** The loop variable is a copy: its type defaults to transfer before the signing bytes
    are computed. *)
Definition default_type (tx : Tx) : Tx :=
  if (TType tx =? "")%string then
    {| From := From tx; PubKey := PubKey tx; SigHex := SigHex tx; TType := "transfer";
       TClaim := TClaim tx; TVersion := TVersion tx; TNonce := TNonce tx; Fee := Fee tx;
       GasAsset := GasAsset tx; Outputs := Outputs tx; Memo := Memo tx |}
  else tx.

Definition basic_tx (tx : Tx) : outcome unit :=
  let tx := default_type tx in
  if (TType tx =? "coinbase")%string then Err "coinbase forbidden in non-first position"
  else
    let sz := TxSizeHint (TxID tx) (Z.of_nat (length (Outputs tx))) in
    let est := EstimateFee sz (isOTAP tx) fee_params in
    if Fee tx <? est then Err "tx fee below policy"
    else if (From tx =? "")%string || (PubKey tx =? "")%string || (SigHex tx =? "")%string
    then Err "missing tx signature"
    else if negb (From tx =? PubKey tx)%string then Err "from/pub mismatch"
    else if negb (sig_Verify (PubKey tx) (SigHex tx) (SigningBytes tx)) then Err "bad tx signature"
    else if (TType tx =? "otap_claim")%string then
      match TClaim tx with
      | None => Err "bad otap_claim"
      | Some c =>
          if (CP c =? "")%string || (CTo c =? "")%string then Err "bad otap_claim"
          else if negb (CTo c =? From tx)%string then Err "claim_to must equal from"
          else if (ClaimSigHex c =? "")%string then Err "missing claim_sig"
          else match pt_SetBytes (mustHex32 (CP c)) with
          | Ret Ppt =>
              if negb (schnorr_Verify Ppt (SigningBytes tx) (ClaimSigHex c))
              then Err "bad claim signature" else Ret tt
          | Err _ => Err "bad claim P"
          | Panic => Panic
          end
      end
    else Ret tt.

(** [for i, tx := range b.Txs], skipping the coinbase at position 0. *)
Fixpoint basic_loop (first : bool) (txs : list Tx) : outcome unit :=
  match txs with
  | [] => Ret tt
  | tx :: rest =>
      if ic_Enabled (c_Issuance cfg) && first then basic_loop false rest
      else olet _ := basic_tx tx in basic_loop false rest
  end.

(** The coinbase rules at the top. *)
Definition coinbase_rules (txs : list Tx) : outcome unit :=
  if ic_Enabled (c_Issuance cfg) then
    match txs with
    | [] => Err "missing coinbase"
    | cb :: rest =>
        if negb (TType cb =? "coinbase")%string then Err "coinbase must be first"
        else if existsb (fun tx => (TType tx =? "coinbase")%string) rest then Err "multiple coinbase"
        else match Outputs cb with
        | [o] => if negb (Amount o =? ic_BlockReward (c_Issuance cfg))
                 then Err "bad coinbase amount" else Ret tt
        | _ => Err "coinbase must have exactly 1 output"
        end
    end
  else if existsb (fun tx => (TType tx =? "coinbase")%string) txs then Err "coinbase disabled"
  else Ret tt.

(** The coinbase must cover reward and fees. *)
Definition coinbase_covers (txs : list Tx) : outcome unit :=
  let feeSum := sumFees txs in
  match txs with
  | cb :: _ =>
      if (TType cb =? "coinbase")%string then
        let cbOut := out_total (Outputs cb) in
        let reward := ic_Reward (c_Issuance cfg) in
        if cbOut <? i64 (reward + feeSum) then Err "coinbase_missing_fees" else Ret tt
      else Ret tt
  | [] => Ret tt
  end.

Definition ValidateBlockBasic (b : Block) : outcome unit :=
  olet _ := coinbase_rules (Txs b) in
  olet _ := basic_loop true (Txs b) in
  coinbase_covers (Txs b).

(** The coinbase credit, which indexes the first transaction and its first output. *)
Definition tip_coinbase (txs : list Tx) : GoM (db_t * sim) (list Tx) :=
  if ic_Enabled (c_Issuance cfg) then
    match txs with
    | cb :: rest =>
        match Outputs cb with
        | o :: _ =>
            let! v := getBal cached_ops (Address o) in
            setBal cached_ops (Address o) (i64 (v + Amount o)) ;;; gret rest
        | [] => gpanic
        end
    | [] => gpanic
    end
  else gret txs.

Definition StateTip_sim (b : Block) : GoM (db_t * sim) unit :=
  let! rest := tip_coinbase (Txs b) in
  gfor rest (tip_tx cached_ops) ;;;
  glift (coinbase_covers (Txs b)).

Definition ValidateBlockStateTip (b : Block) : GoM db_t unit :=
  fun d => let '(r, (d', _)) := StateTip_sim b (d, empty_sim) in (r, d').

(** *** block_assemble.go *)

Definition FilterTxsBySimState (txs : list Tx) : GoM db_t (list Tx) :=
  fun d => let '(r, (d', _)) := filter_loop cached_ops (sort_txs txs) (d, empty_sim) in (r, d').

(** *** block_validate_fork.go *)

Definition applyBlockToSim {S} (o : SimOps S) (b : Block) : GoM S unit :=
  glift (ValidateLimits b) ;;;
  glift (ValidateBlockBasic b) ;;;
  gfor (Txs b) (sim_tx o).

(** [baseName]: what follows the last slash or backslash. *)
Definition baseName_list (l : list ascii) : list ascii :=
  (fix go (acc l : list ascii) : list ascii :=
     match l with
     | [] => rev acc
     | c :: l' => if Ascii.eqb c "/" || Ascii.eqb c "092" then go [] l' else go (c :: acc) l'
     end) [] l.
Definition baseName (p : string) : string := list_str (baseName_list (str_list p)).

(** [strconv.ParseUint(s, 10, 64)]. *)
Definition ParseUint (s : string) : option Z :=
  let l := str_list s in
  if negb (Nat.eqb (length l) 0) && forallb is_digit l then
    let v := digits_val (rev l) in if v <? M64 then Some v else None
  else None.

Definition parseSnapshotHeight (base : string) : option Z :=
  if negb (str_prefix "state_" base) then None
  else
    let base := str_trim_prefix "state_" base in
    let base := str_trim_suffix ".json.gz" base in
    ParseUint base.

Definition pickSnapshotForHeight (paths : list string) (h : Z) : string :=
  (fold_left (fun (acc : string * Z) p =>
     match parseSnapshotHeight (baseName p) with
     | Some s => if (s <=? h) && (acc.2 <=? s) then (p, s) else acc
     | None => acc
     end) paths ("", 0)).1.

(** [parseInt64] (state_apply.go): the digits of the text, whatever stands between them. *)
Fixpoint parseInt64_loop (n : Z) (s : string) : Z :=
  match s with
  | EmptyString => n
  | String c s' =>
      if negb (is_digit c) then parseInt64_loop n s'
      else parseInt64_loop (i64 (i64 (n * 10) + digit_val c)) s'
  end.
Definition parseInt64 (s : string) : Z := parseInt64_loop 0 s.

(** Genesis balances: [simBal[a.Address] += parseInt64(a.Balance)]. *)
Definition sim_genesis (s : sim) : sim :=
  fold_left (fun s a => put_bal (ga_Address a)
    (i64 (default 0 (s_bal s !! ga_Address a) + parseInt64 (ga_Balance a))) s)
    (g_Allocations genesis) s.

(** The replay loop from [h] for [n] heights; a missing block ends it early. *)
Fixpoint fork_replay (n : nat) (h : Z) (s : sim) : GoM (db_t * fs_t) (outcome sim) :=
  match n with
  | O => gret (Ret s)
  | S n' =>
      let! (r, _) := gignore (NotFound, "") (on_db (GetBlockByHeight h)) in
      match found_ok r with
      | None => gret (Ret s)
      | Some b =>
          match applyBlockToSim plain_ops b s with
          | (Ret _, s') => fork_replay n' (u64 (h + 1)) s'
          | (Err e, _) => gret (Err ("replay_invalid:" +:+ e))
          | (Panic, _) => gret Panic
          end
      end
  end.

Definition ValidateBlockStateOnMainParent (b : Block) : GoM (db_t * fs_t) unit :=
  if negb (vc_ValidateForkState (c_Validation cfg)) then gret tt
  else if Height (Header b) =? 0 then gret tt
  else
    let parentH := u64 (Height (Header b) - 1) in
    let! (r, _) := gignore (NotFound, "") (on_db (GetBlockByHeight parentH)) in
    match found_ok r with
    | Some parent =>
        if negb (Hash_String (BlockHash parent) =? Hash_String (PrevHash (Header b)))%string then gret tt
        else
          let! tip := gignore None (on_db GetTip) in
          let tipH := match tip with Some (h, _) => h | None => 0 end in
          if (parentH <? tipH) && (vc_MaxReplayBlocks (c_Validation cfg) <? u64 (tipH - parentH))
          then gret tt
          else
            let! snaps := gignore [] (on_fs (ListSnapshots (st_SnapshotDir (c_State cfg)))) in
            let best := pickSnapshotForHeight snaps parentH in
            let! ss := (if negb (best =? "")%string then gtry (on_fs (ReadSnapshot best))
                        else gret (inl "")) in
            let '(snapH, s0) :=
              match ss with
              | inr ss => (sn_Height ss, {| s_bal := sn_Balances ss; s_non := sn_Nonces ss |})
              | inl _ => (0, empty_sim)
              end in
            let s1 := if snapH =? 0 then sim_genesis s0 else s0 in
            let! s2 := fork_replay (Z.to_nat (parentH + 1 - u64 (snapH + 1))) (u64 (snapH + 1)) s1 in
            match s2 with
            | Err e => gerr e
            | Panic => gpanic
            | Ret s2 =>
                glift (applyBlockToSim plain_ops b s2).1
            end
    | None => gret tt
    end.

(** *** block_header_match.go ([Timestamp] is the header's time) *)

Definition BlockMatchesStoredHeader (b : Block) : GoM db_t unit :=
  let hash := Hash_String (BlockHash b) in
  let! o := GetHeaderByHash hash in
  match o with
  | None => gerr "missing_header"
  | Some hdr =>
      if negb (Height hdr =? Height (Header b)) then gerr "height_mismatch"
      else if negb (PrevHash hdr =? PrevHash (Header b))%string then gerr "prev_mismatch"
      else if negb (Bits hdr =? Bits (Header b)) then gerr "bits_mismatch"
      else if negb (TimeUnix hdr =? TimeUnix (Header b)) then gerr "ts_mismatch"
      else if negb (HTxRoot hdr =? HTxRoot (Header b))%string then gerr "txroot_mismatch"
      else gret tt
  end.
End Node.
