(* ===== verification/Apply.v ===== *)
(** * core/node/state_apply.go: applying blocks to the account state

    [applyBlockTxs] and the rebuild of the state from a snapshot or from genesis.  The last
    statement of the rebuild names [b] and [feeSum], which are not declared there; they are
    arguments. *)

From S2P Require Import Prelude GoLang KV Chain Storage State Config Crypto Validate.

Section Apply.
Context {L : LevelDB} {HS : Hashes} {CD : Codecs} {MO : MapOrder} {FS : SnapFiles}.

(** Credit of one output. *)
Definition apply_out (o : TxOut) : GoM db_t unit :=
  if negb (Address o =? "")%string then AddBalance (Address o) (Amount o) ;;; gret tt
  else if negb (OP o =? "")%string then AddBalance ("otap:" +:+ OP o) (Amount o) ;;; gret tt
  else gret tt.

(** The body of the loop of [applyBlockTxs]. *)
Definition apply_tx (tx : Tx) : GoM db_t unit :=
  gignore tt (PutTx tx) ;;;
  let ty := if (TType tx =? "")%string then "transfer" else TType tx in
  match (if (ty =? "otap_claim")%string then TClaim tx else None) with
  | Some c =>
      gignore tt (SetNonce (From tx) (TNonce tx)) ;;;
      let bucket := "otap:" +:+ CP c in
      AddBalance bucket (i64 (- i64 (CAmount c + Fee tx))) ;;;
      AddBalance (CTo c) (CAmount c) ;;;
      gret tt
  | None =>
      let outTotal := out_total (Outputs tx) in
      (if negb (From tx =? "")%string then
         AddBalance (From tx) (i64 (- i64 (outTotal + Fee tx))) ;;;
         gignore tt (SetNonce (From tx) (TNonce tx))
       else gret tt) ;;;
      gfor (Outputs tx) apply_out
  end.

(** [feeSum] is declared and never assigned. *)
Definition applyBlockTxs (b : Block) : GoM db_t unit :=
  let feeSum := 0 in
  gfor (Txs b) apply_tx ;;;
  PutBlockFeeSum (Height (Header b)) feeSum.

(** The replay of main-chain blocks from height [h] for [n] heights. *)
Fixpoint replay_main (n : nat) (h : Z) : GoM db_t unit :=
  match n with
  | O => gret tt
  | S n' =>
      let! r := gtry (GetBlockByHeight h) in
      match r with
      | inr (Found b, _) => applyBlockTxs b ;;; replay_main n' (u64 (h + 1))
      | _ => gerr "missing block on main chain"
      end
  end.

Definition rebuildStateFromFinalized (cfg : Config) (genesis : Genesis) (b_Height feeSum : Z)
    : GoM (db_t * fs_t) unit :=
  let! snaps := gignore [] (on_fs (ListSnapshots (st_SnapshotDir (c_State cfg)))) in
  let! snapHeight :=
    match last snaps with
    | None => gret 0
    | Some path =>
        let! ss := gtry (on_fs (ReadSnapshotAuto path)) in
        match ss with
        | inr ss => gignore tt (on_db (RestoreSnapshot ss)) ;;; gret (sn_Height ss)
        | inl _ => gret 0
        end
    end in
  (if snapHeight =? 0 then
     on_db ResetState ;;;
     gfor (g_Allocations genesis) (fun a =>
       gignore tt (on_db (AddBalance (ga_Address a) (parseInt64 (ga_Balance a)) ;;; gret tt)))
   else gret tt) ;;;
  let! tip := on_db GetTip in
  match tip with
  | None => gret tt
  | Some (tipH, _) =>
      on_db (replay_main (Z.to_nat (tipH + 1 - u64 (snapHeight + 1))) (u64 (snapHeight + 1))) ;;;
      on_db (PutBlockFeeSum b_Height feeSum)
  end.
End Apply.
