(* ===== verification/Frame.v ===== *)
(** * Which part of the store an operation may change

    [keeps P m] says that whatever [m] does, value, error or panic, the entries whose keys
    satisfy [P] are afterwards what they were.  The lemmas follow the monad, so that a frame
    of a whole handler is found by the tactic [frame]. *)

From S2P Require Import Prelude GoLang KV Chain Storage StorageProps State StateProps Config Validate Apply.

(** States that contain the key-value store. *)
Class HasStore (S : Type) := store_of : S -> gmap string string.

#[export] Instance store_db {L : LevelDB} {HL : LevelDBOk L} : HasStore db_t := db_view.
#[export] Instance store_pair {S T} `{HasStore S} : HasStore (S * T) := fun s => store_of s.1.

Definition keeps {S A} `{HasStore S} (P : string -> Prop) (m : GoM S A) : Prop :=
  forall s k, P k -> store_of (m s).2 !! k = store_of s !! k.

Create HintDb frame.

Section Rules.
Context {S : Type} `{HasStore S} (P : string -> Prop).

Lemma keeps_ret {A} (a : A) : keeps P (gret a).
Proof. done. Qed.
Lemma keeps_err {A} e : keeps P (gerr (A := A) e).
Proof. done. Qed.
Lemma keeps_panic {A} : keeps P (gpanic (A := A)).
Proof. done. Qed.
Lemma keeps_lift {A} (o : outcome A) : keeps P (glift o).
Proof. done. Qed.
Lemma keeps_part {A} (o : option A) : keeps P (gpart o).
Proof. by destruct o. Qed.

Lemma keeps_bind {A B} (m : GoM S A) (f : A -> GoM S B) :
  keeps P m -> (forall a, keeps P (f a)) -> keeps P (gbind m f).
Proof.
  intros Hm Hf s k Hk. unfold gbind. specialize (Hm s k Hk).
  destruct (m s) as [[a|e|] s']; simpl in *; [|done..]. by rewrite Hf.
Qed.

Lemma keeps_try {A} (m : GoM S A) : keeps P m -> keeps P (gtry m).
Proof.
  intros Hm s k Hk. unfold gtry. specialize (Hm s k Hk). by destruct (m s) as [[] s'].
Qed.

Lemma keeps_ignore {A} (d : A) (m : GoM S A) : keeps P m -> keeps P (gignore d m).
Proof.
  intros Hm s k Hk. unfold gignore. specialize (Hm s k Hk). by destruct (m s) as [[] s'].
Qed.

Lemma keeps_for {A} (l : list A) (f : A -> GoM S unit) :
  (forall x, keeps P (f x)) -> keeps P (gfor l f).
Proof. intros Hf. induction l; simpl; [apply keeps_ret|]. apply keeps_bind; auto. Qed.

Lemma keeps_fold {A B} (l : list A) (f : B -> A -> GoM S B) acc :
  (forall b x, keeps P (f b x)) -> keeps P (gfold l f acc).
Proof.
  intros Hf. revert acc. induction l; intros acc; simpl; [apply keeps_ret|].
  apply keeps_bind; auto.
Qed.
End Rules.

(** One step: the rule of the outermost construct, a case analysis, or a known frame. *)
Ltac frame_step :=
  match goal with
  | |- forall _, _ => intro
  | |- keeps _ (let _ := _ in _) => cbv zeta
  | |- keeps _ (gret _) => apply keeps_ret
  | |- keeps _ (gerr _) => apply keeps_err
  | |- keeps _ gpanic => apply keeps_panic
  | |- keeps _ (glift _) => apply keeps_lift
  | |- keeps _ (gpart _) => apply keeps_part
  | |- keeps _ (gbind _ _) => apply keeps_bind
  | |- keeps _ (gtry _) => apply keeps_try
  | |- keeps _ (gignore _ _) => apply keeps_ignore
  | |- keeps _ (gfor _ _) => apply keeps_for
  | |- keeps _ (gfold _ _ _) => apply keeps_fold
  | |- keeps _ (match ?x with _ => _ end) => destruct x
  | |- _ => solve [eauto with frame]
  end.
Ltac frame := repeat frame_step.

Section Store.
Context {L : LevelDB} {HL : LevelDBOk L} {HS : Hashes} {CD : Codecs} {MO : MapOrder}.
Context (P : string -> Prop).

Lemma keeps_get k : keeps P (kv_get k).
Proof. intros s k' _. by rewrite kv_get_ok. Qed.
Lemma keeps_iter p : keeps P (kv_iter p).
Proof. intros s k' _. by rewrite kv_iter_ok. Qed.
Lemma keeps_put k v : ~ P k -> keeps P (db_put k v).
Proof.
  intros Hk s k' Hk'. rewrite db_put_ok. unfold store_of, store_db. cbn.
  rewrite db_view_ins, lookup_insert_ne; [done|]. by intros ->.
Qed.
Lemma keeps_delete k : ~ P k -> keeps P (db_delete k).
Proof.
  intros Hk s k' Hk'. rewrite db_delete_ok. unfold store_of, store_db. cbn.
  rewrite db_view_del, lookup_delete_ne; [done|]. by intros ->.
Qed.

Lemma batch_apply_keeps b k m :
  (forall o, In o b -> match o with BPut x _ | BDelete x => x <> k end) ->
  batch_apply b m !! k = m !! k.
Proof.
  revert m. induction b as [|o b IH]; intros m Hb; [done|].
  assert (batch_apply (o :: b) m = batch_apply b (batch_apply [o] m)) as -> by done.
  rewrite IH by (intros o' Ho'; apply Hb; by right).
  specialize (Hb o (or_introl eq_refl)).
  destruct o; cbn; [by rewrite lookup_insert_ne|by rewrite lookup_delete_ne].
Qed.

Lemma keeps_write b :
  (forall o, In o b -> match o with BPut x _ | BDelete x => ~ P x end) -> keeps P (db_write b).
Proof.
  intros Hb s k Hk. rewrite db_write_ok. unfold store_of, store_db. cbn.
  rewrite db_view_batch. apply batch_apply_keeps. intros o Ho. specialize (Hb o Ho).
  destruct o; by intros ->.
Qed.
End Store.

#[export] Hint Resolve keeps_get keeps_iter keeps_put keeps_delete : frame.

(** ** The typed accesses *)
Section Accesses.
Context {L : LevelDB} {HL : LevelDBOk L} {HS : Hashes} {CD : Codecs} {MO : MapOrder}.
Context (P : string -> Prop).

Lemma keeps_get_be64 k : keeps P (get_be64 k).
Proof. unfold get_be64. frame. Qed.
Lemma keeps_get_be64_len8 k : keeps P (get_be64_len8 k).
Proof. unfold get_be64_len8. frame. Qed.
Lemma keeps_get_json_found {A} `{JSON A} k : keeps P (get_json_found (A := A) k).
Proof. unfold get_json_found. frame. Qed.
Lemma keeps_get_json {A} `{JSON A} k : keeps P (get_json (A := A) k).
Proof. unfold get_json. frame. Qed.
Lemma keeps_scan_prefix {A} p (body : string * string -> scan_step A) n :
  keeps P (scan_prefix p body n).
Proof. unfold scan_prefix. frame. Qed.
Lemma keeps_put_be64 k v : ~ P k -> keeps P (put_be64 k v).
Proof. unfold put_be64. frame. Qed.
Lemma keeps_put_json {A} `{JSON A} k (a : A) : ~ P k -> keeps P (put_json k a).
Proof. unfold put_json. frame. Qed.
Lemma keeps_put_json_best_effort {A} `{JSON A} k (a : A) :
  ~ P k -> keeps P (put_json_best_effort k a).
Proof. unfold put_json_best_effort. frame. Qed.
End Accesses.
#[export] Hint Resolve keeps_get_be64 keeps_get_be64_len8 keeps_get_json_found keeps_get_json
  keeps_scan_prefix keeps_put_be64 keeps_put_json keeps_put_json_best_effort : frame.

Section Readers.
Context {L : LevelDB} {HL : LevelDBOk L} {HS : Hashes} {CD : Codecs}.
Context (P : string -> Prop).

Lemma keeps_GetBlockByHeight h : keeps P (GetBlockByHeight h).
Proof. unfold GetBlockByHeight, GetHashByHeight, GetBlockByHash. frame. Qed.
Lemma keeps_GetTip : keeps P GetTip.
Proof. unfold GetTip. frame. Qed.
Lemma keeps_GetFinalized : keeps P GetFinalized.
Proof. unfold GetFinalized. frame. Qed.
End Readers.
#[export] Hint Resolve keeps_GetBlockByHeight keeps_GetTip keeps_GetFinalized : frame.

(** ** Applying blocks touches balances, nonces, the transaction index and the fee sums *)

Definition apply_key (k : string) : bool :=
  is_state_key k || str_prefix "tx:" k || str_prefix "fees:block:" k.
Definition no_apply_key (k : string) : Prop := apply_key k = false.

Section ApplyFrame.
Context {L : LevelDB} {HL : LevelDBOk L} {HS : Hashes} {CD : Codecs} {MO : MapOrder}.
Context {FS : SnapFiles}.

Lemma apply_key_bal id : ~ no_apply_key (keyBal id).
Proof. done. Qed.
Lemma apply_key_nonce id : ~ no_apply_key (keyNonce id).
Proof. done. Qed.
Lemma apply_key_tx id : ~ no_apply_key (keyTx id).
Proof. done. Qed.
Lemma apply_key_fees h : ~ no_apply_key (keyBlockFees h).
Proof. done. Qed.
#[local] Hint Resolve apply_key_bal apply_key_nonce apply_key_tx apply_key_fees : frame.

Lemma keeps_AddBalance id delta : keeps no_apply_key (AddBalance id delta).
Proof. unfold AddBalance, GetBalance, SetBalance. frame. Qed.
Lemma keeps_SetBalance id v : keeps no_apply_key (SetBalance id v).
Proof. unfold SetBalance. frame. Qed.
Lemma keeps_SetNonce id v : keeps no_apply_key (SetNonce id v).
Proof. unfold SetNonce. frame. Qed.
Lemma keeps_PutBlockFeeSum h v : keeps no_apply_key (PutBlockFeeSum h v).
Proof. unfold PutBlockFeeSum. frame. Qed.
#[local] Hint Resolve keeps_AddBalance keeps_SetBalance keeps_SetNonce keeps_PutBlockFeeSum : frame.

Lemma keeps_apply_tx tx : keeps no_apply_key (apply_tx tx).
Proof. unfold apply_tx, PutTx, apply_out. frame. Qed.
#[local] Hint Resolve keeps_apply_tx : frame.

Lemma keeps_applyBlockTxs b : keeps no_apply_key (applyBlockTxs b).
Proof. unfold applyBlockTxs. frame. Qed.
#[local] Hint Resolve keeps_applyBlockTxs : frame.

Lemma keeps_replay_main n h : keeps no_apply_key (replay_main n h).
Proof. revert h. induction n; intros h; cbn [replay_main]; frame. Qed.
#[local] Hint Resolve keeps_replay_main : frame.

Lemma keeps_ResetState : keeps no_apply_key ResetState.
Proof.
  intros d k Hk. destruct (ResetState_run d) as (d' & Hrun & Hv). rewrite Hrun. cbn.
  unfold store_of, store_db. rewrite Hv. unfold no_apply_key, apply_key in Hk.
  by destruct (is_state_key k).
Qed.
#[local] Hint Resolve keeps_ResetState : frame.

Lemma keeps_RestoreSnapshot s : keeps no_apply_key (RestoreSnapshot s).
Proof. unfold RestoreSnapshot. frame. Qed.
#[local] Hint Resolve keeps_RestoreSnapshot : frame.

Lemma keeps_on_db {A} P (m : GoM db_t A) : keeps P m -> keeps P (on_db m).
Proof.
  intros Hm [d f] k Hk. unfold on_db, gzoom. specialize (Hm d k Hk). cbn.
  by destruct (m d) as [o d'].
Qed.
Lemma keeps_on_fs {A} P (m : GoM fs_t A) : keeps P (on_fs m).
Proof. intros [d f] k Hk. unfold on_fs, gzoom. cbn. by destruct (m f). Qed.
#[local] Hint Resolve keeps_on_fs keeps_on_db : frame.

Lemma keeps_rebuild cfg g h fs : keeps no_apply_key (rebuildStateFromFinalized cfg g h fs).
Proof.
  unfold rebuildStateFromFinalized. frame; apply keeps_on_db; frame.
Qed.
End ApplyFrame.
#[export] Hint Resolve keeps_AddBalance keeps_SetBalance keeps_SetNonce keeps_PutBlockFeeSum
  keeps_applyBlockTxs keeps_ResetState keeps_RestoreSnapshot keeps_on_fs keeps_on_db
  keeps_rebuild : frame.
