(* ===== verification/Typed.v ===== *)
(** * Types of the stored values

    The store maps byte strings to byte strings; which Go type a value has is a convention of
    the accessors.  [key_type] writes the convention down, [typed] says that a store follows
    it, and [sound p m] that the operation [m] keeps it and, unless [p] allows it, does not
    panic when it starts from such a store.  The rules follow the monad, as in the frame
    logic, so that whole handlers are found sound by the tactic [sound_tac]. *)

From S2P Require Import Prelude GoLang KV Chain Storage Frame.

(** ** Types *)

(** A record as JSON, eight bytes, a decimal number, or any text. *)
Inductive vtype : Type :=
| TBlock | THeader | TTx | TGenesis | TCheckpoint | TVote | TValidator | TParticipant | TEvent
| TCandidate | TPeer | TPeerStat | TMemTx | TU64 | TDecimal | TText.

(** The families of keys, by what they start with. *)
Definition type_table : list (string * vtype) :=
  [("blk:hash:", TBlock); ("blk:height:", TText); ("hdr:", THeader); ("hdrh:", TText);
   ("hdrtip:hash", TText); ("hdrtip:h", TU64); ("sync:frontier_height", TU64);
   ("sync:frontier_hash", TText); ("meta:genesis", TGenesis); ("meta:tip_height", TDecimal);
   ("meta:tip_block_id", TText); ("meta:tip_work", TU64); ("meta:finalized_height", TDecimal);
   ("meta:finalized_hash", TText); ("bestchain:tip_hash", TText); ("besth:", TText);
   ("work:", TU64); ("cumwork:", TU64); ("cand:", TCandidate); ("tx:", TTx);
   ("finality:checkpoint:", TCheckpoint); ("finality:finalized_height", TU64);
   ("finality:finalized_hash", TText); ("finality:vote:", TVote); ("pos:validator:", TValidator);
   ("fees:pool:", TU64); ("fees:block:", TU64); ("pop:participant:", TParticipant);
   ("pop:event:", TEvent); ("pop:score:", TU64); ("mempool:tx:", TMemTx); ("seen:tx:", TU64);
   ("seen:blk:", TU64); ("net:peer:", TPeer); ("net:peerstat:", TPeerStat);
   ("peerhdrend:", TU64); ("peerhdrfrom:", TU64); ("peergetblk:", TU64); ("bal:", TU64);
   ("nonce:", TU64)].

Fixpoint type_in (table : list (string * vtype)) (k : string) : vtype :=
  match table with
  | [] => TText
  | (p, t) :: rest => if str_prefix p k then t else type_in rest k
  end.
Definition key_type (k : string) : vtype := type_in type_table k.

(** [json.Unmarshal] into a variable of type [A] returns no error. *)
Definition reads_as (A : Type) `{JSON A} (v : string) : bool := is_ret (json_unmarshal (A := A) v).

Definition has_type {CD : Codecs} (t : vtype) (v : string) : bool :=
  match t with
  | TBlock => reads_as Block v | THeader => reads_as BlockHeader v | TTx => reads_as Tx v
  | TGenesis => reads_as Genesis v | TCheckpoint => reads_as Checkpoint v
  | TVote => reads_as VoteRecord v | TValidator => reads_as Validator v
  | TParticipant => reads_as Participant v | TEvent => reads_as PoPEvent v
  | TCandidate => reads_as Candidate v | TPeer => reads_as Peer v
  | TPeerStat => reads_as PeerStat v | TMemTx => reads_as memTx v
  | TU64 => Nat.eqb (String.length v) 8
  | TDecimal => is_ret (json_u64_unmarshal v)
  | TText => true
  end.

Definition typed {CD : Codecs} (m : gmap string string) : Prop :=
  forall k v, m !! k = Some v -> has_type (key_type k) v = true.

(** [encoding/json] documents that these structures, which hold no channel, function, cycle or
    float, are always written, that what is written can be read into the same type, and that
    reading reports malformed input as an error. *)
Class JSONTotal (A : Type) `{JSON A} : Prop := {
  json_total : forall a : A, exists b, json_marshal a = Ret b /\ reads_as A b = true;
  json_no_panic : forall b, json_unmarshal (A := A) b <> Panic;
}.

Class CodecsTotal (CD : Codecs) : Prop := {
  total_Block :: JSONTotal Block; total_Header :: JSONTotal BlockHeader; total_Tx :: JSONTotal Tx;
  total_Genesis :: JSONTotal Genesis; total_Checkpoint :: JSONTotal Checkpoint;
  total_Vote :: JSONTotal VoteRecord; total_Validator :: JSONTotal Validator;
  total_Participant :: JSONTotal Participant; total_Event :: JSONTotal PoPEvent;
  total_Candidate :: JSONTotal Candidate; total_Peer :: JSONTotal Peer;
  total_PeerStat :: JSONTotal PeerStat; total_memTx :: JSONTotal memTx;
}.

Lemma typed_empty {CD : Codecs} : typed ∅.
Proof. by intros k v. Qed.

Lemma typed_insert {CD : Codecs} m k v :
  typed m -> has_type (key_type k) v = true -> typed (<[k := v]> m).
Proof. intros Hm Hv k' v' [[<- <-]|[_ H]]%lookup_insert_Some; [done|by apply Hm]. Qed.

Lemma typed_delete {CD : Codecs} m k : typed m -> typed (delete k m).
Proof. intros Hm k' v' [_ H]%lookup_delete_Some. by apply Hm. Qed.

Lemma typed_batch {CD : Codecs} b m : typed m ->
  (forall k v, In (BPut k v) b -> has_type (key_type k) v = true) -> typed (batch_apply b m).
Proof.
  revert m. induction b as [|o b IH]; intros m Hm Hb; [done|]. apply IH.
  - destruct o; [apply typed_insert; [done|apply Hb; by left]|by apply typed_delete].
  - intros k v Hk. apply Hb. by right.
Qed.

(** A decimal number is read back. *)
Lemma decimal_typed z : is_ret (json_u64_unmarshal (json_u64_marshal z)) = true.
Proof.
  assert (json_u64_marshal z = json_u64_marshal (u64 z)) as ->.
  { unfold json_u64_marshal. by rewrite (u64_id (u64 z)) by apply u64_range. }
  by rewrite json_u64_round_trip by apply u64_range.
Qed.

Lemma json_u64_no_panic v : json_u64_unmarshal v <> Panic.
Proof.
  unfold json_u64_unmarshal. repeat case_match; done.
Qed.

(** ** Soundness of an operation *)

Definition sound {CD : Codecs} {S A} `{HasStore S} (p : bool) (m : GoM S A) : Prop :=
  forall s, typed (store_of s) ->
    typed (store_of (m s).2) /\ (p = false -> (m s).1 <> Panic).

Create HintDb sound discriminated.
#[export] Hint Constants Opaque : sound.

Section Rules.
Context {CD : Codecs} {S : Type} `{HasStore S} (p : bool).

Lemma sound_ret {A} (a : A) : sound p (gret a).
Proof. done. Qed.
Lemma sound_err {A} e : sound p (gerr (A := A) e).
Proof. done. Qed.
Lemma sound_panic {A} : sound true (gpanic (A := A)).
Proof. done. Qed.
Lemma sound_lift {A} (o : outcome A) : (p = false -> o <> Panic) -> sound p (glift o).
Proof. done. Qed.
Lemma sound_read {A} (f : S -> A) : sound p (fun s => (Ret (f s), s)).
Proof. done. Qed.
Lemma sound_get : sound p (gget (S := S)).
Proof. done. Qed.
Lemma sound_modify f : (forall s, store_of (f s) = store_of s) -> sound p (gmodify f).
Proof. intros Hf s Hs. unfold gmodify. cbn. by rewrite Hf. Qed.

Lemma sound_bind {A B} (m : GoM S A) (f : A -> GoM S B) :
  sound p m -> (forall a, sound p (f a)) -> sound p (gbind m f).
Proof.
  intros Hm Hf s Hs. unfold gbind. destruct (Hm s Hs) as [H1 H2].
  destruct (m s) as [[a|e|] s']; cbn in *; [by apply Hf|done|].
  split; [done|]. intros Hp. by destruct (H2 Hp).
Qed.

Lemma sound_try {A} (m : GoM S A) : sound p m -> sound p (gtry m).
Proof.
  intros Hm s Hs. unfold gtry. destruct (Hm s Hs) as [H1 H2].
  destruct (m s) as [[] s']; cbn in *; split; try done; intros Hp; by destruct (H2 Hp).
Qed.

Lemma sound_ignore {A} (d : A) (m : GoM S A) : sound p m -> sound p (gignore d m).
Proof.
  intros Hm s Hs. unfold gignore. destruct (Hm s Hs) as [H1 H2].
  destruct (m s) as [[] s']; cbn in *; split; try done; intros Hp; by destruct (H2 Hp).
Qed.

Lemma sound_for {A} (l : list A) (f : A -> GoM S unit) :
  (forall x, sound p (f x)) -> sound p (gfor l f).
Proof. intros Hf. induction l; simpl; [apply sound_ret|]. apply sound_bind; auto. Qed.

Lemma sound_fold {A B} (l : list A) (f : B -> A -> GoM S B) acc :
  (forall b x, sound p (f b x)) -> sound p (gfold l f acc).
Proof.
  intros Hf. revert acc. induction l; intros acc; simpl; [apply sound_ret|].
  apply sound_bind; auto.
Qed.

(** A part of the state that holds the store, and one that does not. *)
Lemma sound_zoom {T A} `{HasStore T} (get : S -> T) (set : T -> S -> S) (m : GoM T A) :
  (forall s, store_of (get s) = store_of s) -> (forall t s, store_of (set t s) = store_of t) ->
  sound p m -> sound p (gzoom get set m).
Proof.
  intros Hg Hp Hm s Hs. unfold gzoom. rewrite <- Hg in Hs. destruct (Hm (get s) Hs) as [H1 H2].
  destruct (m (get s)) as [o t]. cbn in *. by rewrite Hp.
Qed.

Lemma sound_beside {T A} (get : S -> T) (set : T -> S -> S) (m : GoM T A) :
  (forall t s, store_of (set t s) = store_of s) -> (forall t, p = false -> (m t).1 <> Panic) ->
  sound p (gzoom get set m).
Proof.
  intros Hp Hm s Hs. unfold gzoom. specialize (Hm (get s)). destruct (m (get s)) as [o t].
  cbn in *. by rewrite Hp.
Qed.

(** What keeps every entry keeps the types. *)
Lemma sound_weaken {A} (m : GoM S A) : sound false m -> sound p m.
Proof. intros Hm s Hs. destruct (Hm s Hs) as [H1 H2]. split; [done|]. intros _. by apply H2. Qed.
End Rules.

(** The function an application starts with. *)
Ltac head_of t := match t with ?f _ => head_of f | _ => t end.

(** One step: the rule of the outermost construct, a case analysis, a known operation, or the
    definition of the operation. *)
Ltac sound_step :=
  match goal with
  | |- forall _, _ => intro
  | |- sound _ (let _ := _ in _) => cbv zeta
  | |- sound _ (gret _) => apply sound_ret
  | |- sound _ (gerr _) => apply sound_err
  | |- sound true gpanic => apply sound_panic
  | |- sound _ gget => apply sound_get
  | |- sound _ (gmodify _) => apply sound_modify; intro; reflexivity
  | |- sound true (glift _) => apply sound_lift; intro; discriminate
  | |- sound _ (glift _) => apply sound_lift; intros _; solve [auto with sound]
  | |- sound _ (gbind _ _) => apply sound_bind
  | |- sound _ (gtry _) => apply sound_try
  | |- sound _ (gignore _ _) => apply sound_ignore
  | |- sound _ (gfor _ _) => apply sound_for
  | |- sound _ (gfold _ _ _) => apply sound_fold
  | |- sound _ (gzoom _ _ _) => eapply sound_zoom; [intros; reflexivity|intros; reflexivity|]
  | |- sound _ (match ?x with _ => _ end) => destruct x
  | |- _ => solve [eauto with sound]
  | |- sound _ ?m =>
      let h := head_of m in
      lazymatch h with @glift => fail | @gpanic => fail | @gzoom => fail | _ => unfold h end
  end.
Ltac sound_tac := repeat sound_step.

(** ** The accesses *)
Section Store.
Context {L : LevelDB} {HL : LevelDBOk L} {CD : Codecs} (p : bool).

Lemma sound_kv_get k : sound p (kv_get k).
Proof. intros s Hs. by rewrite kv_get_ok. Qed.
Lemma sound_kv_iter pre : sound p (kv_iter pre).
Proof. intros s Hs. by rewrite kv_iter_ok. Qed.
Lemma sound_put k v : has_type (key_type k) v = true -> sound p (db_put k v).
Proof.
  intros Hv s Hs. rewrite db_put_ok. unfold store_of, store_db in *. cbn.
  rewrite db_view_ins. split; [by apply typed_insert|done].
Qed.
Lemma sound_delete k : sound p (db_delete k).
Proof.
  intros s Hs. rewrite db_delete_ok. unfold store_of, store_db in *. cbn.
  rewrite db_view_del. split; [by apply typed_delete|done].
Qed.
Lemma sound_write b : (forall k v, In (BPut k v) b -> has_type (key_type k) v = true) ->
  sound p (db_write b).
Proof.
  intros Hb s Hs. rewrite db_write_ok. unfold store_of, store_db in *. cbn.
  rewrite db_view_batch. split; [by apply typed_batch|done].
Qed.

(** Continuing with a value that was read: it has the type of its key. *)
Lemma sound_get_bind {A} k (f : option string -> GoM db_t A) :
  (forall o, match o with Some v => has_type (key_type k) v = true | None => True end -> sound p (f o)) ->
  sound p (gbind (kv_get k) f).
Proof.
  intros Hf s Hs. erewrite gbind_ret by apply kv_get_ok. apply Hf; [|done].
  destruct (db_view s !! k) eqn:He; [by apply Hs|done].
Qed.

Lemma sound_get_ignore_bind {A} k (f : option string -> GoM db_t A) :
  (forall o, match o with Some v => has_type (key_type k) v = true | None => True end -> sound p (f o)) ->
  sound p (gbind (gignore None (kv_get k)) f).
Proof.
  intros Hf s Hs. erewrite gbind_ret by (apply gignore_ret, kv_get_ok). apply Hf; [|done].
  destruct (db_view s !! k) eqn:He; [by apply Hs|done].
Qed.

Lemma sound_part_8 b : has_type TU64 b = true -> sound p (gpart (S := db_t) (BE_Uint64 b)).
Proof. intros H%Nat.eqb_eq. by rewrite (proj1 (BE_Uint64_8 b H)). Qed.

Lemma sound_get_be64 k : key_type k = TU64 -> sound p (get_be64 k).
Proof.
  intros Hk. unfold get_be64. apply sound_get_bind. rewrite Hk. intros [b|] Hb; [|apply sound_ret].
  apply sound_bind; [by apply sound_part_8|intros; apply sound_ret].
Qed.
Lemma sound_getU64 k : key_type k = TU64 -> sound p (getU64 k).
Proof.
  intros Hk. unfold getU64. apply sound_get_ignore_bind. rewrite Hk.
  intros [b|] Hb; [|apply sound_ret].
  apply sound_bind; [by apply sound_part_8|intros; apply sound_ret].
Qed.
Lemma sound_get_be64_len8 k : sound p (get_be64_len8 k).
Proof. unfold get_be64_len8. apply sound_bind; [apply sound_kv_get|]. intros [b|]; apply sound_ret. Qed.
Lemma sound_has_key k : sound p (has_key k).
Proof. unfold has_key. apply sound_bind; [apply sound_kv_get|]. intros; apply sound_ret. Qed.
Lemma sound_put_be64 k v : key_type k = TU64 -> sound p (put_be64 k v).
Proof. intros Hk. apply sound_put. rewrite Hk. cbn [has_type]. by rewrite BE_PutUint64_length. Qed.
Lemma sound_put_decimal k v : key_type k = TDecimal -> sound p (db_put k (json_u64_marshal v)).
Proof. intros Hk. apply sound_put. rewrite Hk. apply decimal_typed. Qed.
Lemma sound_put_text k v : key_type k = TText -> sound p (db_put k v).
Proof. intros Hk. apply sound_put. by rewrite Hk. Qed.

Section Json.
Context {A : Type} {JA : JSON A} {HT : JSONTotal A}.

Lemma sound_get_json_found k : sound p (get_json_found (A := A) k).
Proof.
  unfold get_json_found. apply sound_bind; [apply sound_kv_get|]. intros [b|]; [|apply sound_ret].
  pose proof (json_no_panic b). by destruct (json_unmarshal b).
Qed.
Lemma sound_get_json k : sound p (get_json (A := A) k).
Proof.
  unfold get_json. apply sound_bind; [apply sound_kv_get|]. intros [b|]; [|apply sound_ret].
  apply sound_bind; [apply sound_lift; intros _; apply json_no_panic|intros; apply sound_ret].
Qed.
(** Continuing with what was written: it can be read. *)
Lemma sound_marshal_bind {B} (a : A) (f : string -> GoM db_t B) :
  (forall b, reads_as A b = true -> sound p (f b)) -> sound p (gbind (glift (json_marshal a)) f).
Proof.
  intros Hf. destruct (json_total a) as (b & Hm & Hd). rewrite Hm.
  intros s Hs. erewrite gbind_ret by reflexivity. by apply Hf.
Qed.
Lemma sound_marshal_ignore_bind {B} (a : A) (f : string -> GoM db_t B) :
  (forall b, reads_as A b = true -> sound p (f b)) ->
  sound p (gbind (gignore "" (glift (json_marshal a))) f).
Proof.
  intros Hf. destruct (json_total a) as (b & Hm & Hd). rewrite Hm.
  intros s Hs. erewrite gbind_ret by reflexivity. by apply Hf.
Qed.
Lemma sound_put_json k (a : A) : has_type (key_type k) = reads_as A -> sound p (put_json k a).
Proof. intros Hk. apply sound_marshal_bind. intros b Hb. apply sound_put. by rewrite Hk. Qed.
Lemma sound_put_json_best_effort k (a : A) :
  has_type (key_type k) = reads_as A -> sound p (put_json_best_effort k a).
Proof.
  intros Hk. apply sound_marshal_ignore_bind. intros b Hb. apply sound_ignore, sound_put.
  by rewrite Hk.
Qed.
End Json.

(** Listings: the loop bodies turn a text that does not decode into an error or skip it. *)
Lemma scan_no_panic {A} (body : string * string -> scan_step A) l : forall room, scan body room l <> Panic.
Proof.
  induction l as [|e l IH]; intros room; [done|]. cbn [scan].
  destruct (body e); [apply IH| |done]. case_match; [done|].
  specialize (IH (room - 1)). by destruct (scan body (room - 1) l).
Qed.
Lemma sound_scan_prefix {A} pre (body : string * string -> scan_step A) n : sound p (scan_prefix pre body n).
Proof.
  unfold scan_prefix. apply sound_bind; [apply sound_kv_iter|]. intros [l err].
  apply sound_bind; [apply sound_lift; intros _; apply scan_no_panic|]. intros out. by destruct err.
Qed.
End Store.

#[export] Hint Resolve sound_kv_get sound_kv_iter sound_delete sound_get_be64_len8 sound_has_key
  sound_get_json_found sound_get_json sound_scan_prefix scan_no_panic json_u64_no_panic : sound.
#[export] Hint Extern 0 (JSONTotal _) => typeclasses eauto : sound.
#[export] Hint Extern 1 (sound _ (get_be64 _)) => apply sound_get_be64; reflexivity : sound.
#[export] Hint Extern 1 (sound _ (getU64 _)) => apply sound_getU64; reflexivity : sound.
#[export] Hint Extern 1 (sound _ (put_be64 _ _)) => apply sound_put_be64; reflexivity : sound.
#[export] Hint Extern 1 (sound _ (put_json _ _)) => apply sound_put_json; first [typeclasses eauto | reflexivity] : sound.
#[export] Hint Extern 1 (sound _ (put_json_best_effort _ _)) =>
  apply sound_put_json_best_effort; first [typeclasses eauto | reflexivity] : sound.
#[export] Hint Extern 2 (sound _ (db_put _ _)) => apply sound_put_text; reflexivity : sound.
#[export] Hint Extern 1 (sound _ (db_put _ (json_u64_marshal _))) =>
  apply sound_put_decimal; reflexivity : sound.

(** ** The operations of the package *)
Section Operations.
Context {L : LevelDB} {HL : LevelDBOk L} {HS : Hashes} {CD : Codecs} {HC : CodecsTotal CD} {MO : MapOrder}.
Context (p : bool).

Lemma sound_PutBlock hash h b : sound p (PutBlock hash h b).
Proof.
  apply sound_marshal_bind; [apply _|]. intros v Hv. apply sound_write.
  intros k w [[= <- <-]|[[= <- <-]|[]]]; [exact Hv|reflexivity].
Qed.
Lemma sound_PutHeader header hash : sound p (PutHeader header hash).
Proof.
  apply sound_marshal_ignore_bind; [apply _|]. intros v Hv. apply sound_bind; [by apply sound_put|sound_tac].
Qed.
Lemma sound_PutHeader_any hash (header : BlockHeader) : sound p (PutHeader_any hash header).
Proof. unfold PutHeader_any. sound_tac. Qed.
Lemma sound_GetTip : sound p GetTip.
Proof. unfold GetTip. sound_tac. Qed.
Lemma sound_GetFinalized : sound p GetFinalized.
Proof. unfold GetFinalized. sound_tac. Qed.
Lemma sound_ListVotesForHeight h : sound p (ListVotesForHeight h).
Proof. unfold ListVotesForHeight. sound_tac. Qed.

Lemma sound_deletes (l : list (string * string)) : sound p (db_write (List.map (fun e => BDelete e.1) l)).
Proof. apply sound_write. intros k v (e & He & _)%in_map_iff. discriminate He. Qed.

Lemma sound_header_ancestor fuel : forall cur target,
  sound p (GetHeaderAncestorHashAtHeight fuel cur target).
Proof. induction fuel; intros; cbn [GetHeaderAncestorHashAtHeight]; sound_tac. Qed.
Lemma sound_ancestor fuel : forall cur target, sound p (GetAncestorHashAtHeight fuel cur target).
Proof. induction fuel; intros; cbn [GetAncestorHashAtHeight]; sound_tac. Qed.
Lemma sound_load_loop now l : forall room, sound p (LoadMempoolTxs_loop now room l).
Proof. induction l; intros; cbn [LoadMempoolTxs_loop]; sound_tac. Qed.

Lemma sound_recently now peer hash w : sound p (PeerGetBlockRecently now peer hash w).
Proof.
  apply sound_get_ignore_bind. intros [b|] Hb; [|apply sound_ret]. case_match; [apply sound_ret|].
  apply sound_bind; [by apply sound_part_8|intros; apply sound_ret].
Qed.
End Operations.
#[export] Hint Resolve sound_PutBlock sound_PutHeader sound_PutHeader_any sound_GetTip
  sound_GetFinalized sound_ListVotesForHeight sound_deletes sound_header_ancestor sound_ancestor
  sound_load_loop sound_recently : sound.

Section Accessors.
Context {L : LevelDB} {HL : LevelDBOk L} {HS : Hashes} {CD : Codecs} {HC : CodecsTotal CD} {MO : MapOrder}.
Context (p : bool).

Lemma sound_GetBlockByHeight h : sound p (GetBlockByHeight h).
Proof. sound_tac. Qed.
Lemma sound_GetHeaderTip : sound p GetHeaderTip.
Proof. sound_tac. Qed.
Lemma sound_PutTip h x : sound p (PutTip h x).
Proof. sound_tac. Qed.
Lemma sound_PutFinalized h x : sound p (PutFinalized h x).
Proof. sound_tac. Qed.
Lemma sound_PutVote v : sound p (PutVote v).
Proof. sound_tac. Qed.
Lemma sound_PutValidator now v : sound p (PutValidator now v).
Proof. sound_tac. Qed.
Lemma sound_SlashValidator now v : sound p (SlashValidator now v).
Proof. sound_tac. Qed.
Lemma sound_AddFeePools a b c d : sound p (AddFeePools a b c d).
Proof. sound_tac. Qed.
Lemma sound_GetFeePools : sound p GetFeePools.
Proof. sound_tac. Qed.
Lemma sound_DrainFeePool name a : sound p (DrainFeePool name a).
Proof. sound_tac. Qed.
Lemma sound_AddScore id d : sound p (AddScore id d).
Proof. sound_tac. Qed.
Lemma sound_AddPeerScore now pub d : sound p (AddPeerScore now pub d).
Proof. sound_tac. Qed.
Lemma sound_BanPeer now pub d : sound p (BanPeer now pub d).
Proof. sound_tac. Qed.
Lemma sound_PutMempoolTx now tx ttl : sound p (PutMempoolTx now tx ttl).
Proof. sound_tac. Qed.
Lemma sound_PutTx tx : sound p (PutTx tx).
Proof. sound_tac. Qed.
Lemma sound_LoadMempoolTxs now limit : sound p (LoadMempoolTxs now limit).
Proof. sound_tac. Qed.
Lemma sound_WipeStatePrefixes : sound p WipeStatePrefixes.
Proof. sound_tac. Qed.
Lemma sound_ImportStateMaps bal non : sound p (ImportStateMaps bal non).
Proof. sound_tac. Qed.
Lemma sound_DeleteHeadersBelowHeight h : sound p (DeleteHeadersBelowHeight h).
Proof. sound_tac. Qed.
End Accessors.
#[export] Hint Resolve sound_GetBlockByHeight sound_GetHeaderTip sound_PutTip sound_PutFinalized
  sound_PutVote sound_PutValidator sound_SlashValidator sound_AddFeePools sound_GetFeePools
  sound_DrainFeePool sound_AddScore sound_AddPeerScore sound_BanPeer sound_PutMempoolTx sound_PutTx
  sound_LoadMempoolTxs sound_WipeStatePrefixes sound_ImportStateMaps
  sound_DeleteHeadersBelowHeight : sound.

(** ** What a typed store answers

    Reading never meets a text that does not decode: a value is absent or it is there. *)
Section Reads.
Context {L : LevelDB} {HL : LevelDBOk L} {HS : Hashes} {CD : Codecs} {HC : CodecsTotal CD}.
Context (d : db_t) (Hd : typed (db_view d)).

Lemma typed_decodes {A} {JA : JSON A} k v : has_type (key_type k) = reads_as A -> db_view d !! k = Some v ->
  exists a : A, json_unmarshal v = Ret a.
Proof.
  intros Hk Hv. specialize (Hd k v Hv). rewrite Hk in Hd. unfold reads_as in Hd.
  destruct (json_unmarshal v) as [a|e|]; [by exists a|done|done].
Qed.

Lemma typed_get_json {A} {JA : JSON A} k : has_type (key_type k) = reads_as A ->
  exists o, get_json (A := A) k d = (Ret o, d) /\ (o = None <-> db_view d !! k = None).
Proof.
  intros Hk. unfold get_json. erewrite gbind_ret by apply kv_get_ok.
  destruct (db_view d !! k) as [v|] eqn:Hv; [|by exists None].
  destruct (typed_decodes k v Hk Hv) as [a Ha]. exists (Some a).
  rewrite Ha. erewrite gbind_ret by reflexivity. done.
Qed.

Lemma typed_get_json_found {A} {JA : JSON A} k : has_type (key_type k) = reads_as A ->
  exists o : option A, get_json_found (A := A) k d =
      (Ret match o with Some a => Found a | None => NotFound end, d) /\
    (o = None <-> db_view d !! k = None).
Proof.
  intros Hk. unfold get_json_found. erewrite gbind_ret by apply kv_get_ok.
  destruct (db_view d !! k) as [v|] eqn:Hv; [|by exists None].
  destruct (typed_decodes k v Hk Hv) as [a Ha]. exists (Some a). by rewrite Ha.
Qed.

Lemma scan_no_fail {A} (body : string * string -> scan_step A) l :
  (forall e, In e l -> exists a, body e = Take a) -> forall room, exists out, scan body room l = Ret out.
Proof.
  induction l as [|e l IH]; intros Hl room; [by eexists|]. cbn [scan].
  destruct (Hl e (or_introl eq_refl)) as [a ->]. case_match; [by eexists|].
  destruct (IH (fun x Hx => Hl x (or_intror Hx)) (room - 1)) as [out ->]. by eexists.
Qed.

Lemma typed_entries {A} {JA : JSON A} pre :
  (forall k, str_prefix pre k = true -> has_type (key_type k) = reads_as A) ->
  forall e, In e (db_entries pre d) -> exists a, dec_fail (A := A) e = Take a.
Proof.
  intros Hp [k v] [Hv Hk]%(proj2 (db_entries_ok pre d)). unfold dec_fail. cbn [snd].
  destruct (typed_decodes k v (Hp k Hk) Hv) as [a ->]. by exists a.
Qed.

Lemma typed_scan {A} {JA : JSON A} pre n :
  (forall k, str_prefix pre k = true -> has_type (key_type k) = reads_as A) ->
  exists out, scan_prefix pre (dec_fail (A := A)) n d = (Ret out, d).
Proof.
  intros Hp. unfold scan_prefix. erewrite gbind_ret by apply kv_iter_ok. cbv beta iota.
  destruct (scan_no_fail _ _ (typed_entries pre Hp) n) as [out Ho]. exists out.
  erewrite gbind_ret by (unfold glift; by rewrite Ho). done.
Qed.

Lemma typed_ListVotes h : exists out, ListVotesForHeight h d = (Ret out, d).
Proof.
  unfold ListVotesForHeight. erewrite gbind_ret by apply kv_iter_ok. cbv beta iota.
  destruct (scan_no_fail _ _ (typed_entries (A := VoteRecord) (prefVote h)
    (fun k Hk => ltac:(apply str_prefix_spec in Hk as [x ->]; reflexivity)))
    (Z.of_nat (length (db_entries (prefVote h) d)) + 1)) as [out Ho]. exists out.
  erewrite gbind_ret by (unfold glift; by rewrite Ho). done.
Qed.

Lemma typed_get_be64 k : key_type k = TU64 ->
  get_be64 k d = (Ret (option_map be_get (db_view d !! k)), d).
Proof.
  intros Hk. unfold get_be64. erewrite gbind_ret by apply kv_get_ok.
  destruct (db_view d !! k) as [v|] eqn:Hv; [|done]. specialize (Hd k v Hv). rewrite Hk in Hd.
  apply Nat.eqb_eq in Hd. erewrite gbind_ret; [done|]. by rewrite (proj1 (BE_Uint64_8 v Hd)).
Qed.
End Reads.
