(* ===== verification/Ledger.v ===== *)
(** * The abstract ledger: what block validation and block application promise

    An account state is a function from identifiers to balances and nonces over exact
    integers.  [spec_tx] moves exact amounts and accepts a transaction only if every
    balance it produces is in 0 .. 2^63-1.  LedgerProps.v shows that the simulation of
    [ValidateBlockStateTip] and the database updates of [applyBlockTxs] both implement it. *)

From S2P Require Import Prelude GoLang Chain.

Record acc := { a_bal : string -> Z; a_non : string -> Z }.

Definition upd (f : string -> Z) (k : string) (v : Z) : string -> Z :=
  fun x => if decide (k = x) then v else f x.

Lemma upd_eq f k v : upd f k v k = v.
Proof. unfold upd. by rewrite decide_True. Qed.
Lemma upd_ne f k v k' : k <> k' -> upd f k v k' = f k'.
Proof. intros. unfold upd. by rewrite decide_False. Qed.

Definition with_bal (a : acc) (k : string) (v : Z) : acc :=
  {| a_bal := upd (a_bal a) k v; a_non := a_non a |}.
Definition with_non (a : acc) (k : string) (v : Z) : acc :=
  {| a_bal := a_bal a; a_non := upd (a_non a) k v |}.

(** Two states with the same balances and nonces. *)
Definition acc_eq (a b : acc) : Prop :=
  (forall id, a_bal a id = a_bal b id) /\ (forall id, a_non a id = a_non b id).

#[export] Instance acc_eq_equiv : Equivalence acc_eq.
Proof.
  split.
  - intros a. split; done.
  - intros a b [H1 H2]. split; intros id; symmetry; auto.
  - intros a b c [H1 H2] [H3 H4]. split; intros id; [rewrite H1|rewrite H2]; auto.
Qed.

Definition in_range63 (z : Z) : bool := (0 <=? z) && (z <? M63).

(** Add a delta to an account if the result stays in range. *)
Definition spec_add (a : acc) (k : string) (delta : Z) : option acc :=
  let v := a_bal a k + delta in if in_range63 v then Some (with_bal a k v) else None.

(** The account an output is credited to. *)
Definition out_acct (o : TxOut) : option string :=
  if negb (Address o =? "")%string then Some (Address o)
  else if negb (OP o =? "")%string then Some ("otap:" +:+ OP o)
  else None.

Definition spec_out (a : acc) (o : TxOut) : option acc :=
  match out_acct o with Some k => spec_add a k (Amount o) | None => Some a end.

Fixpoint spec_outs (a : acc) (outs : list TxOut) : option acc :=
  match outs with
  | [] => Some a
  | o :: rest => match spec_out a o with Some a' => spec_outs a' rest | None => None end
  end.

Definition outs_sum (outs : list TxOut) : Z := sumZ Amount outs.

(** Debit, then nonce, then credits. *)
Definition spec_transfer (a : acc) (tx : Tx) : option acc :=
  match spec_add a (From tx) (- (outs_sum (Outputs tx) + Fee tx)) with
  | Some a1 => spec_outs (with_non a1 (From tx) (TNonce tx)) (Outputs tx)
  | None => None
  end.

Definition spec_claim (a : acc) (tx : Tx) (c : OTAPClaim) : option acc :=
  match spec_add (with_non a (From tx) (TNonce tx)) ("otap:" +:+ CP c) (- (CAmount c + Fee tx)) with
  | Some a1 => spec_add a1 (CTo c) (CAmount c)
  | None => None
  end.

Definition is_claim (tx : Tx) : bool := (TType tx =? "otap_claim")%string.

(** A transaction is accepted when its nonce is the next one and its amounts can be moved. *)
Definition spec_tx (a : acc) (tx : Tx) : option acc :=
  if negb (TNonce tx =? u64 (a_non a (From tx) + 1)) then None
  else if is_claim tx
  then match TClaim tx with Some c => spec_claim a tx c | None => None end
  else spec_transfer a tx.

Fixpoint spec_txs (a : acc) (txs : list Tx) : option acc :=
  match txs with
  | [] => Some a
  | tx :: rest => match spec_tx a tx with Some a' => spec_txs a' rest | None => None end
  end.

(** ** Well-formed amounts *)

(** No negative amount or fee, and totals that fit 63 bits. *)
Definition amounts_ok (tx : Tx) : Prop :=
  (forall o, In o (Outputs tx) -> 0 <= Amount o) /\ 0 <= Fee tx /\
  outs_sum (Outputs tx) + Fee tx < M63 /\
  match TClaim tx with Some c => 0 <= CAmount c /\ CAmount c + Fee tx < M63 | None => True end.

(** Accounts a transaction touches. *)
Definition touched (tx : Tx) : list string :=
  if is_claim tx
  then match TClaim tx with Some c => ["otap:" +:+ CP c; CTo c] | None => [] end
  else From tx :: omap out_acct (Outputs tx).

(** What a transaction takes out of circulation: its fee, and outputs to nobody. *)
Definition dropped (tx : Tx) : Z :=
  if is_claim tx then Fee tx
  else Fee tx + sumZ (fun o => match out_acct o with Some _ => 0 | None => Amount o end) (Outputs tx).

Definition supply (accts : list string) (a : acc) : Z := sumZ (a_bal a) accts.

(** ** Sums over accounts *)

Lemma sum_upd f k v (l : list string) : NoDup l -> k ∈ l -> sumZ (upd f k v) l = sumZ f l - f k + v.
Proof.
  intros Hnd Hin. induction l as [|x l IH]; [by apply not_elem_of_nil in Hin|].
  apply NoDup_cons in Hnd as [Hni Hnd]. rewrite !sumZ_cons. unfold upd at 1.
  destruct (decide (k = x)) as [->|Hne].
  - rewrite (sumZ_ext (upd f x v) f l); [lia|]. intros y Hy. unfold upd.
    rewrite decide_False; [done|]. intros ->. by apply Hni, list_elem_of_In.
  - apply elem_of_cons in Hin as [->|Hin]; [done|]. rewrite IH by done. lia.
Qed.

Lemma sum_member (f : string -> Z) (l : list string) k : (forall x, In x l -> 0 <= f x) -> k ∈ l -> f k <= sumZ f l.
Proof.
  intros H Hin. induction l as [|x l IH]; [by apply not_elem_of_nil in Hin|].
  rewrite sumZ_cons. apply elem_of_cons in Hin as [->|Hin].
  - assert (0 <= sumZ f l); [|lia]. apply sumZ_nonneg. intros. apply H. by right.
  - pose proof (H x (or_introl eq_refl)).
    assert (f k <= sumZ f l); [|lia]. apply IH; [|done]. intros. apply H. by right.
Qed.

(** ** Invariants of the abstract ledger *)

Definition acc_ok (a : acc) : Prop := forall id, 0 <= a_bal a id < M63.

Lemma spec_add_some a k delta a' : spec_add a k delta = Some a' ->
  0 <= a_bal a k + delta < M63 /\ a' = with_bal a k (a_bal a k + delta).
Proof.
  unfold spec_add, in_range63. cbv zeta. case_goal; [|done]. zbool. intros [= <-]. auto.
Qed.

Lemma spec_add_ok a k delta a' : spec_add a k delta = Some a' -> acc_ok a -> acc_ok a'.
Proof.
  intros [Hr ->]%spec_add_some Hok id. cbn. unfold upd. case_decide; [done|apply Hok].
Qed.

Lemma spec_add_supply accts a k delta a' : NoDup accts -> k ∈ accts ->
  spec_add a k delta = Some a' -> supply accts a' = supply accts a + delta.
Proof.
  intros Hnd Hin [_ ->]%spec_add_some. unfold supply. cbn [with_bal a_bal].
  rewrite sum_upd by done. lia.
Qed.

(** A credit that the supply leaves room for is accepted. *)
Lemma spec_add_room accts a k delta : acc_ok a -> NoDup accts -> k ∈ accts -> 0 <= delta ->
  supply accts a + delta < M63 -> exists a', spec_add a k delta = Some a'.
Proof.
  intros Hok Hnd Hin Hd Hs. unfold spec_add, in_range63. cbv zeta.
  assert (a_bal a k <= supply accts a) by (apply sum_member; [intros; apply Hok|done]).
  pose proof (Hok k). rewrite (proj2 (Z.leb_le _ _)), (proj2 (Z.ltb_lt _ _)) by lia. by eexists.
Qed.

Lemma spec_outs_ok outs : forall a a', spec_outs a outs = Some a' -> acc_ok a -> acc_ok a'.
Proof.
  induction outs as [|o outs IH]; intros a a'; cbn [spec_outs]; [by intros [= <-]|].
  unfold spec_out. destruct (out_acct o) as [k|]; [|apply IH].
  destruct (spec_add a k (Amount o)) as [a1|] eqn:E; [|done].
  intros H Hok. eapply IH; [done|]. by eapply spec_add_ok.
Qed.

Definition outs_dropped (outs : list TxOut) : Z :=
  sumZ (fun o => match out_acct o with Some _ => 0 | None => Amount o end) outs.

Lemma spec_outs_supply accts outs : forall a a', NoDup accts ->
  (forall k, k ∈ omap out_acct outs -> k ∈ accts) ->
  spec_outs a outs = Some a' ->
  supply accts a' = supply accts a + outs_sum outs - outs_dropped outs.
Proof.
  induction outs as [|o outs IH]; intros a a' Hnd Hin; cbn [spec_outs].
  { intros [= <-]. unfold outs_sum, outs_dropped. rewrite !sumZ_nil. lia. }
  unfold outs_sum, outs_dropped. rewrite !sumZ_cons. unfold spec_out.
  cbn [omap list_omap] in Hin. destruct (out_acct o) as [k|].
  - destruct (spec_add a k (Amount o)) as [a1|] eqn:E; [|done]. intros H.
    apply (spec_add_supply accts) in E; [|done|apply Hin; by left].
    apply IH in H; [|done|intros x Hx; apply Hin; by right].
    unfold outs_sum, outs_dropped in H. lia.
  - intros H. apply IH in H; [|done|done]. unfold outs_sum, outs_dropped in H. lia.
Qed.

Lemma spec_outs_room accts outs : forall a, acc_ok a -> NoDup accts ->
  (forall k, k ∈ omap out_acct outs -> k ∈ accts) ->
  (forall o, In o outs -> 0 <= Amount o) ->
  supply accts a + outs_sum outs < M63 -> exists a', spec_outs a outs = Some a'.
Proof.
  induction outs as [|o outs IH]; intros a Hok Hnd Hin Hpos Hs; [by eexists|].
  unfold outs_sum in Hs. rewrite sumZ_cons in Hs.
  assert (0 <= Amount o) by (apply Hpos; by left).
  assert (0 <= sumZ Amount outs) by (apply sumZ_nonneg; intros; apply Hpos; by right).
  cbn [spec_outs]. unfold spec_out. cbn [omap list_omap] in Hin.
  destruct (out_acct o) as [k|].
  - destruct (spec_add_room accts a k (Amount o)) as [a1 E]; try done; [apply Hin; by left|lia|].
    rewrite E. apply IH; try done.
    + by eapply spec_add_ok.
    + intros x Hx. apply Hin. by right.
    + intros x Hx. apply Hpos. by right.
    + rewrite (spec_add_supply accts a k (Amount o) a1) by (try done; apply Hin; by left).
      unfold outs_sum. lia.
  - apply IH; try done; [|unfold outs_sum; lia]. intros x Hx. apply Hpos. by right.
Qed.

Lemma spec_tx_ok a tx a' : spec_tx a tx = Some a' -> acc_ok a -> acc_ok a'.
Proof.
  unfold spec_tx. case_goal; [done|]. unfold spec_claim, spec_transfer. intros H Hok.
  destruct (is_claim tx).
  - destruct (TClaim tx) as [c|]; [|done].
    destruct (spec_add _ _ (- (CAmount c + Fee tx))) as [a1|] eqn:E; [|done].
    eapply spec_add_ok; [done|]. by eapply spec_add_ok.
  - destruct (spec_add _ _ (- (outs_sum _ + Fee tx))) as [a1|] eqn:E; [|done].
    eapply spec_outs_ok; [done|]. apply (spec_add_ok a _ _ a1 E Hok).
Qed.

Lemma spec_tx_supply accts a tx a' : NoDup accts -> (forall k, k ∈ touched tx -> k ∈ accts) ->
  spec_tx a tx = Some a' -> supply accts a' = supply accts a - dropped tx.
Proof.
  intros Hnd Hin. unfold spec_tx, touched, dropped in *. case_goal; [done|].
  destruct (is_claim tx).
  - destruct (TClaim tx) as [c|]; [|done]. unfold spec_claim.
    destruct (spec_add _ _ (- (CAmount c + Fee tx))) as [a1|] eqn:E; [|done]. intros H.
    apply (spec_add_supply accts) in E; [|done|apply Hin; by left].
    apply (spec_add_supply accts) in H; [|done|apply Hin; right; by left].
    change (supply accts (with_non a (From tx) (TNonce tx))) with (supply accts a) in E. lia.
  - unfold spec_transfer.
    destruct (spec_add _ _ (- (outs_sum _ + Fee tx))) as [a1|] eqn:E; [|done]. intros H.
    apply (spec_add_supply accts) in E; [|done|apply Hin; by left].
    apply (spec_outs_supply accts) in H; [|done|intros k Hk; apply Hin; by right].
    change (supply accts (with_non a1 (From tx) (TNonce tx))) with (supply accts a1) in H.
    unfold outs_dropped in H. lia.
Qed.

(** With non-negative amounts and a bounded supply, a transaction that the nonce and the
    payer's balance allow is accepted. *)
Lemma spec_tx_room accts a tx : acc_ok a -> NoDup accts -> (forall k, k ∈ touched tx -> k ∈ accts) ->
  amounts_ok tx -> supply accts a < M63 -> TNonce tx = u64 (a_non a (From tx) + 1) ->
  (if is_claim tx
   then exists c, TClaim tx = Some c /\ CAmount c + Fee tx <= a_bal a ("otap:" +:+ CP c)
   else outs_sum (Outputs tx) + Fee tx <= a_bal a (From tx)) ->
  exists a', spec_tx a tx = Some a'.
Proof.
  intros Hok Hnd Hin (Hpos & Hfee & Htot & Hcl) Hs Hnon Hpay. unfold spec_tx.
  rewrite Hnon, Z.eqb_refl. cbn [negb]. unfold touched in Hin.
  destruct (is_claim tx).
  - destruct Hpay as (c & Hc & Hp). rewrite Hc in *. unfold spec_claim.
    pose proof (Hok ("otap:" +:+ CP c)).
    assert (spec_add (with_non a (From tx) (TNonce tx)) ("otap:" +:+ CP c) (- (CAmount c + Fee tx))
      = Some (with_bal (with_non a (From tx) (TNonce tx)) ("otap:" +:+ CP c)
               (a_bal a ("otap:" +:+ CP c) + - (CAmount c + Fee tx)))) as E.
    { unfold spec_add, in_range63. cbv zeta. cbn [with_non a_bal].
      by rewrite (proj2 (Z.leb_le _ _)), (proj2 (Z.ltb_lt _ _)) by lia. }
    rewrite E. apply (spec_add_room accts); try done.
    + eapply spec_add_ok; [exact E|]. exact Hok.
    + apply Hin. right. by left.
    + lia.
    + rewrite (spec_add_supply accts _ _ _ _ Hnd ltac:(apply Hin; by left) E).
      change (supply accts (with_non a (From tx) (TNonce tx))) with (supply accts a). lia.
  - pose proof (Hok (From tx)).
    assert (0 <= outs_sum (Outputs tx)) by (by apply sumZ_nonneg).
    assert (spec_add a (From tx) (- (outs_sum (Outputs tx) + Fee tx)) =
      Some (with_bal a (From tx) (a_bal a (From tx) + - (outs_sum (Outputs tx) + Fee tx)))) as E.
    { unfold spec_add, in_range63. cbv zeta.
      by rewrite (proj2 (Z.leb_le _ _)), (proj2 (Z.ltb_lt _ _)) by lia. }
    unfold spec_transfer. rewrite E. apply (spec_outs_room accts); try done.
    + intros id. apply (spec_add_ok _ _ _ _ E Hok id).
    + intros k Hk. apply Hin. by right.
    +
      match goal with |- supply accts ?x + _ < _ =>
        assert (supply accts x = supply accts a + - (outs_sum (Outputs tx) + Fee tx)) as ->
      end; [|lia].
      apply (spec_add_supply accts _ _ _ _ Hnd ltac:(apply Hin; by left) E).
Qed.
