(* ===== verification/LedgerProps.v ===== *)
(** * Validation and application implement the abstract ledger

    [rep] relates a database with the cache of a simulation to an abstract state, [rep_db]
    a database alone.  Every operation of the code preserves these relations along the
    abstract steps; the theorems about whole blocks follow. *)

From S2P Require Import Prelude GoLang KV Chain Storage StorageProps State StateProps Config Crypto Validate Apply Ledger.

(** ** Totals without overflow *)

Lemma out_total_from outs : forall t, 0 <= t -> (forall o, In o outs -> 0 <= Amount o) ->
  t + outs_sum outs < M63 ->
  fold_left (fun t o => i64 (t + Amount o)) outs t = t + outs_sum outs.
Proof.
  unfold outs_sum. induction outs as [|o outs IH]; intros t Ht Hpos Hb; cbn [fold_left].
  { rewrite sumZ_nil. lia. }
  rewrite sumZ_cons in *.
  assert (0 <= Amount o) by (apply Hpos; by left).
  assert (0 <= sumZ Amount outs) by (apply sumZ_nonneg; intros; apply Hpos; by right).
  rewrite i64_id by (unfold is_i64; lia).
  rewrite IH; [lia|lia|intros; apply Hpos; by right|lia].
Qed.

Lemma out_total_exact tx : amounts_ok tx ->
  out_total (Outputs tx) = outs_sum (Outputs tx) /\ 0 <= outs_sum (Outputs tx) /\
  i64 (out_total (Outputs tx) + Fee tx) = outs_sum (Outputs tx) + Fee tx.
Proof.
  intros (Hpos & Hf & Hb & _). assert (0 <= outs_sum (Outputs tx)) by (by apply sumZ_nonneg).
  unfold out_total. rewrite out_total_from by (try done; lia). rewrite Z.add_0_l.
  split_and!; [done|lia|]. apply i64_id. unfold is_i64. lia.
Qed.

(** Amounts of any sign whose totals are exact at 64 bits. *)
Definition exact_tx (tx : Tx) : Prop :=
  (forall o, In o (Outputs tx) -> is_i64 (Amount o)) /\
  i64 (out_total (Outputs tx) + Fee tx) = outs_sum (Outputs tx) + Fee tx /\
  is_i64 (- (outs_sum (Outputs tx) + Fee tx)) /\
  match TClaim tx with
  | Some c => is_i64 (CAmount c) /\ is_i64 (CAmount c + Fee tx) /\ is_i64 (- (CAmount c + Fee tx))
  | None => True
  end.

Lemma amount_bound tx o : amounts_ok tx -> In o (Outputs tx) -> 0 <= Amount o < M63.
Proof.
  intros (Hpos & Hf & Hb & _) Ho. split; [by apply Hpos|].
  assert (forall l, In o l -> (forall x, In x l -> 0 <= Amount x) -> Amount o <= sumZ Amount l) as Hm.
  { induction l as [|x l IH]; [done|]. intros Hin Hp. rewrite sumZ_cons.
    assert (0 <= sumZ Amount l) by (apply sumZ_nonneg; intros; apply Hp; by right).
    pose proof (Hp x (or_introl eq_refl)). destruct Hin as [->|Hin]; [lia|].
    assert (Amount o <= sumZ Amount l) by (apply IH; [done|intros; apply Hp; by right]). lia. }
  specialize (Hm _ Ho Hpos). unfold outs_sum in Hb. lia.
Qed.

Lemma amounts_exact tx : amounts_ok tx -> exact_tx tx.
Proof.
  intros Ham. pose proof (out_total_exact tx Ham) as (_ & H0 & Hn). split_and!; [| done | |].
  - intros o Ho. pose proof (amount_bound tx o Ham Ho). unfold is_i64. lia.
  - destruct Ham as (_ & Hf & Hb & _). unfold is_i64. lia.
  - destruct Ham as (_ & Hf & _ & Hc). destruct (TClaim tx) as [c|]; [|done].
    unfold is_i64. lia.
Qed.

(** ** The simulation *)
Section Sim.
Context {L : LevelDB} {HL : LevelDBOk L}.

Definition acc_of (d : db_t) : acc :=
  {| a_bal := balance (db_view d); a_non := nonce (db_view d) |}.

(** What the cache in front of the database shows. *)
Definition rep (d : db_t) (s : sim) (a : acc) : Prop :=
  state_ok (db_view d) /\
  (forall id, default (balance (db_view d) id) (s_bal s !! id) = a_bal a id) /\
  (forall id, default (nonce (db_view d) id) (s_non s !! id) = a_non a id).

Lemma rep_start d : state_ok (db_view d) -> rep d empty_sim (acc_of d).
Proof. intros Hok. split_and!; [done|done|done]. Qed.

Lemma rep_put_bal d s a k v : rep d s a -> rep d (put_bal k v s) (with_bal a k v).
Proof.
  intros (Hok & Hb & Hn). split_and!; [done| |done]. intros id. cbn. unfold upd.
  case_decide as E; [subst; by rewrite lookup_insert_eq|by rewrite lookup_insert_ne].
Qed.

Lemma rep_put_non d s a k v : rep d s a -> rep d (put_non k v s) (with_non a k v).
Proof.
  intros (Hok & Hb & Hn). split_and!; [done|done|]. intros id. cbn. unfold upd.
  case_decide as E; [subst; by rewrite lookup_insert_eq|by rewrite lookup_insert_ne].
Qed.

(** Caching a value that is shown already changes nothing that is shown. *)
Lemma getBal_run d s a id : rep d s a ->
  exists s', getBal cached_ops id (d, s) = (Ret (a_bal a id), (d, s')) /\ rep d s' a.
Proof.
  intros H. pose proof H as (Hok & Hb & Hn). cbn [getBal cached_ops].
  erewrite gbind_ret by reflexivity. cbn [snd]. specialize (Hb id) as Hid.
  destruct (s_bal s !! id) as [v|] eqn:E; cbn [default] in Hid.
  - exists s. by rewrite <- Hid.
  - destruct (GetBalance_run d id (proj1 (Hok id))) as (o & Hg & Hdef & _).
    erewrite gbind_ret; cycle 1.
    { unfold sim_db, gzoom. cbn [fst]. erewrite gignore_ret by exact Hg. reflexivity. }
    cbv zeta. rewrite Hdef. exists (put_bal id (balance (db_view d) id) s).
    cbn in Hid. rewrite <- Hid. split; [reflexivity|].
    destruct (rep_put_bal d s a id (balance (db_view d) id) H) as (R1 & R2 & R3).
    split_and!; [done| |done]. intros id'. rewrite R2. cbn. unfold upd.
    case_decide; [by subst|done].
Qed.

Lemma getNon_run d s a id : rep d s a ->
  exists s', getNon cached_ops id (d, s) = (Ret (a_non a id), (d, s')) /\ rep d s' a.
Proof.
  intros H. pose proof H as (Hok & Hb & Hn). cbn [getNon cached_ops].
  erewrite gbind_ret by reflexivity. cbn [snd]. specialize (Hn id) as Hid.
  destruct (s_non s !! id) as [v|] eqn:E; cbn [default] in Hid.
  - exists s. by rewrite <- Hid.
  - destruct (GetNonce_run d id) as (o & Hg & Hdef); [apply Hok|].
    erewrite gbind_ret; cycle 1.
    { unfold sim_db, gzoom. cbn [fst]. erewrite gignore_ret by exact Hg. reflexivity. }
    cbv zeta. rewrite Hdef. exists (put_non id (nonce (db_view d) id) s).
    cbn in Hid. rewrite <- Hid. split; [reflexivity|].
    destruct (rep_put_non d s a id (nonce (db_view d) id) H) as (R1 & R2 & R3).
    split_and!; [done|done|]. intros id'. rewrite R3. cbn. unfold upd.
    case_decide; [by subst|done].
Qed.

Lemma setBal_run d s a id v : rep d s a ->
  exists s', setBal cached_ops id v (d, s) = (Ret tt, (d, s')) /\ rep d s' (with_bal a id v).
Proof. intros H. eexists. split; [reflexivity|]. by apply rep_put_bal. Qed.

Lemma setNon_run d s a id v : rep d s a ->
  exists s', setNon cached_ops id v (d, s) = (Ret tt, (d, s')) /\ rep d s' (with_non a id v).
Proof. intros H. eexists. split; [reflexivity|]. by apply rep_put_non. Qed.

(** Read, then write back plus a delta the abstract ledger accepts. *)
Lemma sim_add_run d s a a' k delta : rep d s a -> spec_add a k delta = Some a' ->
  exists s', (let! v := getBal cached_ops k in setBal cached_ops k (i64 (v + delta))) (d, s)
      = (Ret tt, (d, s')) /\ rep d s' a'.
Proof.
  intros H [Hr ->]%spec_add_some. destruct (getBal_run d s a k H) as (s1 & R1 & H1).
  erewrite gbind_ret by exact R1. rewrite i64_id by (unfold is_i64; lia). by apply setBal_run.
Qed.

Lemma credit_out_run d s a a' o : rep d s a -> spec_out a o = Some a' ->
  exists s', credit_out cached_ops o (d, s) = (Ret tt, (d, s')) /\ rep d s' a'.
Proof.
  intros H. unfold spec_out, out_acct, credit_out. repeat case_goal.
  - by apply sim_add_run.
  - by apply sim_add_run.
  - intros [= <-]. by exists s.
Qed.

Lemma credit_outs_run d outs : forall s a a', rep d s a -> spec_outs a outs = Some a' ->
  exists s', gfor outs (credit_out cached_ops) (d, s) = (Ret tt, (d, s')) /\ rep d s' a'.
Proof.
  induction outs as [|o outs IH]; intros s a a' H Hs; cbn [spec_outs gfor] in *.
  - injection Hs as <-. by exists s.
  - destruct (spec_out a o) as [a1|] eqn:E; [|done].
    destruct (credit_out_run d s a a1 o H E) as (s1 & R1 & H1).
    erewrite gbind_ret by exact R1. by apply (IH s1 a1).
Qed.

Lemma type_claim tx :
  ((if (TType tx =? "")%string then "transfer" else TType tx) =? "otap_claim")%string = is_claim tx.
Proof.
  unfold is_claim. destruct (TType tx =? "")%string eqn:E; [|done]. zbool. by rewrite E.
Qed.

(** A transaction the abstract ledger accepts passes the simulation with the same effect. *)
Lemma tip_tx_run d s a a' tx : rep d s a -> exact_tx tx -> spec_tx a tx = Some a' ->
  exists s', tip_tx cached_ops tx (d, s) = (Ret tt, (d, s')) /\ rep d s' a'.
Proof.
  intros H (Ham & Hneed & Hex & Hcl) Hsp. unfold spec_tx in Hsp. unfold tip_tx.
  destruct (getNon_run d s a (From tx) H) as (s1 & R1 & H1). erewrite gbind_ret by exact R1.
  destruct (negb (TNonce tx =? u64 (a_non a (From tx) + 1))); [done|].
  destruct (setNon_run d s1 a (From tx) (TNonce tx) H1) as (s2 & R2 & H2).
  erewrite gbind_ret by exact R2. rewrite type_claim. destruct (is_claim tx).
  - destruct (TClaim tx) as [c|] eqn:Ec; [|done].
    destruct Hcl as (Hc1 & Hc2 & Hc3). unfold spec_claim in Hsp.
    destruct (spec_add _ _ (- (CAmount c + Fee tx))) as [a1|] eqn:E; [|done].
    pose proof (spec_add_some _ _ _ _ E) as [Hr ->]. cbn [with_non a_bal] in Hr.
    destruct (getBal_run d s2 _ ("otap:" +:+ CP c) H2) as (s3 & R3 & H3).
    erewrite gbind_ret by exact R3. cbv zeta. cbn [with_non a_bal].
    rewrite (i64_id (CAmount c + Fee tx)) by done.
    rewrite (proj2 (Z.ltb_ge _ _)) by lia. rewrite i64_id by (unfold is_i64; lia).
    destruct (setBal_run d s3 _ ("otap:" +:+ CP c)
      (a_bal a ("otap:" +:+ CP c) - (CAmount c + Fee tx)) H3) as (s4 & R4 & H4).
    erewrite gbind_ret by exact R4.
    exact (sim_add_run d s4 _ a' _ _ H4 Hsp).
  - unfold spec_transfer in Hsp. rewrite Hneed.
    destruct (spec_add _ _ (- (outs_sum _ + Fee tx))) as [a1|] eqn:E; [|done].
    pose proof (spec_add_some _ _ _ _ E) as [Hr ->].
    destruct (getBal_run d s2 _ (From tx) H2) as (s3 & R3 & H3).
    erewrite gbind_ret by exact R3. cbv zeta. cbn [with_non a_bal].
    rewrite (proj2 (Z.ltb_ge _ _)) by lia. rewrite i64_id by (unfold is_i64; lia).
    destruct (setBal_run d s3 _ (From tx)
      (a_bal a (From tx) - (outs_sum (Outputs tx) + Fee tx)) H3) as (s4 & R4 & H4).
    erewrite gbind_ret by exact R4.
    exact (credit_outs_run d _ s4 _ a' H4 Hsp).
Qed.

(** A transaction that passes the simulation has the next nonce and a payer that can pay. *)
Lemma tip_tx_inv d s a tx s2 : rep d s a -> amounts_ok tx ->
  tip_tx cached_ops tx (d, s) = (Ret tt, s2) ->
  TNonce tx = u64 (a_non a (From tx) + 1) /\
  if is_claim tx
  then exists c, TClaim tx = Some c /\ CAmount c + Fee tx <= a_bal a ("otap:" +:+ CP c)
  else outs_sum (Outputs tx) + Fee tx <= a_bal a (From tx).
Proof.
  intros H Ham Hrun. pose proof (out_total_exact tx Ham) as (Ht & Ht0 & Hneed).
  unfold tip_tx in Hrun.
  destruct (getNon_run d s a (From tx) H) as (s1 & R1 & H1). erewrite gbind_ret in Hrun by exact R1.
  destruct (Z.eqb_spec (TNonce tx) (u64 (a_non a (From tx) + 1))) as [En|]; [|done]. split; [done|].
  cbn [negb] in Hrun.
  destruct (setNon_run d s1 a (From tx) (TNonce tx) H1) as (s3 & R3 & H3).
  erewrite gbind_ret in Hrun by exact R3. rewrite type_claim in Hrun. destruct (is_claim tx).
  - destruct (TClaim tx) as [c|] eqn:Ec; [|done]. exists c. split; [done|].
    destruct Ham as (_ & Hf & _ & Hc). rewrite Ec in Hc.
    destruct (getBal_run d s3 _ ("otap:" +:+ CP c) H3) as (s4 & R4 & H4).
    erewrite gbind_ret in Hrun by exact R4. cbv zeta in Hrun. cbn [with_non a_bal] in Hrun.
    rewrite (i64_id (CAmount c + Fee tx)) in Hrun by (unfold is_i64; lia).
    destruct (Z.ltb_spec (a_bal a ("otap:" +:+ CP c)) (CAmount c + Fee tx)); [done|lia].
  - rewrite Hneed in Hrun.
    destruct (getBal_run d s3 _ (From tx) H3) as (s4 & R4 & H4).
    erewrite gbind_ret in Hrun by exact R4. cbv zeta in Hrun. cbn [with_non a_bal] in Hrun.
    destruct (Z.ltb_spec (a_bal a (From tx)) (outs_sum (Outputs tx) + Fee tx)); [done|lia].
Qed.

(** Both directions for a list of transactions, with a bounded supply. *)
Lemma tip_txs_spec accts d txs : forall s a s2, rep d s a -> acc_ok a -> NoDup accts ->
  (forall tx, In tx txs -> amounts_ok tx /\ forall k, k ∈ touched tx -> k ∈ accts) ->
  supply accts a < M63 ->
  gfor txs (tip_tx cached_ops) (d, s) = (Ret tt, s2) ->
  exists a', spec_txs a txs = Some a' /\ acc_ok a' /\
    supply accts a' = supply accts a - sumZ dropped txs /\ s2.1 = d.
Proof.
  induction txs as [|tx txs IH]; intros s a s2 H Hok Hnd Htx Hs Hrun; cbn [gfor spec_txs] in *.
  { injection Hrun as <-. exists a. rewrite sumZ_nil, Z.sub_0_r. done. }
  apply gbind_inv in Hrun as ([] & s1 & R1 & R2).
  destruct (Htx tx (or_introl eq_refl)) as [Ham Hin].
  destruct (tip_tx_inv d s a tx s1 H Ham R1) as [Hn Hpay].
  destruct (spec_tx_room accts a tx Hok Hnd Hin Ham Hs Hn Hpay) as [a1 E].
  destruct (tip_tx_run d s a a1 tx H (amounts_exact tx Ham) E) as (s' & R1' & H1).
  rewrite R1 in R1'. injection R1' as ->. rewrite E.
  pose proof (spec_tx_supply accts a tx a1 Hnd Hin E) as Hsup.
  pose proof (spec_tx_ok a tx a1 E Hok) as Hok1.
  assert (0 <= dropped tx) as Hdr.
  { destruct Ham as (Hpos & Hf & _ & _). unfold dropped. destruct (is_claim tx); [lia|].
    assert (0 <= outs_dropped (Outputs tx)); [|unfold outs_dropped in *; lia].
    apply sumZ_nonneg. intros o Ho. destruct (out_acct o); [lia|by apply Hpos]. }
  destruct (IH s' a1 s2 H1 Hok1 Hnd) as (a' & Es & Hok' & Hsup' & Hd); try done.
  - intros x Hx. apply Htx. by right.
  - lia.
  - exists a'. rewrite sumZ_cons. split_and!; [done|done|lia|done].
Qed.
End Sim.

(** ** The database *)
Section DB.
Context {L : LevelDB} {HL : LevelDBOk L} {HS : Hashes} {CD : Codecs} {MO : MapOrder} {FS : SnapFiles}.
Context {U : Utf8 Tx} {HJ : JSONOk Tx}.

Definition rep_db (d : db_t) (a : acc) : Prop := state_ok (db_view d) /\ acc_eq (acc_of d) a.

Lemma AddBalance_spec d a a' k delta : rep_db d a -> is_i64 delta -> spec_add a k delta = Some a' ->
  exists v d', AddBalance k delta d = (Ret v, d') /\ rep_db d' a'.
Proof.
  intros [Hok [Hb Hn]] Hd [Hr ->]%spec_add_some. rewrite AddBalance_run by done.
  specialize (Hb k) as Hk. cbn in Hk. cbv zeta. rewrite Hk. set (v := a_bal a k + delta) in *.
  rewrite (proj2 (Z.leb_le 0 v)), (proj2 (Z.ltb_lt v M63)) by lia. cbn [andb].
  assert (is_i64 v) by (unfold is_i64; lia).
  eexists _, _. split; [reflexivity|]. unfold rep_db, acc_of. rewrite db_view_ins.
  split; [apply state_ok_put_bal; [done..|lia]|]. split; intros id; cbn.
  - rewrite balance_put by done. unfold upd. case_decide; [done|apply Hb].
  - rewrite nonce_put_bal. apply Hn.
Qed.

Lemma SetNonce_spec d a k n : rep_db d a -> is_u64 n ->
  exists d', gignore tt (SetNonce k n) d = (Ret tt, d') /\ rep_db d' (with_non a k n).
Proof.
  intros [Hok [Hb Hn]] Hu. eexists. split; [apply gignore_ret, SetNonce_run|].
  unfold rep_db, acc_of. rewrite db_view_ins. split; [by apply state_ok_put_nonce|].
  split; intros id; cbn.
  - rewrite balance_put_nonce. apply Hb.
  - rewrite nonce_put. unfold upd. case_decide; [by apply u64_id|apply Hn].
Qed.

(** Writing under a key that is neither a balance nor a nonce. *)
Lemma rep_db_frame d a k v : rep_db d a -> is_state_key k = false -> rep_db (db_ins k v d) a.
Proof.
  intros [Hok [Hb Hn]] Hk.
  assert (forall id, (<[k := v]> (db_view d)) !! keyBal id = db_view d !! keyBal id) as B.
  { intros id. apply lookup_insert_ne. intros ->. unfold is_state_key, keyBal in Hk.
    by rewrite str_prefix_app in Hk. }
  assert (forall id, (<[k := v]> (db_view d)) !! keyNonce id = db_view d !! keyNonce id) as N.
  { intros id. apply lookup_insert_ne. intros ->. unfold is_state_key, keyNonce in Hk.
    rewrite str_prefix_app in Hk. by rewrite orb_true_r in Hk. }
  unfold rep_db, acc_of, state_ok, acc_eq, balance, nonce, cell_ok, cell in *.
  rewrite db_view_ins. cbn in *. split_and!.
  - intros id. rewrite B, N. apply Hok.
  - intros id. rewrite B. apply Hb.
  - intros id. rewrite N. apply Hn.
Qed.

Lemma PutTx_spec d a tx : rep_db d a -> utf8_ok tx = true ->
  exists d', gignore tt (PutTx tx) d = (Ret tt, d') /\ rep_db d' a.
Proof.
  intros H Hu. destruct (json_round_trip tx Hu) as (b & Hm & _). unfold PutTx, put_json.
  eexists. split.
  - apply gignore_ret. rewrite Hm. erewrite gbind_ret by reflexivity. apply db_put_ok.
  - apply rep_db_frame; done.
Qed.

Lemma apply_out_spec d a a' o : rep_db d a -> is_i64 (Amount o) -> spec_out a o = Some a' ->
  exists d', apply_out o d = (Ret tt, d') /\ rep_db d' a'.
Proof.
  intros H Ho. unfold spec_out, out_acct, apply_out.
  repeat case_goal.
  - intros E. destruct (AddBalance_spec d a a' _ _ H ltac:(done) E) as (v & d' & R & H').
    exists d'. by erewrite gbind_ret by exact R.
  - intros E. destruct (AddBalance_spec d a a' _ _ H ltac:(done) E) as (v & d' & R & H').
    exists d'. by erewrite gbind_ret by exact R.
  - intros [= <-]. by exists d.
Qed.

Lemma apply_outs_spec outs : forall d a a', rep_db d a ->
  (forall o, In o outs -> is_i64 (Amount o)) -> spec_outs a outs = Some a' ->
  exists d', gfor outs apply_out d = (Ret tt, d') /\ rep_db d' a'.
Proof.
  induction outs as [|o outs IH]; intros d a a' H Hpos Hs; cbn [spec_outs gfor] in *.
  - injection Hs as <-. by exists d.
  - destruct (spec_out a o) as [a1|] eqn:E; [|done].
    destruct (apply_out_spec d a a1 o H ltac:(apply Hpos; by left) E) as (d1 & R1 & H1).
    erewrite gbind_ret by exact R1. apply (IH d1 a1); [done| |done].
    intros x Hx. apply Hpos. by right.
Qed.

(** What the caller has checked of a transaction: its sender is named, its nonce is a
    64-bit number, and it has a JSON form. *)
Definition tx_wf (tx : Tx) : Prop :=
  exact_tx tx /\ From tx <> "" /\ is_u64 (TNonce tx) /\ utf8_ok tx = true.

Lemma apply_tx_spec d a a' tx : rep_db d a -> tx_wf tx -> spec_tx a tx = Some a' ->
  exists d', apply_tx tx d = (Ret tt, d') /\ rep_db d' a'.
Proof.
  intros H ((Ham & Hneed & Hex & Hcl) & Hfrom & Hnon & Hu) Hsp.
  unfold spec_tx in Hsp. unfold apply_tx.
  destruct (PutTx_spec d a tx H Hu) as (d1 & R1 & H1). erewrite gbind_ret by exact R1.
  cbv zeta. rewrite type_claim. destruct (negb (TNonce tx =? _)); [done|].
  destruct (is_claim tx).
  - destruct (TClaim tx) as [c|] eqn:Ec; [|done]. unfold spec_claim in Hsp.
    destruct Hcl as (Hc1 & Hc2 & Hc3).
    destruct (SetNonce_spec d1 a (From tx) (TNonce tx) H1 Hnon) as (d2 & R2 & H2).
    erewrite gbind_ret by exact R2.
    destruct (spec_add _ _ (- (CAmount c + Fee tx))) as [a1|] eqn:E; [|done].
    rewrite (i64_id (CAmount c + Fee tx)), i64_id by done.
    destruct (AddBalance_spec d2 _ a1 _ (- (CAmount c + Fee tx)) H2 Hc3 E) as (v3 & d3 & R3 & H3).
    erewrite gbind_ret by exact R3.
    destruct (AddBalance_spec d3 _ a' _ (CAmount c) H3 Hc1 Hsp) as (v4 & d4 & R4 & H4).
    erewrite gbind_ret by exact R4. by exists d4.
  - unfold spec_transfer in Hsp. rewrite (proj2 (String.eqb_neq _ _) Hfrom). cbn [negb].
    destruct (spec_add _ _ (- (outs_sum _ + Fee tx))) as [a1|] eqn:E; [|done].
    rewrite Hneed, i64_id by done.
    destruct (AddBalance_spec d1 _ a1 _ (- (outs_sum (Outputs tx) + Fee tx)) H1 Hex E) as (v3 & d3 & R3 & H3).
    destruct (SetNonce_spec d3 a1 (From tx) (TNonce tx) H3 Hnon) as (d4 & R4 & H4).
    erewrite gbind_ret; [|erewrite gbind_ret by exact R3; exact R4].
    by apply (apply_outs_spec _ d4 _ a' H4).
Qed.

Lemma apply_txs_spec txs : forall d a a', rep_db d a -> (forall tx, In tx txs -> tx_wf tx) ->
  spec_txs a txs = Some a' -> exists d', gfor txs apply_tx d = (Ret tt, d') /\ rep_db d' a'.
Proof.
  induction txs as [|tx txs IH]; intros d a a' H Hwf Hs; cbn [spec_txs gfor] in *.
  - injection Hs as <-. by exists d.
  - destruct (spec_tx a tx) as [a1|] eqn:E; [|done].
    destruct (apply_tx_spec d a a1 tx H ltac:(apply Hwf; by left) E) as (d1 & R1 & H1).
    erewrite gbind_ret by exact R1. apply (IH d1 a1); [done| |done].
    intros x Hx. apply Hwf. by right.
Qed.

Lemma PutBlockFeeSum_spec d a h v : rep_db d a ->
  exists d', PutBlockFeeSum h v d = (Ret tt, d') /\ rep_db d' a.
Proof.
  intros H. eexists. split; [apply gignore_ret, db_put_ok|]. by apply rep_db_frame.
Qed.

Lemma acc_of_ok d : state_ok (db_view d) -> acc_ok (acc_of d).
Proof.
  intros Hok id. destruct (Hok id) as (_ & Hb & _). cbn.
  pose proof (i64_range (cell (db_view d) (keyBal id))) as Hr. fold (balance (db_view d) id) in Hr.
  unfold is_i64 in Hr. lia.
Qed.

Lemma supply_ext accts a b : acc_eq a b -> supply accts a = supply accts b.
Proof. intros [Hb _]. apply sumZ_ext. intros. apply Hb. Qed.
End DB.

(** ** Whole blocks *)
Section Blocks.
Context {L : LevelDB} {HL : LevelDBOk L} {HS : Hashes} {CD : Codecs} {MO : MapOrder} {FS : SnapFiles}.
Context {U : Utf8 Tx} {HJ : JSONOk Tx}.
Context (cfg : Config).

(** The reward transaction and the others, by position. *)
Definition block_parts (b : Block) : option TxOut * list Tx :=
  if ic_Enabled (c_Issuance cfg) then
    match Txs b with
    | cb :: rest => (hd_error (Outputs cb), rest)
    | [] => (None, [])
    end
  else (None, Txs b).

Definition minted (b : Block) : Z :=
  match (block_parts b).1 with Some o => Amount o | None => 0 end.

(** A reward transaction has no sender and pays one named address. *)
Definition coinbase_wf (b : Block) : Prop :=
  ic_Enabled (c_Issuance cfg) = true ->
  exists cb o rest, Txs b = cb :: rest /\ TType cb = "coinbase" /\ From cb = "" /\
    Outputs cb = [o] /\ Address o <> "" /\ 0 <= Amount o < M63 /\ utf8_ok cb = true.

Definition block_accts (b : Block) : list string :=
  match (block_parts b).1 with Some o => [Address o] | None => [] end
  ++ flat_map touched (block_parts b).2.

Definition spec_block (a : acc) (b : Block) : option acc :=
  match (block_parts b).1 with
  | Some o =>
      match spec_add a (Address o) (Amount o) with
      | Some a1 => spec_txs a1 (block_parts b).2
      | None => None
      end
  | None => spec_txs a (block_parts b).2
  end.

(** The reward transaction, applied: no debit, one credit. *)
Lemma apply_coinbase_spec d a a' cb o : rep_db d a -> TType cb = "coinbase" -> From cb = "" ->
  Outputs cb = [o] -> Address o <> "" -> 0 <= Amount o < M63 -> utf8_ok cb = true ->
  spec_add a (Address o) (Amount o) = Some a' ->
  exists d', apply_tx cb d = (Ret tt, d') /\ rep_db d' a'.
Proof.
  intros H Ht Hf Ho Ha Hr Hu Hs. unfold apply_tx.
  destruct (PutTx_spec d a cb H Hu) as (d1 & R1 & H1). erewrite gbind_ret by exact R1.
  cbv zeta. rewrite type_claim. unfold is_claim. rewrite Ht, Hf, Ho.
  change (("coinbase" =? "otap_claim")%string) with false. cbv iota.
  change (negb ("" =? "")%string) with false. cbv iota.
  erewrite gbind_ret by reflexivity.
  destruct (apply_outs_spec [o] d1 a a' H1) as (d2 & R2 & H2).
  - intros x [<-|[]]. unfold is_i64. lia.
  - cbn [spec_outs]. unfold spec_out, out_acct. rewrite (proj2 (String.eqb_neq _ _) Ha). cbn [negb].
    by rewrite Hs.
  - by exists d2.
Qed.

Lemma tip_coinbase_spec d a a' cb o rest s : rep d s a -> ic_Enabled (c_Issuance cfg) = true ->
  Outputs cb = [o] -> spec_add a (Address o) (Amount o) = Some a' ->
  exists s', tip_coinbase cfg (cb :: rest) (d, s) = (Ret rest, (d, s')) /\ rep d s' a'.
Proof.
  intros H He Ho Hs. unfold tip_coinbase. rewrite He, Ho.
  destruct (sim_add_run d s a a' (Address o) (Amount o) H Hs) as (s1 & R1 & H1).
  exists s1. split; [|done]. unfold gbind in *.
  destruct (getBal cached_ops (Address o) (d, s)) as [[v|e|] t]; try done.
  by rewrite R1.
Qed.

(** The transactions after the reward, run from the state the reward leaves. *)
Lemma StateTip_split b d : ValidateBlockStateTip cfg b d = (Ret tt, d) ->
  exists rest t t2, tip_coinbase cfg (Txs b) (d, empty_sim) = (Ret rest, t) /\
    gfor rest (tip_tx cached_ops) t = (Ret tt, t2).
Proof.
  unfold ValidateBlockStateTip, StateTip_sim. unfold gbind.
  destruct (tip_coinbase cfg (Txs b) (d, empty_sim)) as [[rest|e|] t]; [|by destruct t..].
  destruct (gfor rest (tip_tx cached_ops) t) as [[[]|e|] t2] eqn:E; [|by destruct t2..].
  intros _. by exists rest, t, t2.
Qed.

(** C1. Refinement of the ledger: when the state simulation accepts a block whose amounts
    are not negative, whose totals fit 63 bits and whose supply stays below 2^63, then
    applying the block to the database succeeds, ends in exactly the balances and nonces
    the abstract ledger computes, keeps the state well formed, and changes the supply by
    the reward minus the fees and minus the outputs to nobody.  With issuance on the reward
    transaction must be well formed ([coinbase_wf]), in particular name no sender: see
    [coinbase_debits_sender] for one that does. *)
Theorem accepted_block_applies b d accts :
  state_ok (db_view d) -> NoDup accts -> (forall k, k ∈ block_accts b -> k ∈ accts) ->
  (forall tx, In tx (block_parts b).2 ->
     amounts_ok tx /\ From tx <> "" /\ is_u64 (TNonce tx) /\ utf8_ok tx = true) ->
  coinbase_wf b -> supply accts (acc_of d) + minted b < 2 ^ 63 ->
  ValidateBlockStateTip cfg b d = (Ret tt, d) ->
  exists d' a', applyBlockTxs b d = (Ret tt, d') /\ spec_block (acc_of d) b = Some a' /\
    acc_eq (acc_of d') a' /\ state_ok (db_view d') /\
    supply accts (acc_of d') =
      supply accts (acc_of d) + minted b - sumZ dropped (block_parts b).2.
Proof.
  change (2 ^ 63) with M63. intros Hok Hnd Hin Htx Hcb Hs Hval.
  pose proof (acc_of_ok d Hok) as Haok. pose proof (rep_start d Hok) as Hrep.
  assert (rep_db d (acc_of d)) as Hdb by done.
  destruct (StateTip_split b d Hval) as (rest & t & t2 & Rcb & Rtx).
  assert (exists a1 d1 s1, t = (d, s1) /\ rep d s1 a1 /\ acc_ok a1 /\ rest = (block_parts b).2 /\
    supply accts a1 = supply accts (acc_of d) + minted b /\
    spec_block (acc_of d) b = spec_txs a1 rest /\ rep_db d1 a1 /\
    gfor (Txs b) apply_tx d = gfor rest apply_tx d1) as
    (a1 & d1 & s1 & -> & H1 & Hok1 & -> & Hs1 & Hsb & Hdb1 & Hap).
  { unfold block_accts, minted, spec_block, block_parts, coinbase_wf in *.
    destruct (ic_Enabled (c_Issuance cfg)) eqn:Ei.
    - destruct (Hcb eq_refl) as (cb & o & rest' & Hb & Hty & Hfr & Ho & Had & Ham & Hu).
      rewrite Hb, Ho in *. cbn [hd_error fst snd] in *.
      destruct (spec_add_room accts (acc_of d) (Address o) (Amount o)) as [a1 E]; try done;
        [apply Hin; by left|lia|].
      destruct (tip_coinbase_spec d (acc_of d) a1 cb o rest' empty_sim Hrep Ei Ho E) as (s1 & R1 & H1).
      destruct (apply_coinbase_spec d (acc_of d) a1 cb o Hdb Hty Hfr Ho Had Ham Hu E)
        as (d1 & Ra & Hd1).
      rewrite R1 in Rcb. injection Rcb as <- <-.
      exists a1, d1, s1. rewrite E. split_and!; try done.
      + by eapply spec_add_ok.
      + apply (spec_add_supply accts _ _ _ _ Hnd ltac:(apply Hin; by left) E).
      + cbn [gfor]. by erewrite gbind_ret by exact Ra.
    - unfold tip_coinbase in Rcb. rewrite Ei in Rcb. injection Rcb as <- <-.
      exists (acc_of d), d, empty_sim. cbn [fst snd]. rewrite Z.add_0_r. by split_and!. }
  destruct (tip_txs_spec accts d (block_parts b).2 s1 a1 t2 H1 Hok1 Hnd) as (a' & Es & Hok' & Hsup & _);
    [|lia|done|].
  { intros tx Hx. destruct (Htx tx Hx) as [Ham _]. split; [done|]. intros k Hk. apply Hin.
    unfold block_accts. apply elem_of_app. right. apply list_elem_of_In, in_flat_map.
    exists tx. split; [done|]. by apply list_elem_of_In. }
  destruct (apply_txs_spec (block_parts b).2 d1 a1 a' Hdb1) as (d2 & R2 & H2); [|done|].
  { intros tx Hx. destruct (Htx tx Hx) as (Ham & Hf & Hn & Hu).
    split_and!; try done. by apply amounts_exact. }
  destruct (PutBlockFeeSum_spec d2 a' (Height (Header b)) 0 H2) as (d3 & R3 & H3).
  exists d3, a'. unfold applyBlockTxs. cbv zeta. rewrite Hsb.
  split; [|destruct H3 as [Hok3 Heq3]; split_and!; try done; rewrite (supply_ext _ _ _ Heq3); lia].
  erewrite gbind_ret; [exact R3|]. by rewrite Hap.
Qed.

(** Nothing rejects negative output amounts: a transaction that pays its own sender a
    positive amount and the account of a third party the negated amount passes the state
    simulation and, applied, moves that amount from the third party to the sender, without
    any signature of the third party. *)
Theorem negative_output_theft d tx x victim :
  state_ok (db_view d) -> tx_wf tx -> is_claim tx = false ->
  0 < x < 2 ^ 62 -> victim <> From tx -> victim <> "" -> 0 <= Fee tx < 2 ^ 62 ->
  Outputs tx = [{| Amount := x; Asset := ""; Address := From tx; OP := ""; OR := ""; OTag := "";
                   EncMemo := ""; PolicyBits := 0 |};
                {| Amount := - x; Asset := ""; Address := victim; OP := ""; OR := ""; OTag := "";
                   EncMemo := ""; PolicyBits := 0 |}] ->
  TNonce tx = u64 (nonce (db_view d) (From tx) + 1) ->
  Fee tx <= balance (db_view d) (From tx) < 2 ^ 62 -> x <= balance (db_view d) victim ->
  (exists s', tip_tx cached_ops tx (d, empty_sim) = (Ret tt, (d, s'))) /\
  exists d', apply_tx tx d = (Ret tt, d') /\
    balance (db_view d') victim = balance (db_view d) victim - x /\
    balance (db_view d') (From tx) = balance (db_view d) (From tx) + x - Fee tx.
Proof.
  intros Hok Hwf Hcl Hx Hv Hv0 Hfee Ho Hn Hbf Hbv.
  pose proof (acc_of_ok d Hok) as Haok. assert (rep_db d (acc_of d)) as Hdb by done.
  pose proof Hwf as (Hex & Hfrom & _ & _).
  set (a2 := with_bal (with_bal (with_non (with_bal (acc_of d) (From tx)
    (balance (db_view d) (From tx) - Fee tx)) (From tx) (TNonce tx)) (From tx)
    (balance (db_view d) (From tx) - Fee tx + x)) victim (balance (db_view d) victim - x)).
  assert (spec_tx (acc_of d) tx = Some a2) as Hspec.
  { unfold spec_tx. rewrite Hcl, Hn. cbn [acc_of a_non]. rewrite Z.eqb_refl. cbn [negb].
    unfold spec_transfer. rewrite Ho. unfold outs_sum. rewrite !sumZ_cons, sumZ_nil.
    cbn [Amount]. replace (- (x + (- x + 0) + Fee tx)) with (- Fee tx) by lia.
    unfold spec_add at 1, in_range63. cbn [acc_of a_bal].
    rewrite (proj2 (Z.leb_le _ _)), (proj2 (Z.ltb_lt _ _)) by lia. cbn [andb].
    cbn [spec_outs]. unfold spec_out, out_acct. cbn [Address Amount].
    rewrite (proj2 (String.eqb_neq _ _) Hfrom), (proj2 (String.eqb_neq _ _) Hv0). cbn [negb].
    unfold spec_add at 1, in_range63. cbn [with_bal with_non a_bal]. rewrite !upd_eq.
    rewrite (proj2 (Z.leb_le _ _)), (proj2 (Z.ltb_lt _ _)) by lia.
    cbn [andb]. unfold spec_add, in_range63. cbn [with_bal with_non a_bal].
    rewrite !upd_ne by done. cbn [acc_of a_bal].
    pose proof (Haok victim) as Hav. cbn in Hav.
    rewrite (proj2 (Z.leb_le _ _)), (proj2 (Z.ltb_lt _ _)) by lia. cbn [andb].
    reflexivity. }
  destruct (tip_tx_run d empty_sim _ a2 tx (rep_start d Hok) Hex Hspec) as (s' & Rs & _).
  destruct (apply_tx_spec d _ a2 tx Hdb Hwf Hspec) as (d' & Rd & [_ [Hb _]]).
  split; [by exists s'|]. exists d'. split; [done|].
  pose proof (Hb victim) as H1. pose proof (Hb (From tx)) as H2. cbn in H1, H2.
  unfold upd in H1, H2. rewrite decide_True in H1 by done. rewrite decide_False in H2 by done.
  rewrite decide_True in H2 by done. split; [done|lia].
Qed.
(** C33. A claim takes its fee from the claimed bucket: the bucket is debited the amount and the fee,
    the claimant is credited the amount, and no other balance changes, in particular not the
    sender's own. *)
Theorem claim_fee_from_bucket d tx c :
  state_ok (db_view d) -> tx_wf tx -> is_claim tx = true -> TClaim tx = Some c ->
  CTo c <> "otap:" +:+ CP c -> TNonce tx = u64 (nonce (db_view d) (From tx) + 1) ->
  0 <= CAmount c -> 0 <= Fee tx -> CAmount c + Fee tx <= balance (db_view d) ("otap:" +:+ CP c) ->
  balance (db_view d) (CTo c) + CAmount c < 2 ^ 63 ->
  exists d', apply_tx tx d = (Ret tt, d') /\ forall k, balance (db_view d') k =
    balance (db_view d) k +
      (if decide (k = CTo c) then CAmount c
       else if decide (k = "otap:" +:+ CP c) then - (CAmount c + Fee tx) else 0).
Proof.
  change (2 ^ 63) with M63. intros Hok Hwf Hcl Hc Hne Hn Ha Hf Hb Hr.
  pose proof (acc_of_ok d Hok) as Haok. assert (rep_db d (acc_of d)) as Hdb by done.
  pose proof (Haok ("otap:" +:+ CP c)) as H1. pose proof (Haok (CTo c)) as H2. cbn in H1, H2.
  assert (exists a', spec_tx (acc_of d) tx = Some a' /\ forall k, a_bal a' k = a_bal (acc_of d) k +
    (if decide (k = CTo c) then CAmount c
     else if decide (k = "otap:" +:+ CP c) then - (CAmount c + Fee tx) else 0)) as (a' & Hs & Hk).
  { unfold spec_tx, spec_claim. rewrite Hcl, Hc, Hn. cbn [acc_of a_non]. rewrite Z.eqb_refl. cbn [negb].
    unfold spec_add, in_range63. cbn [acc_of with_non with_bal a_bal].
    rewrite (proj2 (Z.leb_le _ _)), (proj2 (Z.ltb_lt _ _)) by lia. cbn [andb with_bal a_bal].
    rewrite !upd_ne by done. cbn [with_non acc_of a_bal].
    rewrite (proj2 (Z.leb_le _ _)), (proj2 (Z.ltb_lt _ _)) by lia. cbn [andb with_bal a_bal].
    eexists. split; [reflexivity|]. intros k. unfold with_bal, with_non, acc_of, upd. cbn [a_bal].
    repeat case_decide; try congruence; subst; try done; lia. }
  destruct (apply_tx_spec d _ a' tx Hdb Hwf Hs) as (d' & Rd & [_ [Hbal _]]).
  exists d'. split; [done|]. intros k. specialize (Hbal k). cbn in Hbal. rewrite Hbal. apply Hk.
Qed.
End Blocks.

(** ** Block assembly *)
Section Assembly.
Context {L : LevelDB} {HL : LevelDBOk L} {HS : Hashes}.

(** One transaction with the wrap-around of the code. *)
Definition w_add (a : acc) (k : string) (delta : Z) : acc := with_bal a k (i64 (a_bal a k + delta)).

Definition w_outs (a : acc) (outs : list TxOut) : acc :=
  fold_left (fun a o => match out_acct o with Some k => w_add a k (Amount o) | None => a end) outs a.

Definition w_tx (a : acc) (tx : Tx) : option acc :=
  if negb (TNonce tx =? u64 (a_non a (From tx) + 1)) then None
  else
    let a := with_non a (From tx) (TNonce tx) in
    match (if is_claim tx then TClaim tx else None) with
    | Some c =>
        let bucket := "otap:" +:+ CP c in
        let need := i64 (CAmount c + Fee tx) in
        if a_bal a bucket <? need then None
        else Some (w_add (with_bal a bucket (i64 (a_bal a bucket - need))) (CTo c) (CAmount c))
    | None =>
        let need := i64 (out_total (Outputs tx) + Fee tx) in
        if a_bal a (From tx) <? need then None
        else Some (w_outs (with_bal a (From tx) (i64 (a_bal a (From tx) - need))) (Outputs tx))
    end.

Lemma sim_w_add d s a k delta : rep d s a ->
  exists s', (let! v := getBal cached_ops k in setBal cached_ops k (i64 (v + delta))) (d, s)
      = (Ret tt, (d, s')) /\ rep d s' (w_add a k delta).
Proof.
  intros H. destruct (getBal_run d s a k H) as (s1 & R1 & H1).
  erewrite gbind_ret by exact R1. by apply setBal_run.
Qed.

Lemma credit_outs_w d outs : forall s a, rep d s a ->
  exists s', gfor outs (credit_out cached_ops) (d, s) = (Ret tt, (d, s')) /\ rep d s' (w_outs a outs).
Proof.
  induction outs as [|o outs IH]; intros s a H; cbn [gfor]; [by exists s|].
  assert (exists s1, credit_out cached_ops o (d, s) = (Ret tt, (d, s1)) /\
    rep d s1 (match out_acct o with Some k => w_add a k (Amount o) | None => a end)) as (s1 & R1 & H1).
  { unfold credit_out, out_acct. repeat case_goal; [by apply sim_w_add|by apply sim_w_add|by exists s]. }
  erewrite gbind_ret by exact R1. by apply IH.
Qed.

Definition claim_present (tx : Tx) : bool :=
  negb (is_claim tx) || match TClaim tx with Some _ => true | None => false end.

Lemma tip_tx_w d s a a' tx : rep d s a -> claim_present tx = true -> w_tx a tx = Some a' ->
  exists s', tip_tx cached_ops tx (d, s) = (Ret tt, (d, s')) /\ rep d s' a'.
Proof.
  intros H Hc Hw. unfold w_tx in Hw. unfold tip_tx, claim_present in *.
  destruct (getNon_run d s a (From tx) H) as (s1 & R1 & H1). erewrite gbind_ret by exact R1.
  destruct (negb (TNonce tx =? u64 (a_non a (From tx) + 1))); [done|].
  destruct (setNon_run d s1 a (From tx) (TNonce tx) H1) as (s2 & R2 & H2).
  erewrite gbind_ret by exact R2. rewrite type_claim. destruct (is_claim tx).
  - destruct (TClaim tx) as [c|]; [|done]. cbv zeta in *.
    destruct (getBal_run d s2 _ ("otap:" +:+ CP c) H2) as (s3 & R3 & H3).
    erewrite gbind_ret by exact R3. case_hyp Hw; [done|]. injection Hw as <-.
    edestruct setBal_run as (s4 & R4 & H4); [exact H3|].
    erewrite gbind_ret by exact R4. exact (sim_w_add d s4 _ _ _ H4).
  - cbv zeta in *. destruct (getBal_run d s2 _ (From tx) H2) as (s3 & R3 & H3).
    erewrite gbind_ret by exact R3. case_hyp Hw; [done|]. injection Hw as <-.
    edestruct setBal_run as (s4 & R4 & H4); [exact H3|].
    erewrite gbind_ret by exact R4. exact (credit_outs_w d _ s4 _ H4).
Qed.

Lemma tip_tx_w_none d s a tx : rep d s a -> claim_present tx = true -> w_tx a tx = None ->
  exists e t, tip_tx cached_ops tx (d, s) = (Err e, t).
Proof.
  intros H Hc Hw. unfold w_tx in Hw. unfold tip_tx, claim_present in *.
  destruct (getNon_run d s a (From tx) H) as (s1 & R1 & H1). erewrite gbind_ret by exact R1.
  destruct (negb (TNonce tx =? u64 (a_non a (From tx) + 1))); [by eexists _, _|].
  destruct (setNon_run d s1 a (From tx) (TNonce tx) H1) as (s2 & R2 & H2).
  erewrite gbind_ret by exact R2. rewrite type_claim. destruct (is_claim tx).
  - destruct (TClaim tx) as [c|]; [|done]. cbv zeta in *.
    destruct (getBal_run d s2 _ ("otap:" +:+ CP c) H2) as (s3 & R3 & H3).
    erewrite gbind_ret by exact R3. case_hyp Hw; [by eexists _, _|done].
  - cbv zeta in *. destruct (getBal_run d s2 _ (From tx) H2) as (s3 & R3 & H3).
    erewrite gbind_ret by exact R3. case_hyp Hw; [by eexists _, _|done].
Qed.

Lemma filter_tx_w d s a tx : rep d s a -> (TType tx =? "coinbase")%string = false ->
  exists s', match w_tx a tx with
    | Some a' => filter_tx cached_ops tx (d, s) = (Ret true, (d, s')) /\ rep d s' a'
    | None => filter_tx cached_ops tx (d, s) = (Ret false, (d, s')) /\ rep d s' a
    end.
Proof.
  intros H Hcb. unfold filter_tx, w_tx. rewrite Hcb. fold (is_claim tx).
  destruct (getNon_run d s a (From tx) H) as (s1 & R1 & H1). erewrite gbind_ret by exact R1.
  cbv zeta. destruct (negb (TNonce tx =? u64 (a_non a (From tx) + 1))); [by exists s1|].
  destruct (if is_claim tx then TClaim tx else None) as [c|].
  - destruct (getBal_run d s1 _ ("otap:" +:+ CP c) H1) as (s2 & R2 & H2).
    erewrite gbind_ret by exact R2. cbn [with_non a_bal].
    case_goal; [by exists s2|].
    edestruct setBal_run as (s3 & R3 & H3); [exact H2|]. erewrite gbind_ret by exact R3.
    destruct (sim_w_add d s3 _ (CTo c) (CAmount c) H3) as (s4 & R4 & H4).
    destruct (setNon_run d s4 _ (From tx) (TNonce tx) H4) as (s5 & R5 & H5).
    exists s5. split; [|exact H5]. unfold gbind in R4 |- *.
    destruct (getBal cached_ops (CTo c) (d, s3)) as [[v|e|] t]; try done. rewrite R4.
    by rewrite R5.
  - destruct (getBal_run d s1 _ (From tx) H1) as (s2 & R2 & H2).
    erewrite gbind_ret by exact R2. cbn [with_non a_bal].
    case_goal; [by exists s2|].
    edestruct setBal_run as (s3 & R3 & H3); [exact H2|]. erewrite gbind_ret by exact R3.
    destruct (setNon_run d s3 _ (From tx) (TNonce tx) H3) as (s4 & R4 & H4).
    erewrite gbind_ret by exact R4.
    destruct (credit_outs_w d (Outputs tx) s4 _ H4) as (s5 & R5 & H5).
    exists s5. split; [|exact H5]. by erewrite gbind_ret by exact R5.
Qed.

Fixpoint w_txs (a : acc) (txs : list Tx) : option acc :=
  match txs with
  | [] => Some a
  | tx :: rest => match w_tx a tx with Some a' => w_txs a' rest | None => None end
  end.

Lemma w_txs_app txs1 txs2 : forall a, w_txs a (txs1 ++ txs2) =
  match w_txs a txs1 with Some a1 => w_txs a1 txs2 | None => None end.
Proof. induction txs1 as [|tx txs1 IH]; intros a; [done|]. cbn [w_txs app]. destruct (w_tx a tx); [apply IH|done]. Qed.

(** What the loop of the filter keeps from a state on. *)
Fixpoint w_kept (a : acc) (txs : list Tx) : list Tx :=
  match txs with
  | [] => []
  | tx :: rest => match w_tx a tx with Some a' => tx :: w_kept a' rest | None => w_kept a rest end
  end.

Lemma filter_loop_w d txs : forall s a, rep d s a ->
  (forall tx, In tx txs -> (TType tx =? "coinbase")%string = false) ->
  exists s', filter_loop cached_ops txs (d, s) = (Ret (w_kept a txs), (d, s')).
Proof.
  induction txs as [|tx txs IH]; intros s a H Hcb; cbn [filter_loop w_kept]; [by exists s|].
  destruct (filter_tx_w d s a tx H ltac:(apply Hcb; by left)) as (s1 & Hf).
  destruct (w_tx a tx) as [a1|]; destruct Hf as [R1 H1]; erewrite gbind_ret by exact R1;
    edestruct (IH s1) as (s' & R2); [exact H1|intros; apply Hcb; by right| |exact H1|intros; apply Hcb; by right|];
    exists s'; by erewrite gbind_ret by exact R2.
Qed.

Lemma w_kept_sublist txs : forall a, w_kept a txs `sublist_of` txs.
Proof. induction txs as [|tx txs IH]; intros a; cbn [w_kept]; [constructor|]. destruct (w_tx a tx); by constructor. Qed.
Lemma w_kept_ok txs : forall a, is_Some (w_txs a (w_kept a txs)).
Proof.
  induction txs as [|tx txs IH]; intros a; cbn [w_kept]; [by eexists|].
  destruct (w_tx a tx) as [a1|] eqn:E; [|apply IH]. cbn [w_txs]. rewrite E. apply IH.
Qed.

Lemma tip_txs_w d txs : forall s a a', rep d s a -> (forall tx, In tx txs -> claim_present tx = true) ->
  w_txs a txs = Some a' -> exists s', gfor txs (tip_tx cached_ops) (d, s) = (Ret tt, (d, s')).
Proof.
  induction txs as [|tx txs IH]; intros s a a' H Hc Hw; cbn [w_txs gfor] in *; [by exists s|].
  destruct (w_tx a tx) as [a1|] eqn:E; [|done].
  destruct (tip_tx_w d s a a1 tx H ltac:(apply Hc; by left) E) as (s1 & R1 & H1).
  erewrite gbind_ret by exact R1. apply (IH s1 a1 a'); [done| |done]. intros. apply Hc. by right.
Qed.
Lemma tip_txs_w_none d txs : forall s a, rep d s a -> (forall tx, In tx txs -> claim_present tx = true) ->
  w_txs a txs = None -> exists e t, gfor txs (tip_tx cached_ops) (d, s) = (Err e, t).
Proof.
  induction txs as [|tx txs IH]; intros s a H Hc Hw; cbn [w_txs gfor] in *; [done|].
  destruct (w_tx a tx) as [a1|] eqn:E.
  - destruct (tip_tx_w d s a a1 tx H ltac:(apply Hc; by left) E) as (s1 & R1 & H1).
    erewrite gbind_ret by exact R1. apply (IH s1 a1); [done| |done]. intros. apply Hc. by right.
  - destruct (tip_tx_w_none d s a tx H ltac:(apply Hc; by left) E) as (e & t & R).
    exists e, t. unfold gbind. by rewrite R.
Qed.

(** The transaction loop of the state check of a block passes on these transactions. *)
Definition txs_pass (d : db_t) (txs : list Tx) : bool :=
  match (gfor txs (tip_tx cached_ops) (d, empty_sim)).1 with Ret _ => true | _ => false end.

Lemma txs_pass_w d txs : state_ok (db_view d) -> (forall tx, In tx txs -> claim_present tx = true) ->
  txs_pass d txs = match w_txs (acc_of d) txs with Some _ => true | None => false end.
Proof.
  intros Hok Hc. unfold txs_pass. destruct (w_txs (acc_of d) txs) as [a|] eqn:Hw.
  - by destruct (tip_txs_w d txs _ _ _ (rep_start d Hok) Hc Hw) as (s' & ->).
  - by destruct (tip_txs_w_none d txs _ _ (rep_start d Hok) Hc Hw) as (e & t & ->).
Qed.

(** The reference: transactions are taken in order, each if the body taken so far still
    passes with it. *)
Fixpoint greedy_body (pass : list Tx -> bool) (body txs : list Tx) : list Tx :=
  match txs with
  | [] => body
  | tx :: rest => if pass (body ++ [tx]) then greedy_body pass (body ++ [tx]) rest else greedy_body pass body rest
  end.

Lemma greedy_body_w d txs : state_ok (db_view d) -> (forall tx, In tx txs -> claim_present tx = true) ->
  forall body a, (forall tx, In tx body -> claim_present tx = true) -> w_txs (acc_of d) body = Some a ->
  greedy_body (txs_pass d) body txs = body ++ w_kept a txs.
Proof.
  intros Hok. induction txs as [|tx txs IH]; intros Htx body a Hb Ha; cbn [greedy_body w_kept]; [by rewrite app_nil_r|].
  assert (forall t, In t (body ++ [tx]) -> claim_present t = true) as Hb1.
  { intros t [?|[<-|[]]]%in_app_or; [auto|apply Htx; by left]. }
  assert (w_txs (acc_of d) (body ++ [tx]) = w_tx a tx) as Hw.
  { rewrite w_txs_app, Ha. cbn [w_txs]. by destruct (w_tx a tx). }
  rewrite txs_pass_w, Hw by done. destruct (w_tx a tx) as [a1|] eqn:E.
  - rewrite (IH ltac:(intros; apply Htx; by right) (body ++ [tx]) a1); [by rewrite <- app_assoc|done|congruence].
  - apply IH; auto. intros. apply Htx. by right.
Qed.

Context {TS : TxSort} {HTS : TxSortOk TS}.

(** C27. The assembly filter is greedy: of ordinary transactions, in the order of the
    assembly sort, it keeps each one with which the body kept so far still passes the
    transaction loop of the block state check, and no other, whatever the configuration.
    What it keeps are given transactions, each at most once, and a valid block body where
    issuance is off (with issuance on a reward comes first, and the reward rules decide). *)
Theorem FilterTxs_valid_body cfg d txs h : state_ok (db_view d) ->
  (forall tx, In tx txs -> (TType tx =? "coinbase")%string = false /\ claim_present tx = true) ->
  let out := greedy_body (txs_pass d) [] (sort_txs txs) in
  FilterTxsBySimState txs d = (Ret out, d) /\ out ⊆+ txs /\ txs_pass d out = true /\
  (ic_Enabled (c_Issuance cfg) = false ->
   ValidateBlockStateTip cfg {| Header := h; Txs := out |} d = (Ret tt, d)).
Proof.
  intros Hok Htx.
  assert (forall tx, In tx (sort_txs txs) -> In tx txs) as Hin.
  { intros tx Hx. apply list_elem_of_In. rewrite <- (sort_perm txs). by apply list_elem_of_In. }
  rewrite (greedy_body_w d _ Hok ltac:(intros; by apply Htx, Hin) [] (acc_of d) ltac:(done) eq_refl), app_nil_l.
  set (out := w_kept (acc_of d) (sort_txs txs)). pose proof (w_kept_sublist (sort_txs txs) (acc_of d)) as Hsub.
  destruct (w_kept_ok (sort_txs txs) (acc_of d)) as [a' Hw]. fold out in Hsub, Hw. intros out'. subst out'.
  destruct (filter_loop_w d (sort_txs txs) empty_sim (acc_of d) (rep_start d Hok)) as (s' & R);
    [intros tx Hx; by apply Htx, Hin|].
  assert (forall tx, In tx out -> In tx txs) as Hout.
  { intros tx Hx. apply Hin. apply list_elem_of_In. apply list_elem_of_In in Hx.
    by apply (elem_of_submseteq out (sort_txs txs)), sublist_submseteq. }
  split_and!.
  - unfold FilterTxsBySimState. by rewrite R.
  - rewrite <- (sort_perm txs). by apply sublist_submseteq.
  - rewrite txs_pass_w, Hw by (done || intros; by apply Htx, Hout). done.
  - intros Hen. unfold ValidateBlockStateTip, StateTip_sim, tip_coinbase. cbn [Txs]. rewrite Hen.
    destruct (tip_txs_w d out empty_sim (acc_of d) a' (rep_start d Hok)) as (s2 & R2); [|done|].
    { intros tx Hx. by apply Htx, Hout. }
    unfold gbind. cbn [gret]. rewrite R2. unfold glift, coinbase_covers.
    destruct out as [|tx out'']; [done|].
    destruct (Htx tx) as [-> _]; [apply Hout; by left|done].
Qed.
End Assembly.

(** ** A reward transaction with a sender *)
Section Coinbase.
Context {L : LevelDB} {HL : LevelDBOk L} {HS : Hashes} {CD : Codecs} {ED : Ed25519} {E : Edwards}.
Context {U : Utf8 Tx} {HJ : JSONOk Tx}.

(** Issuance is on and the two reward fields of the configuration agree. *)
Definition fixed_reward (cfg : Config) (r : Z) : Prop :=
  ic_Enabled (c_Issuance cfg) = true /\ ic_BlockReward (c_Issuance cfg) = r /\
  ic_Reward (c_Issuance cfg) = r /\ 0 <= r.

(** A reward transaction that pays [r] to [o] and names a sender. *)
Definition sent_reward (cb : Tx) (o : TxOut) (r : Z) : Prop :=
  TType cb = "coinbase" /\ Outputs cb = [o] /\ Amount o = r /\ Address o <> "" /\
  From cb <> "" /\ Address o <> From cb /\ utf8_ok cb = true /\ is_u64 (TNonce cb) /\ 0 <= Fee cb.

Lemma sent_reward_covers cfg cb o r : fixed_reward cfg r -> r < 2 ^ 63 -> sent_reward cb o r ->
  coinbase_covers cfg [cb] = Ret tt.
Proof.
  change (2 ^ 63) with M63. intros (_ & _ & Hrw & Hr0) Hr (Hty & Ho & Ham & _).
  unfold coinbase_covers, sumFees, out_total. cbn [fold_left]. rewrite Hty, Ho. cbn [fold_left].
  change (("coinbase" =? "coinbase")%string) with true. cbv iota zeta.
  rewrite Ham, Hrw, Z.add_0_l, Z.add_0_r, !i64_id by (unfold is_i64; lia).
  by rewrite (proj2 (Z.ltb_ge _ _)) by lia.
Qed.

Lemma sent_reward_basic cfg mustHex32 h cb o r :
  fixed_reward cfg r -> r < 2 ^ 63 -> sent_reward cb o r ->
  ValidateBlockBasic cfg mustHex32 {| Header := h; Txs := [cb] |} = Ret tt.
Proof.
  intros Hc Hr Hs. pose proof (sent_reward_covers cfg cb o r Hc Hr Hs) as Hcov.
  destruct Hc as (Hen & Hbr & _), Hs as (Hty & Ho & Ham & _).
  unfold ValidateBlockBasic, coinbase_rules. cbn [Txs]. rewrite Hen, Hty, Ho, Ham, Hbr.
  change (("coinbase" =? "coinbase")%string) with true. cbn [negb existsb].
  rewrite Z.eqb_refl. cbn [negb obind basic_loop]. rewrite Hen. cbn [andb obind]. done.
Qed.

Lemma sent_reward_tip cfg h d cb o r :
  state_ok (db_view d) -> fixed_reward cfg r -> sent_reward cb o r ->
  balance (db_view d) (Address o) + r < 2 ^ 63 ->
  ValidateBlockStateTip cfg {| Header := h; Txs := [cb] |} d = (Ret tt, d).
Proof.
  change (2 ^ 63) with M63. intros Hok Hc Hs Hroom.
  pose proof (acc_of_ok d Hok (Address o)) as Hab. cbn in Hab.
  pose proof (sent_reward_covers cfg cb o r Hc ltac:(change (2 ^ 63) with M63; lia) Hs) as Hcov.
  destruct Hc as (Hen & _ & _ & Hr0), Hs as (_ & Ho & Ham & _).
  destruct (tip_coinbase_spec cfg d (acc_of d) (with_bal (acc_of d) (Address o)
    (a_bal (acc_of d) (Address o) + r)) cb o [] empty_sim (rep_start d Hok) Hen Ho) as (s' & R & _).
  { unfold spec_add, in_range63. cbv zeta. rewrite Ham. cbn [acc_of a_bal].
    by rewrite (proj2 (Z.leb_le _ _)), (proj2 (Z.ltb_lt _ _)) by lia. }
  unfold ValidateBlockStateTip, StateTip_sim, gbind. cbn [Txs]. rewrite R. cbn [gfor gret].
  unfold glift. by rewrite Hcov.
Qed.

Lemma sent_reward_apply d cb o r :
  state_ok (db_view d) -> sent_reward cb o r -> 0 <= r ->
  r + Fee cb <= balance (db_view d) (From cb) ->
  balance (db_view d) (Address o) + r < 2 ^ 63 ->
  exists d', apply_tx cb d = (Ret tt, d') /\
    rep_db d' (with_bal (with_non (with_bal (acc_of d) (From cb)
        (a_bal (acc_of d) (From cb) + - (r + Fee cb))) (From cb) (TNonce cb)) (Address o)
        (a_bal (acc_of d) (Address o) + r)).
Proof.
  change (2 ^ 63) with M63.
  intros Hok (Hty & Ho & Ham & Had & Hfr & Hne & Hu & Hnon & Hf0) Hr0 Hpay Hroom.
  pose proof (acc_of_ok d Hok) as Haok. pose proof (Haok (From cb)) as Hfb.
  pose proof (Haok (Address o)) as Hab. cbn in Hfb, Hab.
  assert (rep_db d (acc_of d)) as Hdb by done.
  destruct (PutTx_spec d _ cb Hdb Hu) as (d1 & R1 & H1).
  destruct (spec_add (acc_of d) (From cb) (- (r + Fee cb))) as [a1|] eqn:E1; cycle 1.
  { exfalso. revert E1. unfold spec_add, in_range63. cbn [acc_of a_bal].
    by rewrite (proj2 (Z.leb_le _ _)), (proj2 (Z.ltb_lt _ _)) by lia. }
  destruct (AddBalance_spec d1 _ a1 _ (- (r + Fee cb)) H1 ltac:(unfold is_i64; lia) E1) as (v & d2 & R2 & H2).
  destruct (SetNonce_spec d2 _ (From cb) (TNonce cb) H2 Hnon) as (d3 & R3 & H3).
  apply spec_add_some in E1 as [_ ->].
  edestruct (apply_outs_spec [o] d3) as (d4 & R4 & H4); [exact H3|..].
  { intros x [<-|[]]. rewrite Ham. unfold is_i64. lia. }
  { cbn [spec_outs]. unfold spec_out, out_acct. rewrite (proj2 (String.eqb_neq _ _) Had). cbn [negb].
    unfold spec_add, in_range63. cbn [with_bal with_non a_bal]. rewrite upd_ne by done.
    rewrite Ham. cbn [acc_of a_bal].
    by rewrite (proj2 (Z.leb_le _ _)), (proj2 (Z.ltb_lt _ _)) by lia. }
  exists d4. split; [|exact H4]. unfold apply_tx. erewrite gbind_ret by exact R1.
  cbv zeta. rewrite type_claim. unfold is_claim. rewrite Hty.
  change (("coinbase" =? "otap_claim")%string) with false. cbv iota.
  rewrite (proj2 (String.eqb_neq _ _) Hfr). cbn [negb].
  assert (i64 (out_total (Outputs cb) + Fee cb) = r + Fee cb) as ->.
  { unfold out_total. rewrite Ho. cbn [fold_left]. rewrite Ham, Z.add_0_l, !i64_id;
      unfold is_i64; rewrite ?i64_id by (unfold is_i64; lia); lia. }
  rewrite i64_id by (unfold is_i64; lia).
  erewrite gbind_ret; [|erewrite gbind_ret by exact R2; exact R3]. by rewrite Ho.
Qed.

(** The sender field of a reward transaction is not looked at by either validation, but
    it is debited when the block is applied: a block whose only transaction is a reward
    naming any funded account as sender, unsigned, is accepted and takes the reward and any
    fee written into it from that account. *)
Theorem coinbase_debits_sender cfg mustHex32 h d cb o r :
  state_ok (db_view d) -> fixed_reward cfg r -> sent_reward cb o r ->
  r + Fee cb <= balance (db_view d) (From cb) ->
  balance (db_view d) (Address o) + r < 2 ^ 63 ->
  let b := {| Header := h; Txs := [cb] |} in
  ValidateBlockBasic cfg mustHex32 b = Ret tt /\ ValidateBlockStateTip cfg b d = (Ret tt, d) /\
  exists d', applyBlockTxs b d = (Ret tt, d') /\
    balance (db_view d') (From cb) = balance (db_view d) (From cb) - (r + Fee cb) /\
    balance (db_view d') (Address o) = balance (db_view d) (Address o) + r.
Proof.
  intros Hok Hc Hs Hpay Hroom b. pose proof (acc_of_ok d Hok (Address o)) as Hab. cbn in Hab.
  split_and!; [eapply sent_reward_basic; [done| |done]; lia|by eapply sent_reward_tip|].
  destruct (sent_reward_apply d cb o r Hok Hs ltac:(apply Hc) Hpay Hroom) as (d4 & R4 & H4).
  destruct (PutBlockFeeSum_spec d4 _ (Height (Header b)) 0 H4) as (d5 & R5 & [_ [Hb _]]).
  exists d5. split.
  - unfold applyBlockTxs. cbv zeta. cbn [gfor Txs b]. erewrite gbind_ret; [exact R5|].
    by erewrite gbind_ret by exact R4.
  - destruct Hs as (_ & _ & _ & _ & _ & Hne & _).
    pose proof (Hb (From cb)) as B1. pose proof (Hb (Address o)) as B2. cbn in B1, B2.
    rewrite upd_ne, upd_eq in B1 by done. rewrite upd_eq in B2. split; [lia|done].
Qed.

(** With issuance enabled and the reward of the two rules the same number, no block may
    contain paid transactions: the reward output must equal the block reward and at the same
    time cover the reward plus all fees. *)
Theorem issuance_excludes_fees cfg mustHex32 b r : fixed_reward cfg r ->
  0 < sumFees (Txs b) -> r + sumFees (Txs b) < 2 ^ 63 ->
  ValidateBlockBasic cfg mustHex32 b <> Ret tt.
Proof.
  change (2 ^ 63) with M63. intros (Hen & Hbr & Hrw & Hr) Hf Hb. unfold ValidateBlockBasic, coinbase_rules.
  rewrite Hen. destruct (Txs b) as [|cb rest] eqn:Et; [done|].
  destruct (TType cb =? "coinbase")%string eqn:Ety; cbn [negb obind]; [|done].
  destruct (existsb _ rest); [done|].
  destruct (Outputs cb) as [|o [|]] eqn:Eo; try done.
  destruct (Z.eqb_spec (Amount o) (ic_BlockReward (c_Issuance cfg))) as [Ea|]; [|done].
  cbn [negb obind]. destruct (basic_loop cfg mustHex32 true (cb :: rest)); try done. cbn [obind].
  unfold coinbase_covers. rewrite Ety, Eo. unfold out_total. cbn [fold_left]. cbv zeta.
  rewrite Ea, Hbr, Hrw, Z.add_0_l, !i64_id by (unfold is_i64; lia).
  by rewrite (proj2 (Z.ltb_lt _ _)) by lia.
Qed.
End Coinbase.
