(* ===== verification/Mempool.v ===== *)
(** * core/node/mempool.go: the transaction pool

    The pool is a map from accounts to maps from nonces to entries, with two counters.  The
    priority queue of [Drain] is [container/heap] over the slice [txHeap], modelled with its
    sift-up and sift-down.  [time.Now().Unix()] is the argument [now].  The field [m.txs]
    that the sender cap of [Add] ranges over is not declared; the senders it lists are the
    argument [senders].  The copies of that block at the top of the other methods mention a
    variable [tx] that those methods do not have, so they have no meaning to model. *)

From S2P Require Import Prelude GoLang KV Chain Storage State Fees Config.

Record mtx := {
  m_Tx : Tx; m_TxID : string; m_From : string; m_Nonce : Z; m_Fee : Z; m_SizeHint : Z;
  m_FeeRate : f64; m_AddedAt : Z }.

Record Mempool := {
  mp_cfg : MempoolConfig;
  mp_byAcct : gmap string (gmap Z mtx);
  mp_totalTxs : Z;
  mp_totalBytes : Z }.

Definition NewMempool (cfg : MempoolConfig) : Mempool :=
  {| mp_cfg := cfg; mp_byAcct := ∅; mp_totalTxs := 0; mp_totalBytes := 0 |}.

(** Replace the map of an account, and adjust the counters. *)
Definition mp_update (m : Mempool) (by_acct : gmap string (gmap Z mtx)) (dtxs dbytes : Z) : Mempool :=
  {| mp_cfg := mp_cfg m; mp_byAcct := by_acct; mp_totalTxs := mp_totalTxs m + dtxs;
     mp_totalBytes := mp_totalBytes m + dbytes |}.

(** *** pruneLocked; deleting while ranging visits every entry of the map once, and each
    step touches only its own entry, so the order is immaterial *)

Definition prune_entry (cut : Z) (st : gmap Z mtx * Z * Z) (e : Z * mtx) : gmap Z mtx * Z * Z :=
  let '(mp, dt, db) := st in
  if m_AddedAt e.2 <=? cut then (delete e.1 mp, dt - 1, db - m_SizeHint e.2) else st.

Definition prune_acct (cut : Z) (m : Mempool) (e : string * gmap Z mtx) : Mempool :=
  let '(mp, dt, db) := fold_left (prune_entry cut) (map_to_list e.2) (e.2, 0, 0) in
  mp_update m
    (if Nat.eqb (size mp) 0 then delete e.1 (mp_byAcct m) else <[e.1 := mp]> (mp_byAcct m)) dt db.

Definition pruneLocked (now : Z) (m : Mempool) : Mempool :=
  let cut := i64 (now - mc_TxTTLSeconds (mp_cfg m)) in
  fold_left (prune_acct cut) (map_to_list (mp_byAcct m)) m.

Definition max_int (a b : Z) : Z := if b <? a then a else b.

(** *** txHeap and container/heap *)

Definition Less (a b : mtx) : bool :=
  if f64_eqb (m_FeeRate a) (m_FeeRate b) then m_Fee b <? m_Fee a
  else f64_ltb (m_FeeRate b) (m_FeeRate a).

Definition heap_less (h : list mtx) (i j : nat) : bool :=
  match h !! i, h !! j with Some a, Some b => Less a b | _, _ => false end.

Definition heap_swap (h : list mtx) (i j : nat) : list mtx :=
  match h !! i, h !! j with Some a, Some b => <[j := a]> (<[i := b]> h) | _, _ => h end.

(** [up(h, j)]: at most [j] steps. *)
Fixpoint heap_up (fuel : nat) (h : list mtx) (j : nat) : list mtx :=
  match fuel with
  | O => h
  | S f =>
      let i := ((j - 1) / 2)%nat in
      if Nat.eqb i j || negb (heap_less h j i) then h else heap_up f (heap_swap h i j) i
  end.

(** [down(h, i0, n)]. *)
Fixpoint heap_down (fuel : nat) (h : list mtx) (i n : nat) : list mtx :=
  match fuel with
  | O => h
  | S f =>
      let j1 := (2 * i + 1)%nat in
      if Nat.leb n j1 then h
      else
        let j2 := (j1 + 1)%nat in
        let j := if Nat.ltb j2 n && heap_less h j2 j1 then j2 else j1 in
        if negb (heap_less h j i) then h else heap_down f (heap_swap h i j) j n
  end.

Definition heap_Push (h : list mtx) (x : mtx) : list mtx :=
  let h := h ++ [x] in heap_up (length h) h (length h - 1).

Definition heap_Pop (h : list mtx) : option (mtx * list mtx) :=
  let n := (length h - 1)%nat in
  let h := heap_down (length h) (heap_swap h 0 n) 0 n in
  match h !! n with Some x => Some (x, take n h) | None => None end.

Section Ops.
Context {L : LevelDB} {HS : Hashes} {MO : MapOrder}.

Definition on_pool_db {A} (m : GoM db_t A) : GoM (db_t * Mempool) A := gzoom fst (fun d s => (d, s.2)) m.
Definition get_pool : GoM (db_t * Mempool) Mempool := fun s => (Ret s.2, s).
Definition put_pool (m : Mempool) : GoM (db_t * Mempool) unit := gmodify (fun s => (s.1, m)).

(** [curNonce, _, _ := state.GetNonce(db, acct)]. *)
Definition cur_nonce (acct : string) : GoM (db_t * Mempool) Z :=
  let! o := on_pool_db (gignore None (GetNonce acct)) in gret (default 0 o).

Definition pool_entry (now : Z) (tx : Tx) : mtx :=
  let sz := TxSizeHint (TxID tx) (Z.of_nat (length (Outputs tx))) in
  {| m_Tx := tx; m_TxID := TxID tx; m_From := From tx; m_Nonce := TNonce tx; m_Fee := Fee tx;
     m_SizeHint := sz; m_FeeRate := f64_div (f64_of_Z (Fee tx)) (f64_of_Z (max_int 1 sz));
     m_AddedAt := now |}.

(** The nonce policy of the configuration. *)
Definition nonce_policy (cfg : MempoolConfig) (nonce expected : Z) : option goerr :=
  if negb (mc_AllowFutureNonces cfg) then
    if negb (nonce =? expected) then Some "nonce_not_next" else None
  else if nonce <? expected then Some "nonce_too_low"
  else if mc_MaxNonceGap cfg <? u64 (nonce - expected) then Some "nonce_gap_too_large"
  else None.

(** [Add]: returns whether an entry was replaced. *)
Definition Add (senders : list string) (now : Z) (tx : Tx) : GoM (db_t * Mempool) bool :=
  let! m0 := get_pool in
  let cap := mc_MaxTxsPerSender (mp_cfg m0) in
  let cnt := Z.of_nat (length (List.filter (fun f => (f =? From tx)%string) senders)) in
  if (0 <? cap) && (cap <=? cnt) then gerr "sender_cap"
  else
    let m := pruneLocked now m0 in
    put_pool m ;;;
    let acct := From tx in
    let nonce := TNonce tx in
    if (acct =? "")%string then gerr "missing_from"
    else
      let! curNonce := cur_nonce acct in
      let expected := u64 (curNonce + 1) in
      match nonce_policy (mp_cfg m) nonce expected with
      | Some e => gerr e
      | None =>
          let mt := pool_entry now tx in
          let mp := default ∅ (mp_byAcct m !! acct) in
          (* the account's map is created if missing *)
          let m := mp_update m (<[acct := mp]> (mp_byAcct m)) 0 0 in
          put_pool m ;;;
          match mp !! nonce with
          | Some old =>
              let minNew := f64_to_int64 (f64_mul (f64_of_Z (m_Fee old)) (mc_RBFMinFeeBump (mp_cfg m))) in
              if Fee tx <? minNew then gerr "rbf_fee_bump_too_small"
              else
                put_pool (mp_update m (<[acct := <[nonce := mt]> mp]> (mp_byAcct m)) 0
                            (m_SizeHint mt - m_SizeHint old)) ;;;
                gret true
          | None =>
              if mc_MaxTxs (mp_cfg m) <? mp_totalTxs m + 1 then gerr "mempool_full"
              else if mc_MaxBytes (mp_cfg m) <? mp_totalBytes m + m_SizeHint mt then gerr "mempool_bytes_full"
              else
                put_pool (mp_update m (<[acct := <[nonce := mt]> mp]> (mp_byAcct m)) 1 (m_SizeHint mt)) ;;;
                gret false
          end
      end.

(** *** Drain *)

(** The size of the structure [chain.Tx]: six strings, a pointer, three numbers, a slice. *)
Definition tx_size : Z := 152.

Definition pool_at (m : Mempool) (acct : string) (nonce : Z) : option mtx :=
  default ∅ (mp_byAcct m !! acct) !! nonce.

(** The first loop: the next nonce of each account, and the entries that have it. *)
Fixpoint drain_init (m : Mempool) (accts : list (string * gmap Z mtx)) (pq : list mtx)
    (expected : gmap string Z) : GoM (db_t * Mempool) (list mtx * gmap string Z) :=
  match accts with
  | [] => gret (pq, expected)
  | (acct, _) :: rest =>
      let! nn := cur_nonce acct in
      let exp := u64 (nn + 1) in
      let expected := <[acct := exp]> expected in
      let pq := match pool_at m acct exp with Some mt => heap_Push pq mt | None => pq end in
      drain_init m rest pq expected
  end.

(** The second loop; [n] transactions have been taken so far. *)
Fixpoint drain_loop (fuel : nat) (maxCount n : Z) (pq : list mtx) (expected : gmap string Z)
    (m : Mempool) : option (list Tx * Mempool) :=
  match pq with
  | [] => Some ([], m)
  | _ =>
      if negb ((maxCount <=? 0) || (n <? maxCount)) then Some ([], m)
      else
        match fuel with
        | O => None
        | S f =>
            match heap_Pop pq with
            | None => None
            | Some (mt, pq) =>
                let acct := m_From mt in
                let exp := default 0 (expected !! acct) in
                match pool_at m acct exp with
                | Some cur =>
                    if negb (m_TxID cur =? m_TxID mt)%string then drain_loop f maxCount n pq expected m
                    else
                      let mp := delete exp (default ∅ (mp_byAcct m !! acct)) in
                      let m := mp_update m
                        (if Nat.eqb (size mp) 0 then delete acct (mp_byAcct m)
                         else <[acct := mp]> (mp_byAcct m)) (-1) (- m_SizeHint cur) in
                      let expected := <[acct := u64 (exp + 1)]> expected in
                      let pq := match pool_at m acct (u64 (exp + 1)) with
                                | Some next => heap_Push pq next | None => pq end in
                      match drain_loop f maxCount (n + 1) pq expected m with
                      | Some (out, m') => Some (m_Tx cur :: out, m')
                      | None => None
                      end
                | None => drain_loop f maxCount n pq expected m
                end
            end
        end
  end.

Definition Drain (fuel : nat) (now maxCount : Z) : GoM (db_t * Mempool) (option (list Tx)) :=
  let! m0 := get_pool in
  let m := pruneLocked now m0 in
  put_pool m ;;;
  let! (pq, expected) := drain_init m (range (mp_byAcct m)) [] ∅ in
  if negb (make_cap_ok maxCount tx_size) then gpanic
  else
  match drain_loop fuel maxCount 0 pq expected m with
  | Some (out, m') => put_pool m' ;;; gret (Some out)
  | None => gret None
  end.

(** *** Info, QueueSnapshot, EligibleSnapshot *)

Definition Info_perAcct (m : Mempool) : gmap string Z :=
  fmap (fun mp : gmap Z mtx => Z.of_nat (size mp)) (mp_byAcct m).

Definition QueueSnapshot (m : Mempool) : gmap string (list Z) :=
  fmap (fun mp : gmap Z mtx => (map_to_list mp).*1) (mp_byAcct m).

Fixpoint eligible_loop (accts : list (string * gmap Z mtx)) : GoM (db_t * Mempool) (list Tx) :=
  match accts with
  | [] => gret []
  | (acct, mp2) :: rest =>
      let! nn := cur_nonce acct in
      let! out := eligible_loop rest in
      gret (match mp2 !! u64 (nn + 1) with Some mt => m_Tx mt :: out | None => out end)
  end.

Definition EligibleSnapshot : GoM (db_t * Mempool) (list Tx) :=
  let! m := get_pool in eligible_loop (range (mp_byAcct m)).
End Ops.
