(* ===== verification/TypedLedger.v ===== *)
(** * Type soundness of the ledger: accounts, snapshots, validation, application, pool

    Every operation on accounts, every state simulation and every operation of the pool keeps
    the types of the store; those that can panic on a typed store are the ones stated at
    [sound true] only. *)

From S2P Require Import Prelude GoLang KV Chain Pow Storage State Config Crypto Validate Apply Frame Typed Mempool.

(** The file system and the encoders report failures as errors. *)
Class SnapFilesSafe (FS : SnapFiles) : Prop := {
  mkdir_no_panic : forall d f, (MkdirAll d f).1 <> Panic;
  write_no_panic : forall n b f, (WriteFile n b f).1 <> Panic;
  read_no_panic : forall n f, ReadFile n f <> Panic;
  readdir_no_panic : forall n f, ReadDir n f <> Panic;
  enc_json_no_panic : forall s, enc_json s <> Panic;
  dec_json_no_panic : forall s, dec_json s <> Panic;
  enc_gob_no_panic : forall s, enc_gob s <> Panic;
  dec_gob_no_panic : forall s, dec_gob s <> Panic;
}.

Section Accounts.
Context {L : LevelDB} {HL : LevelDBOk L} {HS : Hashes} {CD : Codecs} {HC : CodecsTotal CD} {MO : MapOrder}.
Context (p : bool).

Lemma sound_GetBalance id : sound p (GetBalance id).
Proof.
  apply sound_get_bind. intros [b|] Hb; [|apply sound_ret].
  apply sound_bind; [by apply sound_part_8|intros; apply sound_ret].
Qed.
Lemma sound_SetBalance id v : sound p (SetBalance id v).
Proof. sound_tac. Qed.
Lemma sound_GetNonce id : sound p (GetNonce id).
Proof. sound_tac. Qed.
Lemma sound_SetNonce id v : sound p (SetNonce id v).
Proof. sound_tac. Qed.

Lemma sound_ResetState : sound p ResetState.
Proof.
  unfold ResetState. sound_tac. rewrite <- List.map_app. apply sound_deletes.
Qed.
End Accounts.
#[export] Hint Resolve sound_GetBalance sound_SetBalance sound_GetNonce sound_SetNonce sound_ResetState : sound.

(** What the account reads answer. *)
Section AccountReads.
Context {L : LevelDB} {HL : LevelDBOk L} {CD : Codecs} (d : db_t) (Hd : typed (db_view d)).

Lemma typed_GetNonce id : exists o, GetNonce id d = (Ret o, d).
Proof. eexists. by apply typed_get_be64. Qed.
Lemma typed_GetBalance id : exists o, GetBalance id d = (Ret o, d).
Proof.
  unfold GetBalance. erewrite gbind_ret by apply kv_get_ok.
  destruct (db_view d !! keyBal id) as [v|] eqn:Hv; [|by eexists].
  specialize (Hd _ v Hv). apply Nat.eqb_eq in Hd. eexists. erewrite gbind_ret; [reflexivity|].
  by rewrite (proj1 (BE_Uint64_8 v Hd)).
Qed.
End AccountReads.

Section Ledger.
Context {L : LevelDB} {HL : LevelDBOk L} {HS : Hashes} {CD : Codecs} {HC : CodecsTotal CD} {MO : MapOrder}
  {FS : SnapFiles} {HF : SnapFilesSafe FS}.
Context (p : bool).

Lemma sound_AddBalance id d : sound p (AddBalance id d).
Proof. sound_tac. Qed.
Lemma sound_RestoreSnapshot s : sound p (RestoreSnapshot s).
Proof. unfold RestoreSnapshot. sound_tac. Qed.
#[local] Hint Resolve sound_AddBalance sound_RestoreSnapshot : sound.

(** *** Files *)

Lemma sound_on_fs {A} (m : GoM fs_t A) : (forall f, (m f).1 <> Panic) -> sound p (on_fs m).
Proof. intros Hm. by apply sound_beside. Qed.

Lemma ReadSnapshotAuto_safe path f : (ReadSnapshotAuto path f).1 <> Panic.
Proof.
  unfold ReadSnapshotAuto, ReadSnapshotBin, ReadSnapshot. pose proof (read_no_panic path f).
  destruct (str_suffix _ _); cbn; destruct (ReadFile path f); try done;
    [apply dec_gob_no_panic|apply dec_json_no_panic].
Qed.
Lemma ReadSnapshot_safe path f : (ReadSnapshot path f).1 <> Panic.
Proof.
  unfold ReadSnapshot. pose proof (read_no_panic path f). cbn.
  destruct (ReadFile path f); try done. apply dec_json_no_panic.
Qed.
Lemma ListSnapshots_safe dir f : (ListSnapshots dir f).1 <> Panic.
Proof.
  unfold ListSnapshots. cbn. pose proof (readdir_no_panic (snap_dir dir) f).
  by destruct (ReadDir (snap_dir dir) f).
Qed.
#[local] Hint Resolve sound_on_fs ReadSnapshotAuto_safe ReadSnapshot_safe ListSnapshots_safe mkdir_no_panic
  write_no_panic enc_json_no_panic enc_gob_no_panic : sound.

Lemma sound_WriteSnapshot now dir h t : sound p (WriteSnapshot now dir h t).
Proof. sound_tac. Qed.
Lemma sound_WriteSnapshotBin now dir h t : sound p (WriteSnapshotBin now dir h t).
Proof. sound_tac. Qed.

(** *** Application *)

Lemma sound_apply_tx tx : sound p (apply_tx tx).
Proof. sound_tac. Qed.
#[local] Hint Resolve sound_apply_tx : sound.
Lemma sound_applyBlockTxs b : sound p (applyBlockTxs b).
Proof. unfold applyBlockTxs. sound_tac. Qed.
#[local] Hint Resolve sound_applyBlockTxs : sound.
Lemma sound_replay_main n : forall h, sound p (replay_main n h).
Proof. induction n; intros; cbn [replay_main]; sound_tac. Qed.
#[local] Hint Resolve sound_replay_main : sound.
Lemma sound_rebuild cfg g h s : sound p (rebuildStateFromFinalized cfg g h s).
Proof. unfold rebuildStateFromFinalized. sound_tac. Qed.
End Ledger.
#[export] Hint Resolve sound_AddBalance sound_RestoreSnapshot sound_on_fs ReadSnapshotAuto_safe ReadSnapshot_safe
  ListSnapshots_safe sound_WriteSnapshot sound_WriteSnapshotBin sound_applyBlockTxs sound_rebuild : sound.

(** ** State simulations *)

(** The operations a simulation reads and writes accounts with. *)
Class SimSound {CD : Codecs} {S : Type} `{HasStore S} (o : SimOps S) : Prop := {
  sim_getBal : forall p id, sound p (getBal o id);
  sim_setBal : forall p id v, sound p (setBal o id v);
  sim_getNon : forall p id, sound p (getNon o id);
  sim_setNon : forall p id v, sound p (setNon o id v);
}.
#[export] Hint Resolve sim_getBal sim_setBal sim_getNon sim_setNon : sound.
#[export] Hint Extern 0 (SimSound _) => typeclasses eauto : sound.

Section Simulations.
Context {L : LevelDB} {HL : LevelDBOk L} {HS : Hashes} {CD : Codecs} {HC : CodecsTotal CD} {MO : MapOrder}
  {FS : SnapFiles} {HF : SnapFilesSafe FS} {ED : Ed25519} {E : Edwards} {TS : TxSort}.

#[export] Instance cached_sound : SimSound cached_ops.
Proof. split; intros; unfold cached_ops; cbn [getBal setBal getNon setNon]; sound_tac. Qed.

Lemma sound_tip_tx tx : sound true (tip_tx cached_ops tx).
Proof. sound_tac. Qed.
Lemma sound_filter_tx p tx : sound p (filter_tx cached_ops tx).
Proof. sound_tac. Qed.
#[local] Hint Resolve sound_tip_tx sound_filter_tx : sound.
Lemma sound_filter_loop p txs : sound p (filter_loop cached_ops txs).
Proof. induction txs; cbn [filter_loop]; sound_tac. Qed.
#[local] Hint Resolve sound_filter_loop : sound.

(** A simulation starts from the store and an empty cache, which is dropped at the end. *)
Lemma sound_simulation {A} p (m : GoM (db_t * sim) A) :
  sound p m -> sound p (fun d => let '(r, (d', _)) := m (d, empty_sim) in (r, d')).
Proof.
  intros Hm d Hd. destruct (Hm (d, empty_sim) Hd) as [H1 H2].
  by destruct (m (d, empty_sim)) as [r [d' c]].
Qed.

Lemma sound_FilterTxs p txs : sound p (FilterTxsBySimState txs).
Proof. apply sound_simulation. sound_tac. Qed.
Lemma sound_StateTip cfg b : sound true (ValidateBlockStateTip cfg b).
Proof. apply sound_simulation. sound_tac. Qed.

Lemma sound_fork_replay cfg hex n : forall h s, sound true (fork_replay cfg hex n h s).
Proof. induction n; intros; cbn [fork_replay]; sound_tac. Qed.
#[local] Hint Resolve sound_fork_replay : sound.
Lemma sound_OnMainParent cfg hex g b : sound true (ValidateBlockStateOnMainParent cfg hex g b).
Proof. sound_tac. Qed.
Lemma sound_header_match p b : sound p (BlockMatchesStoredHeader b).
Proof. sound_tac. Qed.
End Simulations.
#[export] Hint Resolve sound_FilterTxs sound_StateTip sound_OnMainParent sound_header_match : sound.

(** ** The pool *)
Section Pool.
Context {L : LevelDB} {HL : LevelDBOk L} {HS : Hashes} {CD : Codecs} {HC : CodecsTotal CD} {MO : MapOrder}.
Context (p : bool).

Lemma sound_get_pool : sound p get_pool.
Proof. apply sound_read. Qed.
Lemma sound_cur_nonce acct : sound p (cur_nonce acct).
Proof. sound_tac. Qed.
#[local] Hint Resolve sound_get_pool sound_cur_nonce : sound.
Lemma sound_Add senders now tx : sound p (Add senders now tx).
Proof. unfold Add. sound_tac. Qed.
Lemma sound_drain_init m accts : forall pq e, sound p (drain_init m accts pq e).
Proof. induction accts as [|[]]; intros; cbn [drain_init]; sound_tac. Qed.
#[local] Hint Resolve sound_drain_init : sound.
Lemma sound_Drain fuel now n : make_cap_ok n tx_size = true -> sound p (Drain fuel now n).
Proof. intros Hn. unfold Drain. rewrite Hn. cbn [negb]. sound_tac. Qed.
Lemma sound_eligible accts : sound p (eligible_loop accts).
Proof. induction accts as [|[]]; intros; cbn [eligible_loop]; sound_tac. Qed.
#[local] Hint Resolve sound_eligible : sound.
Lemma sound_EligibleSnapshot : sound p EligibleSnapshot.
Proof. unfold EligibleSnapshot. sound_tac. Qed.
End Pool.
#[export] Hint Resolve sound_Add sound_EligibleSnapshot : sound.
