(* ===== verification/PoolOrder.v ===== *)
(** * The priority queue of the pool: float64 fee rates and container/heap

    Fee rates of admitted transactions are numbers, never NaN, so [Less] orders entries by
    fee rate and then by fee (a strict weak order).  The sift-up and sift-down of
    [container/heap] keep the heap order, so [heap_Pop] gives out an entry no other entry
    has to be served before. *)

From Stdlib Require Import SpecFloat.
From S2P Require Import Prelude GoLang KV Chain Config Mempool.

(** ** float64 values that are numbers *)

Definition not_nan (x : f64) : Prop := match x with S754_nan => False | _ => True end.

Lemma shr_1_nonneg r : 0 <= shr_m r -> 0 <= shr_m (shr_1 r).
Proof. destruct r as [m ? ?]. cbn. destruct m as [|[p|p|]|]; cbn; lia. Qed.

Lemma shr_nonneg r e n : 0 <= shr_m r -> 0 <= shr_m (shr r e n).1.
Proof.
  intros H. unfold shr. destruct n as [|p|p]; cbn [fst]; try done.
  revert r H. induction p as [p IH|p IH|]; intros r H; cbn [iter_pos];
    eauto using shr_1_nonneg.
Qed.

Lemma shr_fexp_nonneg prec emax m e l : 0 <= m -> 0 <= shr_m (shr_fexp prec emax m e l).1.
Proof. intros H. unfold shr_fexp. apply shr_nonneg. destruct l as [|[]]; done. Qed.

Lemma binary_round_aux_not_nan prec emax s m e l : 0 <= m -> not_nan (binary_round_aux prec emax s m e l).
Proof.
  intros H. unfold binary_round_aux. pose proof (shr_fexp_nonneg prec emax m e l H) as H1.
  destruct (shr_fexp prec emax m e l) as [r1 e1]. cbn [fst] in H1.
  assert (0 <= round_nearest_even (shr_m r1) (loc_of_shr_record r1)) as H2.
  { unfold round_nearest_even. destruct (loc_of_shr_record r1) as [|[]]; [lia| |lia..].
    destruct (Z.even (shr_m r1)); lia. }
  pose proof (shr_fexp_nonneg prec emax _ e1 loc_Exact H2) as H3.
  destruct (shr_fexp prec emax _ e1 loc_Exact) as [r2 e2]. cbn [fst] in H3.
  destruct (shr_m r2); [done| |lia]. by destruct (_ <=? _).
Qed.

Lemma binary_round_not_nan prec emax s m e : not_nan (binary_round prec emax s m e).
Proof.
  unfold binary_round. destruct (shl_align _ _ _) as [mz ez].
  by apply binary_round_aux_not_nan.
Qed.

Lemma f64_of_Z_not_nan z : not_nan (f64_of_Z z).
Proof. destruct z; [done|apply binary_round_not_nan..]. Qed.

Lemma digits2_size p : digits2_pos p = Pos.size p.
Proof. induction p; cbn; congruence. Qed.

Lemma digits2_shift p d : Zpos (digits2_pos (Pos.iter xO p d)) = Zpos (digits2_pos p) + Zpos d.
Proof.
  revert d. apply Pos.peano_ind; [cbn; lia|]. intros d IH.
  rewrite Pos.iter_succ. cbn [digits2_pos]. lia.
Qed.

Lemma digits2_bound p : Zpos p < 2 ^ 53 -> Zpos (digits2_pos p) <= 53.
Proof.
  intros H. pose proof (Pos.size_le p) as Hs. rewrite digits2_size.
  assert (2 ^ Zpos (Pos.size p) <= 2 * Zpos p) as Hle by (rewrite <- Pos2Z.inj_pow; lia).
  destruct (Z.le_gt_cases (Zpos (Pos.size p)) 53); [done|].
  assert (2 ^ 54 <= 2 ^ Zpos (Pos.size p)) by (apply Z.pow_le_mono_r; lia). lia.
Qed.

Lemma binary_round_aux_exact s p e : Zpos (digits2_pos p) = 53 -> -1074 <= e <= 971 ->
  binary_round_aux 53 1024 s (Zpos p) e loc_Exact = S754_finite s p e.
Proof.
  intros Hd He.
  assert (shr_fexp 53 1024 (Zpos p) e loc_Exact = (shr_record_of_loc (Zpos p) loc_Exact, e)) as Hs.
  { unfold shr_fexp, fexp, emin. cbn [Zdigits2]. rewrite Hd.
    replace (Z.max (53 + e - 53) (3 - 1024 - 53) - e) with 0 by lia. done. }
  unfold binary_round_aux. rewrite Hs. cbn -[Z.leb shr_fexp Z.sub]. rewrite Hs. cbn -[Z.leb Z.sub].
  by rewrite (proj2 (Z.leb_le _ _)) by lia.
Qed.

(** Integers below 2^53 are represented exactly. *)
Lemma f64_of_Z_finite z : 0 < z < 2 ^ 53 -> exists m e, f64_of_Z z = S754_finite false m e.
Proof.
  intros [Hp Hb]. destruct z as [|p|]; [lia| |lia]. unfold f64_of_Z. cbn [binary_normalize].
  pose proof (digits2_bound p Hb) as Hd. unfold binary_round, shl_align.
  assert (fexp 53 1024 (Zpos (digits2_pos p) + 0) - 0 = Zpos (digits2_pos p) - 53) as ->
    by (unfold fexp, emin; lia).
  destruct (Zpos (digits2_pos p) - 53) as [|q|q] eqn:E; [|lia|].
  - rewrite binary_round_aux_exact by lia. by eexists _, _.
  - assert (fexp 53 1024 (Zpos (digits2_pos p) + 0) = Zneg q) as -> by (unfold fexp, emin; lia).
    rewrite binary_round_aux_exact by (rewrite ?digits2_shift; lia). by eexists _, _.
Qed.

Lemma f64_div_not_nan x m e : not_nan x -> not_nan (f64_div x (S754_finite false m e)).
Proof.
  intros Hx. unfold f64_div, SFdiv. destruct x as [s|s| |s mx ex]; try done.
  destruct (SFdiv_core_binary _ _ _ _ _ _) as [[mz ez] lz] eqn:E.
  apply binary_round_aux_not_nan. unfold SFdiv_core_binary in E. cbv zeta in E.
  match type of E with context [Z.div_eucl ?a ?b] =>
    assert (0 <= a) as Ha; [|pose proof (Z_div_mod a b ltac:(lia)) as Hq; destruct (Z.div_eucl a b) as [q r]] end.
  { match goal with |- context [match ?n with _ => _ end] => destruct n end; try lia.
    apply Z.shiftl_nonneg. lia. }
  injection E as <- _ _. nia.
Qed.

(** ** Order *)

(** A number's place in the order of float64 values: sign class, exponent, mantissa. *)
Definition f64_key (x : f64) : Z * Z * Z :=
  match x with
  | S754_infinity true => (-2, 0, 0)
  | S754_finite true m e => (-1, - e, - Zpos m)
  | S754_finite false m e => (1, e, Zpos m)
  | S754_infinity false => (2, 0, 0)
  | _ => (0, 0, 0)
  end.

Definition key_lt (a b : Z * Z * Z) : Prop :=
  a.1.1 < b.1.1 \/ a.1.1 = b.1.1 /\ (a.1.2 < b.1.2 \/ a.1.2 = b.1.2 /\ a.2 < b.2).

Definition key_eq (a b : Z * Z * Z) : Prop := a.1.1 = b.1.1 /\ a.1.2 = b.1.2 /\ a.2 = b.2.

Lemma f64_compare x y : not_nan x -> not_nan y ->
  match SFcompare x y with
  | Some Eq => key_eq (f64_key x) (f64_key y)
  | Some Lt => key_lt (f64_key x) (f64_key y)
  | Some Gt => key_lt (f64_key y) (f64_key x)
  | None => False
  end.
Proof.
  unfold key_lt, key_eq. destruct x as [[]|[]| |[] m1 e1], y as [[]|[]| |[] m2 e2]; cbn; try done; try lia.
  - destruct (Z.compare_spec e1 e2); cbn; try lia.
    change (PosDef.Pos.compare_cont Eq m1 m2) with (Pos.compare m1 m2).
    destruct (Pos.compare_spec m1 m2); cbn; subst; try done; lia.
  - destruct (Z.compare_spec e1 e2); cbn; try lia.
    change (PosDef.Pos.compare_cont Eq m1 m2) with (Pos.compare m1 m2).
    destruct (Pos.compare_spec m1 m2); cbn; subst; try done; lia.
Qed.

(** ** The order of the queue *)

Definition ranked (mt : mtx) : Prop := not_nan (m_FeeRate mt).

Lemma Less_spec a b : ranked a -> ranked b ->
  Less a b = true <-> key_lt (f64_key (m_FeeRate b)) (f64_key (m_FeeRate a)) \/
    key_eq (f64_key (m_FeeRate a)) (f64_key (m_FeeRate b)) /\ m_Fee b < m_Fee a.
Proof.
  intros Ha Hb. unfold Less, f64_eqb, f64_ltb, SFeqb, SFltb.
  pose proof (f64_compare _ _ Ha Hb) as H1. pose proof (f64_compare _ _ Hb Ha) as H2.
  unfold key_lt, key_eq in *.
  destruct (SFcompare (m_FeeRate a) (m_FeeRate b)) as [[]|], (SFcompare (m_FeeRate b) (m_FeeRate a)) as [[]|];
    try done; try (rewrite Z.ltb_lt); lia.
Qed.

(** [a] may be served before [b]. *)
Definition ahead (a b : mtx) : Prop := Less b a = false.

Lemma ahead_spec a b : ranked a -> ranked b -> ahead a b <->
  ~ (key_lt (f64_key (m_FeeRate a)) (f64_key (m_FeeRate b)) \/
     key_eq (f64_key (m_FeeRate b)) (f64_key (m_FeeRate a)) /\ m_Fee a < m_Fee b).
Proof. intros Ha Hb. unfold ahead. rewrite <- Less_spec by done. by rewrite not_true_iff_false. Qed.

Lemma Less_ahead a b : ranked a -> ranked b -> Less a b = true -> ahead a b.
Proof. intros Ha Hb. rewrite ahead_spec, Less_spec by done. unfold key_lt, key_eq. lia. Qed.

Lemma ahead_trans a b c : ranked a -> ranked b -> ranked c -> ahead a b -> ahead b c -> ahead a c.
Proof. intros Ha Hb Hc. rewrite !ahead_spec by done. unfold key_lt, key_eq. lia. Qed.

(** ** container/heap *)

Definition par (k : nat) : nat := ((k - 1) / 2)%nat.

Lemma par_cases k : (0 < k)%nat -> (k = 2 * par k + 1 \/ k = 2 * par k + 2)%nat.
Proof.
  intros H. unfold par. pose proof (Nat.div_mod (k - 1) 2 ltac:(lia)) as E.
  pose proof (Nat.mod_upper_bound (k - 1) 2 ltac:(lia)). lia.
Qed.

(** Every element up to [n] is no earlier than its parent. *)
Definition heap_upto (h : list mtx) (n : nat) : Prop :=
  forall k, (0 < k < n)%nat -> heap_less h k (par k) = false.

Definition heap_ok (h : list mtx) : Prop := heap_upto h (length h).

(** The exchange of two positions. *)
Definition swp (i j k : nat) : nat := if Nat.eqb k i then j else if Nat.eqb k j then i else k.

Ltac swp_solve := unfold swp; repeat case_match; rewrite ?Nat.eqb_eq, ?Nat.eqb_neq in *; try lia.

Lemma heap_swap_lookup h i j k : (i < length h)%nat -> (j < length h)%nat ->
  heap_swap h i j !! k = h !! swp i j k.
Proof.
  intros Hi Hj. unfold heap_swap.
  destruct (lookup_lt_is_Some_2 h i Hi) as [a Ha], (lookup_lt_is_Some_2 h j Hj) as [b Hb].
  rewrite Ha, Hb. unfold swp. destruct (Nat.eqb_spec k i) as [->|Hki].
  - rewrite Hb. destruct (decide (j = i)) as [->|Hne].
    + rewrite list_lookup_insert_eq by (rewrite length_insert; lia). congruence.
    + rewrite list_lookup_insert_ne, list_lookup_insert_eq by lia. done.
  - destruct (Nat.eqb_spec k j) as [->|Hkj].
    + by rewrite list_lookup_insert_eq by (rewrite length_insert; lia).
    + by rewrite !list_lookup_insert_ne by lia.
Qed.

Lemma heap_swap_length h i j : length (heap_swap h i j) = length h.
Proof. unfold heap_swap. repeat case_match; by rewrite ?length_insert. Qed.

Lemma heap_less_swap h i j a b : (i < length h)%nat -> (j < length h)%nat ->
  heap_less (heap_swap h i j) a b = heap_less h (swp i j a) (swp i j b).
Proof. intros Hi Hj. unfold heap_less. by rewrite !heap_swap_lookup by done. Qed.

Lemma heap_swap_ranked h i j : Forall ranked h -> Forall ranked (heap_swap h i j).
Proof.
  intros H. unfold heap_swap. destruct (h !! i) as [a|] eqn:Ea; [|done].
  destruct (h !! j) as [b|] eqn:Eb; [|done].
  apply Forall_insert; [apply Forall_insert; [done|]|]; by eapply Forall_lookup_1.
Qed.

Lemma heap_less_trans h a b c : Forall ranked h -> (b < length h)%nat ->
  heap_less h b a = false -> heap_less h c b = false -> heap_less h c a = false.
Proof.
  intros Hr Hb. unfold heap_less. destruct (lookup_lt_is_Some_2 h b Hb) as [y Hy]. rewrite Hy.
  destruct (h !! a) as [x|] eqn:Hx, (h !! c) as [z|] eqn:Hz; try done.
  intros H1 H2. eapply (ahead_trans x y z); try done; by eapply Forall_lookup_1.
Qed.

Lemma heap_less_asym h a b : Forall ranked h -> heap_less h a b = true -> heap_less h b a = false.
Proof.
  intros Hr. unfold heap_less. destruct (h !! a) as [x|] eqn:Hx, (h !! b) as [y|] eqn:Hy; try done.
  apply Less_ahead; by eapply Forall_lookup_1.
Qed.

Lemma heap_up_ok n : forall f h j, (j < f)%nat -> (j < n)%nat -> length h = n -> Forall ranked h ->
  (forall k, (0 < k < n)%nat -> k <> j -> heap_less h k (par k) = false) ->
  (forall k, (0 < k < n)%nat -> par k = j -> (0 < j)%nat -> heap_less h k (par j) = false) ->
  heap_ok (heap_up f h j).
Proof.
  induction f as [|f IH]; intros h j Hf Hj Hl Hr H1 H2; [lia|]. cbn [heap_up]. fold (par j).
  destruct (Nat.eqb (par j) j || negb (heap_less h j (par j))) eqn:E.
  - unfold heap_ok, heap_upto. rewrite Hl. intros k Hk. destruct (decide (k = j)) as [->|]; [|by apply H1].
    apply orb_true_iff in E as [E|E]; [|by apply negb_true_iff].
    apply Nat.eqb_eq in E. pose proof (par_cases j). lia.
  - apply orb_false_iff in E as [En Eless]. apply Nat.eqb_neq in En. apply negb_false_iff in Eless.
    assert (0 < j)%nat as Hj0.
    { destruct j; [|lia]. by cbn in En. }
    pose proof (par_cases j Hj0) as Pj. set (i := par j) in *.
    apply IH; rewrite ?heap_swap_length; try done; try lia; [by apply heap_swap_ranked|..].
    + intros k Hk Hki. rewrite heap_less_swap by lia. pose proof (par_cases k ltac:(lia)) as Pk.
      destruct (decide (k = j)) as [->|Hkj].
      { fold i. replace (swp i j j) with i by swp_solve. replace (swp i j i) with j by swp_solve.
        by apply heap_less_asym. }
      replace (swp i j k) with k by swp_solve. destruct (decide (par k = i)) as [Ei|Ei].
      { rewrite Ei. replace (swp i j i) with j by swp_solve.
        apply (heap_less_trans h j i k); [done|lia|by apply heap_less_asym|]. rewrite <- Ei. apply H1; lia. }
      destruct (decide (par k = j)) as [Ej|Ej].
      { rewrite Ej. replace (swp i j j) with i by swp_solve. by apply H2. }
      replace (swp i j (par k)) with (par k) by swp_solve. by apply H1.
    + intros k Hk Hki Hi0. rewrite heap_less_swap by lia. pose proof (par_cases i Hi0) as Pi.
      replace (swp i j (par i)) with (par i) by swp_solve.
      destruct (decide (k = j)) as [->|Hkj].
      { replace (swp i j j) with i by swp_solve. apply H1; lia. }
      pose proof (par_cases k ltac:(lia)) as Pk.
      replace (swp i j k) with k by swp_solve.
      apply (heap_less_trans h _ i k); [done|lia|apply H1; lia|]. rewrite <- Hki. apply H1; lia.
Qed.

Lemma heap_down_ok n : forall f h i, (n <= f + i)%nat -> (n <= length h)%nat -> Forall ranked h ->
  (forall k, (0 < k < n)%nat -> par k <> i -> heap_less h k (par k) = false) ->
  (forall k, (0 < k < n)%nat -> par k = i -> (0 < i)%nat -> heap_less h k (par i) = false) ->
  heap_upto (heap_down f h i n) n.
Proof.
  assert (forall i, par (2 * i + 1) = i /\ par (2 * i + 2) = i) as Hpar.
  { intros i. pose proof (par_cases (2 * i + 1)). pose proof (par_cases (2 * i + 2)). lia. }
  induction f as [|f IH]; intros h i Hf Hl Hr H1 H2.
  { intros k Hk. cbn. apply H1; [done|]. pose proof (par_cases k). lia. }
  cbn [heap_down]. cbv zeta. destruct (Nat.leb_spec n (2 * i + 1)) as [Hn|Hn].
  { intros k Hk. apply H1; [done|]. pose proof (par_cases k). lia. }
  replace (2 * i + 1 + 1)%nat with (2 * i + 2)%nat by lia.
  set (j := if Nat.ltb (2 * i + 2) n && heap_less h (2 * i + 2) (2 * i + 1)
            then (2 * i + 2)%nat else (2 * i + 1)%nat).
  assert ((j = 2 * i + 1 \/ j = 2 * i + 2)%nat /\ (j < n)%nat /\
    forall k, (0 < k < n)%nat -> par k = i -> k <> j -> heap_less h k j = false) as (Hj & Hjn & Hbest).
  { unfold j. destruct (Nat.ltb_spec (2 * i + 2) n); cbn [andb].
    - destruct (heap_less h (2 * i + 2) (2 * i + 1)) eqn:E; (split_and!; [lia|lia|]);
        intros k Hk Hp Hne; pose proof (par_cases k).
      + replace k with (2 * i + 1)%nat by lia. by apply heap_less_asym.
      + by replace k with (2 * i + 2)%nat by lia.
    - split_and!; [lia|lia|]. intros k Hk Hp Hne. pose proof (par_cases k). lia. }
  assert (par j = i) as Pj by (destruct Hj as [->| ->]; apply Hpar).
  destruct (heap_less h j i) eqn:Eless; cbn [negb].
  - apply IH; rewrite ?heap_swap_length; try done; try lia; [by apply heap_swap_ranked|..].
    + intros k Hk Hkj. rewrite heap_less_swap by lia. pose proof (par_cases k ltac:(lia)) as Pk.
      destruct (decide (par k = i)) as [Ei|Ei].
      * rewrite Ei. replace (swp i j i) with j by swp_solve. destruct (decide (k = j)) as [->|Hne].
        { replace (swp i j j) with i by swp_solve. by apply heap_less_asym. }
        replace (swp i j k) with k by swp_solve. by apply Hbest.
      * replace (swp i j (par k)) with (par k) by swp_solve.
        destruct (decide (k = i)) as [->|Hne].
        { replace (swp i j i) with j by swp_solve. apply H2; lia. }
        replace (swp i j k) with k by swp_solve. by apply H1.
    + intros k Hk Hkj Hj0. rewrite heap_less_swap, Pj by lia. pose proof (par_cases k ltac:(lia)).
      replace (swp i j i) with j by swp_solve. replace (swp i j k) with k by swp_solve.
      rewrite <- Hkj. apply H1; lia.
  - intros k Hk. destruct (decide (par k = i)) as [Ei|Ei]; [|by apply H1]. rewrite Ei.
    destruct (decide (k = j)) as [->|Hne]; [done|].
    apply (heap_less_trans h i j k); [done|lia|done|by apply Hbest].
Qed.

Lemma heap_down_tail n k : (n <= k)%nat -> forall f h i, (n <= length h)%nat ->
  heap_down f h i n !! k = h !! k.
Proof.
  intros Hk. induction f as [|f IH]; intros h i Hl; [done|]. cbn [heap_down]. cbv zeta.
  destruct (Nat.leb_spec n (2 * i + 1)); [done|].
  destruct (Nat.ltb_spec (2 * i + 1 + 1) n); cbn [andb];
    repeat match goal with |- context [heap_less h ?a ?b] => destruct (heap_less h a b) end; cbn [negb];
    try done; (rewrite IH by (rewrite heap_swap_length; lia); rewrite heap_swap_lookup by lia; f_equal; swp_solve).
Qed.

Lemma heap_root h : Forall ranked h -> heap_ok h -> forall k, heap_less h k 0 = false.
Proof.
  intros Hr H k. induction k as [k IH] using lt_wf_ind. destruct (decide (k = 0%nat)) as [->|Hk].
  { unfold heap_less. destruct (h !! 0%nat) as [x|] eqn:E; [|done].
    destruct (Less x x) eqn:E2; [|done]. rewrite <- E2. apply Less_ahead; try done; by eapply Forall_lookup_1. }
  destruct (decide (k < length h)%nat) as [Hl|Hl].
  - pose proof (par_cases k ltac:(lia)). apply (heap_less_trans h 0 (par k) k); [done|lia|apply IH; lia|].
    apply H. lia.
  - unfold heap_less. by rewrite (lookup_ge_None_2 h k) by lia.
Qed.

(** *** Push and Pop *)

Lemma heap_swap_perm h i j : heap_swap h i j ≡ₚ h.
Proof.
  unfold heap_swap. destruct (h !! i) as [a|] eqn:Ei; [|done].
  destruct (h !! j) as [b|] eqn:Ej; [|done].
  by apply Permutation_insert_swap.
Qed.

Lemma heap_up_perm f : forall h j, heap_up f h j ≡ₚ h.
Proof.
  induction f as [|f IH]; intros h j; cbn [heap_up]; [done|]. cbv zeta. case_goal; [done|].
  rewrite IH. apply heap_swap_perm.
Qed.

Lemma heap_down_perm f : forall h i n, heap_down f h i n ≡ₚ h.
Proof.
  induction f as [|f IH]; intros h i n; cbn [heap_down]; [done|]. cbv zeta.
  destruct (Nat.leb n (2 * i + 1)); [done|].
  match goal with |- context [heap_less h ?j i] => destruct (heap_less h j i) end; [|done].
  cbn [negb]. rewrite IH. apply heap_swap_perm.
Qed.

Lemma heap_Push_perm h x : heap_Push h x ≡ₚ x :: h.
Proof. unfold heap_Push. rewrite heap_up_perm. by rewrite Permutation_app_comm. Qed.

Lemma heap_Push_ok h x : Forall ranked h -> ranked x -> heap_ok h -> heap_ok (heap_Push h x).
Proof.
  intros Hr Hx H. unfold heap_Push. rewrite length_app. cbn [length].
  apply (heap_up_ok (length h + 1)); rewrite ?length_app; cbn [length]; try lia.
  - by apply Forall_app_2; [|constructor].
  - intros k Hk Hne. pose proof (par_cases k ltac:(lia)). unfold heap_less.
    rewrite !lookup_app_l by lia. apply H. lia.
  - intros k Hk Hp. pose proof (par_cases k ltac:(lia)). lia.
Qed.

Lemma heap_Pop_ok h : h <> [] -> Forall ranked h -> heap_ok h ->
  exists x h', heap_Pop h = Some (x, h') /\ x :: h' ≡ₚ h /\ heap_ok h' /\ forall y, y ∈ h -> ahead x y.
Proof.
  intros Hne Hr Hok. unfold heap_Pop. cbv zeta. set (n := (length h - 1)%nat).
  assert (length h = S n) as Hlh by (unfold n; destruct h; [done|]; cbn; lia).
  set (g := heap_down (length h) (heap_swap h 0 n) 0 n).
  assert (g ≡ₚ h) as Hp by (unfold g; rewrite heap_down_perm; apply heap_swap_perm).
  assert (length g = S n) as Hl by (by rewrite (Permutation_length Hp)).
  assert (heap_upto g n) as Hg.
  { apply heap_down_ok; [lia|rewrite heap_swap_length; lia|by apply heap_swap_ranked| |lia].
    intros k Hk Hp0. rewrite heap_less_swap by lia. pose proof (par_cases k ltac:(lia)).
    replace (swp 0 n k) with k by swp_solve. replace (swp 0 n (par k)) with (par k) by swp_solve.
    apply Hok. lia. }
  assert (g !! n = h !! 0%nat) as Hx.
  { unfold g. rewrite heap_down_tail by (rewrite ?heap_swap_length; lia).
    rewrite heap_swap_lookup by lia. f_equal. swp_solve. }
  destruct (lookup_lt_is_Some_2 g n) as [x Ex]; [lia|]. rewrite Ex.
  eexists x, _. split_and!; [reflexivity|..].
  - rewrite <- Hp. rewrite <- (take_drop_middle g n x Ex) at 2.
    rewrite drop_ge by lia. by rewrite Permutation_app_comm.
  - intros k Hk. rewrite length_take in Hk. pose proof (par_cases k ltac:(lia)). unfold heap_less.
    rewrite !lookup_take_lt by lia. apply Hg. lia.
  - intros y [k Hy]%list_elem_of_lookup. pose proof (heap_root h Hr Hok k) as H.
    unfold heap_less in H. by rewrite Hy, <- Hx, Ex in H.
Qed.
