(* ===== verification/Forkchoice.v ===== *)
(** * Choosing the main chain: core/node/forkchoice.go, reorg.go, reorg_best.go, bestchain.go,
    locator.go, reorg_txs.go and [enforceFinalizedOnCandidate] of node.go

    Called but declared nowhere, and therefore arguments: [ApplyBlock],
    [reservestorage.SetBalance] and [findForkPointCached].  Loops along parent links of headers
    take a number of steps, [None] is running out of it; the walk of [trySwitchMainChain]
    counts heights down and needs none. *)

From S2P Require Import Prelude GoLang KV Chain Storage State Config Crypto Validate Apply Mempool.

(** The struct [FindFirstKnown] decodes a block into. *)
Record HeightView := { hv_Height : Z }.

(** [let? x := m in k]: the same with running out of steps passed on. *)
Notation "'let?' x ':=' m 'in' k" :=
  (gbind m (fun o => match o with None => gret None | Some x => k end))
  (at level 200, x pattern, m at level 100, k at level 200) : go_scope.

Section Forkchoice.
Context {L : LevelDB} {HS : Hashes} {CD : Codecs} {MO : MapOrder} {FS : SnapFiles}.

(** *** forkchoice.go *)

(** The walk from the new tip at height [curHeight] down to [finH]; the result is the path,
    tip first. *)
Fixpoint walk_back (finH : Z) (curHeight : nat) (h : string) : GoM db_t (list string) :=
  if Z.of_nat curHeight =? finH then gret [h]
  else
    let! r := gtry (GetBlockByHash h) in
    match r with
    | inr (Found b) =>
        let h' := Hash_String (PrevHash (Header b)) in
        match curHeight with
        | O => gret [h]
        | S c =>
            if Z.of_nat c <? finH then gerr "candidate does not reach finalized height"
            else let! rest := walk_back finH c h' in gret (h :: rest)
        end
    | _ => gerr "missing block in candidate chain"
    end.

(** The finalized block the new chain has to contain: the stored one, or genesis. *)
Definition switch_anchor : GoM db_t (Z * string) :=
  let! o := GetFinalized in
  match o with
  | Some (finH, finHash) => gret (finH, finHash)
  | None =>
      let! r := gtry (GetBlockByHeight 0) in
      match r with
      | inr (r, ghash) =>
          match found_ok r with
          | Some _ => gret (0, ghash)
          | None => gerr "missing genesis"
          end
      | inl _ => gerr "missing genesis"
      end
  end.

(** Rewriting the height index, the finalized height first. *)
Fixpoint write_main (height : Z) (l : list string) : GoM db_t unit :=
  match l with
  | [] => gret tt
  | h :: l' =>
      gignore tt (PutHashByHeightOverwrite height h) ;;; write_main (u64 (height + 1)) l'
  end.

(** Everything up to the rebuild of the state. *)
Definition switch_index (newTipHash : string) (newTipHeight : Z) : GoM db_t unit :=
  let! (finH, finHash) := switch_anchor in
  if negb (make_cap_ok (i64 (i64 (u64 (newTipHeight - finH)) + 1)) string_size) then gpanic
  else
    let! path := walk_back finH (Z.to_nat newTipHeight) newTipHash in
    if negb (default "" (last path) =? finHash)%string then gerr "candidate chain anchor mismatch"
    else
      write_main finH (rev path) ;;;
      gignore tt (SetTip newTipHeight newTipHash).

Definition trySwitchMainChain (cfg : Config) (genesis : Genesis) (b_Height feeSum : Z)
    (newTipHash : string) (newTipHeight : Z) : GoM (db_t * fs_t) unit :=
  on_db (switch_index newTipHash newTipHeight) ;;;
  gignore tt (rebuildStateFromFinalized cfg genesis b_Height feeSum).

(** *** bestchain.go *)

(** [(h, hash, ok)] of the header tip, replaced by the marker of the best chain. *)
Definition best_tip (t : option (Z * string)) (tip : option string) : option (Z * string) :=
  match tip with
  | Some tip => if negb (tip =? "")%string then Some (default 0 (option_map fst t), tip) else t
  | None => t
  end.

Definition BestChainHashAtHeight (fuel : nat) (target : Z) : GoM db_t (option (option string)) :=
  let! t := gignore None GetHeaderTip in
  let! tip := gignore None GetBestChainTip in
  match best_tip t tip with
  | None => gret (Some None)
  | Some (hdrH, hdrHash) =>
      if (hdrHash =? "")%string then gret (Some None)
      else if hdrH <? target then gret (Some None)
      else
        let! c := gignore None (GetBestHashAtHeight target) in
        if negb (default "" c =? "")%string then gret (Some c)
        else gignore (Some None) (GetHeaderAncestorHashAtHeight fuel hdrHash target)
  end.

(** *** node.go: enforceFinalizedOnCandidate *)

Definition enforceFinalizedOnCandidate (fuel : nat) (candidateTipHash : string)
    : GoM db_t (option unit) :=
  let! f := gignore None GetFinalizedHeight in
  let finH := default 0 f in
  if finH =? 0 then gret (Some tt)
  else
    let! r := gignore (NotFound, "") (GetBlockByHeight finH) in
    match found_ok r.1 with
    | None => gret (Some tt)
    | Some mainB =>
        let mainHash := Hash_String (BlockHash mainB) in
        let? c := gignore (Some None) (GetAncestorHashAtHeight fuel candidateTipHash finH) in
        match c with
        | None => gret (Some tt)
        | Some candHash =>
            if negb (candHash =? mainHash)%string then gerr "violates_finalized"
            else gret (Some tt)
        end
    end.

(** *** reorg.go *)

Section Reorg.
Context (ApplyBlock : Block -> GoM (db_t * fs_t) unit).
Context (rs_SetBalance : string -> Z -> GoM db_t unit).
Context (cfg : Config) (genesis : Genesis).

(** The loop over the snapshot files: the last one of the largest height up to [target]. *)
Fixpoint best_snapshot (target : Z) (snaps : list string) (best : string) (bestH : Z)
    : GoM fs_t (string * Z) :=
  match snaps with
  | [] => gret (best, bestH)
  | p :: rest =>
      let! ss := gtry (ReadSnapshotAuto p) in
      match ss with
      | inl _ => best_snapshot target rest best bestH
      | inr ss =>
          if (sn_Height ss <=? target) && (bestH <=? sn_Height ss)
          then best_snapshot target rest p (sn_Height ss)
          else best_snapshot target rest best bestH
      end
  end.

(** The replay loop: [n] heights from [h]. *)
Fixpoint replay_apply (n : nat) (h : Z) : GoM (db_t * fs_t) unit :=
  match n with
  | O => gret tt
  | S n' =>
      let! r := gignore (NotFound, "") (on_db (GetBlockByHeight h)) in
      match found_ok r.1 with
      | None => gerr ("missing_block_" +:+ FormatUint h)
      | Some b => ApplyBlock b ;;; replay_apply n' (u64 (h + 1))
      end
  end.

Definition ApplyStateUpTo (target : Z) : GoM (db_t * fs_t) unit :=
  let! snaps := gignore [] (on_fs (ListSnapshots (st_SnapshotDir (c_State cfg)))) in
  let! (best, bestH) := on_fs (best_snapshot target snaps "" 0) in
  (if negb (best =? "")%string then
     let! ss := on_fs (ReadSnapshotAuto best) in
     gignore tt (on_db WipeStatePrefixes) ;;;
     gignore tt (on_db (ImportStateMaps (sn_Balances ss) (sn_Nonces ss)))
   else
     gignore tt (on_db WipeStatePrefixes) ;;;
     gfor (g_Allocations genesis) (fun a =>
       gignore tt (on_db (rs_SetBalance (ga_Address a) (parseInt64 (ga_Balance a)))))) ;;;
  replay_apply (Z.to_nat (target + 1 - u64 (bestH + 1))) (u64 (bestH + 1)).

Definition RebuildStateToHeight (target : Z) : GoM (db_t * fs_t) unit :=
  let! f := gignore None (on_db GetFinalizedHeight) in
  let finH := default 0 f in
  if (0 <? finH) && (target <? finH) then gerr "below_finalized"
  else ApplyStateUpTo target.

(** *** reorg_best.go *)

Fixpoint findForkPoint_loop (fuel : nat) (curH : Z) (cur : string)
    : GoM db_t (option (Z * string)) :=
  match fuel with
  | O => gret None
  | S f =>
      let! o := GetHeaderByHash cur in
      match o with
      | None => gerr "unknown_header"
      | Some hdr =>
          let h := Height hdr in
          if h =? 0 then gret (Some (0, ""))
          else
            let! on_main :=
              (if h <=? curH then
                 let! r := gignore (NotFound, "") (GetBlockByHeight h) in
                 gret match found_ok r.1 with
                      | Some b => (Hash_String (BlockHash b) =? cur)%string
                      | None => false
                      end
               else gret false) in
            if on_main : bool then gret (Some (h, cur))
            else findForkPoint_loop f curH (Hash_String (PrevHash hdr))
      end
  end.

Definition findForkPoint (fuel : nat) (curH : Z) (curHash : string) (headH : Z)
    (headHash : string) : GoM db_t (option (Z * string)) :=
  if (curHash =? "")%string then gret (Some (0, ""))
  else findForkPoint_loop fuel curH headHash.

(** The hashes collected on the way down, tip first. *)
Fixpoint header_path_loop (fuel : nat) (fromH toH : Z) (cur : string)
    : GoM db_t (option (list string)) :=
  match fuel with
  | O => gret None
  | S f =>
      let! o := GetHeaderByHash cur in
      match o with
      | None => gerr "unknown_header"
      | Some hdr =>
          if Height hdr <? fromH then gret (Some [])
          else
            let here := if Height hdr <=? toH then [cur] else [] in
            if Height hdr =? fromH then gret (Some here)
            else
              let? rest := header_path_loop f fromH toH (Hash_String (PrevHash hdr)) in
              gret (Some (here ++ rest))
      end
  end.

Definition headerPathFromTo (fuel : nat) (fromH toH : Z) (tipHash : string)
    : GoM db_t (option (list string)) :=
  if toH <? fromH then gret (Some [])
  else if negb (make_cap_ok (u64 (u64 (toH - fromH) + 1)) string_size) then gpanic
  else let? seq := header_path_loop fuel fromH toH tipHash in gret (Some (rev seq)).

(** The transactions of the branch that is left, rewards apart. *)
Fixpoint old_branch_txs (n : nat) (h : Z) : GoM db_t (list Tx) :=
  match n with
  | O => gret []
  | S n' =>
      let! r := gignore (NotFound, "") (GetBlockByHeight h) in
      match found_ok r.1 with
      | None => gret []
      | Some ob =>
          let! rest := old_branch_txs n' (u64 (h + 1)) in
          gret (List.filter (fun tx => negb (TType tx =? "coinbase")%string) (Txs ob) ++ rest)
      end
  end.

(** One block of the new branch. *)
Definition advance_block (bh : string) : GoM (db_t * fs_t) unit :=
  let! r := gignore NotFound (on_db (GetBlockByHash bh)) in
  match found_ok r with
  | None => gerr ("missing_block_" +:+ bh)
  | Some blk =>
      on_db (BlockMatchesStoredHeader blk) ;;;
      ApplyBlock blk ;;;
      gignore tt (on_db (SetTip (Height (Header blk)) bh))
  end.

(** The database and files beside the pool. *)
Definition on_chain {A} (m : GoM (db_t * fs_t) A) : GoM (db_t * fs_t * Mempool) A :=
  gzoom fst (fun s t => (s, t.2)) m.
Definition on_mp {A} (m : GoM (db_t * Mempool) A) : GoM (db_t * fs_t * Mempool) A :=
  gzoom (fun t => (t.1.1, t.2)) (fun s t => (s.1, t.1.2, s.2)) m.

(** reorg_txs.go; [senders] as in [Add]. *)
Definition ReinsertTxs (senders : list string) (now : Z) (txs : list Tx)
    : GoM (db_t * fs_t * Mempool) unit :=
  gfor txs (fun tx => gignore tt (on_mp (Add senders now tx) ;;; gret tt)).

Definition ReorgToBestHeaderChain (fuel : nat)
    (findForkPointCached : Z -> string -> Z -> string -> GoM db_t (Z * string))
    (senders : list string) (now : Z) : GoM (db_t * fs_t * Mempool) (option unit) :=
  let! cur := gignore None (on_chain (on_db GetTip)) in
  let '(curH, curHash) := default (0, "") cur in
  let! ht := gignore None (on_chain (on_db GetHeaderTip)) in
  let '(hH, hHash) := default (0, "") ht in
  if (hHash =? "")%string then gerr "no_header_tip"
  else if negb (curHash =? "")%string && (curHash =? hHash)%string then gret (Some tt)
  else
    let? _ := on_chain (on_db (enforceFinalizedOnCandidate fuel hHash)) in
    let! (forkH, forkHash) := on_chain (on_db (findForkPointCached curH curHash hH hHash)) in
    let! oldTxs :=
      (if forkH <? curH
       then on_chain (on_db (old_branch_txs (Z.to_nat (curH - forkH)) (u64 (forkH + 1))))
       else gret []) in
    on_chain (RebuildStateToHeight forkH) ;;;
    let? path := on_chain (on_db (headerPathFromTo fuel (u64 (forkH + 1)) hH hHash)) in
    on_chain (gfor path advance_block) ;;;
    ReinsertTxs senders now oldTxs ;;;
    gret (Some tt).
End Reorg.

(** *** locator.go; [any] is the type of untyped JSON values *)

Section Locator.
Context {any : Type} {AJ : JSON any} {VJ : JSON HeightView}.

Definition GetBlockByHeight_any (height : Z) : GoM db_t (found any * string) :=
  let! o := GetHashByHeight height in
  match o with
  | None => gret (NotFound, "")
  | Some h => let! r := get_json_found (A := any) (keyBlockByHash h) in gret (r, h)
  end.

(** [n] hashes have been collected, [room] more fit. *)
Fixpoint locator_loop (room : nat) (n step h : Z) : GoM db_t (list string) :=
  match room with
  | O => gret []
  | S room' =>
      let! r := gtry (GetBlockByHeight_any h) in
      match r with
      | inr (Found _, hashHex) =>
          if h =? 0 then gret [hashHex]
          else
            let step := if 10 <? n + 1 then u64 (step * 2) else step in
            let! rest := locator_loop room' (n + 1) step (if h <? step then 0 else u64 (h - step)) in
            gret (hashHex :: rest)
      | _ => gret []
      end
  end.

Definition BuildBlockLocator (max : Z) : GoM db_t (list string) :=
  let max := if max <=? 0 then 32 else max in
  let! t := GetTip in
  match t with
  | None => gret []
  | Some (tipH, tipHash) =>
      if negb (make_cap_ok max string_size) then gpanic
      else
        let! loc := locator_loop (Z.to_nat max) 0 1 tipH in
        gret (if Nat.eqb (length loc) 0 && negb (tipHash =? "")%string then [tipHash] else loc)
  end.

Fixpoint FindFirstKnown (locator : list string) : GoM db_t (option (string * Z)) :=
  match locator with
  | [] => gret None
  | hh :: rest =>
      let! r := get_json_found (A := HeightView) (keyBlockByHash hh) in
      match r with
      | BadJSON _ e => gerr e
      | Found b => gret (Some (hh, hv_Height b))
      | NotFound => FindFirstKnown rest
      end
  end.
End Locator.
End Forkchoice.
