(* ===== verification/ForkchoiceProps.v ===== *)
(** * Properties of the choice of the main chain *)

From S2P Require Import Prelude GoLang KV Chain Storage StorageProps State StateProps Config Crypto Validate Apply Frame Mempool Forkchoice.

(** ** Chains of stored blocks *)
Section Chains.
Context {L : LevelDB} {HL : LevelDBOk L} {HS : Hashes} {CD : Codecs}.

(** The hash the height index names. *)
Definition main_hash (d : db_t) (h : Z) : option string := db_view d !! keyHashByHeight h.

(** Every entry but the last is the hash of a stored block whose parent is the next one. *)
Fixpoint linked_path (d : db_t) (l : list string) : Prop :=
  match l with
  | a :: l' =>
      match l' with
      | [] => True
      | b :: _ => (exists blk, block_at d a = Some blk /\ Hash_String (PrevHash (Header blk)) = b)
                  /\ linked_path d l'
      end
  | [] => True
  end.

(** [path] is the chain of blocks from [tip] at height [hi] down to height [lo]. *)
Record chain_down (d : db_t) (tip : string) (hi lo : Z) (path : list string) : Prop := {
  cd_length : Z.of_nat (length path) = hi - lo + 1;
  cd_head : head path = Some tip;
  cd_linked : linked_path d path;
}.

Lemma chain_down_one d h lo path : chain_down d h lo lo path <-> path = [h].
Proof.
  split.
  - intros [Hl Hh _]. destruct path as [|x [|y p]]; simpl in *; [lia| |lia]. congruence.
  - intros ->. split; simpl; [lia|done|done].
Qed.

Lemma chain_down_step d h hi lo path : lo < hi ->
  chain_down d h hi lo path <->
  exists blk rest, block_at d h = Some blk /\ path = h :: rest /\
    chain_down d (Hash_String (PrevHash (Header blk))) (hi - 1) lo rest.
Proof.
  intros Hlt. split.
  - intros [Hl Hh Hk]. destruct path as [|x [|y p]]; simpl in Hl; [lia|lia|].
    simpl in Hh. injection Hh as ->. destruct Hk as [(blk & Hb & Hp) Hk].
    exists blk, (y :: p). split_and!; [done|done|]. split; simpl; [lia|congruence|done].
  - intros (blk & rest & Hb & -> & [Hl Hh Hk]). split; [simpl; lia|done|].
    destruct rest as [|y p]; [done|]. simpl in Hh. injection Hh as ->.
    split; [by exists blk|done].
Qed.

(** Reading a block, without any assumption on the store. *)
Lemma try_GetBlockByHash d h : exists r, gtry (GetBlockByHash h) d = (r, d) /\
  forall b, r = Ret (inr (Found b)) <-> block_at d h = Some b.
Proof.
  unfold GetBlockByHash, get_json_found, gtry. erewrite gbind_ret by apply kv_get_ok.
  unfold block_at. destruct (db_view d !! keyBlockByHash h) as [x|]; simpl.
  - destruct (json_unmarshal x); simpl; eexists; (split; [done|]); naive_solver.
  - eexists. split; [done|]. naive_solver.
Qed.

(** The walk finds exactly the chain, and changes nothing. *)
Lemma walk_back_spec d finH c h : 0 <= finH <= Z.of_nat c ->
  exists o, walk_back finH c h d = (o, d) /\
    forall path, o = Ret path <-> chain_down d h (Z.of_nat c) finH path.
Proof.
  revert h. induction c as [|c IH]; intros h Hc.
  { cbn [walk_back]. assert (finH = 0) as -> by lia. cbn. eexists. split; [done|].
    intros path. rewrite chain_down_one. naive_solver. }
  cbn [walk_back]. destruct (Z.eqb_spec (Z.of_nat (S c)) finH) as [He|He].
  { eexists. split; [done|]. intros path. rewrite <- He, chain_down_one. naive_solver. }
  destruct (try_GetBlockByHash d h) as (r & Hr & Hb). unfold gbind at 1. rewrite Hr.
  setoid_rewrite chain_down_step; [|lia].
  replace (Z.of_nat (S c) - 1) with (Z.of_nat c) by lia.
  destruct r as [[e|[|b|b e]]|e|]; try by (eexists; split; [done|]; naive_solver).
  rewrite (proj2 (Z.ltb_ge _ _)) by lia.
  destruct (IH (Hash_String (PrevHash (Header b))) ltac:(lia)) as (o & Ho & Hspec).
  unfold gbind. rewrite Ho. assert (block_at d h = Some b) as Hbb by (by apply Hb).
  destruct o as [rest|e|]; (eexists; split; [reflexivity|]); intros path.
  - split.
    + intros [= <-]. exists b, rest. split_and!; [done|done|]. by apply Hspec.
    + intros (b' & rest' & Hb' & -> & Hd). assert (b' = b) as -> by congruence.
      apply Hspec in Hd. congruence.
  - split; [done|]. intros (b' & rest' & Hb' & -> & Hd). assert (b' = b) as -> by congruence.
    by apply Hspec in Hd.
  - split; [done|]. intros (b' & rest' & Hb' & -> & Hd). assert (b' = b) as -> by congruence.
    by apply Hspec in Hd.
Qed.
End Chains.

(** ** Switching the main chain *)
Section Switch.
Context {L : LevelDB} {HL : LevelDBOk L} {HS : Hashes} {CD : Codecs} {MO : MapOrder} {FS : SnapFiles}.

Lemma keyHashByHeight_inj a b : is_u64 a -> is_u64 b ->
  keyHashByHeight a = keyHashByHeight b -> a = b.
Proof.
  unfold is_u64. intros Ha Hb H%str_app_inj_l. apply be_put_inj in H; [done|simpl; lia..].
Qed.

(** The index entries a list of hashes writes from [height] on. *)
Lemma write_main_run l height d : 0 <= height -> height + Z.of_nat (length l) <= M64 ->
  exists d', write_main height l d = (Ret tt, d') /\
    (forall h, is_u64 h -> main_hash d' h =
       if (height <=? h) && (h <? height + Z.of_nat (length l)) then l !! Z.to_nat (h - height)
       else main_hash d h) /\
    (forall k, (forall h, k <> keyHashByHeight h) -> db_view d' !! k = db_view d !! k).
Proof.
  revert height d. induction l as [|x l IH]; intros height d H0 Hm; cbn [write_main length] in *.
  { exists d. split_and!; [done| |done]. intros h Hh.
    rewrite Z.add_0_r. destruct (Z.leb_spec height h), (Z.ltb_spec h height); done || lia. }
  unfold PutHashByHeightOverwrite.
  erewrite gbind_ret by (eapply gignore_ret, db_put_ok).
  destruct l as [|y l]; cbn [length] in *.
  - exists (db_ins (keyHashByHeight height) x d). split_and!; [done| |].
    + intros h Hh. unfold main_hash. rewrite db_view_ins.
      destruct (Z.leb_spec height h), (Z.ltb_spec h (height + Z.of_nat 1)); cbn [andb];
        [|rewrite lookup_insert_ne; [done|]; intros E%keyHashByHeight_inj; unfold is_u64 in *; simpl in *; lia..].
      assert (h = height) as -> by lia. by rewrite Z.sub_diag, lookup_insert_eq.
    + intros k Hk. rewrite db_view_ins, lookup_insert_ne; [done|]. intros E. by eapply Hk.
  - rewrite u64_id by (unfold is_u64; simpl in Hm; lia).
    destruct (IH (height + 1) (db_ins (keyHashByHeight height) x d)) as (d' & Hr & Hi & Hf);
      [lia|simpl in *; lia|].
    exists d'. split_and!; [done| |].
    + intros h Hh. rewrite Hi by done. unfold main_hash. rewrite db_view_ins.
      destruct (Z.eq_dec h height) as [->|Hne].
      * destruct (Z.leb_spec (height + 1) height); [lia|]. cbn [andb].
        rewrite Z.leb_refl, (proj2 (Z.ltb_lt _ _)) by (simpl; lia). cbn [andb].
        by rewrite Z.sub_diag, lookup_insert_eq.
      * rewrite lookup_insert_ne by
          (intros E%keyHashByHeight_inj; unfold is_u64 in *; simpl in *; lia).
        rewrite !Nat2Z.inj_succ in *.
        destruct (Z.leb_spec (height + 1) h), (Z.leb_spec height h),
          (Z.ltb_spec h (height + 1 + Z.succ (Z.of_nat (length l)))),
          (Z.ltb_spec h (height + Z.succ (Z.succ (Z.of_nat (length l))))); cbn [andb];
          try lia; try done.
        replace (Z.to_nat (h - height)) with (S (Z.to_nat (h - (height + 1)))) by lia. done.
    + intros k Hk. rewrite Hf by done. rewrite db_view_ins, lookup_insert_ne; [done|].
      intros E. by eapply Hk.
Qed.

Lemma SetTip_run h x d : exists d', SetTip h x d = (Ret tt, d') /\
  db_view d' = <[keyTipBlockID := x]> (<[keyTipHeight := json_u64_marshal h]> (db_view d)).
Proof.
  unfold SetTip, PutTip. erewrite gbind_ret by apply db_put_ok. rewrite db_put_ok.
  eexists. split; [done|]. by rewrite !db_view_ins.
Qed.

Lemma GetTip_stored d h x : is_u64 h ->
  db_view d !! keyTipHeight = Some (json_u64_marshal h) ->
  db_view d !! keyTipBlockID = Some x -> GetTip d = (Ret (Some (h, x)), d).
Proof.
  intros Hh H1 H2. unfold GetTip. erewrite gbind_ret by apply kv_get_ok. rewrite H1.
  rewrite json_u64_round_trip by done. erewrite gbind_ret by done.
  erewrite gbind_ret by apply kv_get_ok. by rewrite H2.
Qed.

(** The anchor depends on the finalized entries, the index of height 0 and that block. *)
Lemma switch_anchor_agree d d' finH finHash :
  (forall k, k = keyFinalizedHeight \/ k = keyFinalizedHash_meta -> db_view d' !! k = db_view d !! k) ->
  (forall x, db_view d' !! keyBlockByHash x = db_view d !! keyBlockByHash x) ->
  switch_anchor d = (Ret (finH, finHash), d) ->
  (finH = 0 -> main_hash d' 0 = Some finHash) ->
  switch_anchor d' = (Ret (finH, finHash), d').
Proof.
  intros Hk Hb Ha H0. revert Ha. unfold switch_anchor, GetFinalized, gbind.
  rewrite !kv_get_ok, (Hk keyFinalizedHeight) by tauto.
  destruct (db_view d !! keyFinalizedHeight) as [hb|]; cbn.
  { destruct (json_u64_unmarshal hb) as [v|e|]; cbn; [|done..].
    rewrite !db_get_ok, (Hk keyFinalizedHash_meta) by tauto. cbn.
    destruct (db_view d !! keyFinalizedHash_meta); cbn; [|done]. intros [= -> ->]. done. }
  unfold gtry, GetBlockByHeight, GetHashByHeight, GetBlockByHash, get_json_found, gbind, main_hash in *.
  rewrite !kv_get_ok. destruct (db_view d !! keyHashByHeight 0) as [g|] eqn:Hg; cbn; [|done].
  rewrite !db_get_ok. destruct (db_view d !! keyBlockByHash g) as [x|] eqn:Hx; cbn; [|done].
  intros Ha. assert (finH = 0 /\ finHash = g) as [-> ->]
    by (destruct (json_unmarshal (A := Block) x); unfold gret in Ha; cbn in Ha; simplify_eq; done).
  rewrite (H0 eq_refl). cbn. rewrite db_get_ok, Hb, Hx.
  destruct (json_unmarshal (A := Block) x); simplify_eq/=; done.
Qed.

Lemma switch_index_spec d newHash newH finH finHash :
  is_u64 newH -> 0 <= finH <= newH -> newH - finH < 2 ^ 44 ->
  switch_anchor d = (Ret (finH, finHash), d) ->
  (exists path d', chain_down d newHash newH finH path /\ last path = Some finHash /\
     switch_index newHash newH d = (Ret tt, d') /\
     (forall h, is_u64 h -> main_hash d' h =
        if (finH <=? h) && (h <=? newH) then path !! Z.to_nat (newH - h) else main_hash d h) /\
     db_view d' !! keyTipHeight = Some (json_u64_marshal newH) /\
     db_view d' !! keyTipBlockID = Some newHash /\
     (forall k, k <> keyTipHeight -> k <> keyTipBlockID -> (forall h, k <> keyHashByHeight h) ->
        db_view d' !! k = db_view d !! k)) \/
  ((forall path, chain_down d newHash newH finH path -> last path <> Some finHash) /\
   exists o, switch_index newHash newH d = (o, d) /\ is_ret o = false).
Proof.
  unfold is_u64. intros Hn Hf Hcap Ha. unfold switch_index. erewrite gbind_ret by exact Ha.
  cbv beta iota.
  assert (make_cap_ok (i64 (i64 (u64 (newH - finH)) + 1)) string_size = true) as ->.
  { rewrite u64_id, (i64_id (newH - finH)), i64_id by (unfold is_u64, is_i64; lia). unfold make_cap_ok, string_size.
    apply andb_true_intro. split; [lia|]. apply Z.leb_le. lia. }
  cbn [negb]. destruct (walk_back_spec d finH (Z.to_nat newH) newHash ltac:(lia)) as (o & Ho & Hspec).
  rewrite Z2Nat.id in Hspec by lia.
  destruct o as [path|e|];
    [|right; split; [intros p Hp%Hspec; done|unfold gbind; rewrite Ho; eexists; split; reflexivity]..].
  erewrite gbind_ret by exact Ho.
  pose proof (proj1 (Hspec path) eq_refl) as Hcd. pose proof (cd_length _ _ _ _ _ Hcd) as Hl.
  destruct (last path) as [x|] eqn:Hlast;
    [|destruct path; [simpl in Hl; lia|by apply last_None in Hlast]].
  change (default "" (Some x)) with x. destruct (String.eqb_spec x finHash) as [->|Hne]; cbn [negb].
  - left. destruct (write_main_run (rev path) finH d ltac:(lia)) as (d1 & Hr & Hi & Hfr).
    { rewrite length_rev, Hl. lia. }
    destruct (SetTip_run newH newHash d1) as (d2 & Ht & Hv).
    exists path, d2. split_and!; [done..| | | | |].
    + erewrite gbind_ret by exact Hr. by erewrite gignore_ret.
    + intros h Hh. unfold main_hash. rewrite Hv, !lookup_insert_ne by done.
      change (db_view d1 !! keyHashByHeight h) with (main_hash d1 h).
      rewrite Hi by done. rewrite length_rev, Hl.
      destruct (Z.leb_spec finH h), (Z.leb_spec h newH), (Z.ltb_spec h (finH + (newH - finH + 1)));
        cbn [andb]; try lia; try done.
      rewrite rev_alt. change (rev_append path []) with (reverse path). rewrite reverse_lookup by lia. f_equal. lia.
    + rewrite Hv, lookup_insert_ne by done. apply lookup_insert_eq.
    + rewrite Hv. apply lookup_insert_eq.
    + intros k K1 K2 K3. rewrite Hv, !lookup_insert_ne by done. by apply Hfr.
  - right. split; [|eexists; split; reflexivity]. intros p Hp%Hspec. simplify_eq. congruence.
Qed.
(** C3. A switch of the main chain never crosses the finalized block.  Either the candidate
    is a chain of stored blocks down to the finalized anchor, and then afterwards the height
    index names exactly that chain from the anchor up and what it named before everywhere
    else, the tip is the new one and the anchor is unchanged; or it is not, and then the
    call fails and neither the store nor the files change. *)
Theorem trySwitchMainChain_finalized cfg g b_Height feeSum newHash newH finH finHash d f :
  is_u64 newH -> 0 <= finH <= newH -> newH - finH < 2 ^ 44 ->
  switch_anchor d = (Ret (finH, finHash), d) ->
  let '(o, (d', f')) := trySwitchMainChain cfg g b_Height feeSum newHash newH (d, f) in
  (exists path, chain_down d newHash newH finH path /\ last path = Some finHash /\
     (forall e, o <> Err e) /\
     (forall h, is_u64 h -> main_hash d' h =
        if (finH <=? h) && (h <=? newH) then path !! Z.to_nat (newH - h) else main_hash d h) /\
     GetTip d' = (Ret (Some (newH, newHash)), d') /\
     switch_anchor d' = (Ret (finH, finHash), d')) \/
  ((forall path, chain_down d newHash newH finH path -> last path <> Some finHash) /\
   is_ret o = false /\ d' = d /\ f' = f).
Proof.
  intros Hn Hf Hcap Ha. unfold trySwitchMainChain, gbind, on_db, gzoom. cbn [fst snd].
  destruct (switch_index_spec d newHash newH finH finHash Hn Hf Hcap Ha)
    as [(path & d1 & Hcd & Hlast & -> & Hmain & Ht & Hid & Hfr)|(Hno & o & -> & Ho)].
  2: { destruct o; [done|cbn; right; done..]. }
  pose proof (keeps_rebuild cfg g b_Height feeSum (d1, f)) as Hk. unfold gignore.
  destruct (rebuildStateFromFinalized cfg g b_Height feeSum (d1, f)) as [o [d2 f2]].
  assert (forall k, no_apply_key k -> db_view d2 !! k = db_view d1 !! k) as Hk' by exact Hk. clear Hk.
  assert (main_hash d2 0 = main_hash d1 0) as H0 by (by apply Hk').
  destruct o; cbn [fst snd]; left; exists path; (split_and!; [done|done|done| | |]).
  all: try by (intros h Hh; unfold main_hash; rewrite Hk' by done; by apply Hmain).
  all: try by (apply GetTip_stored; [done|rewrite Hk' by done; done..]).
  all: apply (switch_anchor_agree d); [| |done|].
  all: try by (intros k [->| ->]; rewrite Hk' by done; by apply Hfr).
  all: try by (intros x; rewrite Hk' by done; by apply Hfr).
  all: intros ->; rewrite H0, Hmain by done; rewrite (proj2 (Z.leb_le 0 newH)) by lia; cbn [andb Z.leb Z.compare];
    rewrite <- Hlast, last_lookup; f_equal; pose proof (cd_length _ _ _ _ _ Hcd); lia.
Qed.
(** A branch whose tip lies more than one block below the finalized height makes the
    attempt to switch to it panic, whatever the hashes: the length of the path is computed
    before the heights are compared. *)
Theorem low_branch_panics cfg g b_Height feeSum newHash newH finH finHash d f :
  switch_anchor d = (Ret (finH, finHash), d) -> 0 <= newH -> newH + 1 < finH -> finH < M63 ->
  trySwitchMainChain cfg g b_Height feeSum newHash newH (d, f) = (Panic, (d, f)).
Proof.
  intros Ha H0 Hlow Hf. unfold trySwitchMainChain, switch_index, on_db, gzoom. unfold gbind at 1. cbn [fst snd].
  erewrite gbind_ret by exact Ha.
  cbv beta iota. rewrite i64_u64, i64_add_l, i64_id by (unfold is_i64; lia).
  unfold make_cap_ok. rewrite (proj2 (Z.leb_gt 0 _)) by lia. done.
Qed.
End Switch.

(** ** Reorganisations and the finalized height *)
Section Reorganise.
Context {L : LevelDB} {HL : LevelDBOk L} {HS : Hashes} {CD : Codecs} {MO : MapOrder} {FS : SnapFiles}.

Lemma found_block_main d h : linked d -> is_u64 h ->
  GetBlockByHeight h d =
    (Ret (match main_hash d h with
          | None => (NotFound, "")
          | Some x => (match block_at d x with Some b => Found b | None => NotFound end, x)
          end), d).
Proof.
  intros Hl Hh. unfold GetBlockByHeight, GetHashByHeight, main_hash.
  erewrite gbind_ret by apply kv_get_ok. destruct (db_view d !! keyHashByHeight h); [|done].
  by erewrite gbind_ret by (by apply GetBlockByHash_run).
Qed.

(** The main-chain block at a height. *)
Definition main_block (d : db_t) (h : Z) : option Block := main_hash d h ≫= block_at d.

Lemma ancestor_unique d h a1 a2 : linked d -> ancestor d h a1 -> ancestor d h a2 ->
  Height (Header a1) = Height (Header a2) -> a1 = a2.
Proof.
  intros Hl H1. revert a2. induction H1 as [h b Hb|h b a Hb Ha IH]; intros a2 H2 He.
  - destruct (ancestor_height d h a2 Hl H2 b Hb); [done|lia].
  - inversion H2 as [? b' Hb'|? b' ? Hb' Ha']; subst.
    + destruct (ancestor_height d h a Hl (anc_up _ _ _ _ Hb Ha) a2 Hb'); [done|lia].
    + apply IH; [|done]. by assert (b' = b) as -> by congruence.
Qed.

Lemma enforceFinalized_run d tip b finH mainB fuel :
  linked d -> cell_ok (db_view d) keyFinalized -> cell (db_view d) keyFinalized = finH -> 0 < finH ->
  main_block d finH = Some mainB -> block_at d tip = Some b ->
  (Z.to_nat (Height (Header b)) < fuel)%nat ->
  enforceFinalizedOnCandidate fuel tip d = (Ret (Some tt), d) /\
    (forall a, ancestor d tip a -> Height (Header a) = finH ->
       Hash_String (BlockHash a) = Hash_String (BlockHash mainB)) \/
  enforceFinalizedOnCandidate fuel tip d = (Err "violates_finalized", d) /\
    (exists a, ancestor d tip a /\ Height (Header a) = finH /\
       Hash_String (BlockHash a) <> Hash_String (BlockHash mainB)).
Proof.
  intros Hl Hc Hcell Hpos Hmain Hb Hfuel. pose proof (cell_range _ _ Hc) as Hr. rewrite Hcell in Hr.
  unfold enforceFinalizedOnCandidate, GetFinalizedHeight.
  erewrite gbind_ret by (by apply gignore_ret, get_be64_len8_run).
  assert (default 0 (option_map be_get (db_view d !! keyFinalized)) = finH) as ->
    by (rewrite <- Hcell; unfold cell; by destruct (db_view d !! keyFinalized)).
  rewrite (proj2 (Z.eqb_neq _ _)) by lia.
  erewrite gbind_ret by (by apply gignore_ret, found_block_main).
  unfold main_block in Hmain. destruct (main_hash d finH) as [x|]; [|done]. simpl in Hmain.
  rewrite Hmain. cbn [fst found_ok].
  destruct (GetAncestorHashAtHeight_total d tip b finH fuel Hl Hb ltac:(lia) Hfuel) as (r & Hrun & Hspec).
  erewrite gbind_ret by (by apply gignore_ret). destruct r as [ch|].
  - destruct (proj1 (Hspec ch) eq_refl) as (a & Ha & Hah & ->).
    destruct (String.eqb_spec (Hash_String (BlockHash a)) (Hash_String (BlockHash mainB))) as [E|E]; cbn [negb].
    + left. split; [done|]. intros a' Ha' Hh'. rewrite <- E. do 2 f_equal.
      apply (ancestor_unique d tip); [done..|congruence].
    + right. split; [done|]. eauto.
  - left. split; [done|]. intros a Ha Hh.
    assert (@None string = Some (Hash_String (BlockHash a))) by (apply Hspec; eauto). done.
Qed.

(** C21. A reorganisation is refused, and nothing changes, when the chain of stored blocks
    under the best header has at the finalized height another block than the main chain;
    whatever the functions the package calls without declaring them do. *)
Theorem Reorg_refuses_other_finalized ApplyBlock rs_SetBalance findForkPointCached cfg g senders now
    fuel d f mp curH curHash hH hHash b mainB a finH :
  linked d -> cell_ok (db_view d) keyFinalized -> cell (db_view d) keyFinalized = finH -> 0 < finH ->
  main_block d finH = Some mainB -> block_at d hHash = Some b ->
  (Z.to_nat (Height (Header b)) < fuel)%nat ->
  GetTip d = (Ret (Some (curH, curHash)), d) -> GetHeaderTip d = (Ret (Some (hH, hHash)), d) ->
  hHash <> "" -> curHash <> hHash ->
  ancestor d hHash a -> Height (Header a) = finH ->
  Hash_String (BlockHash a) <> Hash_String (BlockHash mainB) ->
  ReorgToBestHeaderChain ApplyBlock rs_SetBalance cfg g fuel findForkPointCached senders now (d, f, mp)
    = (Err "violates_finalized", (d, f, mp)).
Proof.
  intros Hl Hc Hcell Hpos Hmain Hb Hfuel Ht Hht Hne1 Hne2 Ha Hah Hbad.
  unfold ReorgToBestHeaderChain, on_chain, on_db.
  erewrite gbind_ret by (apply gignore_ret; unfold gzoom; cbn [fst snd]; rewrite Ht; reflexivity). cbn [default id].
  erewrite gbind_ret by (apply gignore_ret; unfold gzoom; cbn [fst snd]; rewrite Hht; reflexivity). cbn [default id].
  rewrite (proj2 (String.eqb_neq _ _) Hne1), (proj2 (String.eqb_neq _ _) Hne2), andb_false_r.
  destruct (enforceFinalized_run d hHash b finH mainB fuel Hl Hc Hcell Hpos Hmain Hb Hfuel)
    as [[_ Hall]|[Hrun _]]; [by apply Hall in Ha|].
  eapply gbind_err. unfold gzoom. cbn [fst snd]. by rewrite Hrun.
Qed.
End Reorganise.

(** ** Block locators *)

(** The heights [BuildBlockLocator] visits. *)
Fixpoint locator_heights (room : nat) (n step h : Z) : list Z :=
  match room with
  | O => []
  | S room' =>
      h :: if h =? 0 then []
           else let step := if 10 <? n + 1 then u64 (step * 2) else step in
                locator_heights room' (n + 1) step (if h <? step then 0 else u64 (h - step))
  end.

(** Doubling never wraps around: with 11 entries taken the step is 2^k and at least as much
    as the doubled step has been walked. *)
Definition locator_inv (n k h : Z) : Prop :=
  0 <= k /\ 0 <= h /\ ((n < 10 /\ k = 0 /\ h + n < M64) \/ (10 <= n /\ h + 2 * 2 ^ k <= M64)).

Lemma locator_step n k h : 0 <= n -> locator_inv n k h -> 0 < h ->
  exists k', (if 10 <? n + 1 then u64 (2 ^ k * 2) else 2 ^ k) = 2 ^ k' /\ 1 <= 2 ^ k' /\
    k' = (if 10 <? n + 1 then k + 1 else k) /\ k' < 64 /\
    locator_inv (n + 1) k' (if h <? 2 ^ k' then 0 else u64 (h - 2 ^ k')) /\
    (if h <? 2 ^ k' then 0 else u64 (h - 2 ^ k')) < h.
Proof.
  unfold locator_inv. intros Hn (Hk & Hh & Hi) Hpos.
  destruct (Z.ltb_spec 10 (n + 1)).
  - destruct Hi as [|[_ Hi]]; [lia|]. exists (k + 1).
    assert (2 ^ (k + 1) = 2 ^ k * 2) as E by (rewrite Z.pow_add_r by lia; lia).
    assert (2 ^ k < 2 ^ 63) as Hlt by lia.
    assert (k < 63) by (by apply Z.pow_lt_mono_r_iff in Hlt; lia).
    pose proof (Z.pow_pos_nonneg 2 k ltac:(lia) Hk) as Hp.
    rewrite u64_id, <- E by (unfold is_u64; lia).
    destruct (Z.ltb_spec h (2 ^ (k + 1))); split_and!; try lia.
    + assert (2 ^ (k + 1) <= 2 ^ 63) by (apply Z.pow_le_mono_r; lia). right. split; [lia|].
      change M64 with (2 * 2 ^ 63). lia.
    + rewrite u64_id by (unfold is_u64; lia). lia.
    + rewrite u64_id by (unfold is_u64; lia). right. split; lia.
    + rewrite u64_id by (unfold is_u64; lia). lia.
  - destruct Hi as [(H1 & -> & H3)|[H1 _]]; [|lia]. exists 0. change (2 ^ 0) with 1.
    rewrite (proj2 (Z.ltb_ge h 1)), u64_id by (unfold is_u64; lia).
    split_and!; try lia.
Qed.

Lemma locator_heights_desc room n k h : 0 <= n -> locator_inv n k h ->
  StronglySorted (fun a b => b < a) (locator_heights room n (2 ^ k) h) /\
  Forall (fun x => 0 <= x <= h) (locator_heights room n (2 ^ k) h).
Proof.
  revert n k h. induction room as [|room IH]; intros n k h Hn Hi; cbn [locator_heights].
  { by split; constructor. }
  pose proof Hi as (_ & Hh & _).
  destruct (Z.eqb_spec h 0) as [->|Hne]; [split; repeat constructor; lia|].
  destruct (locator_step n k h Hn Hi ltac:(lia)) as (k' & -> & _ & _ & _ & Hi' & Hlt).
  pose proof Hi' as (_ & Hh' & _).
  destruct (IH (n + 1) k' _ ltac:(lia) Hi') as [Hs Hf]. split; constructor; try done; try lia.
  - eapply Forall_impl; [exact Hf|]. cbv beta. lia.
  - eapply Forall_impl; [exact Hf|]. cbv beta. lia.
Qed.

Lemma locator_heights_last room n k h : 0 <= n -> locator_inv n k h -> k < 64 ->
  (if n <? 10 then 75 - n else 65 - k) < Z.of_nat room ->
  last (locator_heights room n (2 ^ k) h) = Some 0.
Proof.
  revert n k h. induction room as [|room IH]; intros n k h Hn Hi Hk Hroom.
  { destruct (Z.ltb_spec n 10); simpl in Hroom; lia. }
  cbn [locator_heights]. destruct (Z.eqb_spec h 0) as [->|Hne]; [done|].
  pose proof Hi as (Hk0 & Hh & _).
  destruct (locator_step n k h Hn Hi ltac:(lia)) as (k' & -> & _ & Hk' & Hk64 & Hi' & Hlt).
  rewrite last_cons, (IH (n + 1) k'); [done|lia|done|lia|].
  rewrite Nat2Z.inj_succ in Hroom. subst k'.
  destruct (Z.ltb_spec n 10), (Z.ltb_spec (n + 1) 10), (Z.ltb_spec 10 (n + 1)); try lia.
Qed.

Section Locators.
Context {L : LevelDB} {HL : LevelDBOk L} {HS : Hashes} {CD : Codecs}.
Context {any : Type} {AJ : JSON any}.

(** A well-formed block is stored for the main-chain height. *)
Definition readable_at (d : db_t) (h : Z) : Prop :=
  exists x b v, main_hash d h = Some x /\ db_view d !! keyBlockByHash x = Some b /\
    json_unmarshal (A := any) b = Ret v.

Lemma locator_loop_run d room n step h :
  Forall (readable_at d) (locator_heights room n step h) ->
  exists loc, locator_loop room n step h d = (Ret loc, d) /\
    Forall2 (fun h x => main_hash d h = Some x) (locator_heights room n step h) loc.
Proof.
  revert n step h. induction room as [|room IH]; intros n step h Hall; cbn [locator_heights locator_loop] in *.
  { by exists []. }
  inversion Hall as [|? ? (x & b & v & Hx & Hb & Hv) Hrest]; subst.
  assert (gtry (GetBlockByHeight_any (any := any) h) d = (Ret (inr (Found v, x)), d)) as Hget.
  { apply gtry_ret. unfold GetBlockByHeight_any, GetHashByHeight, main_hash, get_json_found in *.
    erewrite gbind_ret by apply kv_get_ok. rewrite Hx.
    erewrite gbind_ret; [reflexivity|]. erewrite gbind_ret by apply kv_get_ok. by rewrite Hb, Hv. }
  erewrite gbind_ret by exact Hget. destruct (h =? 0).
  - exists [x]. split; [done|]. by repeat constructor.
  - destruct (IH _ _ _ Hrest) as (loc & Hrun & Hf). exists (x :: loc). split.
    + by erewrite gbind_ret by exact Hrun.
    + by constructor.
Qed.

(** C36. Over a complete main chain the block locator lists main-chain hashes at strictly
    decreasing heights starting with the tip, at most as many as asked for, and when 76
    entries are allowed it always ends in genesis: the doubling of the step never wraps
    around, whatever the height. *)
Theorem BuildBlockLocator_spec d tipH tipHash max : is_u64 tipH -> 0 < max < 2 ^ 44 ->
  GetTip d = (Ret (Some (tipH, tipHash)), d) -> (forall h, 0 <= h <= tipH -> readable_at d h) ->
  exists hs loc, BuildBlockLocator (any := any) max d = (Ret loc, d) /\
    Forall2 (fun h x => main_hash d h = Some x) hs loc /\ Z.of_nat (length loc) <= max /\
    head hs = Some tipH /\ StronglySorted (fun a b => b < a) hs /\
    (76 <= max -> last hs = Some 0).
Proof.
  unfold is_u64. intros Ht Hm Htip Hall.
  assert (locator_inv 0 0 tipH) as Hi by (unfold locator_inv; lia).
  destruct (locator_heights_desc (Z.to_nat max) 0 0 tipH ltac:(lia) Hi) as [Hs Hf].
  change (2 ^ 0) with 1 in *.
  destruct (locator_loop_run d (Z.to_nat max) 0 1 tipH) as (loc & Hrun & H2).
  { eapply Forall_impl; [exact Hf|]. auto. }
  exists (locator_heights (Z.to_nat max) 0 1 tipH), loc.
  assert (forall room n step h, (length (locator_heights room n step h) <= room)%nat) as Hlen.
  { induction room; intros; cbn [locator_heights length]; [lia|]. case_goal; cbn [length]; [lia|].
    specialize (IHroom (n + 1)). apply le_n_S, IHroom. }
  specialize (Hlen (Z.to_nat max) 0 1 tipH). pose proof (Forall2_length _ _ _ H2) as Hl.
  assert (head (locator_heights (Z.to_nat max) 0 1 tipH) = Some tipH) as Hh
    by (destruct (Z.to_nat max) eqn:E; [lia|done]).
  split_and!; [|done|lia|done|done|].
  - unfold BuildBlockLocator. rewrite (proj2 (Z.leb_gt max 0)) by lia.
    erewrite gbind_ret by exact Htip.
    assert (make_cap_ok max string_size = true) as ->
      by (unfold make_cap_ok, string_size; apply andb_true_intro; split; [lia|apply Z.leb_le; lia]).
    cbn [negb]. erewrite gbind_ret by exact Hrun.
    destruct loc as [|x loc]; [|done].
    destruct (locator_heights (Z.to_nat max) 0 1 tipH); done.
  - intros H76. change 1 with (2 ^ 0). apply locator_heights_last; [lia|done|lia|]. simpl. lia.
Qed.
End Locators.
