(* ===== verification/Finality.v ===== *)
(** * Finality: core/consensus/finality/pos.go, core/node/finality_weighted.go,
    finality_gossip.go, and the finality part of node.go

    The node's finality settings are the record [FinNode].  [time.Now().Unix()] is the
    argument [now].  [reservestorage.ListVotes], which [TryFinalizeHeight] calls and the
    package does not declare, is an argument; so are the answers of peers.  What is posted to
    peers is returned.  [finality.Checkpoint] has no field [BlockHash]; the literal that sets
    it is read as setting [HashHex].  [ingestVote] assigns to an undeclared [val]; it is read
    as a pointer that is nil at first. *)

From S2P Require Import Prelude GoLang KV Chain Storage Config Crypto.

(** ** pos.go *)

(** [finality.Validator] has the fields of the configured one. *)
Notation FValidator := FinalityValidator (only parsing).

Section Pos.
Context {HS : Hashes} {ED : Ed25519}.

(** What is hashed, and the hash. *)
Definition vote_text (chainID : string) (height : Z) (blockHash : string) : string :=
  "ReserveOS:PoSFinality:v1|" +:+ chainID +:+ "|" +:+ FormatUint height +:+ "|" +:+ blockHash.
Definition VoteMessage (chainID : string) (height : Z) (blockHash : string) : string :=
  sha256 (vote_text chainID height blockHash).

(** [ed25519.Sign] panics on a private key of the wrong size. *)
Definition SignVote (priv chainID : string) (height : Z) (blockHash : string) : outcome string :=
  if negb (Nat.eqb (String.length priv) 64) then Panic
  else Ret (hex_EncodeToString (ed_Sign priv (VoteMessage chainID height blockHash))).

Definition VerifyVote (pub sigHex chainID : string) (height : Z) (blockHash : string) : bool :=
  match hex_DecodeString sigHex with
  | Ret sig => if negb (Nat.eqb (String.length sig) 64) then false
               else ed_Verify pub (VoteMessage chainID height blockHash) sig
  | _ => false
  end.

Definition ParsePriv (privHex : string) : outcome string :=
  olet b := hex_DecodeString privHex in
  if negb (Nat.eqb (String.length b) 64) then Err "bad ed25519 priv size" else Ret b.

Definition ParsePub (pubHex : string) : outcome string :=
  olet b := hex_DecodeString pubHex in
  if negb (Nat.eqb (String.length b) 32) then Err "bad ed25519 pub size" else Ret b.

(** [V] is the state of the key vault, [get] and [set] its accesses, [gen] the outcome of
    [ed25519.GenerateKey]. *)
Definition EnsureLocalValidatorKey {V} (get : string -> GoM V (option string))
    (set : string -> string -> GoM V unit) (gen : outcome (string * string))
    : GoM V (string * string) :=
  let create :=
    let! (pub, priv) := glift gen in
    let pubHex := hex_EncodeToString pub in
    let privHex := hex_EncodeToString priv in
    set "pos.ed25519_pub" pubHex ;;;
    set "pos.ed25519_priv" privHex ;;;
    gret (pubHex, privHex) in
  let! p := get "pos.ed25519_pub" in
  match p with
  | Some p =>
      let! s := get "pos.ed25519_priv" in
      match s with Some s => gret (p, s) | None => create end
  | None => create
  end.

Definition TotalWeight (vs : list FValidator) : Z :=
  fold_left (fun t v => i64 (t + fv_Weight v)) vs 0.

Definition ReachedThreshold (sum total num den : Z) : bool :=
  if total <=? 0 then false else i64 (total * num) <=? i64 (sum * den).
End Pos.

(** [itoaU] of finality_gossip.go. *)
Definition itoaU (v : Z) : string :=
  if v =? 0 then "0" else list_str (rev (digits_rev 20 v)).

(** ** The node *)

Record FinNode := {
  finalityEnabled : bool; checkpointInterval : Z; thresholdNum : Z; thresholdDen : Z;
  validators : list FValidator; localPubHex : string; localPrivHex : string }.

(** The finality part of [Start]: the configuration completed from genesis. *)
Definition finality_config (cfg : Config) (g : Genesis) : FinalityConfig :=
  let fc := c_Finality cfg in
  let vals := if Nat.eqb (length (fc_Validators fc)) 0
              then List.map (fun gv => {| fv_Name := gv_Name gv; fv_PubkeyHex := gv_PubkeyHex gv;
                                          fv_Weight := gv_Weight gv |}) (g_Validators g)
              else fc_Validators fc in
  let inherit x dx := match g_Finality g with Some gf => if x =? 0 then dx gf else x | None => x end in
  {| fc_Enabled := fc_Enabled fc;
     fc_CheckpointInterval := inherit (fc_CheckpointInterval fc) gf_CheckpointInterval;
     fc_ThresholdNum := inherit (fc_ThresholdNum fc) gf_ThresholdNum;
     fc_ThresholdDen := inherit (fc_ThresholdDen fc) gf_ThresholdDen;
     fc_Validators := vals; fc_Peers := fc_Peers fc;
     fc_GossipIntervalSeconds := fc_GossipIntervalSeconds fc |}.

Definition start_validator (localPub : string) (v : FinalityValidator) : FValidator :=
  {| fv_Name := fv_Name v;
     fv_PubkeyHex := if ((fv_PubkeyHex v =? "AUTO_FROM_KEYVAULT") || (fv_PubkeyHex v =? ""))%string
                     then localPub else fv_PubkeyHex v;
     fv_Weight := if fv_Weight v =? 0 then 1 else fv_Weight v |}.

Definition start_finality {V} (get : string -> GoM V (option string))
    (set : string -> string -> GoM V unit) (gen : outcome (string * string))
    (cfg : Config) (g : Genesis) : GoM V FinNode :=
  let fc := finality_config cfg g in
  let node vals pub priv :=
    {| finalityEnabled := fc_Enabled fc; checkpointInterval := fc_CheckpointInterval fc;
       thresholdNum := fc_ThresholdNum fc; thresholdDen := fc_ThresholdDen fc;
       validators := vals; localPubHex := pub; localPrivHex := priv |} in
  if fc_Enabled fc then
    let! r := gtry (EnsureLocalValidatorKey get set gen) in
    match r with
    | inl e => gerr ("finality key: " +:+ e)
    | inr (pub, priv) => gret (node (List.map (start_validator pub) (fc_Validators fc)) pub priv)
    end
  else gret (node [] "" "").

Section Node.
Context {L : LevelDB} {HS : Hashes} {CD : Codecs} {ED : Ed25519} {MO : MapOrder}.
Context (n : FinNode) (cfg : Config) (genesis : Genesis).

Definition isReadOnly : bool :=
  if nc_ReadOnly (c_Node cfg) then true
  else if (nc_Role (c_Node cfg) =? "observer")%string then true else false.

Definition isLocalValidator : bool :=
  existsb (fun v => (fv_PubkeyHex v =? localPubHex n)%string) (validators n).

(** *** tryFinalizeHeight *)

(** The bodies of the inner loops; the accumulator is [(total, signed)]. *)
Definition registry_step (hashHex : string) (height : Z) (vr : VoteRecord) (acc : Z * Z)
    (v : Validator) : Z * Z :=
  let '(total, signed) := acc in
  if va_Slashed v then (total, signed)
  else
    let total := i64 (total + va_Weight v) in
    if negb (va_PubkeyHex v =? vr_PubkeyHex vr)%string then (total, signed)
    else match ParsePub (va_PubkeyHex v) with
         | Ret pub =>
             if VerifyVote pub (vr_SigHex vr) (g_ChainID genesis) height hashHex
             then (total, i64 (signed + va_Weight v)) else (total, signed)
         | _ => (total, signed)
         end.

Definition tally_registry (hashHex : string) (height : Z) (valsReg : list Validator)
    (vr : VoteRecord) (acc : Z * Z) : Z * Z :=
  fold_left (registry_step hashHex height vr) valsReg acc.

Definition tally_config (hashHex : string) (height : Z) (vr : VoteRecord) (acc : Z * Z) : Z * Z :=
  fold_left (fun '(total, signed) v =>
    if negb (fv_PubkeyHex v =? vr_PubkeyHex vr)%string then (total, signed)
    else match ParsePub (fv_PubkeyHex v) with
         | Ret pub =>
             if VerifyVote pub (vr_SigHex vr) (g_ChainID genesis) height hashHex
             then (total, i64 (signed + fv_Weight v)) else (total, signed)
         | _ => (total, signed)
         end) (validators n) (TotalWeight (validators n), acc.2).

Definition tally_votes (hashHex : string) (height : Z) (reg : option (list Validator))
    (votes : list VoteRecord) : Z * Z :=
  fold_left (fun acc vr =>
    if negb (vr_BlockHash vr =? hashHex)%string || negb (vr_ChainID vr =? g_ChainID genesis)%string
    then acc
    else match reg with
         | Some valsReg => tally_registry hashHex height valsReg vr acc
         | None => tally_config hashHex height vr acc
         end) votes (0, 0).

Definition tryFinalizeHeight (now height : Z) (hashHex : string) : GoM db_t unit :=
  let! votes := ListVotesForHeight height in
  let! vals := gtry (ListValidators 5000) in
  let reg := match vals with
             | inr l => if Nat.eqb (length l) 0 then None else Some l
             | inl _ => None
             end in
  let '(total, signed) := tally_votes hashHex height reg votes in
  if total =? 0 then gret tt
  else if ReachedThreshold signed total (thresholdNum n) (thresholdDen n) then
    gignore tt (PutFinalized height hashHex) ;;;
    gignore tt (PutCheckpoint height
      {| cp_Height := height; cp_HashHex := hashHex; cp_TimeUnix := now |})
  else gret tt.

(** *** finality_weighted.go *)

Definition weight_step (acc : gmap string Z * Z) (v : Validator) : gmap string Z * Z :=
  if va_Slashed v || (va_Weight v <=? 0) then acc
  else (<[va_PubkeyHex v := va_Weight v]> acc.1, i64 (acc.2 + va_Weight v)).

Definition tally_step (weightByPub : gmap string Z) (tally : gmap string Z) (vr : VoteRecord)
    : gmap string Z :=
  let w := default 0 (weightByPub !! vr_PubkeyHex vr) in
  if w <=? 0 then tally
  else <[vr_BlockHash vr := i64 (default 0 (tally !! vr_BlockHash vr) + w)]> tally.

Definition best_step (best : string * Z) (e : string * Z) : string * Z :=
  if best.2 <? e.2 then e else best.

Definition TryFinalizeHeight (ListVotes : Z -> Z -> GoM db_t (list VoteRecord)) (height : Z)
    : GoM db_t unit :=
  let! votes := gtry (ListVotes height 5000) in
  match votes with
  | inl _ => gret tt
  | inr votes =>
      let! vals := gtry (ListValidators 5000) in
      match vals with
      | inl _ => gret tt
      | inr vals =>
          if Nat.eqb (length vals) 0 then gret tt
          else
            let '(weightByPub, totalW) := fold_left weight_step vals (∅, 0) in
            if totalW <=? 0 then gret tt
            else
              let tally := fold_left (tally_step weightByPub) votes ∅ in
              let '(bestHash, bestW) := fold_left best_step (range tally) ("", 0) in
              if i64 (bestW * 3) <? i64 (totalW * 2) then gret tt
              else
                let! f := gignore None GetFinalizedHeight in
                let finH := default 0 f in
                if finH <? height then
                  gignore tt (SetFinalizedHeight height) ;;;
                  gignore tt (SetFinalizedHash bestHash) ;;;
                  gignore tt (PutCheckpoint height
                    {| cp_Height := height; cp_HashHex := bestHash; cp_TimeUnix := 0 |})
                else gret tt
      end
  end.

(** *** finality_gossip.go and processCheckpointVotes *)

(** The record a local vote is stored as. *)
Definition local_vote (now height : Z) (hashHex sigHex : string) : VoteRecord :=
  {| vr_Height := height; vr_BlockHash := hashHex; vr_ChainID := g_ChainID genesis;
     vr_PubkeyHex := localPubHex n; vr_SigHex := sigHex; vr_TimeUnix := now |}.

Definition processCheckpointVotes (now : Z) (cp : Checkpoint) : GoM db_t unit :=
  if (nc_Role (c_Node cfg) =? "observer")%string || isReadOnly then gret tt
  else if negb isLocalValidator then gret tt
  else
    let! priv := glift (ParsePriv (localPrivHex n)) in
    let! has := HasVote (cp_Height cp) (localPubHex n) in
    (if negb has then
       let! sigHex := glift (SignVote priv (g_ChainID genesis) (cp_Height cp) (cp_HashHex cp)) in
       gignore tt (PutVote (local_vote now (cp_Height cp) (cp_HashHex cp) sigHex))
     else gret tt) ;;;
    tryFinalizeHeight now (cp_Height cp) (cp_HashHex cp).

(** The messages posted to peers are returned. *)
Definition storeAndBroadcastVote (now height : Z) (hashHex : string)
    : GoM db_t (list (string * VoteRecord)) :=
  let! priv := glift (ParsePriv (localPrivHex n)) in
  let! sigHex := glift (SignVote priv (g_ChainID genesis) height hashHex) in
  let vr := local_vote now height hashHex sigHex in
  gignore tt (PutVote vr) ;;;
  gret (List.map (fun peer => (peer +:+ "/finality/submit_vote", vr)) (fc_Peers (c_Finality cfg))).

Section Gossip.
Context {any : Type} {AJ : JSON any}.

Definition ensureVoteForHeight (now h : Z) : GoM db_t (list (string * VoteRecord)) :=
  let! has := HasVote h (localPubHex n) in
  if has then gret []
  else
    let! o := GetHashByHeight h in
    match o with
    | None => gret []
    | Some hashHex =>
        let! r := get_json_found (A := any) (keyBlockByHash hashHex) in
        match r with
        | NotFound => gret []
        | BadJSON _ e => gerr e
        | Found _ =>
            let! msgs := gignore [] (storeAndBroadcastVote now h hashHex) in
            gignore tt (tryFinalizeHeight now h hashHex) ;;;
            gret msgs
        end
    end.

(** [for h := first; h <= last; h += step]; [step] is positive and no height wraps. *)
Definition heights (first last step : Z) : list Z :=
  List.map (fun i => first + Z.of_nat i * step) (seq 0 (Z.to_nat ((last + step - first) / step))).

Definition ensureVotesUpToTip (now : Z) : GoM db_t (list (string * VoteRecord)) :=
  let! t := GetTip in
  match t with
  | None => gret []
  | Some (tipH, _) =>
      let! fin := gignore None GetFinalized in
      let start := match fin with Some (finH, _) => finH | None => 0 end in
      if checkpointInterval n =? 0 then gpanic
      else
        let lastCp := u64 (tipH / checkpointInterval n * checkpointInterval n) in
        gfold (heights (start + checkpointInterval n) lastCp (checkpointInterval n))
          (fun out h => let! m := gignore [] (ensureVoteForHeight now h) in gret (out ++ m)) []
  end.
End Gossip.

Definition ingestVote (now : Z) (vr : VoteRecord) : GoM db_t unit :=
  if negb (finalityEnabled n) then gret tt
  else if negb (vr_ChainID vr =? g_ChainID genesis)%string then gret tt
  else
    let! valsReg := gignore [] (ListValidators 5000) in
    let useReg := negb (Nat.eqb (length valsReg) 0) in
    let valPub :=
      if useReg then
        match List.find (fun v => (va_PubkeyHex v =? vr_PubkeyHex vr)%string && negb (va_Slashed v)) valsReg with
        | Some v => va_PubkeyHex v
        | None => ""
        end
      else
        match List.find (fun v => (fv_PubkeyHex v =? vr_PubkeyHex vr)%string) (validators n) with
        | Some v => fv_PubkeyHex v
        | None => ""
        end in
    if (valPub =? "")%string then gret tt
    else
      match ParsePub (vr_PubkeyHex vr) with
      | Ret pub =>
          if negb (VerifyVote pub (vr_SigHex vr) (vr_ChainID vr) (vr_Height vr) (vr_BlockHash vr))
          then gret tt
          else
            match List.find (fun v => (fv_PubkeyHex v =? vr_PubkeyHex vr)%string) (validators n) with
            | None => gret tt
            | Some _ =>
                let! has := HasVote (vr_Height vr) (vr_PubkeyHex vr) in
                (if negb has then gignore tt (PutVote vr) else gret tt) ;;;
                gignore tt (tryFinalizeHeight now (vr_Height vr) (vr_BlockHash vr))
            end
      | _ => gret tt
      end.

(** One round over the peers; [peer_votes] are the answers to [getVotes]. *)
Definition pullVotesFromPeers (peer_votes : string -> Z -> outcome (list VoteRecord)) (now : Z)
    : GoM db_t unit :=
  if Nat.eqb (length (fc_Peers (c_Finality cfg))) 0 then gret tt
  else
    let! t := GetTip in
    match t with
    | None => gret tt
    | Some (tipH, _) =>
        if checkpointInterval n =? 0 then gpanic
        else
          let iv := checkpointInterval n in
          let lastCp := u64 (tipH / iv * iv) in
          let start := if u64 (iv * 3) <=? lastCp then u64 (lastCp - u64 (iv * 3)) else 0 in
          gfor (heights start lastCp iv) (fun h =>
            gfor (fc_Peers (c_Finality cfg)) (fun peer =>
              match peer_votes peer h with
              | Ret votes => gfor votes (fun vr => gignore tt (ingestVote now vr))
              | _ => gret tt
              end))
    end.

(** The handler of [POST /finality/submit_vote] after decoding: the status and the error. *)
Definition submit_vote (ListVotes : Z -> Z -> GoM db_t (list VoteRecord)) (now : Z) (vr : VoteRecord)
    : GoM db_t (Z * string) :=
  if negb (finalityEnabled n) then gret (400, "finality_disabled")
  else if negb (vr_ChainID vr =? g_ChainID genesis)%string then gret (400, "wrong_chain")
  else
    match List.find (fun v => (fv_PubkeyHex v =? vr_PubkeyHex vr)%string) (validators n) with
    | None => gret (400, "unknown_validator")
    | Some _ =>
        match ParsePub (vr_PubkeyHex vr) with
        | Ret pub =>
            if negb (VerifyVote pub (vr_SigHex vr) (vr_ChainID vr) (vr_Height vr) (vr_BlockHash vr))
            then gret (400, "bad_signature")
            else
              let! has := gtry (HasVote (vr_Height vr) (vr_PubkeyHex vr)) in
              match has with
              | inl _ => gret (500, "db")
              | inr has =>
                  (if negb has then
                     gignore tt (PutVote vr) ;;; TryFinalizeHeight ListVotes (vr_Height vr)
                   else gret tt) ;;;
                  gignore tt (tryFinalizeHeight now (vr_Height vr) (vr_BlockHash vr)) ;;;
                  gret (200, "")
              end
        | _ => gret (400, "bad_signature")
        end
    end.
End Node.
