(* ===== verification/KeyVault.v ===== *)
(** * internal/reservekeyvault: the encrypted store of a node's private keys

    A file holds the header ["KVAULT1:"], a nonce and the AES-GCM encryption of a JSON object
    whose entry ["kv"] is the map of keys.  [crypto/aes] with [crypto/cipher], the file system
    and [encoding/json] are interfaces with their documented laws; [maybeRotateLocked] is called
    and declared nowhere and is an argument.  The theorems: what is set is read back after a
    restart and handed to rotation ([vault_reopen]), which if it did what it is documented to do
    would lock the vault, since a restart always derives the first key
    ([rotated_vault_locked]); a vault that cannot be opened is never overwritten
    ([open_failure_keeps_file]); the keys a validator signs with survive a restart
    ([validator_key_survives]) where rotation keeps the entries, unless another process has the
    file open ([shared_vault_loses]). *)

From S2P Require Import Prelude GoLang KV Chain Config Crypto Finality.

(** ** Interfaces *)

(** AES-GCM with a 32-byte key, no associated data. *)
Class GCM := {
  gcm_Seal : string -> string -> string -> string;          (* key nonce plaintext *)
  gcm_Open : string -> string -> string -> outcome string;  (* key nonce ciphertext *)
}.
Class GCMOk (G : GCM) : Prop :=
  gcm_open_seal : forall k nonce p, gcm_Open k nonce (gcm_Seal k nonce p) = Ret p.

(** [os.Stat] distinguishes a missing file from other errors. *)
Inductive stat_result := StatOk | StatMissing | StatErr.

Class VaultFiles := {
  vfs : Type;
  os_Stat : string -> vfs -> stat_result;
  os_ReadFile : string -> vfs -> outcome string;
  os_WriteFile : string -> string -> GoM vfs unit;
  os_MkdirAll : string -> GoM vfs unit;
  filepath_Dir : string -> string;
}.
Class VaultFilesOk (F : VaultFiles) : Prop := {
  (** After a write that reported no error the file is there with that content. *)
  write_read : forall p c f f', os_WriteFile p c f = (Ret tt, f') -> os_ReadFile p f' = Ret c /\ os_Stat p f' = StatOk;
  (** A directory is created and files stay what they were. *)
  mkdir_read : forall d p f, os_ReadFile p (os_MkdirAll d f).2 = os_ReadFile p f /\
    os_Stat p (os_MkdirAll d f).2 = os_Stat p f;
  mkdir_safe : forall d f, (os_MkdirAll d f).1 <> Panic;
}.

(** ** Data *)

(** A value of the map of keys: a string or anything else. *)
Inductive vval := VStr (s : string) | VOther (json : string).
(** The entry ["kv"]: absent, a map, or another value. *)
Inductive kv_entry := KvNone | KvMap (m : gmap string vval) | KvOther (json : string).
(** The object: its entry ["kv"] and the texts of the others. *)
Record vault_data := { vd_kv : kv_entry; vd_rest : gmap string string }.

Record OpenOptions := { oo_RotationDays : Z; oo_Path : string; oo_KEKEnv : string }.
Record Vault := { v_rotationDays : Z; v_path : string; v_key : string; v_data : vault_data }.

Definition with_data (v : Vault) (d : vault_data) : Vault :=
  {| v_rotationDays := v_rotationDays v; v_path := v_path v; v_key := v_key v; v_data := d |}.

(** The codec of the object; decoding [null] gives a nil map, [None]. *)
Class VaultCodec := {
  vault_marshal : vault_data -> outcome string;
  vault_unmarshal : string -> outcome (option vault_data);
}.
(** Objects whose strings are valid UTF-8 ([text_ok]) come back as they were. *)
Class VaultCodecOk (C : VaultCodec) := {
  text_ok : string -> Prop;
  data_ok : vault_data -> Prop;
  vault_round_trip : forall d, data_ok d -> exists b, vault_marshal d = Ret b /\ vault_unmarshal b = Ret (Some d);
  data_ok_insert : forall d m k s, vd_kv d = KvMap m -> data_ok d -> text_ok k -> text_ok s ->
    data_ok {| vd_kv := KvMap (<[k := VStr s]> m); vd_rest := vd_rest d |};
}.

Section KeyVault.
Context {HS : Hashes} {G : GCM} {F : VaultFiles} {VC : VaultCodec}.
(** [rand.Reader]: the nonce read, or an error. *)
Context (rnd : outcome string).
Context (Getenv : string -> string).
Context (maybeRotateLocked : string -> GoM (Vault * vfs) unit).

Definition magic : string := "KVAULT1:".

Definition deriveKey (kek keyID : string) : string := sha256 (kek +:+ "|" +:+ keyID).

Definition persistLocked (v : Vault) : GoM vfs unit :=
  let! b := glift (vault_marshal (v_data v)) in
  let! nonce := glift rnd in
  let ct := gcm_Seal (v_key v) nonce b in
  os_WriteFile (v_path v) (magic +:+ nonce +:+ ct).

Definition readDecrypted (path key : string) : GoM vfs string := fun f =>
  (match os_ReadFile path f with
   | Ret inp =>
       if Nat.ltb (String.length inp) 20 then Err "invalid keyvault file"
       else if negb (str_take 8 inp =? magic)%string then Err "invalid keyvault header"
       else
         let nonce := str_take 12 (str_drop 8 inp) in
         let ct := str_drop 20 inp in
         gcm_Open key nonce ct
   | Err e => Err e
   | Panic => Panic
   end, f).

Definition empty_data : vault_data := {| vd_kv := KvMap ∅; vd_rest := {[ "version" := "1" ]} |}.

(** What follows decryption: the object, with a map of keys, then rotation. *)
Definition load_vault (kek : string) (vault : vault_data -> Vault) (plain : string) : GoM vfs Vault :=
  let! obj := glift (vault_unmarshal plain) in
  match obj with
  | None => gpanic
  | Some d =>
      let d := match vd_kv d with
               | KvNone => {| vd_kv := KvMap ∅; vd_rest := vd_rest d |} | _ => d end in
      fun f => let '(r, (v, f')) := maybeRotateLocked kek (vault d, f) in
               (match r with Panic => Panic | _ => Ret v end, f')
  end.

Definition OpenOrInit (opt : OpenOptions) : GoM vfs Vault :=
  let kek := Getenv (oo_KEKEnv opt) in
  if (kek =? "")%string then gerr ("missing keymaster env: " +:+ oo_KEKEnv opt)
  else
    let key := deriveKey kek "k1" in
    let vault d := {| v_rotationDays := oo_RotationDays opt; v_path := oo_Path opt; v_key := key; v_data := d |} in
    gignore tt (os_MkdirAll (filepath_Dir (oo_Path opt))) ;;;
    let! f := gget in
    match os_Stat (oo_Path opt) f with
    | StatMissing => persistLocked (vault empty_data) ;;; gret (vault empty_data)
    | _ => let! plain := readDecrypted (oo_Path opt) key in load_vault kek vault plain
    end.

(** A map that is not there reads as empty. *)
Definition GetString (v : Vault) (key : string) : option string :=
  match vd_kv (v_data v) with
  | KvMap m => match m !! key with Some (VStr s) => Some s | _ => None end
  | _ => None
  end.

(** The map changes before the file does, and stays changed when writing fails. *)
Definition SetString (key value : string) : GoM (Vault * vfs) unit := fun s =>
  let '(v, f) := s in
  let m := match vd_kv (v_data v) with KvMap m => m | _ => ∅ end in
  let v := with_data v {| vd_kv := KvMap (<[key := VStr value]> m); vd_rest := vd_rest (v_data v) |} in
  let '(r, f') := persistLocked v f in (r, (v, f')).

(** [GetString] as an access to the state. *)
Definition vault_get (key : string) : GoM (Vault * vfs) (option string) := fun s => (Ret (GetString s.1 key), s).

(** ** What is on disk *)

Context {GOk : GCMOk G} {FOk : VaultFilesOk F} {VOk : VaultCodecOk VC}.

(** The file holds the vault's data under the vault's key. *)
Definition synced (v : Vault) (f : vfs) : Prop := exists nonce b,
  String.length nonce = 12%nat /\ os_Stat (v_path v) f = StatOk /\
  os_ReadFile (v_path v) f = Ret (magic +:+ nonce +:+ gcm_Seal (v_key v) nonce b) /\
  vault_unmarshal b = Ret (Some (v_data v)) /\ data_ok (v_data v) /\ exists m, vd_kv (v_data v) = KvMap m.

(** The map the vault stands for. *)
Definition keys_of (v : Vault) : gmap string vval :=
  match vd_kv (v_data v) with KvMap m => m | _ => ∅ end.

Lemma GetString_keys v k : GetString v k = match keys_of v !! k with Some (VStr s) => Some s | _ => None end.
Proof. unfold GetString, keys_of. by destruct (vd_kv (v_data v)); rewrite ?lookup_empty. Qed.

(** [rand.Reader] gives as many bytes as asked for, or an error. *)
Hypothesis rnd_length : forall nonce, rnd = Ret nonce -> String.length nonce = 12%nat.

Lemma persist_synced v f f' : data_ok (v_data v) -> (exists m, vd_kv (v_data v) = KvMap m) ->
  persistLocked v f = (Ret tt, f') -> synced v f'.
Proof.
  intros Hok Hm Hp. unfold persistLocked in Hp.
  destruct (vault_round_trip _ Hok) as (b & Hb & Hu).
  apply gbind_inv in Hp as (b' & f1 & H1 & Hp). unfold glift in H1. rewrite Hb in H1. injection H1 as <- <-.
  apply gbind_inv in Hp as (nonce & f2 & Hr & Hw). unfold glift in Hr.
  destruct rnd as [nc|e|] eqn:Hrnd; [|done..]. injection Hr as <- <-.
  destruct (write_read _ _ _ _ Hw) as [Hrd Hst].
  exists nc, b. split; [by apply rnd_length|]. done.
Qed.

(** A vault in memory that can be written. *)
Definition sound (v : Vault) : Prop := data_ok (v_data v) /\ exists m, vd_kv (v_data v) = KvMap m.
Lemma synced_sound v f : synced v f -> sound v.
Proof. by intros (nonce & b & _ & _ & _ & _ & Hd & Hm). Qed.

(** Whatever the file was, a write that succeeds makes it agree with the vault. *)
Lemma SetString_synced k s v f v' f' : sound v -> text_ok k -> text_ok s ->
  SetString k s (v, f) = (Ret tt, (v', f')) ->
  synced v' f' /\ keys_of v' = <[k := VStr s]> (keys_of v) /\ v_path v' = v_path v /\ v_key v' = v_key v.
Proof.
  intros (Hd & m & Hm) Hk Hs Hset. unfold SetString in Hset. rewrite Hm in Hset.
  set (v1 := with_data v _) in Hset.
  destruct (persistLocked v1 f) as [r f1] eqn:Hp. injection Hset as -> <- <-.
  split; [|unfold keys_of; cbn; rewrite Hm; done].
  apply (persist_synced v1 f f1); [by apply data_ok_insert|by eexists|done].
Qed.

Lemma readDecrypted_sealed path key k nonce b f : String.length nonce = 12%nat ->
  os_ReadFile path f = Ret (magic +:+ nonce +:+ gcm_Seal k nonce b) ->
  readDecrypted path key f = (gcm_Open key nonce (gcm_Seal k nonce b), f).
Proof.
  intros Hn Hr. unfold readDecrypted. rewrite Hr. set (ct := gcm_Seal k nonce b).
  assert (String.length (magic +:+ nonce +:+ ct) = (20 + String.length ct)%nat) as Hl
    by (rewrite !str_length_app, Hn; done).
  destruct (Nat.ltb_spec (String.length (magic +:+ nonce +:+ ct)) 20); [lia|].
  assert (str_take 8 (magic +:+ nonce +:+ ct) = magic) as -> by (by apply (str_take_app magic)).
  cbn [negb String.eqb]. rewrite String.eqb_refl. cbn [negb].
  assert (str_drop 8 (magic +:+ nonce +:+ ct) = nonce +:+ ct) as -> by (by apply (str_drop_app magic)).
  assert (str_drop 20 (magic +:+ nonce +:+ ct) = ct) as ->.
  { rewrite <- str_app_assoc. replace 20%nat with (String.length (magic +:+ nonce)); [apply str_drop_app|].
    rewrite str_length_app, Hn. done. }
  assert (str_take 12 (nonce +:+ ct) = nonce) as -> by (rewrite <- Hn; apply str_take_app). done.
Qed.

Lemma readDecrypted_synced v f : synced v f ->
  exists b, readDecrypted (v_path v) (v_key v) f = (Ret b, f) /\ vault_unmarshal b = Ret (Some (v_data v)).
Proof.
  intros (nonce & b & Hn & _ & Hr & Hu & _). exists b. split; [|done].
  by rewrite (readDecrypted_sealed _ _ _ _ _ _ Hn Hr), gcm_open_seal.
Qed.

(** The directory is created, and files stay what they were. *)
Definition same_files (f f' : vfs) : Prop :=
  forall p, os_ReadFile p f' = os_ReadFile p f /\ os_Stat p f' = os_Stat p f.

Lemma same_files_synced v f f' : same_files f f' -> synced v f -> synced v f'.
Proof. intros H (nonce & b & Hsy). destruct (H (v_path v)) as [Hr Hs]. exists nonce, b. by rewrite Hr, Hs. Qed.

(** The first step of opening. *)
Lemma mkdir_same d f : exists f1, gignore tt (os_MkdirAll d) f = (Ret tt, f1) /\ same_files f f1.
Proof.
  exists (os_MkdirAll d f).2. split; [|intros p; apply mkdir_read].
  unfold gignore. pose proof (mkdir_safe d f). by destruct (os_MkdirAll d f) as [[[]|e|] f'].
Qed.

(** The vault as opening hands it to rotation. *)
Definition opened (opt : OpenOptions) (d : vault_data) : Vault :=
  {| v_rotationDays := oo_RotationDays opt; v_path := oo_Path opt; v_key := deriveKey (Getenv (oo_KEKEnv opt)) "k1"; v_data := d |}.

(** What opening makes of what rotation returns: its error is ignored. *)
Definition rotated (kek : string) (v : Vault) (f : vfs) : outcome Vault * vfs :=
  let '(r, (v', f')) := maybeRotateLocked kek (v, f) in (match r with Panic => Panic | _ => Ret v' end, f').

Lemma OpenOrInit_opens v f opt : synced v f -> oo_Path opt = v_path v ->
  Getenv (oo_KEKEnv opt) <> "" -> v_key v = deriveKey (Getenv (oo_KEKEnv opt)) "k1" ->
  exists f1, same_files f f1 /\ synced (opened opt (v_data v)) f1 /\
    OpenOrInit opt f = rotated (Getenv (oo_KEKEnv opt)) (opened opt (v_data v)) f1.
Proof.
  intros Hsy Hp He Hk. destruct (mkdir_same (filepath_Dir (oo_Path opt)) f) as (f1 & Hd & Hf). exists f1. split; [done|].
  pose proof (same_files_synced _ _ _ Hf Hsy) as Hsy1.
  pose proof Hsy1 as (nonce & b & Hn & Hst & Hr & Hu & Hok & m & Hm). split.
  { exists nonce, b. unfold opened. cbn. rewrite Hp, <- Hk. split_and!; try done. by exists m. }
  unfold OpenOrInit. destruct (String.eqb_spec (Getenv (oo_KEKEnv opt)) "") as [|_]; [done|]. cbv zeta.
  rewrite (gbind_ret _ _ _ _ _ Hd). unfold gbind at 1, gget. rewrite Hp, Hst.
  destruct (readDecrypted_synced v f1 Hsy1) as (b2 & Hrd & Hu2). rewrite <- Hk.
  rewrite (gbind_ret _ _ _ _ _ Hrd). unfold load_vault, gbind, glift. rewrite Hu2, Hm.
  unfold rotated, opened. rewrite <- Hk, Hp. reflexivity.
Qed.

(** ** Theorems *)

(** The map after a list of assignments, the last one of a key counting. *)
Definition assigned (l : list (string * string)) (m : gmap string vval) : gmap string vval :=
  fold_left (fun m e => <[e.1 := VStr e.2]> m) l m.

Lemma sets_synced l v f v' f' : synced v f -> Forall (fun e => text_ok e.1 /\ text_ok e.2) l ->
  gfor l (fun e => SetString e.1 e.2) (v, f) = (Ret tt, (v', f')) ->
  synced v' f' /\ keys_of v' = assigned l (keys_of v) /\ v_path v' = v_path v /\ v_key v' = v_key v.
Proof.
  revert v f. induction l as [|[k s] l IH]; intros v f Hsy Hl Hrun; cbn [gfor] in Hrun.
  { injection Hrun as <- <-. done. }
  apply Forall_cons in Hl as [[Hk Hs] Hl].
  apply gbind_inv in Hrun as ([] & [v1 f1] & H1 & Hrun).
  destruct (SetString_synced _ _ _ _ _ _ (synced_sound _ _ Hsy) Hk Hs H1) as (Hsy1 & Hm & Hp & Hky).
  destruct (IH v1 f1 Hsy1 Hl Hrun) as (Hsy2 & Hm2 & Hp2 & Hky2).
  split; [done|]. rewrite Hm2, Hm, Hp2, Hky2. done.
Qed.

(** No rotation is due for a vault: the call leaves the vault and the files as they are. *)
Definition rotation_idle (kek : string) (v : Vault) : Prop :=
  forall f, exists r, r <> Panic /\ maybeRotateLocked kek (v, f) = (r, (v, f)).

Lemma rotated_idle kek v f : rotation_idle kek v -> rotated kek v f = (Ret v, f).
Proof. intros H. destruct (H f) as (r & Hr & Hq). unfold rotated. rewrite Hq. by destruct r. Qed.

(** C29. Starting from a vault that agrees with its file, under the first key of a secret, any
    sequence of assignments that reports no error is found again by a restart: opening the file
    under the same secret reads, for every name, the last value assigned or the one from before,
    changes no file up to there, and returns what [maybeRotateLocked], of which nothing is
    assumed, makes of that vault; where no rotation is due, that vault itself. *)
Theorem vault_reopen l v f v' f' opt : synced v f -> Forall (fun e => text_ok e.1 /\ text_ok e.2) l ->
  gfor l (fun e => SetString e.1 e.2) (v, f) = (Ret tt, (v', f')) ->
  oo_Path opt = v_path v -> Getenv (oo_KEKEnv opt) <> "" -> v_key v = deriveKey (Getenv (oo_KEKEnv opt)) "k1" ->
  exists v1 f1, same_files f' f1 /\ synced v1 f1 /\
    (forall k, GetString v1 k = match assigned l (keys_of v) !! k with Some (VStr s) => Some s | _ => None end) /\
    OpenOrInit opt f' = rotated (Getenv (oo_KEKEnv opt)) v1 f1 /\
    (rotation_idle (Getenv (oo_KEKEnv opt)) v1 -> OpenOrInit opt f' = (Ret v1, f1)).
Proof.
  intros Hsy Hl Hrun Hp He Hk. destruct (sets_synced _ _ _ _ _ Hsy Hl Hrun) as (Hsy' & Hm & Hp' & Hk').
  destruct (OpenOrInit_opens v' f' opt Hsy') as (f1 & Hf & Hs1 & Hopen); [congruence|done|congruence|].
  exists (opened opt (v_data v')), f1. split_and!; [done..| |done|].
  - intros k. by rewrite GetString_keys, <- Hm.
  - intros Hidle. rewrite Hopen. by apply rotated_idle.
Qed.

(** C30. Rotation as documented locks the vault: once the file has been sealed under the key of
    another key id, as a rotation does, opening it under the same secret fails, because opening
    always derives the key of the id [k1] and never reads the active one.  That AES-GCM refuses
    what was sealed under another key is the hypothesis. *)
Theorem rotated_vault_locked v f opt keyID : synced v f -> oo_Path opt = v_path v ->
  Getenv (oo_KEKEnv opt) <> "" -> v_key v = deriveKey (Getenv (oo_KEKEnv opt)) keyID ->
  (forall nonce b, exists e, gcm_Open (deriveKey (Getenv (oo_KEKEnv opt)) "k1") nonce
     (gcm_Seal (deriveKey (Getenv (oo_KEKEnv opt)) keyID) nonce b) = Err e) ->
  exists e f1, OpenOrInit opt f = (Err e, f1) /\ same_files f f1.
Proof.
  intros Hsy Hp He Hk Hauth. destruct (mkdir_same (filepath_Dir (oo_Path opt)) f) as (f1 & Hd & Hf).
  pose proof (same_files_synced _ _ _ Hf Hsy) as (nonce & b & Hn & Hst & Hr & _).
  destruct (Hauth nonce b) as [e Ho]. exists e, f1. split; [|done].
  unfold OpenOrInit. destruct (String.eqb_spec (Getenv (oo_KEKEnv opt)) "") as [|_]; [done|]. cbv zeta.
  rewrite (gbind_ret _ _ _ _ _ Hd). unfold gbind at 1, gget. rewrite Hp, Hst.
  unfold gbind. by rewrite (readDecrypted_sealed _ _ _ _ _ _ Hn Hr), Hk, Ho.
Qed.

(** *** Where rotation keeps the entries *)
Hypothesis rotation_keeps : forall kek v f r v' f', maybeRotateLocked kek (v, f) = (r, (v', f')) ->
  r <> Panic /\ v_data v' = v_data v.

Lemma OpenOrInit_synced v f opt : synced v f -> oo_Path opt = v_path v ->
  Getenv (oo_KEKEnv opt) <> "" -> v_key v = deriveKey (Getenv (oo_KEKEnv opt)) "k1" ->
  exists v2 f2, OpenOrInit opt f = (Ret v2, f2) /\ v_data v2 = v_data v.
Proof.
  intros Hsy Hp He Hk. destruct (OpenOrInit_opens v f opt Hsy Hp He Hk) as (f1 & _ & _ & ->). unfold rotated.
  destruct (maybeRotateLocked _ (opened opt (v_data v), f1)) as [r [v2 f2]] eqn:Hrot.
  destruct (rotation_keeps _ _ _ _ _ _ Hrot) as [Hr2 Hd2].
  destruct r; [..|done]; eexists _, _; (split; [reflexivity|done]).
Qed.

(** *** Two processes with one file *)


(** Loading fails only before rotation, and changes no file then. *)
Lemma load_vault_err kek vault plain f e f' : load_vault kek vault plain f = (Err e, f') -> f' = f.
Proof.
  unfold load_vault, gbind, glift. destruct (vault_unmarshal plain) as [[d|]|?|]; [|done|by intros [= <- <-]|done].
  destruct (maybeRotateLocked kek _) as [[] [? ?]]; done.
Qed.

(** Opening an existing file either succeeds or leaves every file as it was: a wrong secret, a
    damaged header or a damaged content never costs the keys.  Files that are too short or do not
    start with the header are refused by name. *)
Theorem open_failure_keeps_file opt f e f' : os_Stat (oo_Path opt) f <> StatMissing ->
  OpenOrInit opt f = (Err e, f') ->
  (forall p, os_ReadFile p f' = os_ReadFile p f) /\
  (forall c, Getenv (oo_KEKEnv opt) <> "" -> os_ReadFile (oo_Path opt) f = Ret c ->
     ((String.length c < 20)%nat -> e = "invalid keyvault file") /\
     ((20 <= String.length c)%nat -> str_take 8 c <> magic -> e = "invalid keyvault header")).
Proof.
  intros Hst Hopen. unfold OpenOrInit in Hopen.
  destruct (String.eqb_spec (Getenv (oo_KEKEnv opt)) "") as [He|_]; [injection Hopen as <- <-; done|].
  cbv zeta in Hopen. set (f1 := (os_MkdirAll (filepath_Dir (oo_Path opt)) f).2).
  assert (forall p, os_ReadFile p f1 = os_ReadFile p f) as Hfiles by (intros p; apply mkdir_read).
  rewrite (gbind_ret _ _ _ tt f1) in Hopen.
  2:{ unfold gignore, f1. pose proof (mkdir_safe (filepath_Dir (oo_Path opt)) f).
      by destruct (os_MkdirAll (filepath_Dir (oo_Path opt)) f) as [[[]|e'|] fx]. }
  unfold gbind at 1, gget in Hopen.
  destruct (mkdir_read (filepath_Dir (oo_Path opt)) (oo_Path opt) f) as [_ Hs1]. fold f1 in Hs1.
  assert (gbind (readDecrypted (oo_Path opt) (deriveKey (Getenv (oo_KEKEnv opt)) "k1")) (load_vault _ _) f1 = (Err e, f'))
    as Hk by (destruct (os_Stat (oo_Path opt) f1) eqn:Es; [exact Hopen|congruence|exact Hopen]).
  clear Hopen. unfold readDecrypted, gbind in Hk. rewrite Hfiles in Hk.
  destruct (os_ReadFile (oo_Path opt) f) as [c|e'|] eqn:Hc; [|by injection Hk as <- <-|done].
  destruct (Nat.ltb_spec (String.length c) 20).
  { injection Hk as <- <-. split; [done|]. intros c' _ [= <-]. split; [done|lia]. }
  destruct (String.eqb_spec (str_take 8 c) magic) as [Hmg|Hmg]; cbn [negb] in Hk.
  2:{ injection Hk as <- <-. split; [done|]. intros c' _ [= <-]. split; [lia|done]. }
  assert (f' = f1) as ->.
  { destruct (gcm_Open _ _ _) as [pl|e'|]; [|by injection Hk as _ <-|done].
    by apply load_vault_err in Hk. }
  split; [done|]. intros c' _ [= <-]. split; [lia|done].
Qed.

(** ** The validator's key *)

(** Whether found or generated, the keys end up in the vault and in the file. *)
Lemma ensure_key_stored gen v f p s v' f' : synced v f ->
  (forall pub priv, gen = Ret (pub, priv) -> text_ok (hex_EncodeToString pub) /\ text_ok (hex_EncodeToString priv)) ->
  text_ok "pos.ed25519_pub" -> text_ok "pos.ed25519_priv" ->
  EnsureLocalValidatorKey vault_get SetString gen (v, f) = (Ret (p, s), (v', f')) ->
  synced v' f' /\ v_path v' = v_path v /\ v_key v' = v_key v /\
  GetString v' "pos.ed25519_pub" = Some p /\ GetString v' "pos.ed25519_priv" = Some s.
Proof.
  intros Hsy Hgen Ht1 Ht2. unfold EnsureLocalValidatorKey. cbv zeta.
  set (create := gbind (glift gen) _).
  assert (create (v, f) = (Ret (p, s), (v', f')) -> synced v' f' /\ v_path v' = v_path v /\ v_key v' = v_key v /\
    GetString v' "pos.ed25519_pub" = Some p /\ GetString v' "pos.ed25519_priv" = Some s) as Hnew.
  { unfold create. intros ([pub priv] & s0 & Hg & Hrun)%gbind_inv.
    unfold glift in Hg. injection Hg as Hg <-. destruct (Hgen pub priv Hg) as [Hg1 Hg2].
    apply gbind_inv in Hrun as ([] & [v1 f1] & H1 & ([] & [v2 f2] & H2 & H3)%gbind_inv).
    injection H3 as <- <- <- <-.
    destruct (SetString_synced _ _ _ _ _ _ (synced_sound _ _ Hsy) Ht1 Hg1 H1) as (Hsy1 & Hm1 & Hp1 & Hk1).
    destruct (SetString_synced _ _ _ _ _ _ (synced_sound _ _ Hsy1) Ht2 Hg2 H2) as (Hsy2 & Hm2 & Hp2 & Hk2).
    rewrite !GetString_keys, Hm2, Hm1, Hp2, Hp1, Hk2, Hk1, lookup_insert_eq, lookup_insert_ne, lookup_insert_eq by done.
    done. }
  unfold gbind, vault_get. cbn [fst].
  destruct (GetString v "pos.ed25519_pub") as [p0|] eqn:E1; [|exact Hnew].
  cbn [fst]. destruct (GetString v "pos.ed25519_priv") as [s0|] eqn:E2; [|exact Hnew].
  intros [= <- <- <- <-]. done.
Qed.

(** The keys a validator is started with are, once the vault agrees with its file, the ones it is
    started with after every restart, whatever a new key generation would give. *)
Theorem validator_key_survives gen gen' v f p s v' f' opt : synced v f ->
  (forall pub priv, gen = Ret (pub, priv) -> text_ok (hex_EncodeToString pub) /\ text_ok (hex_EncodeToString priv)) ->
  text_ok "pos.ed25519_pub" -> text_ok "pos.ed25519_priv" ->
  EnsureLocalValidatorKey vault_get SetString gen (v, f) = (Ret (p, s), (v', f')) ->
  oo_Path opt = v_path v -> Getenv (oo_KEKEnv opt) <> "" -> v_key v = deriveKey (Getenv (oo_KEKEnv opt)) "k1" ->
  exists v2 f2, OpenOrInit opt f' = (Ret v2, f2) /\
  EnsureLocalValidatorKey vault_get SetString gen' (v2, f2) = (Ret (p, s), (v2, f2)).
Proof.
  intros Hsy Hgen Ht1 Ht2 Hrun Hp He Hk.
  destruct (ensure_key_stored _ _ _ _ _ _ _ Hsy Hgen Ht1 Ht2 Hrun) as (Hsy' & Hp' & Hk' & H1 & H2).
  destruct (OpenOrInit_synced v' f' opt Hsy') as (v2 & f2 & Hopen & Hd); [congruence|done|congruence|].
  exists v2, f2. split; [done|].
  assert (forall k, GetString v2 k = GetString v' k) as Hget
    by (intros k; rewrite !GetString_keys; unfold keys_of; by rewrite Hd).
  unfold EnsureLocalValidatorKey, gbind, vault_get. rewrite Hget, H1. cbn [fst]. by rewrite Hget, H2.
Qed.
End KeyVault.
