(* ===== verification/StorageDaemon.v ===== *)
(** * services/storage-daemon: the table of receive slots

    The two tables that [migrate] creates and the handlers over them.  A statement either fails,
    as [fault] says, or does what SQLite documents for it; a transaction that does not commit
    leaves nothing.  The theorems: every handler keeps the tables well formed and failed requests
    change nothing ([slots_invariant]), an account alone gets consecutive indexes
    ([indexes_consecutive]), and an account that shares its purpose with another one never gets a
    slot, because the indexes are unique per purpose while the counters are per account and
    purpose ([second_account_gets_nothing]). *)

From S2P Require Import Prelude GoLang.

(** ** Tables *)

(** A row of [address_slots]. *)
Record slot := {
  sl_account : option string; sl_purpose : string; sl_index : Z; sl_created : Z; sl_expires : option Z;
  sl_status : string; sl_hash : option string;
  sl_conf_height : option Z; sl_conf_txid : option string; sl_conf_at : option Z }.

(** [slot_id] is [AUTOINCREMENT]: larger than any ever given, the last of which is [sq_last]. *)
Record tables := { sq_counters : gmap string Z; sq_slots : gmap Z slot; sq_last : Z }.

Definition migrated : tables := {| sq_counters := ∅; sq_slots := ∅; sq_last := 0 |}.

(** [UNIQUE(purpose, derivation_index)]. *)
Definition index_taken (t : tables) (purpose : string) (i : Z) : bool :=
  existsb (fun e : Z * slot => (sl_purpose e.2 =? purpose)%string && (sl_index e.2 =? i)) (map_to_list (sq_slots t)).

(** The statements that can fail. *)
Inductive stmt := Begin | SelectCounter | InsertCounter | UpdateCounter | InsertSlot | Commit | UpdateSlot.

(** ** Configuration *)

Record SConfig := { sc_Bind : string; sc_Port : Z; sc_Path : string; sc_Mode : string; sc_KeyRef : string }.

(** The checks and defaults of [New]. *)
Definition check_storage_config (c : SConfig) : outcome SConfig :=
  if sc_Port c =? 0 then Err "rpc.port required"
  else if (sc_Path c =? "")%string then Err "db.path required"
  else Ret {| sc_Bind := if (sc_Bind c =? "")%string then "127.0.0.1" else sc_Bind c; sc_Port := sc_Port c;
              sc_Path := sc_Path c; sc_Mode := if (sc_Mode c =? "")%string then "sqlite" else sc_Mode c;
              sc_KeyRef := sc_KeyRef c |}.

(** ** Requests *)

Record allocSlotReq := { al_AccountID : option string; al_Purpose : string; al_ExpiresAt : option Z }.
Record allocSlotResp := { ar_SlotID : Z; ar_DerivationIndex : Z; ar_ExpiresAt : option Z }.
Record markConfirmedReq := { mk_SlotID : Z; mk_Height : Z; mk_TxID : string; mk_ConfirmedAt : Z }.
Record slotSetHashReq := { sh_SlotID : Z; sh_AddressHash : string }.

Section Handlers.
Context (fault : stmt -> bool).

Definition counterName (account : option string) (purpose : string) : string :=
  "addr_index:" +:+ default "default" account +:+ ":" +:+ purpose.

(** The status, the answer and the tables, for a decoded request. *)
Definition alloc_slot (now : Z) (req : allocSlotReq) (t : tables) : Z * option allocSlotResp * tables :=
  if (al_Purpose req =? "")%string then (400, None, t)
  else
    let name := counterName (al_AccountID req) (al_Purpose req) in
    let refuse := (500, None, t) in
    if fault Begin || fault SelectCounter then refuse
    else if match sq_counters t !! name with None => fault InsertCounter | Some _ => false end then refuse
    else
      let cur := default 0 (sq_counters t !! name) in
      let deriv := u64 cur in
      if fault UpdateCounter then refuse
      else if fault InsertSlot || index_taken t (al_Purpose req) (i64 deriv) then refuse
      else if fault Commit then refuse
      else
        let id := sq_last t + 1 in
        let row := {| sl_account := al_AccountID req; sl_purpose := al_Purpose req; sl_index := i64 deriv;
                      sl_created := now; sl_expires := al_ExpiresAt req; sl_status := "allocated"; sl_hash := None;
                      sl_conf_height := None; sl_conf_txid := None; sl_conf_at := None |} in
        (200, Some {| ar_SlotID := id; ar_DerivationIndex := deriv; ar_ExpiresAt := al_ExpiresAt req |},
         {| sq_counters := <[name := cur + 1]> (sq_counters t); sq_slots := <[id := row]> (sq_slots t); sq_last := id |}).

(** A handler gets the method and the decoded body. *)
Definition handleAllocSlot (now : Z) (method : string) (body : outcome allocSlotReq) (t : tables)
    : Z * option allocSlotResp * tables :=
  if negb (method =? "POST")%string then (405, None, t)
  else match body with Ret req => alloc_slot now req t | _ => (400, None, t) end.

(** [UPDATE address_slots SET ... WHERE slot_id=?]: no row is no error. *)
Definition update_slot (id : Z) (f : slot -> slot) (t : tables) : Z * tables :=
  if fault UpdateSlot then (500, t)
  else (200, {| sq_counters := sq_counters t; sq_slots := alter f id (sq_slots t); sq_last := sq_last t |}).

Definition mark_confirmed (req : markConfirmedReq) (t : tables) : Z * tables :=
  update_slot (mk_SlotID req) (fun r =>
    {| sl_account := sl_account r; sl_purpose := sl_purpose r; sl_index := sl_index r; sl_created := sl_created r;
       sl_expires := sl_expires r; sl_status := "confirmed"; sl_hash := sl_hash r;
       sl_conf_height := Some (mk_Height req); sl_conf_txid := Some (mk_TxID req);
       sl_conf_at := Some (mk_ConfirmedAt req) |}) t.

Definition handleMarkConfirmed (method : string) (body : outcome markConfirmedReq) (t : tables) : Z * tables :=
  if negb (method =? "POST")%string then (405, t)
  else match body with Ret req => mark_confirmed req t | _ => (400, t) end.

Definition slot_set_hash (req : slotSetHashReq) (t : tables) : Z * tables :=
  match hex_DecodeString (sh_AddressHash req) with
  | Ret hb =>
      if negb (Nat.eqb (String.length hb) 32) then (400, t)
      else update_slot (sh_SlotID req) (fun r =>
        {| sl_account := sl_account r; sl_purpose := sl_purpose r; sl_index := sl_index r; sl_created := sl_created r;
           sl_expires := sl_expires r; sl_status := sl_status r; sl_hash := Some hb;
           sl_conf_height := sl_conf_height r; sl_conf_txid := sl_conf_txid r; sl_conf_at := sl_conf_at r |}) t
  | _ => (400, t)
  end.

Definition handleSlotSetHash (method : string) (body : outcome slotSetHashReq) (t : tables) : Z * tables :=
  if negb (method =? "POST")%string then (405, t)
  else match body with Ret req => slot_set_hash req t | _ => (400, t) end.
End Handlers.

(** ** Well-formed tables *)

(** The constraints of the schema, and the counters ahead of the indexes they gave out. *)
Record slots_ok (t : tables) : Prop := {
  ok_unique : forall a b ra rb, sq_slots t !! a = Some ra -> sq_slots t !! b = Some rb ->
    sl_purpose ra = sl_purpose rb -> sl_index ra = sl_index rb -> a = b;
  ok_ids : forall a r, sq_slots t !! a = Some r -> 0 < a <= sq_last t;
  ok_index : forall a r, sq_slots t !! a = Some r -> exists c,
    sq_counters t !! counterName (sl_account r) (sl_purpose r) = Some c /\ 0 <= sl_index r < c;
  ok_counter : forall k c, sq_counters t !! k = Some c -> 0 < c;
  ok_last : 0 <= sq_last t;
}.

Lemma index_taken_spec t p i : index_taken t p i = true <->
  exists a r, sq_slots t !! a = Some r /\ sl_purpose r = p /\ sl_index r = i.
Proof.
  unfold index_taken. rewrite existsb_exists. split.
  - intros ([a r] & Hin & [Hp Hi]%andb_true_iff). apply String.eqb_eq in Hp. apply Z.eqb_eq in Hi.
    apply list_elem_of_In, elem_of_map_to_list in Hin. eauto.
  - intros (a & r & Ha & <- & <-). exists (a, r). cbn.
    rewrite String.eqb_refl, Z.eqb_refl. split; [|done]. by apply list_elem_of_In, elem_of_map_to_list.
Qed.

(** Counters within the range of their type. *)
Definition counters_fit (t : tables) : Prop := forall k c, sq_counters t !! k = Some c -> c < M63 - 1.

Lemma alloc_cases fault now req t st r t' : alloc_slot fault now req t = (st, r, t') ->
  (r = None /\ t' = t /\ st <> 200) \/
  (let name := counterName (al_AccountID req) (al_Purpose req) in
   let cur := default 0 (sq_counters t !! name) in
   st = 200 /\ index_taken t (al_Purpose req) (i64 (u64 cur)) = false /\
   r = Some {| ar_SlotID := sq_last t + 1; ar_DerivationIndex := u64 cur; ar_ExpiresAt := al_ExpiresAt req |} /\
   sq_last t' = sq_last t + 1 /\ sq_counters t' = <[name := cur + 1]> (sq_counters t) /\
   exists row, sq_slots t' = <[sq_last t + 1 := row]> (sq_slots t) /\ sl_account row = al_AccountID req /\
     sl_purpose row = al_Purpose req /\ sl_index row = i64 (u64 cur) /\ sl_status row = "allocated").
Proof.
  unfold alloc_slot. cbv zeta.
  destruct (al_Purpose req =? "")%string; [intros [= <- <- <-]; by left|].
  destruct (fault Begin || fault SelectCounter); [intros [= <- <- <-]; by left|].
  set (name := counterName _ _).
  destruct (match sq_counters t !! name with None => _ | Some _ => _ end); [intros [= <- <- <-]; by left|].
  destruct (fault UpdateCounter); [intros [= <- <- <-]; by left|].
  destruct (fault InsertSlot); cbn [orb]; [intros [= <- <- <-]; by left|].
  destruct (index_taken _ _ _) eqn:Hi; [intros [= <- <- <-]; by left|].
  destruct (fault Commit); [intros [= <- <- <-]; by left|].
  intros [= <- <- <-]. right. do 5 (split; [done|]). by eexists.
Qed.

(** ** Theorems *)

(** A step of the service, by any handler, with any statement failing. *)
Inductive sstep : tables -> tables -> Prop :=
| step_alloc fault now method body t st r t' : handleAllocSlot fault now method body t = (st, r, t') -> sstep t t'
| step_confirm fault method body t st t' : handleMarkConfirmed fault method body t = (st, t') -> sstep t t'
| step_hash fault method body t st t' : handleSlotSetHash fault method body t = (st, t') -> sstep t t'.

(** An update that keeps account, purpose and index keeps the tables well formed. *)
Lemma update_slot_ok fault id f t : slots_ok t ->
  (forall r, sl_account (f r) = sl_account r /\ sl_purpose (f r) = sl_purpose r /\ sl_index (f r) = sl_index r) ->
  slots_ok (update_slot fault id f t).2 /\ sq_counters (update_slot fault id f t).2 = sq_counters t.
Proof.
  intros [H1 H2 H3 H4 H5] Hf. unfold update_slot. destruct (fault UpdateSlot); [by split|].
  cbn [snd]. split; [|done].
  assert (forall a r, alter f id (sq_slots t) !! a = Some r -> exists r0, sq_slots t !! a = Some r0 /\
    sl_account r = sl_account r0 /\ sl_purpose r = sl_purpose r0 /\ sl_index r = sl_index r0) as Hold.
  { intros a r Ha. destruct (decide (a = id)) as [->|Hne].
    - rewrite lookup_alter_eq in Ha. destruct (sq_slots t !! id) as [r0|]; [|done]. injection Ha as <-. eauto.
    - rewrite lookup_alter_ne in Ha by done. eauto. }
  split; cbn [sq_slots sq_counters sq_last]; [..|done|done].
  - intros a b ra rb Ha Hb Hp Hi. destruct (Hold a ra Ha) as (r1 & E1 & _ & P1 & I1).
    destruct (Hold b rb Hb) as (r2 & E2 & _ & P2 & I2). apply (H1 a b r1 r2 E1 E2); congruence.
  - intros a r Ha. destruct (Hold a r Ha) as (r1 & E1 & _). by apply (H2 a r1).
  - intros a r Ha. destruct (Hold a r Ha) as (r1 & E1 & A1 & P1 & I1). rewrite A1, P1, I1. by apply (H3 a).
Qed.

Lemma update_slot_keeps fault id f t st t' : update_slot fault id f t = (st, t') -> slots_ok t ->
  (forall r, sl_account (f r) = sl_account r /\ sl_purpose (f r) = sl_purpose r /\ sl_index (f r) = sl_index r) ->
  slots_ok t'.
Proof. intros Hu Hok Hf. destruct (update_slot_ok fault id f t Hok Hf) as [H _]. by rewrite Hu in H. Qed.

Lemma alloc_ok fault now req t st r t' : slots_ok t -> counters_fit t ->
  alloc_slot fault now req t = (st, r, t') -> slots_ok t'.
Proof.
  intros Hok Hfit Ha. destruct Hok as [H1 H2 H3 H4 H5] eqn:E. clear E.
  destruct (alloc_cases _ _ _ _ _ _ _ Ha) as [(_ & -> & _)|(_ & Hfree & _ & Hl & Hc & row & Hs & A & P & I & _)].
  { by split. }
  set (name := counterName _ _) in *. set (cur := default 0 _) in *.
  assert (0 <= cur < M63 - 1) as Hcur.
  { unfold cur. destruct (sq_counters t !! name) as [c|] eqn:Ec; cbn; [|lia].
    specialize (H4 _ _ Ec). specialize (Hfit _ _ Ec). lia. }
  assert (i64 (u64 cur) = cur) as Hi by (rewrite i64_u64; apply i64_id; unfold is_i64; lia). rewrite Hi in *.
  assert (sq_slots t !! (sq_last t + 1) = None) as Hnew.
  { destruct (sq_slots t !! (sq_last t + 1)) as [r0|] eqn:E0; [|done]. specialize (H2 _ _ E0). lia. }
  assert (forall a r, sq_slots t !! a = Some r -> sl_purpose r = al_Purpose req -> sl_index r <> cur) as Hno.
  { intros a r0 E0 P0 I0. assert (index_taken t (al_Purpose req) cur = true) as Ht; [|congruence].
    apply index_taken_spec. eauto. }
  split; rewrite ?Hs, ?Hc, ?Hl.
  - intros a b ra rb [[<- <-]|[Hna Ea]]%lookup_insert_Some [[<- <-]|[Hnb Eb]]%lookup_insert_Some Hp Hix; [done|..].
    + destruct (Hno b rb Eb); congruence.
    + destruct (Hno a ra Ea); congruence.
    + by apply (H1 a b ra rb).
  - intros a r0 [[<- <-]|[Hna Ea]]%lookup_insert_Some; [lia|]. specialize (H2 _ _ Ea). lia.
  - intros a r0 [[<- <-]|[Hna Ea]]%lookup_insert_Some.
    + rewrite A, P, I. exists (cur + 1). split; [apply lookup_insert_eq|lia].
    + destruct (H3 _ _ Ea) as (c & Ec & Hcr). destruct (decide (counterName (sl_account r0) (sl_purpose r0) = name)) as [En|En].
      * rewrite En in *. exists (cur + 1). rewrite lookup_insert_eq. split; [done|].
        unfold cur. rewrite Ec. cbn. lia.
      * exists c. by rewrite lookup_insert_ne.
  - intros k c [[<- <-]|[Hnk Ek]]%lookup_insert_Some; [lia|]. by apply (H4 k).
  - lia.
Qed.

(** C31. Whatever requests arrive and whichever statements fail, from the empty schema on the slots
    keep distinct ids and, per purpose, distinct indexes, all below their counter. *)
Theorem slots_invariant t t' : slots_ok t -> counters_fit t -> sstep t t' -> slots_ok t'.
Proof.
  intros Hok Hfit Hs. destruct Hs as [fault now method body t st r t' Ha|fault method body t st t' Ha|fault method body t st t' Ha].
  - unfold handleAllocSlot in Ha. destruct (negb _); [by injection Ha as <- <- <-|].
    destruct body as [req|?|]; [by eapply alloc_ok|by injection Ha as <- <- <-..].
  - unfold handleMarkConfirmed in Ha. destruct (negb _); [by injection Ha as <- <-|].
    destruct body as [req|?|]; [by apply update_slot_keeps in Ha|by injection Ha as <- <-..].
  - unfold handleSlotSetHash in Ha. destruct (negb _); [by injection Ha as <- <-|].
    destruct body as [req|?|]; [|by injection Ha as <- <-..].
    unfold slot_set_hash in Ha. destruct (hex_DecodeString _) as [hb|?|]; [|by injection Ha as <- <-..].
    destruct (negb _); [by injection Ha as <- <-|].
    by apply update_slot_keeps in Ha.
Qed.

Definition no_fault : stmt -> bool := fun _ => false.

(** The answers to [k] requests of one account and purpose, one after the other. *)
Fixpoint alloc_many (k : nat) (now : Z) (req : allocSlotReq) (t : tables) : list (option allocSlotResp) * tables :=
  match k with
  | O => ([], t)
  | S k' => let '(_, r, t1) := handleAllocSlot no_fault now "POST" (Ret req) t in
            let '(rs, t2) := alloc_many k' now req t1 in (r :: rs, t2)
  end.

(** An account that has its purpose to itself gets the indexes from its counter on, one after the
    other, and ids above every earlier one. *)
Theorem indexes_consecutive k now req t : al_Purpose req <> "" ->
  let name := counterName (al_AccountID req) (al_Purpose req) in
  let cur := default 0 (sq_counters t !! name) in 0 <= cur -> cur + Z.of_nat k < M63 ->
  (forall a r, sq_slots t !! a = Some r -> sl_purpose r = al_Purpose req -> sl_index r < cur) ->
  (alloc_many k now req t).1 = map (fun i => Some {| ar_SlotID := sq_last t + 1 + Z.of_nat i;
    ar_DerivationIndex := cur + Z.of_nat i; ar_ExpiresAt := al_ExpiresAt req |}) (seq 0 k).
Proof.
  intros Hp name. cbv zeta. revert t. induction k as [|k IH]; intros t; [done|].
  set (cur := default 0 (sq_counters t !! name)). intros Hcur Hk Hidx. cbn [alloc_many].
  assert (i64 (u64 cur) = cur) as Hi by (rewrite i64_u64; apply i64_id; unfold is_i64; lia).
  change (handleAllocSlot no_fault now "POST" (Ret req) t) with (alloc_slot no_fault now req t).
  destruct (alloc_slot no_fault now req t) as [[st r] t1] eqn:Ha.
  destruct (alloc_cases _ _ _ _ _ _ _ Ha) as [(_ & _ & Hbad)|(_ & _ & Hr & Hl & Hc & row & Hs & _ & P & I & _)].
  { exfalso. unfold alloc_slot in Ha. destruct (String.eqb_spec (al_Purpose req) ""); [done|].
    cbn in Ha. fold name in Ha. fold cur in Ha. rewrite Hi in Ha.
    destruct (index_taken t (al_Purpose req) cur) eqn:Et.
    - apply index_taken_spec in Et as (a & r0 & E0 & P0 & I0). specialize (Hidx _ _ E0 P0). lia.
    - destruct (sq_counters t !! name); by injection Ha as <- <- <-. }
  fold name in Hr, Hc, I. fold cur in Hr, Hc, I. rewrite Hi in I.
  specialize (IH t1). rewrite Hc, lookup_insert_eq in IH. cbn [from_option id] in IH. unfold id in IH.
  destruct (alloc_many k now req t1) as [rs t2]. cbn [fst] in *.
  rewrite IH; [|lia|lia|].
  - rewrite Hr, Hl. cbn [seq map]. rewrite u64_id by (unfold is_u64; lia). f_equal.
    + do 2 f_equal; lia.
    + rewrite <- seq_shift, map_map. apply map_ext. intros i. do 2 f_equal; lia.
  - rewrite Hs. intros a r0 [[<- <-]|[_ E0]]%lookup_insert_Some P0; [lia|]. specialize (Hidx _ _ E0 P0). lia.
Qed.

(** With index 0 taken by another account, a first request fails. *)
Lemma alloc_taken fault now t a row req : sq_slots t !! a = Some row -> sl_index row = 0 ->
  al_Purpose req = sl_purpose row -> al_Purpose req <> "" ->
  sq_counters t !! counterName (al_AccountID req) (al_Purpose req) = None ->
  exists st, alloc_slot fault now req t = (st, None, t) /\ st <> 200.
Proof.
  intros Ha Hi Hp Hne Hc. destruct (alloc_slot fault now req t) as [[st r] t1] eqn:Hal.
  destruct (alloc_cases _ _ _ _ _ _ _ Hal) as [(-> & -> & Hst)|(_ & Hfree & _)]; [by exists st|].
  exfalso. rewrite Hc in Hfree. change (i64 (u64 (default 0 None))) with 0 in Hfree.
  assert (index_taken t (al_Purpose req) 0 = true) as Ht; [|congruence].
  apply index_taken_spec. eauto.
Qed.

(** Once an account has taken index 0 of a purpose, another account never gets a slot for the same
    purpose: every request fails and changes nothing, however often it is repeated. *)
Theorem second_account_gets_nothing k now t a row req : sq_slots t !! a = Some row -> sl_index row = 0 ->
  al_Purpose req = sl_purpose row -> al_Purpose req <> "" ->
  sq_counters t !! counterName (al_AccountID req) (al_Purpose req) = None ->
  alloc_many k now req t = (replicate k None, t).
Proof.
  intros Ha Hi Hp Hne Hc. induction k as [|k IH]; [done|]. cbn [alloc_many replicate].
  change (handleAllocSlot no_fault now "POST" (Ret req) t) with (alloc_slot no_fault now req t).
  destruct (alloc_taken no_fault now t a row req) as (st & -> & _); [done..|]. by rewrite IH.
Qed.
