(* ===== verification/FinalityProps.v ===== *)
(** * Properties of finality voting *)

From S2P Require Import Prelude GoLang KV Chain Storage StorageProps State StateProps Config Crypto Validate Apply Frame Finality.

(** ** The signed message *)
Section Message.
Context {HS : Hashes}.

Definition no_bar (s : string) : Prop := ~ In "|"%char (str_list s).

Lemma FormatUint_no_bar v : no_bar (FormatUint v).
Proof. intros H%FormatUint_digits. done. Qed.

(** A text is cut at its first bar in one way. *)
Lemma bar_cut a b s t : no_bar a -> no_bar b -> a +:+ "|" +:+ s = b +:+ "|" +:+ t -> a = b /\ s = t.
Proof.
  revert b. induction a as [|c a IH]; intros [|c' b] Ha Hb He; simpl in He.
  - injection He as E. done.
  - injection He as <- _. exfalso. apply Hb. by left.
  - injection He as -> _. exfalso. apply Ha. by left.
  - injection He as -> He. destruct (IH b) as [-> ->]; [| |done|done].
    + intros H. apply Ha. by right.
    + intros H. apply Hb. by right.
Qed.

(** A vote signature binds chain, height and block: for chain identifiers without a
    vertical bar, equal messages come from the same chain, height and block hash, or
    exhibit a SHA-256 collision. *)
Theorem VoteMessage_binding c1 c2 h1 h2 b1 b2 : no_bar c1 -> no_bar c2 -> is_u64 h1 -> is_u64 h2 ->
  VoteMessage c1 h1 b1 = VoteMessage c2 h2 b2 ->
  (c1 = c2 /\ h1 = h2 /\ b1 = b2) \/
  (vote_text c1 h1 b1 <> vote_text c2 h2 b2 /\
   sha256 (vote_text c1 h1 b1) = sha256 (vote_text c2 h2 b2)).
Proof.
  intros H1 H2 U1 U2 He. destruct (decide (vote_text c1 h1 b1 = vote_text c2 h2 b2)) as [E|E];
    [left|by right].
  unfold vote_text in E. apply str_app_inj_l in E.
  apply bar_cut in E as [-> E]; [|done..].
  apply bar_cut in E as [E ->]; [|apply FormatUint_no_bar..].
  by apply FormatUint_inj in E as ->.
Qed.
End Message.

(** ** Quorums *)

Definition eligible (v : Validator) : bool := negb (va_Slashed v) && (0 <? va_Weight v).

(** The weight of all eligible validators. *)
Fixpoint total_weight (vals : list Validator) : Z :=
  match vals with
  | [] => 0
  | v :: vals' => (if eligible v then va_Weight v else 0) + total_weight vals'
  end.

(** The weight the registry gives a key: that of its last eligible entry. *)
Fixpoint weight_map (m : gmap string Z) (vals : list Validator) : gmap string Z :=
  match vals with
  | [] => m
  | v :: vals' => weight_map (if eligible v then <[va_PubkeyHex v := va_Weight v]> m else m) vals'
  end.

Definition weight_of (vals : list Validator) (pub : string) : Z :=
  default 0 (weight_map ∅ vals !! pub).

(** The weight behind a block. *)
Fixpoint support (w : string -> Z) (votes : list VoteRecord) (hash : string) : Z :=
  match votes with
  | [] => 0
  | v :: votes' => (if decide (vr_BlockHash v = hash) then w (vr_PubkeyHex v) else 0)
                   + support w votes' hash
  end.

Fixpoint sum_over (w : string -> Z) (pubs : list string) : Z :=
  match pubs with [] => 0 | p :: pubs' => w p + sum_over w pubs' end.

Lemma total_weight_nonneg vals : 0 <= total_weight vals.
Proof. induction vals as [|v vals IH]; simpl; [lia|]. unfold eligible. case_goal; zbool; lia. Qed.

Lemma sum_over_insert (m : gmap string Z) pubs q w : NoDup pubs -> 0 <= w -> (forall p, 0 <= default 0 (m !! p)) ->
  sum_over (fun p => default 0 (<[q := w]> m !! p)) pubs <= sum_over (fun p => default 0 (m !! p)) pubs + w.
Proof.
  intros Hnd Hw Hm.
  assert (forall l, q ∉ l -> sum_over (fun p => default 0 (<[q := w]> m !! p)) l =
                        sum_over (fun p => default 0 (m !! p)) l) as Hout.
  { induction l as [|p l IH]; intros Hl; simpl; [done|]. rewrite not_elem_of_cons in Hl.
    rewrite lookup_insert_ne, IH by naive_solver. done. }
  induction Hnd as [|p l Hp Hnd IH]; simpl; [lia|].
  destruct (decide (p = q)) as [->|Hne].
  - rewrite lookup_insert_eq, Hout by done. simpl. specialize (Hm q). lia.
  - rewrite lookup_insert_ne by done. lia.
Qed.

Lemma weight_map_nonneg vals (m : gmap string Z) : (forall p, 0 <= default 0 (m !! p)) ->
  forall p, 0 <= default 0 (weight_map m vals !! p).
Proof.
  revert m. induction vals as [|v vals IH]; intros m Hm p; simpl; [done|]. apply IH.
  unfold eligible. case_goal; [|done]. zbool. intros q.
  destruct (decide (q = va_PubkeyHex v)) as [->|Hne];
    [rewrite lookup_insert_eq; simpl; lia|by rewrite lookup_insert_ne].
Qed.

(** Distinct voters together have at most the total weight. *)
Lemma voters_weight vals (m : gmap string Z) pubs : NoDup pubs -> (forall p, 0 <= default 0 (m !! p)) ->
  sum_over (fun p => default 0 (weight_map m vals !! p)) pubs <=
    sum_over (fun p => default 0 (m !! p)) pubs + total_weight vals.
Proof.
  revert m. induction vals as [|v vals IH]; intros m Hnd Hm; simpl; [lia|].
  unfold eligible. destruct (negb (va_Slashed v) && (0 <? va_Weight v)) eqn:E.
  - zbool. pose proof (sum_over_insert m pubs (va_PubkeyHex v) (va_Weight v) Hnd ltac:(lia) Hm).
    pose proof (IH (<[va_PubkeyHex v := va_Weight v]> m) Hnd) as H'.
    specialize (H' ltac:(intros q; destruct (decide (q = va_PubkeyHex v)) as [->|];
      [rewrite lookup_insert_eq; simpl; lia|by rewrite lookup_insert_ne])). lia.
  - specialize (IH m Hnd Hm). lia.
Qed.

Lemma weight_of_nonneg vals p : 0 <= weight_of vals p.
Proof. apply weight_map_nonneg. intros q. by rewrite lookup_empty. Qed.

Lemma voters_total vals pubs : NoDup pubs -> sum_over (weight_of vals) pubs <= total_weight vals.
Proof.
  intros Hnd.
  pose proof (voters_weight vals ∅ pubs Hnd ltac:(intros q; by rewrite lookup_empty)) as H.
  assert (forall l, sum_over (fun p => default 0 ((∅ : gmap string Z) !! p)) l = 0) as H0.
  { induction l as [|p l IH]; simpl; [done|]. by rewrite lookup_empty, IH. }
  rewrite H0 in *. unfold weight_of. lia.
Qed.

Lemma support_two w votes h1 h2 : (forall p, 0 <= w p) -> h1 <> h2 ->
  0 <= support w votes h1 /\
  support w votes h1 + support w votes h2 <= sum_over w (List.map vr_PubkeyHex votes).
Proof.
  intros Hw Hne. induction votes as [|v votes IH]; simpl; [lia|].
  specialize (Hw (vr_PubkeyHex v)). repeat case_decide; subst; try done; lia.
Qed.

Lemma support_le w votes h : (forall p, 0 <= w p) ->
  0 <= support w votes h <= sum_over w (List.map vr_PubkeyHex votes).
Proof.
  intros Hw. induction votes as [|v votes IH]; simpl; [lia|].
  specialize (Hw (vr_PubkeyHex v)). case_decide; lia.
Qed.

(** Two thirds of the weight stand behind at most one block. *)
Lemma quorum_unique vals votes h1 h2 : NoDup (List.map vr_PubkeyHex votes) -> 0 < total_weight vals ->
  2 * total_weight vals <= 3 * support (weight_of vals) votes h1 ->
  2 * total_weight vals <= 3 * support (weight_of vals) votes h2 -> h1 = h2.
Proof.
  intros Hnd Hpos H1 H2. destruct (decide (h1 = h2)) as [|Hne]; [done|].
  pose proof (support_two (weight_of vals) votes h1 h2 (weight_of_nonneg vals) Hne).
  pose proof (voters_total vals _ Hnd). lia.
Qed.

(** ** TryFinalizeHeight *)

Lemma weight_fold vals m t : 0 <= t -> t + total_weight vals < M63 ->
  fold_left weight_step vals (m, t) = (weight_map m vals, t + total_weight vals).
Proof.
  revert m t. induction vals as [|v vals IH]; intros m t Ht Hb; cbn [fold_left weight_map total_weight] in *.
  { by rewrite Z.add_0_r. }
  pose proof (total_weight_nonneg vals). unfold weight_step at 2. unfold eligible in *.
  destruct (va_Slashed v), (Z.leb_spec (va_Weight v) 0), (Z.ltb_spec 0 (va_Weight v));
    cbn [negb andb orb fst snd] in *; try lia; rewrite ?i64_id, IH by (unfold is_i64; lia); f_equal; lia.
Qed.

Lemma tally_fold (wm : gmap string Z) votes (t : gmap string Z) h : (forall p, 0 <= default 0 (wm !! p)) ->
  (forall x, 0 <= default 0 (t !! x)) ->
  (forall x, default 0 (t !! x) + sum_over (fun p => default 0 (wm !! p)) (List.map vr_PubkeyHex votes) < M63) ->
  default 0 (fold_left (tally_step wm) votes t !! h) =
    default 0 (t !! h) + support (fun p => default 0 (wm !! p)) votes h.
Proof.
  intros Hwm. revert t. induction votes as [|v votes IH]; intros t Ht Hb; cbn [fold_left support] in *.
  { lia. }
  pose proof (Hwm (vr_PubkeyHex v)) as Hw. cbn [List.map sum_over] in Hb.
  assert (0 <= sum_over (fun p => default 0 (wm !! p)) (List.map vr_PubkeyHex votes)) as Hs.
  { clear -Hwm. induction votes as [|v votes IH]; cbn; [lia|]. specialize (Hwm (vr_PubkeyHex v)). lia. }
  unfold tally_step at 2. destruct (Z.leb_spec (default 0 (wm !! vr_PubkeyHex v)) 0) as [H0|H0].
  { rewrite IH; [case_decide; lia|done|]. intros x. specialize (Hb x). lia. }
  set (t' := <[_ := _]> t).
  assert (forall x, default 0 (t' !! x) = default 0 (t !! x) +
            if decide (vr_BlockHash v = x) then default 0 (wm !! vr_PubkeyHex v) else 0) as Ht'.
  { intros x. unfold t'. destruct (decide (vr_BlockHash v = x)) as [<-|Hne].
    - rewrite lookup_insert_eq. cbn. specialize (Ht (vr_BlockHash v)). specialize (Hb (vr_BlockHash v)).
      apply i64_id. unfold is_i64. lia.
    - rewrite lookup_insert_ne by done. lia. }
  rewrite IH.
  - rewrite Ht'. lia.
  - intros x. rewrite Ht'. specialize (Ht x). case_decide; lia.
  - intros x. rewrite Ht'. specialize (Hb x). case_decide; lia.
Qed.

Lemma best_fold l b0 : let b := fold_left best_step l b0 in
  b0.2 <= b.2 /\ (forall e, In e l -> e.2 <= b.2) /\ (b = b0 \/ In b l).
Proof.
  revert b0. induction l as [|e l IH]; intros b0; cbn [fold_left]; [split_and!; [lia|done|by left]|].
  destruct (IH (best_step b0 e)) as (H1 & H2 & H3). unfold best_step in *.
  destruct (Z.ltb_spec b0.2 e.2); (split_and!; [lia| |]).
  - intros e' [<-|He']; [lia|auto].
  - destruct H3 as [->|H3]; [right; by left|right; by right].
  - intros e' [<-|He']; [lia|auto].
  - destruct H3 as [->|H3]; [by left|right; by right].
Qed.

Section Weighted.
Context {L : LevelDB} {HL : LevelDBOk L} {CD : Codecs} {MO : MapOrder} {HMO : MapOrderOk MO}.

(** The winner of the tally, in whatever order the map is visited. *)
Lemma best_of_tally vals votes : NoDup (List.map vr_PubkeyHex votes) -> total_weight vals < M63 ->
  let best := fold_left best_step (range (fold_left (tally_step (weight_map ∅ vals)) votes ∅)) ("", 0) in
  0 <= best.2 /\ (forall h, support (weight_of vals) votes h <= best.2) /\
  (0 < best.2 -> best.2 = support (weight_of vals) votes best.1).
Proof.
  intros Hnd Hb. set (t := fold_left _ votes ∅). cbv zeta.
  assert (forall h, default 0 (t !! h) = support (weight_of vals) votes h) as Ht.
  { intros h. unfold t. rewrite tally_fold.
    - by rewrite lookup_empty.
    - apply weight_of_nonneg.
    - intros x. by rewrite lookup_empty.
    - intros x. rewrite lookup_empty. cbn. pose proof (voters_total vals _ Hnd) as Hv.
      unfold weight_of in Hv. lia. }
  destruct (best_fold (range t) ("", 0)) as (H1 & H2 & H3). set (best := fold_left _ _ _) in *.
  assert (forall e, In e (range t) <-> t !! e.1 = Some e.2) as Hr.
  { intros [k v]. rewrite <- list_elem_of_In, (range_perm _ t), elem_of_map_to_list. done. }
  split_and!; [done| |].
  - intros h. rewrite <- Ht. destruct (t !! h) as [w|] eqn:E; [|done].
    apply (H2 (h, w)), Hr, E.
  - intros Hpos. destruct H3 as [E|H3%Hr]; [rewrite E in Hpos; simpl in Hpos; lia|]. by rewrite <- Ht, H3.
Qed.

(** The three writes of a finalization. *)
Lemma finalize_writes height hash d : (forall cp : Checkpoint, json_marshal cp <> Panic) ->
  exists d', (gignore tt (SetFinalizedHeight height) ;;;
              gignore tt (SetFinalizedHash hash) ;;;
              gignore tt (PutCheckpoint height
                {| cp_Height := height; cp_HashHex := hash; cp_TimeUnix := 0 |})) d = (Ret tt, d') /\
    forall k, k <> keyCheckpoint height -> db_view d' !! k =
      if decide (k = keyFinalized) then Some (BE_PutUint64 height)
      else if decide (k = keyFinalizedHash) then Some hash else db_view d !! k.
Proof.
  intros Hj. unfold SetFinalizedHeight, SetFinalizedHash, PutCheckpoint, put_be64, put_json.
  erewrite gbind_ret by (eapply gignore_ret, db_put_ok).
  erewrite gbind_ret by (eapply gignore_ret, db_put_ok).
  unfold gignore, gbind, glift. specialize (Hj {| cp_Height := height; cp_HashHex := hash; cp_TimeUnix := 0 |}).
  destruct (json_marshal _) as [b|e|]; [rewrite db_put_ok| |done]; (eexists; split; [reflexivity|]);
    intros k Hk; rewrite !db_view_ins, ?(lookup_insert_ne _ (keyCheckpoint height)) by done;
    repeat case_decide; subst; by simplify_map_eq.
Qed.

(** C2. Weighted finality: the call finalizes a block exactly when the height is above the
    finalized one and two thirds of the eligible weight voted for it; there is at most one
    such block, so the result does not depend on the order in which the tally is visited;
    then height, hash and checkpoint are written and no other entry, and in every other
    case nothing is. *)
Theorem TryFinalizeHeight_quorum ListVotes height votes vals d :
  ListVotes height 5000 d = (Ret votes, d) -> ListValidators 5000 d = (Ret vals, d) ->
  NoDup (List.map vr_PubkeyHex votes) -> total_weight vals * 3 < M63 ->
  is_u64 height -> cell_ok (db_view d) keyFinalized ->
  (forall cp : Checkpoint, json_marshal cp <> Panic) ->
  let quorum h := 0 < total_weight vals /\
    2 * total_weight vals <= 3 * support (weight_of vals) votes h in
  exists d', TryFinalizeHeight ListVotes height d = (Ret tt, d') /\
    ((exists hash, quorum hash /\ (forall h, quorum h -> h = hash) /\
        cell (db_view d) keyFinalized < height /\ cell (db_view d') keyFinalized = height /\
        db_view d' !! keyFinalizedHash = Some hash /\
        forall k, k <> keyFinalized -> k <> keyFinalizedHash -> k <> keyCheckpoint height ->
          db_view d' !! k = db_view d !! k) \/
     (((forall h, ~ quorum h) \/ height <= cell (db_view d) keyFinalized) /\ d' = d)).
Proof.
  intros Hv Hl Hnd Hw Hh Hc Hj quorum. pose proof (total_weight_nonneg vals) as Ht0.
  unfold TryFinalizeHeight. erewrite gbind_ret by (apply gtry_ret; exact Hv). cbv beta iota.
  erewrite gbind_ret by (apply gtry_ret; exact Hl). cbv beta iota.
  destruct (Nat.eqb_spec (length vals) 0) as [H0|_].
  { apply nil_length_inv in H0 as ->. exists d. split; [done|right]. split; [left|done].
    intros h [Hq _]. simpl in Hq. lia. }
  rewrite weight_fold by lia. rewrite Z.add_0_l.
  destruct (Z.leb_spec (total_weight vals) 0).
  { exists d. split; [done|right]. split; [left|done]. intros h [Hq _]. lia. }
  destruct (best_of_tally vals votes Hnd ltac:(lia)) as (Hb0 & Hmax & Heq).
  cbv zeta. set (best := fold_left best_step _ _) in *. destruct best as [bh bw]. cbn [fst snd] in *.
  assert (bw <= total_weight vals) as Hbw.
  { destruct (Z.eq_dec bw 0) as [->|]; [lia|]. rewrite Heq by lia.
    pose proof (support_le (weight_of vals) votes bh (weight_of_nonneg vals)).
    pose proof (voters_total vals _ Hnd). lia. }
  rewrite !i64_id by (unfold is_i64; lia).
  destruct (Z.ltb_spec (bw * 3) (total_weight vals * 2)).
  { exists d. split; [done|right]. split; [left|done]. intros h [_ Hq]. specialize (Hmax h). lia. }
  assert (quorum bh) as Hq by (split; [lia|rewrite <- Heq by lia; lia]).
  erewrite gbind_ret by (by apply gignore_ret, get_be64_len8_run).
  assert (default 0 (option_map be_get (db_view d !! keyFinalized)) = cell (db_view d) keyFinalized) as ->
    by (unfold cell; by destruct (db_view d !! keyFinalized)).
  destruct (Z.ltb_spec (cell (db_view d) keyFinalized) height) as [Hlt|Hge];
    [|exists d; split; [done|right; split; [by right|done]]].
  destruct (finalize_writes height bh d Hj) as (d' & -> & Hd').
  exists d'. split; [done|left]. exists bh. split_and!; [done| |done| | |].
  - intros h [_ Hqh]. destruct Hq as [Hq1 Hq2]. by apply (quorum_unique vals votes).
  - unfold cell. rewrite Hd', decide_True by done. unfold BE_PutUint64. rewrite be_get_put.
    change (256 ^ Z.of_nat 8) with M64. by apply Z.mod_small.
  - rewrite Hd', decide_False, decide_True by done. done.
  - intros k K1 K2 K3. rewrite Hd' by done. by rewrite !decide_False.
Qed.
End Weighted.

(** ** tryFinalizeHeight with a validator registry *)

(** The weight of the entries that are not slashed. *)
Fixpoint registry_weight (vals : list Validator) : Z :=
  match vals with
  | [] => 0
  | v :: vals' => (if va_Slashed v then 0 else va_Weight v) + registry_weight vals'
  end.

Section Registry.
Context {L : LevelDB} {HL : LevelDBOk L} {HS : Hashes} {CD : Codecs} {ED : Ed25519}.
Context (n : FinNode) (genesis : Genesis) (hashHex : string) (height : Z).

(** One vote adds the whole registry to the total and at most one entry to the signed
    weight. *)
Lemma tally_registry_step vals vr total signed :
  NoDup (List.map va_PubkeyHex vals) -> (forall v, In v vals -> 0 <= va_Weight v) ->
  0 <= total -> 0 <= signed <= total -> total + registry_weight vals < M63 ->
  exists x, tally_registry genesis hashHex height vals vr (total, signed) =
      (total + registry_weight vals, signed + x) /\ 0 <= x <= registry_weight vals /\
    (x = 0 \/ exists v, In v vals /\ x = va_Weight v /\ va_PubkeyHex v = vr_PubkeyHex vr).
Proof.
  unfold tally_registry. revert total signed.
  induction vals as [|v vals IH]; intros total signed Hnd Hw Ht Hs Hb; cbn [fold_left registry_weight List.map] in *.
  { exists 0. rewrite !Z.add_0_r. split_and!; [done|lia..|by left]. }
  rewrite NoDup_cons in Hnd. destruct Hnd as [Hni Hnd].
  assert (0 <= va_Weight v) as Hv by (apply Hw; by left).
  assert (forall w, In w vals -> 0 <= va_Weight w) as Hw' by (intros w Hin; apply Hw; by right).
  assert (0 <= registry_weight vals) as Hr.
  { clear -Hw'. induction vals as [|w vals IH]; simpl; [lia|].
    pose proof (Hw' w (or_introl eq_refl)). case_goal; specialize (IH (fun x Hx => Hw' x (or_intror Hx))); lia. }
  assert (forall x, (x = 0 \/ exists w, In w vals /\ x = va_Weight w /\ va_PubkeyHex w = vr_PubkeyHex vr) ->
    x = 0 \/ exists w, (v = w \/ In w vals) /\ x = va_Weight w /\ va_PubkeyHex w = vr_PubkeyHex vr) as Hlift
    by naive_solver.
  destruct (va_Slashed v) eqn:Esl.
  { cbn [registry_step]. rewrite Esl. destruct (IH total signed) as (x & He & Hx & Hor); [done|done|lia|lia|lia|].
    exists x. rewrite He. split_and!; [f_equal; lia|lia|lia|by apply Hlift]. }
  assert (exists x, fold_left (registry_step genesis hashHex height vr) vals (total + va_Weight v, signed) =
            (total + (va_Weight v + registry_weight vals), signed + x) /\
            0 <= x <= va_Weight v + registry_weight vals /\
            (x = 0 \/ exists w, (v = w \/ In w vals) /\ x = va_Weight w /\ va_PubkeyHex w = vr_PubkeyHex vr)) as Hno.
  { destruct (IH (total + va_Weight v) signed) as (x & He & Hx & Hor); [done|done|lia|lia|lia|].
    exists x. rewrite He. split_and!; [f_equal; lia|lia|lia|by apply Hlift]. }
  cbn [registry_step]. rewrite Esl, (i64_id (total + va_Weight v)) by (unfold is_i64; lia).
  destruct (String.eqb_spec (va_PubkeyHex v) (vr_PubkeyHex vr)) as [Hp|Hp]; cbn [negb]; [|exact Hno].
  destruct (ParsePub (va_PubkeyHex v)); [|exact Hno..].
  destruct (VerifyVote _ _ _ _ _); [|exact Hno].
  rewrite (i64_id (signed + va_Weight v)) by (unfold is_i64; lia).
  destruct (IH (total + va_Weight v) (signed + va_Weight v)) as (x & He & Hx & Hor); [done|done|lia|lia|lia|].
  destruct Hor as [->|(w & Hin & _ & Hpw)].
  - exists (va_Weight v). rewrite He. split_and!; [f_equal; lia|lia|lia|right; exists v; split_and!; [by left|done|done]].
  - exfalso. apply Hni. apply list_elem_of_In, in_map_iff. exists w. split; [congruence|done].
Qed.

(** With every single weight below two thirds, so is the signed weight of the tally. *)
Lemma tally_votes_short vals votes total signed :
  NoDup (List.map va_PubkeyHex vals) -> (forall v, In v vals -> 0 <= va_Weight v) ->
  (forall v, In v vals -> va_Weight v * 3 < registry_weight vals * 2) -> 0 < registry_weight vals ->
  0 <= total -> 0 <= signed <= total -> (0 < total -> signed * 3 < total * 2) ->
  total + Z.of_nat (length votes) * registry_weight vals < M63 ->
  let '(total', signed') := fold_left (fun acc vr =>
    if negb (vr_BlockHash vr =? hashHex)%string || negb (vr_ChainID vr =? g_ChainID genesis)%string
    then acc else tally_registry genesis hashHex height vals vr acc) votes (total, signed) in
  0 <= signed' <= total' /\ (0 < total' -> signed' * 3 < total' * 2) /\
  total' <= total + Z.of_nat (length votes) * registry_weight vals.
Proof.
  intros Hnd Hw Hshort Hpos. revert total signed.
  induction votes as [|vr votes IH]; intros total signed Ht Hs H23 Hb; cbn [fold_left length] in *.
  { split_and!; [lia|lia|done|lia]. }
  rewrite Nat2Z.inj_succ in Hb.
  destruct (negb _ || negb _).
  { specialize (IH total signed Ht Hs H23 ltac:(lia)). destruct (fold_left _ votes _) as [t' s'].
    destruct IH as (H1 & H2 & H3). split_and!; [lia|lia|done|lia]. }
  destruct (tally_registry_step vals vr total signed Hnd Hw Ht Hs ltac:(nia)) as (x & -> & Hx & Hor).
  assert (x * 3 < registry_weight vals * 2) as Hx3
    by (destruct Hor as [->|(v & Hin & -> & _)]; [lia|by apply Hshort]).
  specialize (IH (total + registry_weight vals) (signed + x) ltac:(lia) ltac:(lia)).
  specialize (IH ltac:(intros _; destruct (Z.eq_dec total 0); [lia|specialize (H23 ltac:(lia)); lia]) ltac:(nia)).
  destruct (fold_left _ votes _) as [t' s']. destruct IH as (H1 & H2 & H3).
  split_and!; [lia|lia|done|nia].
Qed.

(** C40. With a validator registry [tryFinalizeHeight] adds the weight of the whole registry
    to the total once per counted vote.  At the default threshold 2/3 it therefore never
    finalizes anything unless a single validator holds two thirds of the weight, however
    many validators sign. *)
Theorem registry_finality_stalls now vals votes d :
  ListVotesForHeight height d = (Ret votes, d) -> ListValidators 5000 d = (Ret vals, d) ->
  vals <> [] -> NoDup (List.map va_PubkeyHex vals) -> (forall v, In v vals -> 0 <= va_Weight v) ->
  (forall v, In v vals -> va_Weight v * 3 < registry_weight vals * 2) ->
  Z.of_nat (length votes) * registry_weight vals * 3 < M63 ->
  thresholdNum n = 2 -> thresholdDen n = 3 ->
  tryFinalizeHeight n genesis now height hashHex d = (Ret tt, d).
Proof.
  intros Hv Hl Hne Hnd Hw Hshort Hb Hnum Hden.
  assert (0 < registry_weight vals) as Hpos.
  { destruct vals as [|v vals]; [done|]. specialize (Hshort v (or_introl eq_refl)).
    specialize (Hw v (or_introl eq_refl)). lia. }
  unfold tryFinalizeHeight. erewrite gbind_ret by exact Hv.
  erewrite gbind_ret by (apply gtry_ret; exact Hl). cbv beta iota.
  destruct vals as [|v0 vals']; [done|]. cbn [length Nat.eqb]. set (vals := v0 :: vals') in *.
  unfold tally_votes.
  pose proof (tally_votes_short vals votes 0 0 Hnd Hw Hshort Hpos) as Htally.
  specialize (Htally ltac:(lia) ltac:(lia) ltac:(lia) ltac:(nia)).
  destruct (fold_left _ votes (0, 0)) as [t s]. destruct Htally as (H1 & H2 & H3).
  destruct (Z.eqb_spec t 0); [done|]. unfold ReachedThreshold. rewrite Hnum, Hden.
  rewrite (proj2 (Z.leb_gt t 0)) by lia. rewrite !i64_id by (unfold is_i64; lia).
  rewrite (proj2 (Z.leb_gt (t * 2) (s * 3))) by lia. done.
Qed.
End Registry.

(** ** Votes taken from peers *)

Definition vote_key (k : string) : Prop := exists h p, k = keyVote h p.

Lemma keeps_ListVotesForHeight {L : LevelDB} {HL : LevelDBOk L} {CD : Codecs} P h :
  keeps P (ListVotesForHeight h).
Proof. unfold ListVotesForHeight. frame. Qed.
Lemma keeps_ListValidators {L : LevelDB} {HL : LevelDBOk L} {CD : Codecs} P m :
  keeps P (ListValidators m).
Proof. unfold ListValidators. frame. Qed.
#[export] Hint Resolve keeps_ListVotesForHeight keeps_ListValidators : frame.

Section Ingest.
Context {L : LevelDB} {HL : LevelDBOk L} {HS : Hashes} {CD : Codecs} {ED : Ed25519}.
Context {U : Utf8 VoteRecord} {HJ : JSONOk VoteRecord}.
Context (n : FinNode) (cfg : Config) (genesis : Genesis).

Lemma vote_not_finality h p : keyVote h p <> keyFinalizedHeight /\ keyVote h p <> keyFinalizedHash_meta /\
  forall h', keyVote h p <> keyCheckpoint h'.
Proof. done. Qed.

Lemma keeps_tryFinalizeHeight now h x : keeps vote_key (tryFinalizeHeight n genesis now h x).
Proof.
  assert (~ vote_key keyFinalizedHeight /\ ~ vote_key keyFinalizedHash_meta /\
          forall h', ~ vote_key (keyCheckpoint h')) as (K1 & K2 & K3).
  { split_and!; [|intros|intros]; intros (h0 & p0 & E); symmetry in E; revert E; apply vote_not_finality. }
  unfold tryFinalizeHeight, PutFinalized, PutCheckpoint. frame.
Qed.

(** The record is signed by the key it names, for this chain. *)
Definition vote_verified (r : VoteRecord) : Prop :=
  vr_ChainID r = g_ChainID genesis /\
  exists pub, ParsePub (vr_PubkeyHex r) = Ret pub /\
    VerifyVote pub (vr_SigHex r) (vr_ChainID r) (vr_Height r) (vr_BlockHash r) = true.

(** Every vote of the table decodes, agrees with its key and is signed. *)
Definition votes_verified (d : db_t) : Prop :=
  forall h p b, is_u64 h -> db_view d !! keyVote h p = Some b ->
    exists r, json_unmarshal b = Ret r /\ vr_Height r = h /\ vr_PubkeyHex r = p /\ vote_verified r.

(** [d'] has the votes of [d], and maybe more. *)
Definition votes_extend (d d' : db_t) : Prop :=
  forall k b, vote_key k -> db_view d !! k = Some b -> db_view d' !! k = Some b.

(** What reaches [ingestVote] was decoded from JSON into the record. *)
Definition wire_vote (r : VoteRecord) : Prop := utf8_ok r = true /\ is_u64 (vr_Height r).

Lemma HasVote_run h p d :
  HasVote h p d = (Ret (match db_view d !! keyVote h p with Some _ => true | None => false end), d).
Proof. unfold HasVote, has_key. by erewrite gbind_ret by apply kv_get_ok. Qed.

(** From [d] on, [m] keeps the table verified and only adds to it. *)
Definition vstep {A} (m : GoM db_t A) (d : db_t) : Prop :=
  votes_verified d -> votes_verified (m d).2 /\ votes_extend d (m d).2.

Lemma vstep_keeps {A} (m : GoM db_t A) d : keeps vote_key m -> vstep m d.
Proof.
  intros Hk Hv. specialize (Hk d). unfold store_of, store_db in Hk. split.
  - intros h p b Hh. rewrite Hk by (by exists h, p). by apply Hv.
  - intros k b Hkk Hb. by rewrite Hk.
Qed.

Lemma vstep_bind {A B} (m : GoM db_t A) (f : A -> GoM db_t B) d :
  vstep m d -> (forall a d1, m d = (Ret a, d1) -> vstep (f a) d1) -> vstep (gbind m f) d.
Proof.
  intros Hm Hf Hv. destruct (Hm Hv) as [H1 H2]. unfold gbind.
  destruct (m d) as [[a|e|] d1] eqn:E; [|done..]. cbn [snd] in *.
  destruct (Hf a d1 eq_refl H1) as [H3 H4]. split; [done|]. intros k b Hk Hb. by apply H4, H2.
Qed.

Lemma vstep_ignore {A} (x : A) (m : GoM db_t A) d : vstep m d -> vstep (gignore x m) d.
Proof. intros Hm Hv. destruct (Hm Hv) as [H1 H2]. unfold gignore. by destruct (m d) as [[] d1]. Qed.

Lemma vstep_for {A} (l : list A) (f : A -> GoM db_t unit) d :
  (forall x d, In x l -> vstep (f x) d) -> vstep (gfor l f) d.
Proof.
  revert d. induction l as [|x l IH]; intros d Hf; cbn [gfor]; [apply vstep_keeps; frame|].
  apply vstep_bind; [apply Hf; by left|]. intros _ d1 _. apply IH. intros y d2 Hy. apply Hf. by right.
Qed.

Lemma vstep_PutVote vr d : wire_vote vr -> vote_verified vr ->
  db_view d !! keyVote (vr_Height vr) (vr_PubkeyHex vr) = None -> vstep (PutVote vr) d.
Proof.
  intros [Hu Hh] Hver Hnone Hv. destruct (PutVote_run vr d Hu) as (b & _ & Hd & ->).
  cbn [snd]. split.
  - intros h p b' Hh'. rewrite db_view_ins. intros [[Hk <-]|[_ Hb]]%lookup_insert_Some; [|by apply Hv].
    apply keyVote_inj in Hk as [<- <-]; [|done..]. by exists vr.
  - intros k b' _ Hb. rewrite db_view_ins, lookup_insert_ne; [done|]. intros <-. congruence.
Qed.

Lemma vstep_ingest now vr d : wire_vote vr -> vstep (ingestVote n genesis now vr) d.
Proof.
  intros Hwire. pose proof (fun d => vstep_keeps (gret tt) d (keeps_ret vote_key tt)) as Hret.
  unfold ingestVote. destruct (finalityEnabled n); [|done]. cbn [negb].
  destruct (String.eqb_spec (vr_ChainID vr) (g_ChainID genesis)) as [Hc|]; [|done]. cbn [negb].
  apply vstep_bind; [apply vstep_keeps; frame|]. intros vals d1 _. cbv zeta.
  destruct (_ =? "")%string; [done|].
  destruct (ParsePub (vr_PubkeyHex vr)) as [pub|e|] eqn:Hp; [|done..].
  destruct (VerifyVote _ _ _ _ _) eqn:Hver; [|done]. cbn [negb].
  destruct (List.find _ _); [|done].
  apply vstep_bind; [apply vstep_keeps; unfold HasVote, has_key; frame|].
  intros has d2 Hhas. rewrite HasVote_run in Hhas. injection Hhas as <- <-.
  apply vstep_bind; [|intros _ d3 _; apply vstep_ignore, vstep_keeps, keeps_tryFinalizeHeight].
  destruct (db_view d1 !! keyVote (vr_Height vr) (vr_PubkeyHex vr)) eqn:Hb; cbn [negb]; [done|].
  apply vstep_ignore, vstep_PutVote; [done|split; [done|by exists pub]|done].
Qed.

(** C12. Whatever peers answer in a round of vote exchange, every vote in the table afterwards
    is signed by the key it is filed under, for this chain, and a vote that was there is
    never replaced: the first vote of a key for a height stands. *)
Theorem pullVotes_first_vote_stands peer_votes now d :
  (forall peer h vs, peer_votes peer h = Ret vs -> Forall wire_vote vs) ->
  votes_verified d ->
  let d' := (pullVotesFromPeers n cfg genesis peer_votes now d).2 in
  votes_verified d' /\ votes_extend d d'.
Proof.
  intros Hw. assert (vstep (pullVotesFromPeers n cfg genesis peer_votes now) d) as H; [|by apply H].
  pose proof (fun d => vstep_keeps (gret tt) d (keeps_ret vote_key tt)) as Hret.
  unfold pullVotesFromPeers. destruct (Nat.eqb _ 0); [done|].
  apply vstep_bind; [apply vstep_keeps; frame|]. intros [[tipH x]|] d1 _; [|done].
  destruct (_ =? 0); [apply vstep_keeps; frame|]. cbv zeta.
  apply vstep_for. intros h d2 _. apply vstep_for. intros peer d3 _.
  destruct (peer_votes peer h) as [vs|e|] eqn:E; [|done..].
  apply vstep_for. intros vr d4 Hin. apply vstep_ignore, vstep_ingest.
  apply Hw in E. rewrite Forall_forall in E. by apply E, list_elem_of_In.
Qed.
End Ingest.
