(* ===== verification/Sync.v ===== *)
(** * core/node/sync_manager.go and the commit loops of node.go: fetching missing blocks

    The methods of [syncManager] hold its mutex from start to end, so each is one function on
    the record [syncManager].  The worker goroutines of [startSyncManager] call several of
    them in a row; they are a step relation in which the workers and the handlers of incoming
    messages interleave between calls.  [time.Now()] is the argument [now], in nanoseconds
    where the code keeps a [time.Time] and in seconds where it keeps a Unix time.  The
    configuration fields [Workers], [MaxInFlightBlocks], [MaxQueueFill] and [StrictLinear]
    are read and not declared; they are arguments, as are [ApplyBlock] and the block [blk]
    that [TryAdvanceTip] names without declaring it.  The braces of [startSyncManager] do not
    match; it is read as two kinds of goroutines, of which there are any number. *)

From stdpp Require Import relations.
From S2P Require Import Prelude GoLang KV Chain Storage State Config Crypto Validate Apply Mempool Forkchoice.

Record SyncStatus := {
  ss_Mode : string; ss_Peers : Z; ss_LastRequestedUnix : Z; ss_LastHeadersCount : Z;
  ss_LastHeaderHashes : list string; ss_InFlightBlocks : Z; ss_PendingBlocks : Z;
  ss_TipHeight : Z }.

Record syncManager := {
  sm_paused : bool;
  sm_failCount : gmap string Z;
  sm_lastFail : gmap string Z;
  sm_anchorOK : gmap string bool;
  sm_status : SyncStatus;
  sm_inflight : gmap string Z;
  sm_pending : list string;
  sm_lastAnchorHash : string;
  sm_lastAnchorHeight : Z }.

Definition status0 : SyncStatus :=
  {| ss_Mode := ""; ss_Peers := 0; ss_LastRequestedUnix := 0; ss_LastHeadersCount := 0;
     ss_LastHeaderHashes := []; ss_InFlightBlocks := 0; ss_PendingBlocks := 0; ss_TipHeight := 0 |}.

(** The literal of [startSyncManager]. *)
Definition new_syncManager : syncManager :=
  {| sm_paused := false; sm_failCount := ∅; sm_lastFail := ∅; sm_anchorOK := ∅;
     sm_status := status0; sm_inflight := ∅; sm_pending := []; sm_lastAnchorHash := "";
     sm_lastAnchorHeight := 0 |}.

(** Assignments to the fields. *)
Definition set_status (sm : syncManager) (s : SyncStatus) : syncManager :=
  {| sm_paused := sm_paused sm; sm_failCount := sm_failCount sm; sm_lastFail := sm_lastFail sm;
     sm_anchorOK := sm_anchorOK sm; sm_status := s; sm_inflight := sm_inflight sm;
     sm_pending := sm_pending sm; sm_lastAnchorHash := sm_lastAnchorHash sm;
     sm_lastAnchorHeight := sm_lastAnchorHeight sm |}.
Definition set_queues (sm : syncManager) (inflight : gmap string Z) (pending : list string)
    : syncManager :=
  {| sm_paused := sm_paused sm; sm_failCount := sm_failCount sm; sm_lastFail := sm_lastFail sm;
     sm_anchorOK := sm_anchorOK sm; sm_status := sm_status sm; sm_inflight := inflight;
     sm_pending := pending; sm_lastAnchorHash := sm_lastAnchorHash sm;
     sm_lastAnchorHeight := sm_lastAnchorHeight sm |}.
Definition status_headers (s : SyncStatus) (count : Z) (hashes : list string) : SyncStatus :=
  {| ss_Mode := ss_Mode s; ss_Peers := ss_Peers s; ss_LastRequestedUnix := ss_LastRequestedUnix s;
     ss_LastHeadersCount := count; ss_LastHeaderHashes := hashes;
     ss_InFlightBlocks := ss_InFlightBlocks s; ss_PendingBlocks := ss_PendingBlocks s;
     ss_TipHeight := ss_TipHeight s |}.
Definition status_queues (s : SyncStatus) (inflight pending : Z) : SyncStatus :=
  {| ss_Mode := ss_Mode s; ss_Peers := ss_Peers s; ss_LastRequestedUnix := ss_LastRequestedUnix s;
     ss_LastHeadersCount := ss_LastHeadersCount s; ss_LastHeaderHashes := ss_LastHeaderHashes s;
     ss_InFlightBlocks := inflight; ss_PendingBlocks := pending; ss_TipHeight := ss_TipHeight s |}.

Definition len {A} (l : list A) : Z := Z.of_nat (length l).
Definition map_len {A} (m : gmap string A) : Z := Z.of_nat (size m).

(** *** Methods *)

(** The last loop of [setHeaders]: [exists_] is the map [exists]. *)
Fixpoint add_missing (exists_ : gset string) (pending hashes : list string) : list string :=
  match hashes with
  | [] => pending
  | h :: rest =>
      if (h =? "")%string || bool_decide (h ∈ exists_) then add_missing exists_ pending rest
      else add_missing ({[h]} ∪ exists_) (pending ++ [h]) rest
  end.

Definition setHeaders (count : Z) (hashes : list string) (sm : syncManager) : syncManager :=
  let sm := set_status sm (status_headers (sm_status sm) count hashes) in
  let exists_ := list_to_set (sm_pending sm) ∪ dom (sm_inflight sm) in
  let pending := add_missing exists_ (sm_pending sm) hashes in
  let sm := set_queues sm (sm_inflight sm) pending in
  set_status sm (status_queues (sm_status sm) (ss_InFlightBlocks (sm_status sm)) (len pending)).

Definition touchRequest (now : Z) (sm : syncManager) : syncManager :=
  let s := sm_status sm in
  set_status sm
    {| ss_Mode := ss_Mode s; ss_Peers := ss_Peers s; ss_LastRequestedUnix := now;
       ss_LastHeadersCount := ss_LastHeadersCount s; ss_LastHeaderHashes := ss_LastHeaderHashes s;
       ss_InFlightBlocks := ss_InFlightBlocks s; ss_PendingBlocks := ss_PendingBlocks s;
       ss_TipHeight := ss_TipHeight s |}.

Definition addInFlight (now : Z) (h : string) (sm : syncManager) : syncManager :=
  let inflight := <[h := now]> (sm_inflight sm) in
  let sm := set_queues sm inflight (sm_pending sm) in
  set_status sm (status_queues (sm_status sm) (map_len inflight) (ss_PendingBlocks (sm_status sm))).

Definition clearInFlight (h : string) (sm : syncManager) : syncManager :=
  let inflight := delete h (sm_inflight sm) in
  let sm := set_queues sm inflight (sm_pending sm) in
  set_status sm (status_queues (sm_status sm) (map_len inflight) (ss_PendingBlocks (sm_status sm))).

Definition popPending (sm : syncManager) : option string * syncManager :=
  match sm_pending sm with
  | [] => (None, sm)
  | h :: pending =>
      let sm := set_queues sm (sm_inflight sm) pending in
      (Some h, set_status sm (status_queues (sm_status sm) (ss_InFlightBlocks (sm_status sm)) (len pending)))
  end.

Definition snapshot (tip peers : Z) (sm : syncManager) : SyncStatus :=
  let s := sm_status sm in
  {| ss_Mode := if (ss_Mode s =? "")%string then "headers_first" else ss_Mode s;
     ss_Peers := peers; ss_LastRequestedUnix := ss_LastRequestedUnix s;
     ss_LastHeadersCount := ss_LastHeadersCount s; ss_LastHeaderHashes := ss_LastHeaderHashes s;
     ss_InFlightBlocks := map_len (sm_inflight sm); ss_PendingBlocks := len (sm_pending sm);
     ss_TipHeight := tip |}.

Definition inflightCount (sm : syncManager) : Z := map_len (sm_inflight sm).

Definition setPeerAnchorOK (peer : string) (ok : bool) (sm : syncManager) : syncManager :=
  {| sm_paused := sm_paused sm; sm_failCount := sm_failCount sm; sm_lastFail := sm_lastFail sm;
     sm_anchorOK := <[peer := ok]> (sm_anchorOK sm); sm_status := sm_status sm;
     sm_inflight := sm_inflight sm; sm_pending := sm_pending sm;
     sm_lastAnchorHash := sm_lastAnchorHash sm; sm_lastAnchorHeight := sm_lastAnchorHeight sm |}.

Definition isPeerAnchorOK (peer : string) (sm : syncManager) : bool :=
  default false (sm_anchorOK sm !! peer).

Definition setLocalAnchor (h : Z) (hash : string) (sm : syncManager) : syncManager :=
  {| sm_paused := sm_paused sm; sm_failCount := sm_failCount sm; sm_lastFail := sm_lastFail sm;
     sm_anchorOK := sm_anchorOK sm; sm_status := sm_status sm; sm_inflight := sm_inflight sm;
     sm_pending := sm_pending sm; sm_lastAnchorHash := hash; sm_lastAnchorHeight := h |}.

Definition markFail (now : Z) (peer : string) (sm : syncManager) : syncManager :=
  {| sm_paused := sm_paused sm;
     sm_failCount := <[peer := i64 (default 0 (sm_failCount sm !! peer) + 1)]> (sm_failCount sm);
     sm_lastFail := <[peer := now]> (sm_lastFail sm);
     sm_anchorOK := sm_anchorOK sm; sm_status := sm_status sm; sm_inflight := sm_inflight sm;
     sm_pending := sm_pending sm; sm_lastAnchorHash := sm_lastAnchorHash sm;
     sm_lastAnchorHeight := sm_lastAnchorHeight sm |}.

Definition minInt (a b : Z) : Z := if a <? b then a else b.

(** Shifting by a negative count panics. *)
Definition go_shl1 (c : Z) : outcome Z := if c <? 0 then Panic else Ret (i64 (Z.shiftl 1 c)).

(** A [time.Duration], in nanoseconds. *)
Definition Second : Z := 1000000000.

Definition peerBackoff (now : Z) (peer : string) (sm : syncManager) : outcome Z :=
  let c := default 0 (sm_failCount sm !! peer) in
  let lf := default 0 (sm_lastFail sm !! peer) in
  if c =? 0 then Ret 0
  else
    match go_shl1 (minInt c 6) with
    | Ret wait =>
        if wait <=? i64 (now - lf) then Ret 0
        else Ret (i64 (i64 (wait - i64 (now - lf)) * Second))
    | Err e => Err e
    | Panic => Panic
    end.

Definition setPaused (v : bool) (sm : syncManager) : syncManager :=
  {| sm_paused := v; sm_failCount := sm_failCount sm; sm_lastFail := sm_lastFail sm;
     sm_anchorOK := sm_anchorOK sm; sm_status := sm_status sm; sm_inflight := sm_inflight sm;
     sm_pending := sm_pending sm; sm_lastAnchorHash := sm_lastAnchorHash sm;
     sm_lastAnchorHeight := sm_lastAnchorHeight sm |}.

Definition isPaused (sm : syncManager) : bool := sm_paused sm.

(** [now.Sub(t)] saturates at the ends of [time.Duration]. *)
Definition time_Sub (now t : Z) : Z :=
  let d := now - t in
  if d <? - 2 ^ 63 then - 2 ^ 63 else if 2 ^ 63 - 1 <? d then 2 ^ 63 - 1 else d.

Definition timed_out (now timeoutSec : Z) (e : string * Z) : bool :=
  i64 (timeoutSec * Second) <? time_Sub now e.2.

Definition prioritizeNearTip (maxFront : Z) (sm : syncManager) : syncManager := sm.

Section Manager.
Context {MO : MapOrder}.

(** The entries are visited in any order; deleting the visited one is allowed in Go. *)
Definition requeueTimedOut (now timeoutSec : Z) (sm : syncManager) : list string * syncManager :=
  let req := (List.filter (timed_out now timeoutSec) (range (sm_inflight sm))).*1 in
  let inflight := fold_left (fun m h => delete h m) req (sm_inflight sm) in
  let pending := if Nat.eqb (length req) 0 then sm_pending sm else req ++ sm_pending sm in
  let s := sm_status sm in
  (req, set_status (set_queues sm inflight pending)
          (status_queues s (map_len inflight)
             (if Nat.eqb (length req) 0 then ss_PendingBlocks s else len pending))).
End Manager.

(** ** The goroutines and the node *)
Section Sync.
Context {L : LevelDB} {HS : Hashes} {CD : Codecs} {MO : MapOrder} {FS : SnapFiles}.

Definition on_sm_db {S A} (m : GoM db_t A) : GoM (db_t * S) A := gzoom fst (fun d s => (d, s.2)) m.
Definition get_sm {S} : GoM (db_t * S) S := fun s => (Ret s.2, s).
Definition put_sm {S} (sm : S) : GoM (db_t * S) unit := gmodify (fun s => (s.1, sm)).

(** *** The request for headers: one round of the first goroutine *)

(** The locator: [fuel] rounds, [n] hashes collected so far; [None] is running out of rounds. *)
Fixpoint locator_rounds (fuel : nat) (n step h : Z) : GoM db_t (option (list string)) :=
  if negb (n <? 32) then gret (Some [])
  else
    match fuel with
    | O => gret None
    | S f =>
        let! r := gignore (NotFound, "") (GetBlockByHeight h) in
        let here := match found_ok r.1 with
                    | Some b => [Hash_String (BlockHash b)] | None => [] end in
        let n := n + len here in
        if h =? 0 then gret (Some here)
        else
          let step := if 10 <? n then u64 (step * 2) else step in
          let? rest := locator_rounds f n step (if h <? step then 0 else u64 (h - step)) in
          gret (Some (here ++ rest))
    end.

(** The fields of the message [get_headers]. *)
Record headersReq := { hq_From : Z; hq_Count : Z; hq_Locator : list string }.

Definition header_round (fuel : nat) (now : Z) : GoM (db_t * syncManager) (option (option headersReq)) :=
  let! sm := get_sm in
  if isPaused sm then gret (Some None)
  else
    put_sm (touchRequest now sm) ;;;
    let! t := gignore None (on_sm_db GetTip) in
    let tipH := default 0 (option_map fst t) in
    let! f := gignore None (on_sm_db GetHeaderFrontier) in
    let start := match f with
                 | Some (frontH, _) => if tipH <=? frontH then u64 (frontH + 1) else u64 (tipH + 1)
                 | None => u64 (tipH + 1) end in
    let? loc := on_sm_db (locator_rounds fuel 0 1 tipH) in
    gret (Some (Some {| hq_From := start; hq_Count := 200; hq_Locator := loc |})).

(** *** node.go: chooseSyncPeer; [sessions] is [None] without a network, [intn n] is
    [rand.Intn(n)] *)

Definition chooseSyncPeer (sessions : option (list string)) (intn : nat -> nat) (osm : option syncManager)
    : GoM db_t (option string) :=
  match sessions with
  | None | Some [] => gret None
  | Some ss =>
      let! f := gignore None GetFinalizedHeight in
      let finH := default 0 f in
      let skip p := (0 <? finH) && match osm with Some sm => negb (isPeerAnchorOK p sm) | None => false end in
      let cands := List.filter (fun p => negb (skip p)) ss in
      if Nat.eqb (length cands) 0 then gret None
      else let! p := gpart (cands !! intn (length cands)) in gret (Some p)
  end.

(** *** The worker: what follows [addInFlight] in one round; the result is the message
    [get_block] and the peer it is sent to.  The round is one step: the interleaving of its reads
    with other workers and with the message handler is not modelled. *)
Definition request_block (sessions : option (list string)) (intn : nat -> nat) (now : Z) (h : string)
    : GoM (db_t * syncManager) (option (string * string)) :=
  let! sm := get_sm in
  let! p := on_sm_db (chooseSyncPeer sessions intn (Some sm)) in
  match p with
  | None => gret None
  | Some peer =>
      let! _bo := glift (peerBackoff now peer sm) in
      let! recent := on_sm_db (PeerGetBlockRecently now peer h 2) in
      if recent : bool then gret None
      else on_sm_db (MarkPeerGetBlock now peer h) ;;; gret (Some (peer, h))
  end.

(** *** enqueueMissingFromHeaderTip *)

(** The hashes from the header tip down to height [start]. *)
Fixpoint collect_back (fuel : nat) (start : Z) (cur : string) : GoM db_t (option (list string)) :=
  match fuel with
  | O => gret None
  | S f =>
      let! o := gignore None (GetHeaderByHash cur) in
      match o with
      | None => gret (Some [])
      | Some h =>
          if Height h <? start then gret (Some [])
          else if Height h =? start then gret (Some [cur])
          else let? rest := collect_back f start (Hash_String (PrevHash h)) in gret (Some (cur :: rest))
      end
  end.

(** The last loop; [filled] hashes have been handed to [setHeaders]. *)
Fixpoint fill_queue (maxQueueFill filled : Z) (seq : list string) : GoM (db_t * syncManager) unit :=
  match seq with
  | [] => gret tt
  | hash :: rest =>
      let! r := gignore NotFound (on_sm_db (GetBlockByHash hash)) in
      match found_ok r with
      | Some _ => fill_queue maxQueueFill filled rest
      | None =>
          let! sm := get_sm in
          let sm := setHeaders 0 [hash] sm in
          put_sm sm ;;;
          if maxQueueFill <=? filled + 1 then gret tt
          else if 5000 <? ss_PendingBlocks (snapshot 0 0 sm) then gret tt
          else fill_queue maxQueueFill (filled + 1) rest
      end
  end.

Definition enqueueMissing (fuel : nat) (maxQueueFill : Z) : GoM (db_t * syncManager) (option unit) :=
  let! t := gignore None (on_sm_db GetTip) in
  let blockH := default 0 (option_map fst t) in
  let! ht := gignore None (on_sm_db GetHeaderTip) in
  match ht with
  | None => gret (Some tt)
  | Some (hdrH, hdrHash) =>
      if (hdrHash =? "")%string || (hdrH <=? blockH) then gret (Some tt)
      else
        let start := u64 (blockH + 1) in
        let? anc := gignore (Some None) (on_sm_db (GetHeaderAncestorHashAtHeight fuel hdrHash start)) in
        match anc with
        | None => gret (Some tt)
        | Some _ =>
            if negb (make_cap_ok (i64 (u64 (hdrH - start + 1))) string_size) then gpanic
            else
              let? seq := on_sm_db (collect_back fuel start hdrHash) in
              fill_queue maxQueueFill 0 (rev seq) ;;; gret (Some tt)
        end
  end.

(** Nothing is done before the manager exists. *)
Definition enqueueMissingFromHeaderTip (fuel : nat) (maxQueueFill : Z)
    : GoM (db_t * option syncManager) (option unit) :=
  let! osm := get_sm in
  match osm with
  | None => gret (Some tt)
  | Some sm =>
      gzoom (fun s => (s.1, sm)) (fun r _ => (r.1, Some r.2)) (enqueueMissing fuel maxQueueFill)
  end.

(** *** node.go: TryAdvanceTip, TryCommitNext, TryConvergeToBest *)

Definition on_ledger {A} (m : GoM (db_t * fs_t) A) : GoM (db_t * fs_t * option syncManager) A :=
  gzoom fst (fun s t => (s, t.2)) m.
Definition on_store {A} (m : GoM db_t A) : GoM (db_t * fs_t * option syncManager) A :=
  on_ledger (on_db m).
Definition on_sync {A} (m : GoM (db_t * option syncManager) A)
    : GoM (db_t * fs_t * option syncManager) A :=
  gzoom (fun t => (t.1.1, t.2)) (fun s t => (s.1, t.1.2, s.2)) m.

Section Commit.
Context (ApplyBlock : Block -> GoM (db_t * fs_t) unit) (maxQueueFill : Z).

Definition del_candidates (h : Z) (cands : list Candidate) : GoM db_t unit :=
  gfor cands (fun c => gignore tt (DelCandidate h (ca_Hash c))).

(** The removal of headers and candidates up to the finalized height. *)
Fixpoint gc_candidates (n : nat) (h : Z) : GoM db_t unit :=
  match n with
  | O => gret tt
  | S n' =>
      let! cands := gignore [] (ListCandidatesAtHeight h 200) in
      del_candidates h cands ;;;
      gc_candidates n' (u64 (h + 1))
  end.

Definition gc_finalized : GoM db_t unit :=
  let! f := gignore None GetFinalizedHeight in
  let finH := default 0 f in
  if 0 <? finH then
    gignore tt (DeleteHeadersBelowHeight finH) ;;;
    gc_candidates (Z.to_nat (finH + 1)) 0
  else gret tt.

(** [tipH, tipHash] with the values used when there is no tip. *)
Definition tip_or_none : GoM db_t (Z * string) :=
  let! t := gignore None GetTip in gret (default (0, "") t).

(** The loop of [TryAdvanceTip]; [Some tt] is its return. *)
Fixpoint advance_loop (fuel : nat) (blk : Block) : GoM (db_t * fs_t * option syncManager) (option unit) :=
  match fuel with
  | O => gret None
  | S f =>
      let! (tipH, tipHash) := on_store tip_or_none in
      let nextH := u64 (tipH + 1) in
      let! cands := gignore [] (on_store (ListCandidatesAtHeight nextH 64)) in
      match List.find (fun c => (ca_PrevHash c =? tipHash)%string) cands with
      | None => gret (Some tt)
      | Some c =>
          if (ca_Hash c =? "")%string then gret (Some tt)
          else
            let! e := gtry (on_store (enforceFinalizedOnCandidate fuel (ca_Hash c))) in
            match e with
            | inl _ => gret (Some tt)
            | inr None => gret None
            | inr (Some _) =>
                let! a := gtry (on_ledger (ApplyBlock blk)) in
                match a with
                | inl _ => gret (Some tt)
                | inr _ =>
                    gignore tt (on_store (SetTip (Height (Header blk)) (ca_Hash c))) ;;;
                    let? _ := on_sync (enqueueMissingFromHeaderTip fuel maxQueueFill) in
                    on_store (del_candidates nextH cands) ;;;
                    advance_loop f blk
                end
            end
      end
  end.

Definition TryAdvanceTip (fuel : nat) (strictLinear : bool) (blk : Block)
    : GoM (db_t * fs_t * option syncManager) (option unit) :=
  on_store gc_finalized ;;;
  if negb strictLinear then gret (Some tt) else advance_loop fuel blk.

(** The candidate [TryCommitNext] takes. *)
Definition pick_candidate (tipHash : string) (want : option string) (c : Candidate) : bool :=
  (ca_PrevHash c =? tipHash)%string &&
  match want with
  | Some w => (w =? "")%string || (ca_Hash c =? w)%string
  | None => true
  end.

Fixpoint TryCommitNext (fuel : nat) : GoM (db_t * fs_t * option syncManager) (option unit) :=
  match fuel with
  | O => gret None
  | S f =>
      let! (tipH, tipHash) := on_store tip_or_none in
      let nextH := u64 (tipH + 1) in
      let? want := on_store (BestChainHashAtHeight fuel nextH) in
      let! cands := gignore [] (on_store (ListCandidatesAtHeight nextH 256)) in
      match List.find (pick_candidate tipHash want) cands with
      | None => gret (Some tt)
      | Some c =>
          if (ca_Hash c =? "")%string then gret (Some tt)
          else
            let! e := gtry (on_store (enforceFinalizedOnCandidate fuel (ca_Hash c))) in
            match e with
            | inl _ => gret (Some tt)
            | inr None => gret None
            | inr (Some _) =>
                let! r := gignore NotFound (on_store (GetBlockByHash (ca_Hash c))) in
                match found_ok r with
                | None => gret (Some tt)
                | Some blk =>
                    let! e := gtry (on_store (BlockMatchesStoredHeader blk)) in
                    match e with
                    | inl _ => gret (Some tt)
                    | inr _ =>
                        let! a := gtry (on_ledger (ApplyBlock blk)) in
                        match a with
                        | inl _ => gret (Some tt)
                        | inr _ =>
                            gignore tt (on_store (SetTip (Height (Header blk)) (ca_Hash c))) ;;;
                            on_store (del_candidates nextH cands) ;;;
                            let? _ := on_sync (enqueueMissingFromHeaderTip fuel maxQueueFill) in
                            TryCommitNext f
                        end
                    end
                end
            end
      end
  end.

(** The chain and manager beside the pool. *)
Definition on_commit {A} (m : GoM (db_t * fs_t * option syncManager) A)
    : GoM (db_t * fs_t * option syncManager * Mempool) A := gzoom fst (fun s t => (s, t.2)) m.
Definition on_reorg {A} (m : GoM (db_t * fs_t * Mempool) A)
    : GoM (db_t * fs_t * option syncManager * Mempool) A :=
  gzoom (fun t => (t.1.1, t.2)) (fun s t => (s.1, t.1.2, s.2)) m.

Definition TryConvergeToBest (fuel : nat) (rs_SetBalance : string -> Z -> GoM db_t unit)
    (cfg : Config) (genesis : Genesis)
    (findForkPointCached : Z -> string -> Z -> string -> GoM db_t (Z * string))
    (senders : list string) (now : Z)
    : GoM (db_t * fs_t * option syncManager * Mempool) (option unit) :=
  let? _ := on_commit (on_sync (enqueueMissingFromHeaderTip fuel maxQueueFill)) in
  let? _ := on_commit (TryCommitNext fuel) in
  let! t := gignore None (on_commit (on_store GetTip)) in
  let! ht := gignore None (on_commit (on_store GetHeaderTip)) in
  match t, ht with
  | Some (_, curHash), Some (_, bestHash) =>
      if negb (curHash =? "")%string && negb (bestHash =? "")%string && negb (curHash =? bestHash)%string
      then on_reorg (ReorgToBestHeaderChain ApplyBlock rs_SetBalance cfg genesis fuel
                       findForkPointCached senders now)
      else gret (Some tt)
  | _, _ => gret (Some tt)
  end.
End Commit.

(** ** Interleavings of the workers *)

(** Where a worker is: at the top of its loop, past the limit on requests in flight, holding
    the hash it took from the queue, or in flight with it. *)
Inductive worker := Top | Armed | Holding (h : string) | Flying (h : string).

Record sched := {
  sc_db : db_t;
  sc_sm : syncManager;
  sc_workers : list worker;
  sc_sent : list (string * string) }.

(** What happens in a step: a worker moves, or a handler calls the manager. *)
Inductive event :=
  | EvWorker (i : nat)
  | EvHeaders (count : Z) (hashes : list string)
  | EvBlock (h : string)
  | EvRetry (now timeoutSec : Z)
  | EvFail (now : Z) (peer : string)
  | EvAnchor (peer : string) (ok : bool)
  | EvPause (v : bool)
  | EvTouch (now : Z).

Definition with_sm (s : sched) (sm : syncManager) : sched :=
  {| sc_db := sc_db s; sc_sm := sm; sc_workers := sc_workers s; sc_sent := sc_sent s |}.
Definition with_worker (s : sched) (sm : syncManager) (i : nat) (w : worker) : sched :=
  {| sc_db := sc_db s; sc_sm := sm; sc_workers := <[i := w]> (sc_workers s); sc_sent := sc_sent s |}.

Section Steps.
Context (maxInFlight : Z).

Inductive step : event -> sched -> sched -> Prop :=
  | step_check s i :
      sc_workers s !! i = Some Top -> inflightCount (sc_sm s) < maxInFlight ->
      step (EvWorker i) s (with_worker s (sc_sm s) i Armed)
  | step_pop s i h sm :
      sc_workers s !! i = Some Armed -> popPending (sc_sm s) = (Some h, sm) ->
      step (EvWorker i) s (with_worker s sm i (Holding h))
  | step_empty s i sm :
      sc_workers s !! i = Some Armed -> popPending (sc_sm s) = (None, sm) ->
      step (EvWorker i) s (with_worker s sm i Top)
  | step_add s i h now :
      sc_workers s !! i = Some (Holding h) ->
      step (EvWorker i) s (with_worker s (addInFlight now h (sc_sm s)) i (Flying h))
  | step_request s i h now sessions intn d sm r :
      sc_workers s !! i = Some (Flying h) ->
      request_block sessions intn now h (sc_db s, sc_sm s) = (Ret r, (d, sm)) ->
      step (EvWorker i) s
        {| sc_db := d; sc_sm := sm; sc_workers := <[i := Top]> (sc_workers s);
           sc_sent := sc_sent s ++ match r with Some m => [m] | None => [] end |}
  | step_headers s count hashes :
      step (EvHeaders count hashes) s (with_sm s (setHeaders count hashes (sc_sm s)))
  | step_block s h : step (EvBlock h) s (with_sm s (clearInFlight h (sc_sm s)))
  | step_retry s now timeoutSec :
      step (EvRetry now timeoutSec) s (with_sm s (requeueTimedOut now timeoutSec (sc_sm s)).2)
  | step_fail s now peer : step (EvFail now peer) s (with_sm s (markFail now peer (sc_sm s)))
  | step_anchor s peer ok :
      step (EvAnchor peer ok) s (with_sm s (setPeerAnchorOK peer ok (sc_sm s)))
  | step_pause s v : step (EvPause v) s (with_sm s (setPaused v (sc_sm s)))
  | step_touch s now : step (EvTouch now) s (with_sm s (touchRequest now (sc_sm s))).

(** Runs with their events. *)
Inductive steps : sched -> list event -> sched -> Prop :=
  | steps_nil s : steps s [] s
  | steps_snoc s evs s1 ev s2 : steps s evs s1 -> step ev s1 s2 -> steps s (evs ++ [ev]) s2.

Definition sched0 (d : db_t) (workers : nat) : sched :=
  {| sc_db := d; sc_sm := new_syncManager; sc_workers := replicate workers Top; sc_sent := [] |}.
End Steps.
End Sync.
