(* ===== verification/SyncProps.v ===== *)
(** * Properties of the block scheduler

    Invariants of every interleaving of the workers with the message handlers, by induction
    on runs; the queue discipline of the manager used sequentially; the back-off; what
    [enqueueMissing] puts on the queue. *)

From S2P Require Import Prelude GoLang KV Chain Storage StorageProps State StateProps Config Crypto Validate Apply Frame Mempool Forkchoice ForkchoiceProps Sync.

(** ** The queues of the manager *)

Definition tracked (sm : syncManager) (h : string) : Prop :=
  h ∈ sm_pending sm \/ h ∈ dom (sm_inflight sm).

(** No hash is queued twice, none is queued and in flight, and the empty one is neither. *)
Record queues_ok (sm : syncManager) : Prop := {
  qs_nodup : NoDup (sm_pending sm);
  qs_apart : forall h, h ∈ sm_pending sm -> sm_inflight sm !! h = None;
  qs_empty : ~ tracked sm "" }.

(** The counters of the status are the sizes of the queues. *)
Definition status_ok (sm : syncManager) : Prop :=
  ss_PendingBlocks (sm_status sm) = len (sm_pending sm) /\
  ss_InFlightBlocks (sm_status sm) = map_len (sm_inflight sm).

Lemma add_missing_spec hashes : forall (ex : gset string) pending,
  exists new, add_missing ex pending hashes = pending ++ new /\ new `sublist_of` hashes /\ NoDup new /\
    (forall h, h ∈ new -> h <> "" /\ h ∉ ex) /\
    (forall h, h ∈ hashes -> h <> "" -> h ∈ ex \/ h ∈ new).
Proof.
  induction hashes as [|h hashes IH]; intros ex pending; cbn [add_missing].
  { exists []. rewrite app_nil_r. split_and!; [done|constructor|constructor|set_solver|set_solver]. }
  destruct (String.eqb_spec h "") as [->|Hne]; cbn [orb].
  { destruct (IH ex pending) as (new & -> & Hs & Hnd & Hn & Hc). exists new.
    split_and!; [done|by constructor|done|done|]. intros x [->|?]%elem_of_cons; [done|auto]. }
  case_bool_decide as Hex; [destruct (IH ex pending) as (new & -> & Hs & Hnd & Hn & Hc)|
    destruct (IH ({[h]} ∪ ex) (pending ++ [h])) as (new & -> & Hs & Hnd & Hn & Hc)].
  - exists new. split_and!; [done|by constructor|done|done|].
    intros x [->|?]%elem_of_cons; [by left|auto].
  - exists (h :: new). rewrite <- app_assoc. split_and!; [done|by constructor| | |].
    + constructor; [|done]. intros Hin. destruct (Hn h Hin). set_solver.
    + intros x [->|Hx]%elem_of_cons; [done|]. destruct (Hn x Hx). set_solver.
    + intros x [->|Hx]%elem_of_cons Hx0; [right; by left|].
      destruct (Hc x Hx Hx0) as [?|?]; [|right; by right]. set_solver.
Qed.

Lemma setHeaders_spec count hashes sm :
  exists new, sm_pending (setHeaders count hashes sm) = sm_pending sm ++ new /\
    sm_inflight (setHeaders count hashes sm) = sm_inflight sm /\
    new `sublist_of` hashes /\ NoDup new /\
    (forall h, h ∈ new -> h <> "" /\ ~ tracked sm h) /\
    (forall h, h ∈ hashes -> h <> "" -> tracked sm h \/ h ∈ new).
Proof.
  unfold setHeaders. cbn [sm_pending sm_inflight set_queues set_status].
  destruct (add_missing_spec hashes (list_to_set (sm_pending sm) ∪ dom (sm_inflight sm)) (sm_pending sm))
    as (new & -> & Hs & Hnd & Hn & Hc).
  exists new. unfold tracked. split_and!; try done.
  - intros h Hh. destruct (Hn h Hh) as [? Hx]. rewrite elem_of_union, elem_of_list_to_set in Hx. done.
  - intros h Hh H0. specialize (Hc h Hh H0). rewrite elem_of_union, elem_of_list_to_set in Hc. done.
Qed.

Section Manager.
Context {MO : MapOrder} {HMO : MapOrderOk MO}.

Lemma fold_delete_lookup (l : list string) : forall (m : gmap string Z) h,
  fold_left (fun m h => delete h m) l m !! h = if decide (h ∈ l) then None else m !! h.
Proof.
  induction l as [|x l IH]; intros m h; cbn [fold_left]; [done|]. rewrite IH.
  destruct (decide (h ∈ l)) as [Hl|Hl]; [by rewrite decide_True by (by right)|].
  destruct (decide (x = h)) as [->|Hne].
  - rewrite decide_True by (by left). apply lookup_delete_eq.
  - rewrite decide_False by (rewrite elem_of_cons; naive_solver). by apply lookup_delete_ne.
Qed.

(** Retrying moves exactly the requests that took too long back to the front. *)
Lemma requeueTimedOut_spec now secs sm :
  let '(req, sm') := requeueTimedOut now secs sm in
  sm_pending sm' = req ++ sm_pending sm /\ NoDup req /\
  (forall h, h ∈ req <-> exists t, sm_inflight sm !! h = Some t /\ timed_out now secs (h, t) = true) /\
  forall h, sm_inflight sm' !! h = if decide (h ∈ req) then None else sm_inflight sm !! h.
Proof.
  unfold requeueTimedOut. cbv zeta. set (req := (List.filter _ _).*1).
  cbn [sm_pending sm_inflight set_queues set_status]. split_and!.
  - by destruct req.
  - apply (sublist_NoDup _ (range (sm_inflight sm)).*1); [apply range_NoDup|].
    apply fmap_sublist. generalize (range (sm_inflight sm)). intros l. induction l as [|e l IH]; [done|].
    cbn [List.filter]. by case_match; constructor.
  - intros h. unfold req. rewrite list_elem_of_fmap. split.
    + intros ([x t] & -> & Hin). apply list_elem_of_In, filter_In in Hin as [Hin Ht].
      exists t. split; [|done]. by apply range_In.
    + intros (t & Hl & Ht). exists (h, t). split; [done|]. apply list_elem_of_In, filter_In.
      split; [by apply range_In|done].
  - intros h. apply fold_delete_lookup.
Qed.

(** *** One call after another *)

(** A worker that is not interrupted between taking a hash and marking it in flight. *)
Definition take_next (now : Z) (sm : syncManager) : syncManager :=
  match popPending sm with
  | (Some h, sm') => addInFlight now h sm'
  | (None, sm') => sm'
  end.

Inductive call :=
  | CHeaders (count : Z) (hashes : list string) | CTake (now : Z) | CBlock (h : string)
  | CRetry (now timeoutSec : Z) | CFail (now : Z) (peer : string) | CAnchor (peer : string) (ok : bool).

Definition run_call (sm : syncManager) (c : call) : syncManager :=
  match c with
  | CHeaders count hashes => setHeaders count hashes sm
  | CTake now => take_next now sm
  | CBlock h => clearInFlight h sm
  | CRetry now secs => (requeueTimedOut now secs sm).2
  | CFail now peer => markFail now peer sm
  | CAnchor peer ok => setPeerAnchorOK peer ok sm
  end.

Lemma queues_new : queues_ok new_syncManager.
Proof. split; [constructor|set_solver|]. unfold tracked. cbn. set_solver. Qed.

Lemma queues_setHeaders count hashes sm : queues_ok sm -> queues_ok (setHeaders count hashes sm).
Proof.
  intros [Hnd Hap He]. destruct (setHeaders_spec count hashes sm) as (new & Hp & Hi & _ & Hnn & Hn & _).
  split.
  - rewrite Hp. apply NoDup_app. split_and!; [done| |done]. intros h Hh Hx.
    destruct (Hn h Hx) as [_ Ht]. apply Ht. by left.
  - intros h. rewrite Hp, Hi, elem_of_app. intros [Hh|Hh]; [by apply Hap|].
    destruct (Hn h Hh) as [_ Ht]. apply not_elem_of_dom. intros Hd. apply Ht. by right.
  - unfold tracked in *. rewrite Hp, Hi, elem_of_app. intros [[H|H]|H]; [apply He; by left| |apply He; by right].
    by destruct (Hn _ H).
Qed.

Lemma queues_take now sm : queues_ok sm -> queues_ok (take_next now sm).
Proof.
  intros Hq. unfold take_next, popPending. destruct (sm_pending sm) as [|h p] eqn:E; [done|].
  destruct Hq as [Hnd Hap He]. rewrite E in Hnd, Hap. apply NoDup_cons in Hnd as [Hni Hnd].
  split; unfold tracked in *; cbn [addInFlight set_queues set_status sm_pending sm_inflight]; [done|..].
  - intros x Hx. rewrite lookup_insert_ne by (by intros ->). apply Hap. by right.
  - rewrite dom_insert_L. rewrite E in He. rewrite elem_of_cons in He. set_solver.
Qed.

Lemma queues_block h sm : queues_ok sm -> queues_ok (clearInFlight h sm).
Proof.
  intros [Hnd Hap He]. split; unfold tracked in *;
    cbn [clearInFlight set_queues set_status sm_pending sm_inflight]; [done|..].
  - intros x Hx. rewrite lookup_delete_None. right. by apply Hap.
  - rewrite dom_delete_L. set_solver.
Qed.

Lemma queues_retry now secs sm : queues_ok sm -> queues_ok (requeueTimedOut now secs sm).2.
Proof.
  intros [Hnd Hap He]. pose proof (requeueTimedOut_spec now secs sm) as H.
  destruct (requeueTimedOut now secs sm) as [req sm']. cbn [snd]. destruct H as (Hp & Hnr & Hr & Hi).
  split.
  - rewrite Hp. apply NoDup_app. split_and!; [done| |done]. intros h (t & Ht & _)%Hr Hx.
    by rewrite (Hap h Hx) in Ht.
  - intros h. rewrite Hp, Hi, elem_of_app. intros [Hh|Hh]; [by rewrite decide_True|].
    case_decide; [done|by apply Hap].
  - unfold tracked in *. rewrite Hp, elem_of_app, elem_of_dom, Hi. intros [[(t & Ht & _)%Hr|H]|H].
    + apply He. right. apply elem_of_dom. eauto.
    + apply He. by left.
    + case_decide; [by destruct H|]. apply He. right. by apply elem_of_dom.
Qed.

(** Used one call after another, the manager never queues a hash twice, never queues a hash
    that is in flight, and never asks for the empty hash. *)
Theorem sequential_queues calls : queues_ok (fold_left run_call calls new_syncManager).
Proof.
  generalize queues_new. generalize new_syncManager. induction calls as [|c calls IH]; intros sm H; [done|].
  cbn [fold_left]. apply IH. destruct c; cbn [run_call];
    [by apply queues_setHeaders|by apply queues_take|by apply queues_block|by apply queues_retry|..];
    destruct H; by split.
Qed.
End Manager.

(** ** Every interleaving *)

Lemma status_setHeaders count hashes sm : status_ok sm -> status_ok (setHeaders count hashes sm).
Proof. intros [_ H]. by split. Qed.

Section Interleavings.
Context {L : LevelDB} {HL : LevelDBOk L} {HS : Hashes} {CD : Codecs} {MO : MapOrder} {HMO : MapOrderOk MO}
  {FS : SnapFiles}.
Context (maxInFlight : Z).
Implicit Types s : sched.
Local Notation step := (step maxInFlight).
Local Notation steps := (steps maxInFlight).

(** Asking for a block leaves the manager as it is. *)
Lemma request_block_sm sessions intn now h d sm o d' sm' :
  request_block sessions intn now h (d, sm) = (o, (d', sm')) -> sm' = sm.
Proof.
  unfold request_block, get_sm, gbind at 1. cbn [snd].
  unfold gbind at 1, on_sm_db at 1, gzoom at 1. cbn [fst snd].
  destruct (chooseSyncPeer sessions intn (Some sm) d) as [[[peer|]|e|] d1]; try by intros [= _ _ ->].
  unfold gbind at 1, glift at 1. destruct (peerBackoff now peer sm); try by intros [= _ _ ->].
  unfold gbind at 1, on_sm_db at 1, gzoom at 1. cbn [fst snd].
  destruct (PeerGetBlockRecently now peer h 2 d1) as [[[]|e|] d2]; try by intros [= _ _ ->].
  unfold gbind, on_sm_db, gzoom. cbn [fst snd].
  destruct (MarkPeerGetBlock now peer h d2) as [[?|?|] d3]; by intros [= _ _ ->].
Qed.

Lemma request_block_hash sessions intn now h st p x st' :
  request_block sessions intn now h st = (Ret (Some (p, x)), st') -> x = h.
Proof.
  unfold request_block. intros (sm & s1 & _ & H)%gbind_inv. apply gbind_inv in H as ([peer|] & s2 & _ & H); [|done].
  apply gbind_inv in H as (bo & s3 & _ & H). apply gbind_inv in H as ([] & s4 & _ & H); [done|].
  apply gbind_inv in H as ([] & s5 & _ & H). by injection H as -> ->.
Qed.

(** The workers between the check of the limit and the mark. *)
Definition busy (w : worker) : bool := match w with Armed | Holding _ => true | _ => false end.
Definition busy_count (ws : list worker) : Z := len (List.filter busy ws).

Lemma busy_update ws i w w' : ws !! i = Some w ->
  busy_count (<[i := w']> ws) =
  busy_count ws - (if busy w then 1 else 0) + (if busy w' then 1 else 0).
Proof.
  intros Hi.
  assert (busy_count ws = len (List.filter busy (take i ws ++ w :: drop (S i) ws))) as ->
    by (by rewrite take_drop_middle).
  unfold busy_count, len. rewrite (insert_take_drop ws i w') by (by eapply lookup_lt_Some).
  rewrite !List.filter_app. cbn [List.filter].
  destruct (busy w), (busy w'); rewrite !length_app; cbn [length]; lia.
Qed.

Lemma busy_bound ws : 0 <= busy_count ws <= len ws.
Proof.
  unfold busy_count, len. induction ws as [|w ws IH]; [done|]. cbn [List.filter].
  destruct (busy w); cbn [length]; lia.
Qed.

(** The hashes that were announced to the manager in a run. *)
Definition announced (evs : list event) (h : string) : Prop :=
  h <> "" /\ exists count hashes, EvHeaders count hashes ∈ evs /\ h ∈ hashes.

Definition works_on (h : string) (w : worker) : Prop := w = Holding h \/ w = Flying h.

Record sched_ok (workers : nat) (evs : list event) (s : sched) : Prop := {
  so_workers : length (sc_workers s) = workers;
  so_status : status_ok (sc_sm s);
  so_limit : inflightCount (sc_sm s) + busy_count (sc_workers s)
             <= Z.max 0 (maxInFlight + Z.of_nat workers - 1);
  so_tracked : forall h, tracked (sc_sm s) h -> announced evs h;
  so_worker : forall h w, w ∈ sc_workers s -> works_on h w -> announced evs h;
  so_sent : forall p h, (p, h) ∈ sc_sent s -> announced evs h }.

Lemma announced_app evs ev h : announced evs h -> announced (evs ++ [ev]) h.
Proof. intros (H0 & c & hs & Hin & Hh). split; [done|]. exists c, hs. split; [|done]. apply elem_of_app. by left. Qed.

Lemma map_len_insert (m : gmap string Z) h t : map_len (<[h := t]> m) <= map_len m + 1.
Proof. unfold map_len. rewrite map_size_insert. case_match; unfold id; lia. Qed.

Lemma map_len_mono (m m' : gmap string Z) : (forall h v, m' !! h = Some v -> is_Some (m !! h)) ->
  map_len m' <= map_len m.
Proof.
  intros H. unfold map_len. rewrite <- !size_dom. apply inj_le, subseteq_size. intros h [v Hv]%elem_of_dom.
  apply elem_of_dom. by eapply H.
Qed.

Lemma sched_ok0 d workers : sched_ok workers [] (sched0 d workers).
Proof.
  split; cbn [sched0 sc_workers sc_sm sc_sent].
  - apply length_replicate.
  - done.
  - assert (busy_count (replicate workers Top) = 0) as -> by (unfold busy_count; induction workers; done).
    change (inflightCount new_syncManager) with 0. lia.
  - unfold tracked. cbn. set_solver.
  - intros h w [-> _]%elem_of_replicate [?|?]; done.
  - intros p h ?%not_elem_of_nil. done.
Qed.

Lemma announced_here count hashes evs h : h ∈ hashes -> h <> "" ->
  announced (evs ++ [EvHeaders count hashes]) h.
Proof. intros Hh H0. split; [done|]. exists count, hashes. split; [|done]. apply elem_of_app. right. by left. Qed.

(** A worker changes and the queues at most lose hashes to it. *)
Lemma sched_ok_worker workers evs s sm i w w' ev d sent :
  sched_ok workers evs s -> sc_workers s !! i = Some w -> status_ok sm ->
  (forall h, tracked sm h -> tracked (sc_sm s) h \/ works_on h w) ->
  inflightCount sm + (if busy w' then 1 else 0) <=
    inflightCount (sc_sm s) + (if busy w then 1 else 0) \/
  inflightCount sm < maxInFlight /\ sm = sc_sm s /\ busy w = false ->
  (forall h, works_on h w' -> tracked (sc_sm s) h \/ works_on h w) ->
  (forall p h, (p, h) ∈ sent -> (p, h) ∈ sc_sent s \/ works_on h w) ->
  sched_ok workers (evs ++ [ev])
    {| sc_db := d; sc_sm := sm; sc_workers := <[i := w']> (sc_workers s); sc_sent := sent |}.
Proof.
  intros [Hw Hst Hlim Htr Hwk Hsent] Hi Hst' Htr' Hcnt Hwk' Hsent'.
  pose proof (busy_update (sc_workers s) i w w' Hi) as Hb. pose proof (busy_bound (sc_workers s)) as Hbb.
  assert (w ∈ sc_workers s) as Hin by (by eapply list_elem_of_lookup_2).
  split; cbn [sc_workers sc_sm sc_sent]; [by rewrite length_insert|done|..].
  - rewrite Hb. destruct Hcnt as [Hcnt|(Hlt & -> & Hbw)]; [lia|]. rewrite Hbw.
    assert (busy_count (sc_workers s) < len (sc_workers s)) as Hfree.
    { rewrite Hbw in Hb. pose proof (busy_update (sc_workers s) i w Armed Hi) as Hb2. rewrite Hbw in Hb2. cbn in Hb2.
      pose proof (busy_bound (<[i:=Armed]> (sc_workers s))) as Hb3. unfold len in Hb3 |- *.
      rewrite length_insert in Hb3. unfold len in Hbb. lia. }
    unfold len in Hfree. rewrite Hw in Hfree. destruct (busy w'); lia.
  - intros h [Ht|Ht]%Htr'; apply announced_app; [by apply Htr|by eapply Hwk].
  - intros h x Hx Hon. apply announced_app.
    apply list_elem_of_lookup in Hx as [j Hj]. apply list_lookup_insert_Some in Hj as [(-> & <- & _)|[_ Hj]].
    + destruct (Hwk' h Hon); [by apply Htr|by eapply Hwk].
    + eapply Hwk; [by eapply list_elem_of_lookup_2|done].
  - intros p h [Hp|Hp]%Hsent'; apply announced_app; [by eapply Hsent|by eapply Hwk].
Qed.

(** A handler's call that tracks nothing new and puts nothing in flight. *)
Lemma sched_ok_call workers evs s sm ev :
  sched_ok workers evs s -> status_ok sm -> inflightCount sm <= inflightCount (sc_sm s) ->
  (forall h, tracked sm h -> tracked (sc_sm s) h \/ announced (evs ++ [ev]) h) ->
  sched_ok workers (evs ++ [ev]) (with_sm s sm).
Proof.
  intros [Hw Hst Hlim Htr Hwk Hsent] Hst' Hcnt Htr'.
  split; cbn [with_sm sc_workers sc_sm sc_sent]; [done|done|lia|..].
  - intros h [Ht|Ht]%Htr'; [apply announced_app; by apply Htr|done].
  - intros h w Hx Hon. apply announced_app. by eapply Hwk.
  - intros p h Hp. apply announced_app. by eapply Hsent.
Qed.

Lemma sched_ok_step workers evs ev s s' : sched_ok workers evs s -> step ev s s' ->
  sched_ok workers (evs ++ [ev]) s'.
Proof.
  intros Hok Hs. pose proof (so_status _ _ _ Hok) as Hst.
  destruct Hs as [s i Hi Hlt|s i h sm Hi Hp|s i sm Hi Hp|s i h now Hi|s i h now ses intn d sm r Hi Hr
    |s count hashes|s h|s now secs|s now peer|s peer ok|s v|s now].
  - eapply sched_ok_worker; try done; [by left|right; done|by intros h [?|?]|by left].
  - unfold popPending in Hp. destruct (sm_pending (sc_sm s)) as [|x p] eqn:E; [done|]. injection Hp as <- <-.
    eapply sched_ok_worker; try done.
    + split; [done|apply Hst].
    + intros h [Ht|Ht]; left; [left; rewrite E; by right|by right].
    + left. reflexivity.
    + intros h [[= ->]|?]; [|done]. left. left. rewrite E. by left.
    + by left.
  - unfold popPending in Hp. destruct (sm_pending (sc_sm s)) as [|x p] eqn:E; [|done]. injection Hp as <-.
    eapply sched_ok_worker; try done; [by left|left; cbn [busy]; lia|by intros h [?|?]|by left].
  - eapply sched_ok_worker; try done.
    + unfold status_ok in *. cbn. naive_solver.
    + intros x [Ht|Ht]; [left; by left|]. cbn [addInFlight set_status set_queues sm_inflight] in Ht.
      rewrite dom_insert_L in Ht. apply elem_of_union in Ht as [->%elem_of_singleton|Ht]; [right; by left|left; by right].
    + left. pose proof (map_len_insert (sm_inflight (sc_sm s)) h now) as Hl. cbn [busy].
      unfold inflightCount. cbn [addInFlight set_status set_queues sm_inflight]. lia.
    + intros x [?|[= ->]]; [done|]. right. by left.
    + by left.
  - pose proof (request_block_sm _ _ _ _ _ _ _ _ _ Hr) as ->. eapply sched_ok_worker; try done.
    + by left.
    + left. cbn [busy]. lia.
    + by intros x [?|?].
    + intros p x [Hp|Hp]%elem_of_app; [by left|]. right. destruct r as [[p' x']|]; [|by apply not_elem_of_nil in Hp].
      apply list_elem_of_singleton in Hp as [= -> ->]. apply request_block_hash in Hr as ->. by right.
  - destruct (setHeaders_spec count hashes (sc_sm s)) as (new & Hp & Hi & Hsub & _ & Hn & _).
    apply sched_ok_call; [done|by apply status_setHeaders|unfold inflightCount; by rewrite Hi|].
    intros h [Ht|Ht]; [|left; right; by rewrite <- Hi]. rewrite Hp, elem_of_app in Ht.
    destruct Ht as [Ht|Ht]; [left; by left|]. right. destruct (Hn h Ht) as [H0 _].
    apply announced_here; [|done]. by eapply elem_of_submseteq, sublist_submseteq.
  - apply sched_ok_call; [done|unfold status_ok in *; cbn; naive_solver|..].
    + unfold inflightCount. cbn. apply map_len_mono. intros x v [_ Hx]%lookup_delete_Some. eauto.
    + intros x [Ht|Ht]; left; [by left|]. right. cbn in Ht. set_solver.
  - pose proof (requeueTimedOut_spec now secs (sc_sm s)) as H.
    assert (status_ok (requeueTimedOut now secs (sc_sm s)).2) as Hst2.
    { unfold status_ok, requeueTimedOut in *. cbn. split; [|done]. case_match; [apply Hst|done]. }
    destruct (requeueTimedOut now secs (sc_sm s)) as [req sm']. cbn [snd] in *. destruct H as (Hp & _ & Hr & Hi).
    apply sched_ok_call; [done|done|..].
    + apply map_len_mono. intros x v. rewrite Hi. case_decide; [done|eauto].
    + intros x [Ht|Ht]; left.
      * rewrite Hp, elem_of_app in Ht. destruct Ht as [(t & Ht & _)%Hr|Ht]; [right; apply elem_of_dom; eauto|by left].
      * right. rewrite elem_of_dom, Hi in Ht. apply elem_of_dom. by case_decide; [destruct Ht|].
  - apply sched_ok_call; try done. intros x [?|?]; left; [by left|by right].
  - apply sched_ok_call; try done. intros x [?|?]; left; [by left|by right].
  - apply sched_ok_call; try done. intros x [?|?]; left; [by left|by right].
  - apply sched_ok_call; try done. intros x [?|?]; left; [by left|by right].
Qed.

(** C9. In every interleaving of the workers with the handlers of messages, the counters of the
    status are the sizes of the queues, at most [workers - 1] more blocks than the configured
    limit are in flight, and blocks are queued, in flight or asked for only if they were
    announced. *)
Theorem scheduler_invariant d workers evs s : steps (sched0 d workers) evs s ->
  status_ok (sc_sm s) /\
  inflightCount (sc_sm s) <= Z.max 0 (maxInFlight + Z.of_nat workers - 1) /\
  (forall h, tracked (sc_sm s) h -> announced evs h) /\
  (forall p h, (p, h) ∈ sc_sent s -> announced evs h).
Proof.
  intros H. remember (sched0 d workers) as s0 eqn:E.
  assert (sched_ok workers evs s) as [_ Hst Hlim Htr _ Hsent].
  { induction H as [s|s evs s1 ev s2 H IH Hs]; [subst; apply sched_ok0|]. eapply sched_ok_step; [by apply IH|done]. }
  pose proof (busy_bound (sc_workers s)). split_and!; [done|lia|done|done].
Qed.

(** *** Nothing announced is forgotten *)

Definition held (s : sched) (h : string) : Prop :=
  tracked (sc_sm s) h \/ Holding h ∈ sc_workers s.

(** A step that moves worker [i] from [w] keeps what the other workers hold. *)
Lemma held_other s i w w' h : sc_workers s !! i = Some w -> w <> Holding h ->
  Holding h ∈ sc_workers s -> Holding h ∈ <[i := w']> (sc_workers s).
Proof.
  intros Hi Hne [j Hj]%list_elem_of_lookup. apply (list_elem_of_lookup_2 _ j).
  rewrite list_lookup_insert_ne; [done|]. intros ->. rewrite Hi in Hj. by injection Hj as ->.
Qed.

Lemma step_held ev s s' h : held s h -> step ev s s' -> ev <> EvBlock h -> held s' h.
Proof.
  intros Hh Hs Hev.
  assert (forall sm, (forall x, tracked (sc_sm s) x -> tracked sm x) -> held (with_sm s sm) h) as Hcall.
  { intros sm Hsm. destruct Hh as [Hh|Hh]; [left; by apply Hsm|by right]. }
  destruct Hs as [s i Hi Hlt|s i x sm Hi Hp|s i sm Hi Hp|s i x now Hi|s i x now ses intn d sm r Hi Hr
    |s count hashes|s x|s now secs|s now peer|s peer ok|s v|s now].
  - destruct Hh as [Hh|Hh]; [by left|right]. by eapply held_other.
  - unfold popPending in Hp. destruct (sm_pending (sc_sm s)) as [|y p] eqn:E; [done|]. injection Hp as <- <-.
    destruct Hh as [[Hh|Hh]|Hh]; [|left; by right|right; by eapply held_other].
    rewrite E in Hh. apply elem_of_cons in Hh as [->|Hh]; [right|left; by left].
    apply (list_elem_of_lookup_2 _ i). cbn. rewrite list_lookup_insert_eq; [done|by eapply lookup_lt_Some].
  - unfold popPending in Hp. destruct (sm_pending (sc_sm s)) as [|y p] eqn:E; [|done]. injection Hp as <-.
    destruct Hh as [Hh|Hh]; [by left|right]. by eapply held_other.
  - destruct (decide (x = h)) as [->|Hne].
    { left. right. cbn. rewrite dom_insert_L. set_solver. }
    destruct Hh as [[Hh|Hh]|Hh]; [left; by left|left; right; cbn; rewrite dom_insert_L; set_solver|right].
    eapply held_other; [exact Hi|congruence|done].
  - pose proof (request_block_sm _ _ _ _ _ _ _ _ _ Hr) as ->.
    destruct Hh as [Hh|Hh]; [by left|right]. by eapply held_other.
  - apply Hcall. destruct (setHeaders_spec count hashes (sc_sm s)) as (new & Hp & Hi & _).
    intros y [Hy|Hy]; [left; rewrite Hp; apply elem_of_app; by left|right; by rewrite Hi].
  - destruct Hh as [[Hh|Hh]|Hh]; [left; by left|left; right|by right]. cbn. set_solver.
  - apply Hcall. pose proof (requeueTimedOut_spec now secs (sc_sm s)) as H.
    destruct (requeueTimedOut now secs (sc_sm s)) as [req sm']. destruct H as (Hp & _ & Hr & Hi). cbn [snd].
    intros y [Hy|Hy]; [left; rewrite Hp; apply elem_of_app; by right|].
    destruct (decide (y ∈ req)) as [Hreq|Hreq]; [left; rewrite Hp; apply elem_of_app; by left|right].
    rewrite elem_of_dom, Hi, decide_False by done. by apply elem_of_dom.
  - by apply Hcall.
  - by apply Hcall.
  - by apply Hcall.
  - by apply Hcall.
Qed.

(** Once a hash has been announced it stays queued, in the hands of a worker, or in flight,
    in every interleaving, until a block with that hash arrives. *)
Theorem announced_not_forgotten d workers before count hashes after s h :
  steps (sched0 d workers) (before ++ EvHeaders count hashes :: after) s ->
  h ∈ hashes -> h <> "" -> EvBlock h ∉ after -> held s h.
Proof.
  intros H Hin H0. remember (before ++ EvHeaders count hashes :: after) as evs eqn:E. revert before after E.
  induction H as [s|s evs s1 ev s2 H IH Hs]; intros before after E Hno.
  { by destruct before. }
  destruct after as [|e after _] using rev_ind.
  - apply app_inj_tail in E as [_ ->]. inversion Hs; subst.
    destruct (setHeaders_spec count hashes (sc_sm s1)) as (new & Hp & Hi & _ & _ & _ & Hc).
    left. change (tracked (setHeaders count hashes (sc_sm s1)) h). unfold tracked in *.
    rewrite Hp, Hi, elem_of_app. destruct (Hc h Hin H0); tauto.
  - rewrite app_comm_cons, app_assoc in E. apply app_inj_tail in E as [-> ->].
    eapply step_held; [eapply IH; [done|]|exact Hs|]; set_solver.
Qed.

(** *** A race *)

Lemma steps_app s evs1 s1 evs2 s2 : steps s evs1 s1 -> steps s1 evs2 s2 -> steps s (evs1 ++ evs2) s2.
Proof.
  intros H1 H2. revert H1. induction H2; intros H1; [by rewrite app_nil_r|].
  rewrite app_assoc. econstructor; [by apply IHsteps|done].
Qed.

Lemma steps_cons s ev s1 evs s2 : step ev s s1 -> steps s1 evs s2 -> steps s (ev :: evs) s2.
Proof. intros H1 H2. eapply (steps_app s [ev] s1); [|done]. apply (steps_snoc _ s [] s ev); [constructor|done]. Qed.

(** Between taking a hash from the queue and marking it in flight a worker holds no lock: a
    hash announced again in between is queued a second time, and after a retry it is in the
    queue twice, although [setHeaders] leaves out what is queued or in flight. *)
Theorem race_queues_twice d h : h <> "" -> 0 < maxInFlight ->
  exists evs s, steps (sched0 d 1) evs s /\ sm_pending (sc_sm s) = [h; h].
Proof.
  intros H0 Hmax.
  exists [EvHeaders 1 [h]; EvWorker 0; EvWorker 0; EvHeaders 1 [h]; EvWorker 0; EvRetry 2 0].
  assert ((h =? "")%string = false) as Hh by (by apply String.eqb_neq).
  eexists. split.
  - eapply steps_cons; [constructor|]. eapply steps_cons; [by apply step_check|].
    eapply steps_cons; [eapply step_pop; [done|]|].
    { unfold popPending. cbn. rewrite Hh. cbn. reflexivity. }
    eapply steps_cons; [constructor|]. eapply steps_cons; [eapply (step_add _ _ 0 h 1); done|].
    eapply steps_cons; [constructor|]. constructor.
  - cbn [sc_sm with_sm].
    match goal with |- sm_pending (requeueTimedOut 2 0 ?m).2 = _ =>
      pose proof (requeueTimedOut_spec 2 0 m) as H; destruct (requeueTimedOut 2 0 m) as [req sm'] end.
    cbn in H. rewrite Hh in H. cbn in H. cbn [snd]. destruct H as (-> & Hnd & Hr & _).
    assert (req ≡ₚ [h]) as ->%Permutation_singleton_r; [|done].
    apply NoDup_Permutation; [done|apply NoDup_singleton|]. intros x. rewrite Hr, list_elem_of_singleton. split.
    + intros (t & Ht & _). by apply lookup_singleton_Some in Ht as [-> _].
    + intros ->. exists 1. by rewrite lookup_insert_eq.
Qed.
End Interleavings.

(** ** Back-off *)

(** The manager after failures of one peer at the times [ts]. *)
Definition after_fails (peer : string) (ts : list Z) (sm : syncManager) : syncManager :=
  fold_left (fun sm t => markFail t peer sm) ts sm.

Lemma after_fails_fields peer ts : forall sm,
  0 <= default 0 (sm_failCount sm !! peer) -> default 0 (sm_failCount sm !! peer) + len ts < 2 ^ 63 ->
  default 0 (sm_failCount (after_fails peer ts sm) !! peer) = default 0 (sm_failCount sm !! peer) + len ts /\
  default 0 (sm_lastFail (after_fails peer ts sm) !! peer) =
    default (default 0 (sm_lastFail sm !! peer)) (last ts).
Proof.
  induction ts as [|t ts IH]; intros sm H0 Hl; unfold len in *; cbn [after_fails fold_left length] in *; [split; [lia|done]|].
  fold (after_fails peer ts (markFail t peer sm)).
  assert (default 0 (sm_failCount (markFail t peer sm) !! peer) = default 0 (sm_failCount sm !! peer) + 1) as E.
  { cbn [markFail sm_failCount]. rewrite lookup_insert_eq. cbn [default from_option id]. apply i64_id.
    unfold is_i64. change M63 with (2 ^ 63). lia. }
  destruct (IH (markFail t peer sm)) as [H1 H2]; [lia|lia|]. rewrite H1, H2, E. split; [lia|].
  cbn [markFail sm_lastFail]. rewrite lookup_insert_eq. destruct ts as [|t' ts]; [done|].
  rewrite !last_cons. by destruct (last ts).
Qed.

(** After [n] failures the peer is left alone for 2^n seconds, at most 64, counted from the
    last failure; afterwards not at all. *)
Theorem peerBackoff_exact peer ts lf now sm :
  sm_failCount sm !! peer = None -> last ts = Some lf -> len ts < 2 ^ 63 -> 0 <= now - lf < 2 ^ 62 ->
  peerBackoff now peer (after_fails peer ts sm) =
    Ret (Z.max 0 (2 ^ Z.min (len ts) 6 - (now - lf)) * Second).
Proof.
  intros Hn Hlast Hlen Hnow.
  destruct (after_fails_fields peer ts sm) as [Hc Hf]; rewrite ?Hn; cbn [default from_option id]; [lia|lia|].
  rewrite Hn in Hc. cbn [default from_option id] in Hc. rewrite Hlast in Hf. cbn [default from_option id] in Hf.
  unfold peerBackoff. cbv zeta. rewrite Hc, Hf.
  assert (1 <= len ts) as H1 by (unfold len; destruct ts; [done|cbn; lia]).
  rewrite (proj2 (Z.eqb_neq _ _)) by lia. rewrite (i64_id (now - lf)) by (unfold is_i64; lia).
  assert (minInt (0 + len ts) 6 = Z.min (len ts) 6) as -> by (unfold minInt; destruct (Z.ltb_spec (0 + len ts) 6); lia).
  set (k := Z.min (len ts) 6). assert (1 <= k <= 6) as Hk by lia.
  assert (2 <= 2 ^ k <= 64) as Hp.
  { change 64 with (2 ^ 6). change 2 with (2 ^ 1) at 1. split; apply Z.pow_le_mono_r; lia. }
  unfold go_shl1. rewrite (proj2 (Z.ltb_ge _ _)) by lia. rewrite Z.shiftl_1_l, (i64_id (2 ^ k)) by (unfold is_i64; lia).
  destruct (Z.leb_spec (2 ^ k) (now - lf)); [rewrite Z.max_l by lia; done|].
  rewrite (i64_id (2 ^ k - (now - lf))) by (unfold is_i64; lia).
  rewrite Z.max_r, i64_id by (unfold is_i64, Second; lia). done.
Qed.

(** ** Queueing the missing blocks of the best header chain *)
Section Enqueue.
Context {L : LevelDB} {HL : LevelDBOk L} {HS : Hashes} {CD : Codecs} {MO : MapOrder} {FS : SnapFiles}.

(** The stored headers from [h] at height [hi] down to height [lo], highest first. *)
Inductive header_path (d : db_t) : string -> Z -> Z -> list string -> Prop :=
  | hp_one h hdr lo :
      GetHeaderByHash h d = (Ret (Some hdr), d) -> Height hdr = lo -> header_path d h lo lo [h]
  | hp_cons h hdr hi lo p :
      GetHeaderByHash h d = (Ret (Some hdr), d) -> Height hdr = hi -> lo < hi ->
      header_path d (Hash_String (PrevHash hdr)) (hi - 1) lo p -> header_path d h hi lo (h :: p).

Lemma collect_back_run d h hi lo p : header_path d h hi lo p -> forall fuel,
  (length p <= fuel)%nat -> collect_back fuel lo h d = (Ret (Some p), d).
Proof.
  induction 1 as [h hdr lo Hg Hh|h hdr hi lo p Hg Hh Hlt Hp IH]; intros fuel Hf;
    (destruct fuel as [|f]; [cbn in Hf; lia|]); cbn [collect_back];
    erewrite gbind_ret by (apply gignore_ret; exact Hg); cbv beta iota; rewrite Hh.
  - by rewrite Z.ltb_irrefl, Z.eqb_refl.
  - rewrite (proj2 (Z.ltb_ge _ _)), (proj2 (Z.eqb_neq _ _)) by lia.
    erewrite gbind_ret by (apply IH; cbn in Hf; lia). done.
Qed.

Lemma header_ancestor_run d h hi lo p : header_path d h hi lo p -> 0 <= lo -> forall fuel,
  (length p <= fuel)%nat -> exists x, GetHeaderAncestorHashAtHeight fuel h lo d = (Ret (Some (Some x)), d).
Proof.
  induction 1 as [h hdr lo Hg Hh|h hdr hi lo p Hg Hh Hlt Hp IH]; intros H0 fuel Hf;
    (destruct fuel as [|f]; [cbn in Hf; lia|]); cbn [GetHeaderAncestorHashAtHeight];
    erewrite gbind_ret by exact Hg; cbv beta iota; rewrite Hh.
  - rewrite Z.eqb_refl. eauto.
  - rewrite (proj2 (Z.eqb_neq hi lo)), (proj2 (Z.ltb_ge _ _)), (proj2 (Z.eqb_neq hi 0)) by lia.
    apply IH; [done|]. cbn in Hf. lia.
Qed.

(** What the queue filling does to the manager. *)
Record filled (d : db_t) (seq : list string) (sm sm' : syncManager) (new : list string) : Prop := {
  fl_pending : sm_pending sm' = sm_pending sm ++ new;
  fl_inflight : sm_inflight sm' = sm_inflight sm;
  fl_sub : new `sublist_of` seq;
  fl_new : forall h, h ∈ new -> block_at d h = None /\ h <> "" /\ ~ tracked sm h }.

Lemma fill_queue_run maxFill d : linked d -> forall seq n sm,
  exists sm' new, fill_queue maxFill n seq (d, sm) = (Ret tt, (d, sm')) /\ filled d seq sm sm' new /\
    (n + len seq < maxFill -> len (sm_pending sm) + len seq <= 5000 ->
     forall h, h ∈ seq -> h <> "" -> block_at d h = None -> tracked sm' h).
Proof.
  intros Hl seq. induction seq as [|x seq IH]; intros n sm; cbn [fill_queue].
  { exists sm, []. split_and!; [done| |set_solver]. split; [by rewrite app_nil_r|done|constructor|set_solver]. }
  erewrite gbind_ret; cycle 1.
  { apply gignore_ret. unfold on_sm_db, gzoom. cbn [fst snd]. rewrite (GetBlockByHash_run d x Hl). reflexivity. }
  destruct (block_at d x) as [b|] eqn:Eb; cbn [found_ok].
  { destruct (IH n sm) as (sm' & new & R & [F1 F2 F3 F4] & Hall). exists sm', new. split_and!; [done| |].
    - split; [done|done|by constructor|done].
    - unfold len in *. cbn [length]. intros Hm Hq h [->|Hh]%elem_of_cons; [congruence|]. apply Hall; [lia|lia|done]. }
  erewrite gbind_ret by reflexivity. cbv zeta. cbn [snd]. erewrite gbind_ret by reflexivity. cbn [fst].
  destruct (setHeaders_spec 0 [x] sm) as (new1 & Hp & Hi & Hs & _ & Hn & Hc).
  set (sm1 := setHeaders 0 [x] sm) in *.
  assert (filled d (x :: seq) sm sm1 new1) as F.
  { split; [done|done| |].
    - etrans; [exact Hs|]. constructor. apply sublist_nil_l.
    - intros h Hh. destruct (Hn h Hh). split; [|done]. assert (h ∈ [x]) as ->%list_elem_of_singleton; [|done].
      by eapply elem_of_submseteq, sublist_submseteq. }
  assert (len new1 <= 1) as Hl1. { apply sublist_length in Hs. unfold len. cbn in Hs. lia. }
  assert (len (sm_pending sm1) <= len (sm_pending sm) + 1) as Hlen.
  { rewrite Hp. unfold len in *. rewrite length_app. lia. }
  assert (x <> "" -> tracked sm1 x) as Hx.
  { intros H0. unfold tracked in *. rewrite Hp, Hi, elem_of_app. destruct (Hc x) as [?|?]; [by left|done|tauto|tauto]. }
  destruct (Z.leb_spec maxFill (n + 1)) as [Hm|Hm].
  { exists sm1, new1. split_and!; [done|done|]. unfold len. cbn [length]. lia. }
  assert (ss_PendingBlocks (snapshot 0 0 sm1) = len (sm_pending sm1)) as -> by done.
  destruct (Z.ltb_spec 5000 (len (sm_pending sm1))) as [Hq|Hq].
  { exists sm1, new1. split_and!; [done|done|]. unfold len in *. cbn [length]. lia. }
  destruct (IH (n + 1) sm1) as (sm' & new2 & R & [F1 F2 F3 F4] & Hall). exists sm', (new1 ++ new2).
  assert (forall h, tracked sm h -> tracked sm1 h) as Hmono.
  { unfold tracked. intros h. rewrite Hp, Hi, elem_of_app. tauto. }
  split_and!; [done| |].
  - split; [by rewrite F1, Hp, app_assoc|by rewrite F2| |].
    + change (x :: seq) with ([x] ++ seq). by apply sublist_app.
    + intros h [Hh|Hh]%elem_of_app; [by apply F|]. destruct (F4 h Hh) as (? & ? & Ht). split_and!; [done|done|].
      intros Hb. by apply Ht, Hmono.
  - unfold len in *. cbn [length]. intros Hm' Hq' h [->|Hh]%elem_of_cons H0 Hb; [|apply Hall; try done; lia].
    destruct (Hx H0) as [Ht|Ht]; [left; rewrite F1; apply elem_of_app; by left|right; by rewrite F2].
Qed.

(** C26. When the best stored header is ahead of the tip, the hashes on its chain above the tip
    whose blocks are missing are put at the end of the queue, in ascending order of height,
    leaving out what is queued or in flight; nothing else of the queue changes, and the store
    is only read.  If neither the fill limit nor the bound of 5000 cuts it short, every missing
    block is then queued or in flight. *)
Theorem enqueueMissing_spec d sm fuel maxFill tipH tipHash hdrH hdrHash path :
  linked d -> GetTip d = (Ret (Some (tipH, tipHash)), d) ->
  GetHeaderTip d = (Ret (Some (hdrH, hdrHash)), d) -> hdrHash <> "" ->
  0 <= tipH < hdrH -> hdrH < 2 ^ 40 -> header_path d hdrHash hdrH (tipH + 1) path ->
  (length path <= fuel)%nat ->
  exists sm' new, enqueueMissing fuel maxFill (d, sm) = (Ret (Some tt), (d, sm')) /\
    filled d (rev path) sm sm' new /\
    (len path < maxFill -> len (sm_pending sm) + len path <= 5000 ->
     forall h, h ∈ path -> h <> "" -> block_at d h = None -> tracked sm' h).
Proof.
  intros Hl Ht Hht H0 Hlt Hmax Hp Hf. unfold enqueueMissing.
  erewrite gbind_ret by (apply gignore_ret; unfold on_sm_db, gzoom; cbn [fst snd]; rewrite Ht; reflexivity).
  erewrite gbind_ret by (apply gignore_ret; unfold on_sm_db, gzoom; cbn [fst snd]; rewrite Hht; reflexivity).
  cbn [option_map fst default from_option id]. rewrite (proj2 (String.eqb_neq _ _) H0).
  rewrite (proj2 (Z.leb_gt _ _)) by lia. cbn [orb]. cbv zeta. rewrite (u64_id (tipH + 1)) by (unfold is_u64; lia).
  destruct (header_ancestor_run _ _ _ _ _ Hp ltac:(lia) fuel Hf) as [x Hx].
  erewrite gbind_ret by (apply gignore_ret; unfold on_sm_db, gzoom; cbn [fst snd]; rewrite Hx; reflexivity).
  rewrite (u64_id (hdrH - (tipH + 1) + 1)), i64_id by (unfold is_u64, is_i64; lia).
  assert (make_cap_ok (hdrH - (tipH + 1) + 1) string_size = true) as ->.
  { unfold make_cap_ok, string_size. apply andb_true_intro. split; apply Z.leb_le; lia. }
  cbn [negb].
  erewrite gbind_ret by (unfold on_sm_db, gzoom; cbn [fst snd]; rewrite (collect_back_run _ _ _ _ _ Hp fuel Hf); reflexivity).
  destruct (fill_queue_run maxFill d Hl (rev path) 0 sm) as (sm' & new & R & F & Hall).
  exists sm', new. erewrite gbind_ret by exact R. split_and!; [done|done|]. unfold len in *.
  rewrite length_rev in Hall. intros Hm Hq h Hh. apply Hall; [lia|lia|].
  apply list_elem_of_In. rewrite <- in_rev. by apply list_elem_of_In.
Qed.
End Enqueue.

(** ** Committing candidates *)
Section Commit.
Context {L : LevelDB} {HL : LevelDBOk L} {HS : Hashes} {CD : Codecs} {MO : MapOrder} {FS : SnapFiles}.

Lemma tip_or_none_run d tipH tipHash : GetTip d = (Ret (Some (tipH, tipHash)), d) ->
  tip_or_none d = (Ret (tipH, tipHash), d).
Proof. intros Ht. unfold tip_or_none. by erewrite gbind_ret by (by apply gignore_ret). Qed.

Lemma on_store_run {A} (m : GoM db_t A) d f osm o d' : m d = (o, d') ->
  on_store m (d, f, osm) = (o, (d', f, osm)).
Proof. intros H. unfold on_store, on_ledger, on_db, gzoom. cbn [fst snd]. by rewrite H. Qed.

(** Committing forward never leaves the finalized chain: when every candidate it could take
    next continues a chain with another block at the finalized height, [TryCommitNext] returns
    without changing store, files or queues, whatever [ApplyBlock] does. *)
Theorem TryCommitNext_refuses ApplyBlock maxFill fuel d f osm tipH tipHash finH mainB want cands :
  linked d -> cell_ok (db_view d) keyFinalized -> cell (db_view d) keyFinalized = finH -> 0 < finH ->
  main_block d finH = Some mainB -> GetTip d = (Ret (Some (tipH, tipHash)), d) ->
  BestChainHashAtHeight (S fuel) (u64 (tipH + 1)) d = (Ret (Some want), d) ->
  ListCandidatesAtHeight (u64 (tipH + 1)) 256 d = (Ret cands, d) ->
  (forall c, In c cands -> pick_candidate tipHash want c = true ->
     exists b a, block_at d (ca_Hash c) = Some b /\ (Z.to_nat (Height (Header b)) <= fuel)%nat /\
       ancestor d (ca_Hash c) a /\ Height (Header a) = finH /\
       Hash_String (BlockHash a) <> Hash_String (BlockHash mainB)) ->
  TryCommitNext ApplyBlock maxFill (S fuel) (d, f, osm) = (Ret (Some tt), (d, f, osm)).
Proof.
  intros Hl Hc Hcell Hpos Hmain Ht Hbest Hcands Hbad. cbn [TryCommitNext].
  erewrite gbind_ret by (by apply on_store_run, tip_or_none_run). cbv beta iota zeta.
  erewrite gbind_ret by (by apply on_store_run). cbv beta iota.
  erewrite gbind_ret by (by apply gignore_ret, on_store_run). cbv beta iota.
  destruct (List.find (pick_candidate tipHash want) cands) as [c|] eqn:Ef; [|done].
  apply find_some in Ef as [Hin Hpick]. destruct (Hbad c Hin Hpick) as (b & a & Hb & Hfuel & Ha & Hah & Hne).
  destruct (ca_Hash c =? "")%string; [done|].
  destruct (enforceFinalized_run d (ca_Hash c) b finH mainB (S fuel) Hl Hc Hcell Hpos Hmain Hb ltac:(lia))
    as [[_ Hall]|[Hrun _]]; [by apply Hall in Ha|].
  assert (gtry (on_store (enforceFinalizedOnCandidate (S fuel) (ca_Hash c))) (d, f, osm)
    = (Ret (inl "violates_finalized"), (d, f, osm))) as E.
  { unfold gtry. by rewrite (on_store_run _ _ _ _ _ _ Hrun). }
  by erewrite gbind_ret by exact E.
Qed.
End Commit.
