(* ===== verification/Node.v ===== *)
(** * core/node/node.go: genesis, block submission, mining and transaction admission

    [pow.NextWorkRequired] is called and declared nowhere; it is an argument that may read the
    store through the two callbacks it is given.  [time.Now().Unix()] is [now].  The handlers
    return the HTTP status and the error word of the body.  Gossip to peers after an admission
    is not part of the result. *)

From S2P Require Import Prelude GoLang KV Chain Pow Storage State Fees Config Crypto Validate Apply Mempool Forkchoice Finality.

(** [%08x] of a uint32. *)
Definition hex08 (v : Z) : string := hex_EncodeToString (be_put 4 v).

Section Node.
Context {L : LevelDB} {HS : Hashes} {CD : Codecs} {ED : Ed25519} {E : Edwards} {MO : MapOrder}
  {FS : SnapFiles} {TS : TxSort}.
Context (cfg : Config) (mustHex32 : string -> string) (genesis : Genesis).

(** [fmt.Errorf("prefix%w", err)]. *)
Definition gwrap {S A} (prefix : string) (m : GoM S A) : GoM S A :=
  let! r := gtry m in match r with inr a => gret a | inl e => gerr (prefix +:+ e) end.

(** *** ensureGenesisStored *)

Definition ensureGenesisStored : GoM db_t unit :=
  let! has := gwrap "genesis-check: " HasGenesis in
  let gb := GenesisBlock genesis in
  let gh := Hash_String (HeaderHash (Header gb)) in
  if negb has then
    gwrap "genesis-store: " (PutGenesis genesis) ;;;
    gwrap "genesis-block-store: " (PutBlock gh 0 gb) ;;;
    gwrap "tip-store: " (PutTip 0 gh) ;;;
    gignore tt (PutFinalized 0 gh) ;;;
    let! w := glift (Work64 (Bits (Header gb))) in
    gignore tt (PutWork gh w) ;;;
    gignore tt (PutTipWork w)
  else
    let! r := gwrap "genesis-load-stored: " GetGenesis in
    match r with
    | Found existing =>
        if negb (g_ChainID existing =? g_ChainID genesis)%string
        then gerr ("genesis mismatch: db=" +:+ g_ChainID existing +:+ " file=" +:+ g_ChainID genesis)
        else gret tt
    | BadJSON _ e => gerr ("genesis-load-stored: " +:+ e)
    | NotFound => gerr "genesis-load-stored: %!w(<nil>)"
    end.

(** *** SubmitBlock *)

(** The callbacks of the difficulty rule. *)
Definition getHeader (height : Z) : GoM db_t (option BlockHeader) :=
  let! r := gignore (NotFound, "") (GetBlockByHeight height) in
  gret (option_map Header (found_ok r.1)).
Definition getBits (height : Z) : GoM db_t (option Z) :=
  let! hdr := getHeader height in gret (option_map Bits hdr).

Context (NextWorkRequired : (Z -> GoM db_t (option BlockHeader)) -> (Z -> GoM db_t (option Z)) ->
  Z -> GoM db_t (option Z)).

(** Everything before the block is stored; [None] is the early success at height 0, [Some]
    carries the hash and the parent's. *)
Definition check_block (b : Block) : GoM (db_t * fs_t) (option (string * string)) :=
  let hd := Header b in
  if negb (ChainID hd =? g_ChainID genesis)%string then gerr "wrong chain_id"
  else
    glift (ValidateLimits cfg b) ;;;
    ValidateBlockStateOnMainParent cfg mustHex32 genesis b ;;;
    glift (ValidateBlockBasic cfg mustHex32 b) ;;;
    let h := HeaderHash hd in
    if negb (MeetsTarget h (Bits hd)) then gerr "pow does not meet target"
    else if Height hd =? 0 then gret None
    else
      let prevHex := Hash_String (PrevHash hd) in
      let! r := gtry (on_db (GetBlockByHash prevHex)) in
      match r with
      | inr (Found prevB) =>
          if negb (u64 (Height (Header prevB) + 1) =? Height hd) then gerr "bad height linkage"
          else
            let! bits := on_db (NextWorkRequired getHeader getBits (Height hd)) in
            match bits with
            | Some expectedBits =>
                if negb (Bits hd =? expectedBits)
                then gerr ("bad bits: got " +:+ hex08 (Bits hd) +:+ " want " +:+ hex08 expectedBits)
                else gret (Some (Hash_String h, prevHex))
            | None => gret (Some (Hash_String h, prevHex))
            end
      | _ => gerr "missing parent"
      end.

(** Storing the block and its cumulative work. *)
Definition store_block (b : Block) (hashHex prevHex : string) : GoM db_t Z :=
  PutBlock hashHex (Height (Header b)) b ;;;
  gignore tt (PutHeader_any hashHex (Header b)) ;;;
  let! parentWork := GetWork prevHex in
  let! wAdd := glift (Work64 (Bits (Header b))) in
  let cum := Cumulative (default 0 parentWork) wAdd in
  gignore tt (PutWork hashHex cum) ;;;
  gret cum.

Definition extends_tip (b : Block) (prevHex : string) (t : option (Z * string)) : bool :=
  match t with
  | Some (tipH, tipHash) => (prevHex =? tipHash)%string && (Height (Header b) =? u64 (tipH + 1))
  | None => false
  end.

(** The block extends the tip: no transaction is applied to the account state here. *)
Definition advance_tip (n : FinNode) (now : Z) (b : Block) (hashHex : string) (cum : Z) : GoM db_t unit :=
  ValidateBlockStateTip cfg b ;;;
  gignore tt (PutTip (Height (Header b)) hashHex) ;;;
  gignore tt (PutTipWork cum) ;;;
  gignore tt (PutHashByHeightOverwrite (Height (Header b)) hashHex) ;;;
  if finalityEnabled n then
    if checkpointInterval n =? 0 then gpanic
    else if Height (Header b) mod checkpointInterval n =? 0 then
      let cp := {| cp_Height := Height (Header b); cp_HashHex := hashHex;
                   cp_TimeUnix := TimeUnix (Header b) |} in
      gignore tt (PutCheckpoint (Height (Header b)) cp) ;;;
      gignore tt (processCheckpointVotes n cfg genesis now cp)
    else gret tt
  else gret tt.

(** [b_Height] and [feeSum] are the undeclared names of the state rebuild. *)
Definition SubmitBlock (n : FinNode) (b_Height feeSum now : Z) (b : Block) : GoM (db_t * fs_t) unit :=
  let! c := check_block b in
  match c with
  | None => gret tt
  | Some (hashHex, prevHex) =>
      let! cum := on_db (store_block b hashHex prevHex) in
      let! t := gignore None (on_db GetTip) in
      if extends_tip b prevHex t then on_db (advance_tip n now b hashHex cum)
      else
        let! curWork := gignore None (on_db GetTipWork) in
        if default 0 curWork <? cum then
          let! r := gtry (trySwitchMainChain cfg genesis b_Height feeSum hashHex (Height (Header b))) in
          match r with
          | inr _ => gignore tt (on_db (PutTipWork cum))
          | inl _ => gret tt
          end
        else gret tt
  end.

(** *** BuildNextBlockHeader, MineOne *)

Definition BuildNextBlockHeader (now : Z) (txs : list Tx) : GoM db_t BlockHeader :=
  let! t := GetTip in
  match t with
  | None => gerr "no tip"
  | Some (tipH, tipHash) =>
      let! r := gtry (GetBlockByHash tipHash) in
      match r with
      | inr (Found tipBlock) =>
          let nextHeight := u64 (tipH + 1) in
          let! bits := NextWorkRequired getHeader getBits nextHeight in
          match bits with
          | None => gerr "cannot compute expected difficulty"
          | Some expectedBits =>
              gret {| Version := u32 (g_ProtocolVersion genesis); ChainID := g_ChainID genesis;
                      Height := nextHeight; TimeUnix := now;
                      PrevHash := HeaderHash (Header tipBlock);
                      StateRoot := StateRoot (Header tipBlock);
                      HTxRoot := TxRoot txs; Bits := expectedBits; Nonce := 0 |}
          end
      | _ => gerr "missing tip block"
      end
  end.

Definition coinbase_tx : Tx :=
  {| From := ""; PubKey := ""; SigHex := ""; TType := "coinbase"; TClaim := None; TVersion := 0;
     TNonce := 0; Fee := 0; GasAsset := fe_GasAsset (c_Fees cfg);
     Outputs := [{| Amount := ic_BlockReward (c_Issuance cfg);
                    Asset := ic_RewardAsset (c_Issuance cfg);
                    Address := ic_CoinbaseTo (c_Issuance cfg); OP := ""; OR := ""; OTag := "";
                    EncMemo := ""; PolicyBits := 0 |}];
     Memo := "" |}.

(** The body of the mined block. *)
Definition mined_txs (txs : list Tx) : list Tx :=
  if ic_Enabled (c_Issuance cfg) then coinbase_tx :: txs else txs.

(** [fuel] bounds the priority queue of the pool and the search for a nonce. *)
Definition MineOne (n : FinNode) (b_Height feeSum : Z) (fuel : nat) (now : Z)
    : GoM (db_t * fs_t * Mempool) (option (string * Z)) :=
  if isReadOnly cfg || (nc_Role (c_Node cfg) =? "observer")%string then gerr "mining_disabled"
  else
    let? txs := on_mp (Drain fuel now 500) in
    let! txs := on_chain (on_db (FilterTxsBySimState txs)) in
    gfor txs (fun tx => on_chain (on_db (DelMempoolTx (TxID tx)))) ;;;
    let txs := mined_txs txs in
    let! h := on_chain (on_db (BuildNextBlockHeader now txs)) in
    match MineHeader fuel h with
    | None => gret None
    | Some (hash, nonce, h) =>
        on_chain (SubmitBlock n b_Height feeSum now {| Header := h; Txs := txs |}) ;;;
        gret (Some (Hash_String hash, nonce))
    end.

(** *** The handler of [POST /tx/submit] after decoding *)

(** The loop over the outputs: the asset defaults, amount and destination are checked. *)
Fixpoint submit_outputs (outs : list TxOut) : sum string (list TxOut) :=
  match outs with
  | [] => inr []
  | o :: rest =>
      let o := if (Asset o =? "")%string then
        {| Amount := Amount o; Asset := "USDR"; Address := Address o; OP := OP o; OR := OR o;
           OTag := OTag o; EncMemo := EncMemo o; PolicyBits := PolicyBits o |} else o in
      if Amount o <=? 0 then inl "bad_amount"
      else if (Address o =? "")%string && ((OP o =? "")%string || (OR o =? "")%string)
      then inl "missing_destination"
      else match submit_outputs rest with inl e => inl e | inr l => inr (o :: l) end
  end.

(** The transaction with its defaults filled in. *)
Definition with_defaults (tx : Tx) (outs : list TxOut) (gas ty : string) : Tx :=
  {| From := From tx; PubKey := PubKey tx; SigHex := SigHex tx; TType := ty; TClaim := TClaim tx;
     TVersion := TVersion tx; TNonce := TNonce tx; Fee := Fee tx; GasAsset := gas;
     Outputs := outs; Memo := Memo tx |}.

(** The checks of a claim against its bucket. *)
Definition submit_claim (tx : Tx) : GoM db_t (option string) :=
  match TClaim tx with
  | None => gret (Some "bad_otap_claim")
  | Some c =>
      if (CP c =? "")%string || (CR c =? "")%string || (CTo c =? "")%string
      then gret (Some "bad_otap_claim")
      else if negb (CTo c =? From tx)%string then gret (Some "claim_to_must_equal_from")
      else
        let! b := gignore None (GetBalance ("otap:" +:+ CP c)) in
        let bBal := default 0 b in
        if bBal <? CAmount c then gret (Some "insufficient_otap_bucket")
        else if (ClaimSigHex c =? "")%string then gret (Some "missing_claim_sig")
        else
          match pt_SetBytes (mustHex32 (CP c)) with
          | Ret Ppt =>
              if negb (schnorr_Verify Ppt (SigningBytes tx) (ClaimSigHex c))
              then gret (Some "bad_claim_signature")
              else if bBal <? i64 (CAmount c + Fee tx)
              then gret (Some "insufficient_otap_bucket_for_fee")
              else gret None
          | Err _ => gret (Some "bad_claim_P")
          | Panic => gpanic
          end
  end.

(** Policy, signature, nonce and balance: the error word, or the completed transaction. *)
Definition submit_checks (tx : Tx) : GoM db_t (sum string Tx) :=
  if Nat.eqb (length (Outputs tx)) 0 then gret (inl "no_outputs")
  else match submit_outputs (Outputs tx) with
  | inl e => gret (inl e)
  | inr outs =>
      let gas := if (GasAsset tx =? "")%string then fe_GasAsset (c_Fees cfg) else GasAsset tx in
      let tx1 := with_defaults tx outs gas (TType tx) in
      if negb (gas =? fe_GasAsset (c_Fees cfg))%string then gret (inl "bad_gas_asset")
      else
        let sz := TxSizeHint (TxID tx1) (Z.of_nat (length outs)) in
        let est := EstimateFee sz (isOTAP tx1) (fee_params cfg) in
        if Fee tx <? est then gret (inl "insufficient_fee")
        else
          let ty := if (TType tx =? "")%string then "transfer" else TType tx in
          let tx := with_defaults tx outs gas ty in
          if (From tx =? "")%string || (PubKey tx =? "")%string || (SigHex tx =? "")%string
          then gret (inl "missing_from_or_sig")
          else if negb (From tx =? PubKey tx)%string then gret (inl "from_pubkey_mismatch")
          else if negb (sig_Verify (PubKey tx) (SigHex tx) (SigningBytes tx))
          then gret (inl "bad_signature")
          else
            let! nn := gignore None (GetNonce (From tx)) in
            if negb (TNonce tx =? u64 (default 0 nn + 1)) then gret (inl "bad_nonce")
            else
              let outTotal := out_total (Outputs tx) in
              let! bal := gignore None (GetBalance (From tx)) in
              if default 0 bal <? i64 (outTotal + Fee tx) then gret (inl "insufficient_funds")
              else if (ty =? "otap_claim")%string then
                let! e := submit_claim tx in
                gret match e with Some e => inl e | None => inr tx end
              else gret (inr tx)
  end.
End Node.
