(* ===== verification/Wallet.v ===== *)
(** * services/wallet-daemon: receiving payments to one-time addresses

    Keys from the vault, the requests for slots and outputs, and the polling loop that detects
    payments and submits their claims.  What the node and the storage service answer is given by
    functions ([NodeAnswers]); what the wallet tells them is a list of [action]s.  Answers and random
    bytes may differ from call to call: they are indexed by the number of actions so far.  The
    closing braces of [pollLoop] do not match its opening ones; it is read as it is indented,
    with [last = h] at the end of each block.  The theorems: the claim for a payment built for the
    wallet's keys carries two signatures that verify ([claim_signatures_verify]), and the node
    refuses every claim the wallet submits ([claims_refused]); a tick scans the blocks above the
    last one in order, up to the first it cannot get ([poll_scans_in_order]). *)

From S2P Require Import Prelude GoLang KV Chain Storage Config Crypto Finality KeyVault State Fees Validate Node.

Definition OTAPContext : string := "default".

Record OTAPKeys := { ok_Registry : RegistryKeys; ok_Priv : PrivateKeys }.
Record WalletAccount := { wa_PubHex : string; wa_PrivHex : string }.

(** ** Configuration *)

Record WConfig := {
  wc_Bind : string; wc_Port : Z; wc_Storage : string; wc_Node : string; wc_Polling : bool; wc_Interval : Z;
  wc_KeyvaultPath : string; wc_KEKEnv : string }.

(** The checks and defaults of [New]. *)
Definition check_config (c : WConfig) : outcome WConfig :=
  if wc_Port c =? 0 then Err "rpc.port required"
  else if (wc_Storage c =? "")%string then Err "storage.base_url required"
  else if (wc_Node c =? "")%string then Err "node.base_url required"
  else Ret {|
    wc_Bind := if (wc_Bind c =? "")%string then "127.0.0.1" else wc_Bind c; wc_Port := wc_Port c;
    wc_Storage := wc_Storage c; wc_Node := wc_Node c; wc_Polling := wc_Polling c;
    wc_Interval := if wc_Interval c <=? 0 then 2 else wc_Interval c;
    wc_KeyvaultPath := if (wc_KeyvaultPath c =? "")%string then "runtime/keyvault/keyvault.enc" else wc_KeyvaultPath c;
    wc_KEKEnv := if (wc_KEKEnv c =? "")%string then "RESERVEOS_KEYMASTER" else wc_KEKEnv c |}.

(** ** Keys *)
Section Keys.
Context {HS : Hashes} {E : Edwards} {ED : Ed25519}.
(** The vault: its state and accesses. *)
Context {V : Type} (get : string -> GoM V (option string)) (set : string -> string -> GoM V unit).

Definition LoadOrGenOTAPKeys (rnd1 rnd2 : outcome string) : GoM V OTAPKeys :=
  let! sPriv := get "otap.s_priv" in
  let! vPriv := get "otap.v_priv" in
  let! sPub := get "otap.S_pub" in
  let! vPub := get "otap.V_pub" in
  match sPriv, vPriv, sPub, vPub with
  | Some sPriv, Some vPriv, Some sPub, Some vPub =>
      gret {| ok_Registry := {| rk_ScanPub := sPub; rk_SpendPub := vPub |};
              ok_Priv := {| pk_ScanPriv := sPriv; pk_SpendPriv := vPriv |} |}
  | _, _, _, _ =>
      let! (reg, priv) := glift (GenerateKeys rnd1 rnd2) in
      set "otap.s_priv" (pk_ScanPriv priv) ;;;
      set "otap.v_priv" (pk_SpendPriv priv) ;;;
      set "otap.S_pub" (rk_ScanPub reg) ;;;
      set "otap.V_pub" (rk_SpendPub reg) ;;;
      gret {| ok_Registry := reg; ok_Priv := priv |}
  end.

Definition LoadOrGenWalletAccount (gen : outcome (string * string)) : GoM V WalletAccount :=
  let! pub := get "wallet.ed25519_pub" in
  let! priv := get "wallet.ed25519_priv" in
  match pub, priv with
  | Some pub, Some priv => gret {| wa_PubHex := pub; wa_PrivHex := priv |}
  | _, _ =>
      let! (p, s) := glift gen in
      let pub := hex_EncodeToString p in
      let priv := hex_EncodeToString s in
      set "wallet.ed25519_pub" pub ;;;
      set "wallet.ed25519_priv" priv ;;;
      gret {| wa_PubHex := pub; wa_PrivHex := priv |}
  end.
End Keys.

(** ** The service *)

(** The value of ["slot_id"] in a decoded memo: a number is a [float64]. *)
Inductive slot_value := SlotNumber (x : f64) | SlotOther.
Class MemoCodec := {
  memo_marshal : Z -> string -> string;                     (* slot id, note *)
  memo_unmarshal : string -> outcome (option slot_value);
}.
Class MemoCodecOk (C : MemoCodec) : Prop :=
  memo_slot : forall slot note, memo_unmarshal (memo_marshal slot note) = Ret (Some (SlotNumber (f64_of_Z slot))).

Record wallet := { w_acct : WalletAccount; w_keys : OTAPKeys; w_chainID : string; w_last : Z }.

Record otapRequestReq := { rr_Purpose : string; rr_ExpiresIn : Z; rr_AccountID : option string }.
Record otapBuildReq := { bq_Recipient : RegistryKeys; bq_Amount : Z; bq_Asset : string; bq_SlotID : Z; bq_Note : string }.

Inductive action :=
| MarkConfirmed (slot height : Z) (txid : string) (at_ : Z)
| SubmitTx (tx : Tx).

(** What the node answers: [ChainInfo] (chain and height), blocks as the outputs of their
    transactions, the nonce of the wallet's account. *)
Record NodeAnswers := {
  na_ChainInfo : outcome (string * Z);
  na_Block : Z -> outcome (list (list TxOut));
  na_Nonce : nat -> outcome Z }.

Section Wallet.
Context {HS : Hashes} {E : Edwards} {ED : Ed25519} {A : AEAD} {MC : MemoCodec}.

Definition account_Sign (a : WalletAccount) (msg : string) : outcome string :=
  olet b := hex_DecodeString (wa_PrivHex a) in
  if negb (Nat.eqb (String.length b) 64) then Err "bad priv size"
  else Ret (hex_EncodeToString (ed_Sign b msg)).

(** [POST /otap/request]: the slot asked for, then the answer; [alloc] is the storage service. *)
Definition otap_request (alloc : option string -> string -> option Z -> outcome (Z * option Z)) (now : Z)
    (w : wallet) (req : otapRequestReq) : Z * option (Z * option Z * RegistryKeys) :=
  let purpose := if (rr_Purpose req =? "")%string then "receive" else rr_Purpose req in
  let expiresAt := if 0 <? rr_ExpiresIn req then Some (i64 (now + rr_ExpiresIn req)) else None in
  match alloc (rr_AccountID req) purpose expiresAt with
  | Ret (slot, exp) => (200, Some (slot, exp, ok_Registry (w_keys w)))
  | _ => (500, None)
  end.

Definition handleOTAPRequest (alloc : option string -> string -> option Z -> outcome (Z * option Z)) (now : Z)
    (w : wallet) (method : string) (body : outcome otapRequestReq) : Z * option (Z * option Z * RegistryKeys) :=
  if negb (method =? "POST")%string then (405, None)
  else match body with Ret req => otap_request alloc now w req | _ => (400, None) end.

(** [POST /otap/build_tx]: the status, the output and the wallet, which may learn the chain. *)
Definition otap_build_tx (info : outcome (string * Z)) (rnd1 rnd2 : outcome string) (w : wallet)
    (req : otapBuildReq) : Z * option TxOut * wallet :=
  if bq_Amount req <=? 0 then (400, None, w)
  else
    let asset := if (bq_Asset req =? "")%string then "USDR" else bq_Asset req in
    if (rk_ScanPub (bq_Recipient req) =? "")%string || (rk_SpendPub (bq_Recipient req) =? "")%string
    then (400, None, w)
    else
      let chain := if (w_chainID w =? "")%string then match info with Ret (cid, _) => cid | _ => "" end
                   else w_chainID w in
      let w := {| w_acct := w_acct w; w_keys := w_keys w; w_chainID := chain; w_last := w_last w |} in
      let chainID := if (chain =? "")%string then "reservechain-unknown" else chain in
      match BuildOutput rnd1 chainID OTAPContext (bq_Recipient req) with
      | Ret (out, K) =>
          let memoPlain := memo_marshal (bq_SlotID req) (bq_Note req) in
          match EncryptMemo rnd2 K memoPlain (oo_P out +:+ oo_R out) with
          | Ret encMemo =>
              (200, Some {| Amount := bq_Amount req; Asset := asset; Address := ""; OP := oo_P out; OR := oo_R out;
                            OTag := oo_Tag out; EncMemo := encMemo; PolicyBits := 1 |}, w)
          | _ => (500, None, w)
          end
      | _ => (500, None, w)
      end.

Definition handleOTAPBuildTx (info : outcome (string * Z)) (rnd1 rnd2 : outcome string) (w : wallet)
    (method : string) (body : outcome otapBuildReq) : Z * option TxOut * wallet :=
  if negb (method =? "POST")%string then (405, None, w)
  else match body with Ret req => otap_build_tx info rnd1 rnd2 w req | _ => (400, None, w) end.

(** *** The polling loop *)

(** [cs, _ := f()]. *)
Definition or_empty (o : outcome string) : string := match o with Ret s => s | _ => "" end.

(** The claim before it is signed. *)
Definition claim_tx (acct : WalletAccount) (o : TxOut) (nonce : Z) (claimSig sig : string) : Tx :=
  {| From := wa_PubHex acct; PubKey := wa_PubHex acct; SigHex := sig; TType := "otap_claim";
     TClaim := Some {| CP := OP o; CR := OR o; CTag := OTag o; CTo := wa_PubHex acct; CAmount := Amount o;
                       ClaimSigHex := claimSig |};
     TVersion := 0; TNonce := nonce; Fee := 1000; GasAsset := "USDR"; Outputs := []; Memo := "" |}.

(** The claim and its submission, when every derivation succeeds. *)
Definition submit_claim_of (w : wallet) (o : TxOut) (rnd : outcome string) (nonce : Z) : list action :=
  let out := {| oo_P := OP o; oo_R := OR o; oo_Tag := OTag o |} in
  let keys := w_keys w in
  match DetectWithK (w_chainID w) OTAPContext out (pk_ScanPriv (ok_Priv keys)) (rk_SpendPub (ok_Registry keys)) with
  | Ret (Some (_, k)) =>
      match OneTimePriv (pk_SpendPriv (ok_Priv keys)) k with
      | Ret x =>
          match DecodePointHex (OP o) with
          | Ret P =>
              let msg := SigningBytes (claim_tx (w_acct w) o nonce "" "") in
              let cs := or_empty (schnorr_Sign rnd x P msg) in
              let asig := or_empty (account_Sign (w_acct w) (SigningBytes (claim_tx (w_acct w) o nonce cs ""))) in
              [SubmitTx (claim_tx (w_acct w) o nonce cs asig)]
          | _ => []
          end
      | _ => []
      end
  | _ => []
  end.

(** The slot a detected memo names, if it names one. *)
Definition memo_slot_id (plain : string) : option Z :=
  match memo_unmarshal plain with
  | Ret (Some v) =>
      let slot := match v with SlotNumber x => f64_to_int64 x | SlotOther => 0 end in
      if slot <=? 0 then None else Some slot
  | _ => None
  end.

(** The body of the innermost loop; [k] actions were taken before. *)
Definition scan_output (now h : Z) (w : wallet) (ans : NodeAnswers) (rnd : nat -> outcome string) (k : nat) (o : TxOut)
    : list action :=
  if (OP o =? "")%string || (OR o =? "")%string then []
  else
    let out := {| oo_P := OP o; oo_R := OR o; oo_Tag := OTag o |} in
    match Detect (w_chainID w) OTAPContext out (pk_ScanPriv (ok_Priv (w_keys w))) (rk_SpendPub (ok_Registry (w_keys w))) with
    | Ret (Some K) =>
        if (EncMemo o =? "")%string then []
        else
          match DecryptMemo K (EncMemo o) (OP o +:+ OR o) with
          | Ret plain =>
              match memo_slot_id plain with
              | None => []
              | Some slot =>
                  MarkConfirmed slot (i64 h) "txid_todo" now ::
                  match na_Nonce ans (S k) with
                  | Ret nn => submit_claim_of w o (rnd (S k)) (u64 (nn + 1))
                  | _ => []
                  end
              end
          | _ => []
          end
    | _ => []
    end.

Definition scan_block (now h : Z) (w : wallet) (ans : NodeAnswers) (rnd : nat -> outcome string) (acts : list action)
    (txs : list (list TxOut)) : list action :=
  fold_left (fun acts o => acts ++ scan_output now h w ans rnd (length acts) o) (concat txs) acts.

(** The blocks [h], [h+1], ... ; [n] of them. *)
Fixpoint scan_blocks (n : nat) (now h : Z) (w : wallet) (ans : NodeAnswers) (rnd : nat -> outcome string)
    (acts : list action) : wallet * list action :=
  match n with
  | O => (w, acts)
  | S n' =>
      match na_Block ans h with
      | Ret txs =>
          let acts := scan_block now h w ans rnd acts txs in
          let w := {| w_acct := w_acct w; w_keys := w_keys w; w_chainID := w_chainID w; w_last := h |} in
          scan_blocks n' now (u64 (h + 1)) w ans rnd acts
      | _ => (w, acts)
      end
  end.

Definition poll_tick (now : Z) (ans : NodeAnswers) (rnd : nat -> outcome string) (w : wallet) : wallet * list action :=
  match na_ChainInfo ans with
  | Ret (cid, height) =>
      let chain := if (w_chainID w =? "")%string then cid else w_chainID w in
      let at_ last := {| w_acct := w_acct w; w_keys := w_keys w; w_chainID := chain; w_last := last |} in
      if w_last w =? 0 then (at_ height, [])
      else if height <=? w_last w then (at_ (w_last w), [])
      else scan_blocks (Z.to_nat (height - w_last w)) now (u64 (w_last w + 1)) (at_ (w_last w)) ans rnd []
  | _ => (w, [])
  end.

(** ** Properties *)

Lemma hex_not_empty b : b <> "" -> (hex_EncodeToString b =? "")%string = false.
Proof. by destruct b. Qed.

Lemma b64_not_empty b : b <> "" -> (b64_Encode b =? "")%string = false.
Proof. by destruct b as [|? [|? [|? ?]]]. Qed.

(** *** What the node says to the claims *)

(** Claims have no outputs. *)
Definition submits_claims (l : list action) : Prop :=
  Forall (fun a => match a with SubmitTx tx => Outputs tx = [] | MarkConfirmed _ _ _ _ => True end) l.

Lemma scan_output_claims now h w ans rnd k o : submits_claims (scan_output now h w ans rnd k o).
Proof.
  unfold scan_output, submit_claim_of, submits_claims.
  repeat match goal with
  | |- Forall _ [] => apply Forall_nil_2
  | |- Forall _ (_ :: _) => apply Forall_cons_2; [done|]
  | |- Forall _ (if ?b then _ else _) => destruct b
  | |- Forall _ (match ?x with _ => _ end) => destruct x
  end.
Qed.

Lemma scan_block_claims now h w ans rnd acts txs : submits_claims acts ->
  submits_claims (scan_block now h w ans rnd acts txs).
Proof.
  unfold scan_block. revert acts. induction (concat txs) as [|o l IH]; intros acts Ha; [done|].
  cbn [fold_left]. apply IH, Forall_app. split; [done|apply scan_output_claims].
Qed.

Lemma scan_blocks_claims n now h w ans rnd acts : submits_claims acts ->
  submits_claims (scan_blocks n now h w ans rnd acts).2.
Proof.
  revert h w acts. induction n as [|n IH]; intros h w acts Ha; cbn [scan_blocks]; [done|].
  destruct (na_Block ans h); [|done..]. by apply IH, scan_block_claims.
Qed.

Context {L : LevelDB} (cfg : Config.Config).

(** Every transaction a tick submits is refused by [POST /tx/submit], in every state of the node:
    it asks for outputs before it looks at the claim. *)
Theorem claims_refused mustHex32 now ans rnd w tx (d : db_t) :
  In (SubmitTx tx) (poll_tick now ans rnd w).2 ->
  submit_checks cfg mustHex32 tx d = (Ret (inl "no_outputs"), d).
Proof.
  intros Hin. assert (submits_claims (poll_tick now ans rnd w).2) as Hc.
  { unfold poll_tick. destruct (na_ChainInfo ans) as [[cid height]|?|]; [|apply Forall_nil_2..].
    destruct (w_last w =? 0); [apply Forall_nil_2|]. destruct (height <=? w_last w); [apply Forall_nil_2|].
    apply scan_blocks_claims, Forall_nil_2. }
  unfold submits_claims in Hc. rewrite Forall_forall in Hc.
  specialize (Hc _ (proj2 (list_elem_of_In _ _) Hin)). cbn in Hc.
  unfold submit_checks. by rewrite Hc.
Qed.

(** *** The claim itself *)

Context {HE : EdwardsOk E} {AOk : AEADOk A} {MOk : MemoCodecOk MC}.

(** A wallet whose one-time-address keys are those of the scalars [s] and [v], and whose account
    key is the pair [pub], [priv]. *)
Record wallet_of (w : wallet) (s v : scalar) (pub priv : string) : Prop := {
  wo_scan : ok_Registry (w_keys w) = {| rk_ScanPub := hex_EncodeToString (pt_Bytes (ScalarBaseMult s));
                                        rk_SpendPub := hex_EncodeToString (pt_Bytes (ScalarBaseMult v)) |};
  wo_priv : ok_Priv (w_keys w) = {| pk_ScanPriv := hex_EncodeToString (sc_Bytes s);
                                    pk_SpendPriv := hex_EncodeToString (sc_Bytes v) |};
  wo_acct : w_acct w = {| wa_PubHex := hex_EncodeToString pub; wa_PrivHex := hex_EncodeToString priv |};
  wo_pair : key_pair pub priv; wo_size : String.length priv = 64%nat;
}.

(** What the owner submits for an output with one-time secret [x]. *)
Lemma submit_claim_verifies w s v pub priv o K k rnd nonce : wallet_of w s v pub priv -> String.length rnd = 64%nat ->
  DetectWithK (w_chainID w) OTAPContext {| oo_P := OP o; oo_R := OR o; oo_Tag := OTag o |}
    (hex_EncodeToString (sc_Bytes s)) (hex_EncodeToString (pt_Bytes (ScalarBaseMult v))) = Ret (Some (K, k)) ->
  DecodePointHex (OP o) = Ret (ScalarBaseMult (sc_Add v k)) ->
  exists cs asig, let tx := claim_tx (w_acct w) o nonce cs asig in
  submit_claim_of w o (Ret rnd) nonce = [SubmitTx tx] /\
  VerifyWithPubHex (PubKey tx) (SigHex tx) (SigningBytes tx) = true /\
  schnorr_Verify (ScalarBaseMult (sc_Add v k)) (SigningBytes tx) cs = true.
Proof.
  intros [Hs Hp Ha Hkp Hsz] Hr Hd HP. unfold submit_claim_of. rewrite Hs, Hp. cbn [rk_SpendPub pk_ScanPriv pk_SpendPriv].
  rewrite Hd. unfold OneTimePriv. rewrite decodeScalar_encode. cbn [obind]. rewrite HP.
  set (msg := SigningBytes (claim_tx (w_acct w) o nonce "" "")).
  destruct (schnorr_complete rnd (sc_Add v k) msg Hr) as (cs & -> & Hver). cbn [or_empty].
  exists cs, (hex_EncodeToString (ed_Sign priv msg)). cbv zeta.
  assert (forall c g, SigningBytes (claim_tx (w_acct w) o nonce c g) = msg) as Hmsg by reflexivity. rewrite !Hmsg.
  assert (account_Sign (w_acct w) msg = Ret (hex_EncodeToString (ed_Sign priv msg))) as ->
    by (unfold account_Sign; rewrite Ha; cbn; by rewrite hex_Decode_Encode; cbn; rewrite Hsz).
  split; [done|]. split; [|done]. cbn [PubKey SigHex claim_tx]. rewrite Ha. by apply VerifyWithPubHex_signed.
Qed.

(** C24. A payment that another wallet of the same chain builds for this wallet's published keys is
    found by the scan: its slot is confirmed at the block's height, and the claim that is submitted
    names the output and its amount, uses the account's next nonce and carries an account signature
    and a claim signature that both verify over the bytes the node checks. *)
Theorem claim_signatures_verify w w0 s v pub priv req rnd1 rnd2 info o w1 now h ans rnd k nn b :
  wallet_of w s v pub priv -> w_chainID w <> "" -> w_chainID w0 = w_chainID w ->
  bq_Recipient req = ok_Registry (w_keys w) ->
  String.length rnd1 = 64%nat -> String.length rnd2 = 12%nat ->
  handleOTAPBuildTx info (Ret rnd1) (Ret rnd2) w0 "POST" (Ret req) = (200, Some o, w1) ->
  0 < bq_SlotID req -> f64_to_int64 (f64_of_Z (bq_SlotID req)) = bq_SlotID req ->
  na_Nonce ans (S k) = Ret nn -> rnd (S k) = Ret b -> String.length b = 64%nat ->
  exists tx c P, scan_output now h w ans rnd k o = [MarkConfirmed (bq_SlotID req) (i64 h) "txid_todo" now; SubmitTx tx] /\
  TClaim tx = Some c /\ CP c = OP o /\ CAmount c = bq_Amount req /\ CTo c = From tx /\ TNonce tx = u64 (nn + 1) /\
  DecodePointHex (OP o) = Ret P /\ schnorr_Verify P (SigningBytes tx) (ClaimSigHex c) = true /\
  VerifyWithPubHex (PubKey tx) (SigHex tx) (SigningBytes tx) = true.
Proof.
  intros Hw Hc Hc0 Hreq Hr1 Hr2 Hbuild Hslot Hf Hnn Hrnd Hb. pose proof Hw as [Hs Hp Ha Hkp Hsz].
  destruct (randomScalar_some rnd1 Hr1) as [r Hr].
  destruct (otap_derivation s v r (w_chainID w) OTAPContext _ Hr) as (out & K & kk & Hbo & Hdet & Hdk & _ & HP & HoP & HoR).
  destruct (memo_round_trip rnd2 K (memo_marshal (bq_SlotID req) (bq_Note req)) (oo_P out +:+ oo_R out) Hr2) as (enc & Henc & Hdec).
  change (otap_build_tx info (Ret rnd1) (Ret rnd2) w0 req = (200, Some o, w1)) in Hbuild.
  unfold otap_build_tx in Hbuild. rewrite Hreq, Hs, Hc0 in Hbuild.
  destruct (Z.leb_spec (bq_Amount req) 0); [done|].
  destruct (_ || _) eqn:Hk in Hbuild; [done|]. clear Hk.
  destruct (String.eqb_spec (w_chainID w) "") as [|_]; [done|].
  destruct (String.eqb_spec (w_chainID w) "") as [|_] in Hbuild; [done|].
  rewrite Hbo, Henc in Hbuild. injection Hbuild as <- <-.
  set (o := {| Amount := _ |}) in *.
  assert ({| oo_P := OP o; oo_R := OR o; oo_Tag := OTag o |} = out) as Hout by (by destruct out).
  destruct (submit_claim_verifies w s v pub priv o K kk b (u64 (nn + 1)) Hw Hb) as (cs & asig & Hsub & Hv1 & Hv2).
  { rewrite Hout. exact Hdk. } { exact HP. }
  exists (claim_tx (w_acct w) o (u64 (nn + 1)) cs asig), {| CP := OP o; CR := OR o; CTag := OTag o;
    CTo := wa_PubHex (w_acct w); CAmount := Amount o; ClaimSigHex := cs |}, (ScalarBaseMult (sc_Add v kk)).
  split; [|by repeat split].
  unfold scan_output. rewrite Hout, Hs, Hp. cbn [pk_ScanPriv]. rewrite Hdet.
  cbn [OP OR EncMemo o]. rewrite HoP, HoR, !hex_not_empty by
    (intros H0; pose proof (pt_Bytes_32 (ScalarBaseMult r)); pose proof (pt_Bytes_32 (ScalarBaseMult (sc_Add v kk)));
     rewrite H0 in *; done).
  cbn [orb]. rewrite <- HoP, <- HoR, Hdec.
  assert ((enc =? "")%string = false) as ->.
  { unfold EncryptMemo in Henc. destruct (deriveMemoKey K) as [mk|?|]; [|done..]. cbn [obind] in Henc.
    destruct (aead_New mk) as [mk'|?|]; [|done..]. cbn [obind] in Henc. injection Henc as <-.
    apply b64_not_empty. by destruct rnd2. }
  unfold memo_slot_id. rewrite memo_slot, Hf. destruct (Z.leb_spec (bq_SlotID req) 0); [lia|].
  by rewrite Hnn, Hrnd, Hsub.
Qed.

(** *** Which blocks are scanned *)

(** The actions for the blocks [bs] from height [h] on. *)
Fixpoint scan_seq (now h : Z) (w : wallet) (ans : NodeAnswers) (rnd : nat -> outcome string) (acts : list action)
    (bs : list (list (list TxOut))) : list action :=
  match bs with
  | [] => acts
  | b :: bs' => scan_seq now (h + 1) w ans rnd (scan_block now h w ans rnd acts b) bs'
  end.

(** What was scanned last plays no part in what a block gives. *)
Lemma scan_block_last now h w w' ans rnd acts txs : w_acct w' = w_acct w -> w_keys w' = w_keys w ->
  w_chainID w' = w_chainID w -> scan_block now h w' ans rnd acts txs = scan_block now h w ans rnd acts txs.
Proof.
  intros H1 H2 H3. unfold scan_block. revert acts. induction (concat txs) as [|o l IH]; intros acts; [done|].
  cbn [fold_left]. rewrite IH. do 2 f_equal. unfold scan_output, submit_claim_of. by rewrite H1, H2, H3.
Qed.

Lemma scan_seq_last now h w w' ans rnd acts bs : w_acct w' = w_acct w -> w_keys w' = w_keys w ->
  w_chainID w' = w_chainID w -> scan_seq now h w' ans rnd acts bs = scan_seq now h w ans rnd acts bs.
Proof.
  intros H1 H2 H3. revert h acts. induction bs as [|b bs IH]; intros h acts; [done|].
  cbn [scan_seq]. by rewrite IH, (scan_block_last now h w w').
Qed.

Lemma scan_blocks_run n now h w ans rnd acts : 0 <= h - 1 -> h + Z.of_nat n <= M64 - 1 ->
  w_last w = h - 1 -> exists bs w', scan_blocks n now h w ans rnd acts = (w', scan_seq now h w ans rnd acts bs) /\
  (length bs <= n)%nat /\ w_last w' = h - 1 + Z.of_nat (length bs) /\
  (forall i b, bs !! i = Some b -> na_Block ans (h + Z.of_nat i) = Ret b) /\
  ((length bs < n)%nat -> forall b, na_Block ans (h + Z.of_nat (length bs)) <> Ret b).
Proof.
  revert h w acts. induction n as [|n IH]; intros h w acts Hh Hn Hw; cbn [scan_blocks].
  { exists [], w. cbn. split; [done|]. split; [lia|]. split; [lia|]. split; [done|lia]. }
  destruct (na_Block ans h) as [txs|e|] eqn:Hb.
  2,3: exists [], w; cbn; (split; [done|]); (split; [lia|]); (split; [lia|]); (split; [done|]); intros _ b;
    rewrite Z.add_0_r, Hb; done.
  rewrite u64_id by (unfold is_u64; lia).
  set (w1 := {| w_acct := w_acct w; w_keys := w_keys w; w_chainID := w_chainID w; w_last := h |}).
  destruct (IH (h + 1) w1 (scan_block now h w ans rnd acts txs)) as (bs & w' & Hrun & Hlen & Hlast & Hin & Hend);
    [lia|lia|cbn; lia|].
  exists (txs :: bs), w'. rewrite Hrun. cbn [scan_seq length]. rewrite (scan_seq_last now (h + 1) w w1) by done.
  split; [done|]. split; [lia|]. split; [lia|]. split.
  - intros [|i] b; [intros [= ->]; by rewrite Z.add_0_r|]. intros Hi. rewrite <- (Hin i b Hi). f_equal. lia.
  - intros Hlt b. replace (h + Z.of_nat (S (length bs))) with (h + 1 + Z.of_nat (length bs)) by lia. apply Hend. lia.
Qed.

(** A tick scans every new block once and in order, from the one above the last to the height the
    node reports or the first block it does not give, where the next tick goes on.  The first tick
    only takes the height: blocks from before it are never scanned. *)
Theorem poll_scans_in_order now ans rnd w cid height : na_ChainInfo ans = Ret (cid, height) ->
  0 <= w_last w -> 0 <= height < M64 - 1 ->
  let r := poll_tick now ans rnd w in
  let w1 := {| w_acct := w_acct w; w_keys := w_keys w; w_last := w_last w;
               w_chainID := if (w_chainID w =? "")%string then cid else w_chainID w |} in
  (w_last w = 0 -> r.2 = [] /\ w_last r.1 = height) /\
  (0 < w_last w -> exists bs, r.2 = scan_seq now (w_last w + 1) w1 ans rnd [] bs /\
     w_last r.1 = w_last w + Z.of_nat (length bs) /\ Z.of_nat (length bs) <= Z.max 0 (height - w_last w) /\
     (forall i b, bs !! i = Some b -> na_Block ans (w_last w + 1 + Z.of_nat i) = Ret b) /\
     (Z.of_nat (length bs) < height - w_last w -> forall b, na_Block ans (w_last r.1 + 1) <> Ret b)).
Proof.
  intros Hi Hl Hh r w1. unfold r, poll_tick. rewrite Hi. split; intros H0.
  { by rewrite H0. }
  destruct (Z.eqb_spec (w_last w) 0); [lia|].
  destruct (Z.leb_spec height (w_last w)).
  { exists []. cbn. split; [done|]. split; [lia|]. split; [lia|]. split; [done|lia]. }
  rewrite u64_id by (unfold is_u64; lia).
  destruct (scan_blocks_run (Z.to_nat (height - w_last w)) now (w_last w + 1) w1 ans rnd [])
    as (bs & w' & Hrun & Hlen & Hlast & Hin & Hend); [lia|lia|cbn; lia|].
  fold w1. rewrite Hrun. cbn [fst snd]. exists bs. split; [done|]. split; [lia|]. split; [lia|]. split; [done|].
  intros Hlt b. rewrite Hlast. replace (w_last w + 1 - 1 + Z.of_nat (length bs) + 1)
    with (w_last w + 1 + Z.of_nat (length bs)) by lia. apply Hend. lia.
Qed.
End Wallet.
