(* ===== verification/NodeProps.v ===== *)
(** * Properties of block submission, mining and transaction admission *)

From S2P Require Import Prelude GoLang KV Chain Pow Storage StorageProps State StateProps Fees Config Crypto Validate Apply Frame Ledger LedgerProps Mempool Forkchoice ForkchoiceProps Finality FinalityProps Node.

(** ** Transaction admission *)
Section Admission.
Context {L : LevelDB} {HL : LevelDBOk L} {HS : Hashes} {CD : Codecs} {ED : Ed25519} {E : Edwards}.
Context (cfg : Config) (mustHex32 : string -> string).

Lemma TxSizeHint_any id1 id2 n : TxSizeHint id1 n = TxSizeHint id2 n.
Proof. done. Qed.

Lemma GetNonce_default d id : state_ok (db_view d) ->
  exists o, gignore None (GetNonce id) d = (Ret o, d) /\ default 0 o = nonce (db_view d) id.
Proof.
  intros Hok. destruct (GetNonce_run d id) as (o & Hg & Hdef); [apply Hok|].
  exists o. split; [by apply gignore_ret|done].
Qed.

Lemma GetBalance_default d id : state_ok (db_view d) ->
  exists o, gignore None (GetBalance id) d = (Ret o, d) /\ default 0 o = balance (db_view d) id.
Proof.
  intros Hok. destruct (GetBalance_run d id (proj1 (Hok id))) as (o & Hg & Hdef & _).
  exists o. split; [by apply gignore_ret|done].
Qed.

(** What a claim that passes has been checked for. *)
Lemma submit_claim_ok d tx d' : state_ok (db_view d) ->
  submit_claim mustHex32 tx d = (Ret None, d') ->
  d' = d /\ exists c Ppt, TClaim tx = Some c /\ CP c <> "" /\ CTo c <> "" /\ CTo c = From tx /\
    ClaimSigHex c <> "" /\ pt_SetBytes (mustHex32 (CP c)) = Ret Ppt /\
    schnorr_Verify Ppt (SigningBytes tx) (ClaimSigHex c) = true /\
    i64 (CAmount c + Fee tx) <= balance (db_view d) ("otap:" +:+ CP c).
Proof.
  intros Hok. unfold submit_claim. destruct (TClaim tx) as [c|]; [|done].
  destruct (String.eqb_spec (CP c) ""); [done|]. destruct (String.eqb_spec (CR c) ""); [done|].
  destruct (String.eqb_spec (CTo c) ""); [done|]. cbn [orb].
  destruct (String.eqb_spec (CTo c) (From tx)); [|done]. cbn [negb].
  destruct (GetBalance_default d ("otap:" +:+ CP c) Hok) as (o & Ho & Hd).
  erewrite gbind_ret by exact Ho. cbv zeta. rewrite Hd.
  case_goal; [done|]. destruct (String.eqb_spec (ClaimSigHex c) ""); [done|].
  destruct (pt_SetBytes (mustHex32 (CP c))) as [Ppt|err|] eqn:Hp; [|done..].
  destruct (schnorr_Verify Ppt (SigningBytes tx) (ClaimSigHex c)) eqn:Hs; cbn [negb]; [|done].
  case_goal; [done|]. zbool. intros [= <-]. split; [done|]. exists c, Ppt. split_and!; done || lia.
Qed.

(** Whether a list of transactions passes both block checks. *)
Definition body_valid (d : db_t) (h : BlockHeader) (txs : list Tx) : Prop :=
  ValidateBlockBasic cfg mustHex32 {| Header := h; Txs := txs |} = Ret tt /\
  ValidateBlockStateTip cfg {| Header := h; Txs := txs |} d = (Ret tt, d).

(** With issuance on, the reward output of a block with this transaction covers what the
    second reward rule asks for. *)
Definition reward_covers (tx : Tx) : Prop :=
  ic_Enabled (c_Issuance cfg) = true ->
  i64 (ic_Reward (c_Issuance cfg) + Fee tx) <= ic_BlockReward (c_Issuance cfg).

(** The reward can be credited. *)
Definition reward_room (d : db_t) : Prop :=
  ic_Enabled (c_Issuance cfg) = true -> 0 <= ic_BlockReward (c_Issuance cfg) /\
  balance (db_view d) (ic_CoinbaseTo (c_Issuance cfg)) + ic_BlockReward (c_Issuance cfg) < 2 ^ 63.

(** A credit of another account, or of this one without overflow, does not stop a transaction. *)
Lemma w_tx_credit a k r tx : acc_ok a -> 0 <= r -> a_bal a k + r < M63 -> is_Some (w_tx a tx) ->
  is_Some (w_tx (with_bal a k (a_bal a k + r)) tx).
Proof.
  intros Hok Hr Hroom [a' Ha]. unfold w_tx in *. change (a_non (with_bal a k (a_bal a k + r))) with (a_non a).
  case_goal; [done|]. cbv zeta in *.
  assert (forall x, a_bal (with_non a (From tx) (TNonce tx)) x <=
    a_bal (with_non (with_bal a k (a_bal a k + r)) (From tx) (TNonce tx)) x) as Hge.
  { intros x. unfold with_non, with_bal, upd. cbn [a_bal]. case_decide; subst; lia. }
  destruct (if is_claim tx then TClaim tx else None) as [c|].
  - specialize (Hge ("otap:" +:+ CP c)). case_hyp Ha; [done|]. zbool.
    rewrite (proj2 (Z.ltb_ge _ _)) by lia. by eexists.
  - specialize (Hge (From tx)). case_hyp Ha; [done|]. zbool.
    rewrite (proj2 (Z.ltb_ge _ _)) by lia. by eexists.
Qed.

(** The reward rules on the block [MineOne] builds of one transaction. *)
Lemma covers_alone tx : TType tx <> "coinbase" -> is_i64 (Fee tx) ->
  (ic_Enabled (c_Issuance cfg) = true -> is_i64 (ic_BlockReward (c_Issuance cfg))) ->
  coinbase_covers cfg (mined_txs cfg [tx]) = Ret tt <-> reward_covers tx.
Proof.
  intros Hcb%String.eqb_neq Hf Hb. unfold coinbase_covers, mined_txs, reward_covers.
  destruct (ic_Enabled (c_Issuance cfg)); [|by rewrite Hcb].
  unfold sumFees, out_total. cbn [coinbase_tx TType Outputs fold_left Amount]. cbv zeta.
  change (("coinbase" =? "coinbase")%string) with true. cbv iota.
  rewrite Hcb, !Z.add_0_l, (i64_id (Fee tx)), (i64_id (ic_BlockReward _)) by auto.
  case_goal; zbool; [split; [done|intros H; specialize (H eq_refl); lia]|split; [intros; lia|done]].
Qed.

Lemma mined_alone_valid d h tx : state_ok (db_view d) -> reward_room d ->
  TType tx <> "coinbase" -> is_i64 (Fee tx) -> basic_tx cfg mustHex32 tx = Ret tt ->
  claim_present tx = true -> is_Some (w_tx (acc_of d) tx) ->
  body_valid d h (mined_txs cfg [tx]) <-> reward_covers tx.
Proof.
  intros Hok Hroom Hcb Hfee Hb Hc Hw. pose proof (acc_of_ok d Hok) as Haok.
  unfold reward_room in Hroom. change (2 ^ 63) with M63 in Hroom.
  pose proof (Haok (ic_CoinbaseTo (c_Issuance cfg))) as Hcto. cbn in Hcto.
  rewrite <- covers_alone; [|done|done|intros He; specialize (Hroom He); unfold is_i64; lia].
  unfold body_valid, ValidateBlockBasic, ValidateBlockStateTip, StateTip_sim, coinbase_rules, tip_coinbase, mined_txs.
  pose proof Hcb as Hcb'%String.eqb_neq. cbn [Txs]. destruct (ic_Enabled (c_Issuance cfg)) eqn:Hen.
  - destruct (Hroom eq_refl) as [Hr0 Hr]. cbn [coinbase_tx TType Outputs Amount existsb basic_loop].
    change (("coinbase" =? "coinbase")%string) with true. rewrite Hen, Hcb', Z.eqb_refl. cbn [negb orb obind andb].
    rewrite Hb. cbn [obind Address].
    split; [by intros [? _]|]. intros Hcov. split; [done|].
    destruct (sim_w_add d empty_sim _ (ic_CoinbaseTo (c_Issuance cfg)) (ic_BlockReward (c_Issuance cfg)) (rep_start d Hok))
      as (s1 & R1 & H1).
    destruct (w_tx_credit (acc_of d) (ic_CoinbaseTo (c_Issuance cfg)) (ic_BlockReward (c_Issuance cfg)) tx)
      as [a2 Ha2]; [done..|].
    destruct (tip_txs_w d [tx] s1 (w_add (acc_of d) (ic_CoinbaseTo (c_Issuance cfg)) (ic_BlockReward (c_Issuance cfg))) a2)
      as (s2 & R2); [done|by intros ? [<-|[]]| |].
    { unfold w_add. rewrite i64_id by (cbn; unfold is_i64; lia). cbn [w_txs]. by rewrite Ha2. }
    unfold gbind in R1 |- *. destruct (getBal cached_ops _ (d, empty_sim)) as [[v|e|] t]; try done.
    rewrite R1. cbn [gret]. rewrite R2. unfold glift. by rewrite Hcov.
  - cbn [existsb basic_loop]. rewrite Hcb', Hen. cbn [orb obind andb]. rewrite Hb. cbn [obind].
    split; [by intros [? _]|]. intros Hcov. split; [done|]. destruct Hw as [a Ha].
    destruct (tip_txs_w d [tx] empty_sim (acc_of d) a (rep_start d Hok)) as (s2 & R2).
    + by intros x [<-|[]].
    + cbn [w_txs]. by rewrite Ha.
    + unfold gbind at 1. cbn [gret]. unfold gbind. rewrite R2. unfold glift. by rewrite Hcov.
Qed.

(** The rules of [ValidateBlockBasic] for one transaction whose type is filled in. *)
Lemma basic_tx_intro tx : default_type tx = tx -> (TType tx =? "coinbase")%string = false ->
  (Fee tx <? EstimateFee (TxSizeHint (TxID tx) (Z.of_nat (length (Outputs tx)))) (isOTAP tx) (fee_params cfg)) = false ->
  From tx <> "" -> PubKey tx <> "" -> SigHex tx <> "" -> From tx = PubKey tx ->
  sig_Verify (PubKey tx) (SigHex tx) (SigningBytes tx) = true ->
  (if is_claim tx then
     match TClaim tx with
     | Some c => exists Ppt, CP c <> "" /\ CTo c <> "" /\ CTo c = From tx /\ ClaimSigHex c <> "" /\
         pt_SetBytes (mustHex32 (CP c)) = Ret Ppt /\
         schnorr_Verify Ppt (SigningBytes tx) (ClaimSigHex c) = true
     | None => False
     end else True) ->
  basic_tx cfg mustHex32 tx = Ret tt.
Proof.
  intros Hdt Hcb Hfee H1 H2 H3 H4 Hsig Hcl. unfold basic_tx. rewrite Hdt, Hcb. cbv zeta.
  rewrite Hfee, (proj2 (String.eqb_neq _ _) H1), (proj2 (String.eqb_neq _ _) H2),
    (proj2 (String.eqb_neq _ _) H3). cbn [orb].
  rewrite (proj2 (String.eqb_eq _ _) H4), Hsig. cbn [negb]. fold (is_claim tx).
  destruct (is_claim tx); [|done]. destruct (TClaim tx) as [c|]; [|done].
  destruct Hcl as (Ppt & K1 & K2 & K3 & K4 & K5 & K6).
  rewrite (proj2 (String.eqb_neq _ _) K1), (proj2 (String.eqb_neq _ _) K2). cbn [orb].
  rewrite (proj2 (String.eqb_eq _ _) K3), (proj2 (String.eqb_neq _ _) K4), K5, K6. done.
Qed.

(** C7. Admission agrees with block validation: the block that mining builds of a
    transaction the submission handler lets through, unless it calls itself a reward, passes
    the signature, fee and claim rules and the balance and nonce simulation of blocks exactly
    when issuance is off or the block reward covers [Issuance.Reward] and the fee (the two
    reward rules contradict each other otherwise). *)
Theorem submitted_tx_is_minable d d' h tx tx' : state_ok (db_view d) -> reward_room d ->
  TType tx <> "coinbase" -> is_i64 (Fee tx) ->
  submit_checks cfg mustHex32 tx d = (Ret (inr tx'), d') ->
  d' = d /\ (body_valid d h (mined_txs cfg [tx']) <-> reward_covers tx').
Proof.
  intros Hok Hroom Hcb Hfee64. unfold submit_checks. destruct (Nat.eqb _ 0); [done|].
  destruct (submit_outputs (Outputs tx)) as [e|outs]; [done|]. cbv zeta.
  set (gas := if (GasAsset tx =? "")%string then _ else _).
  set (ty := if (TType tx =? "")%string then "transfer" else TType tx).
  assert (ty <> "" /\ ty <> "coinbase") as [Hty Hty2].
  { unfold ty. destruct (String.eqb_spec (TType tx) ""); split; done. }
  destruct (negb (gas =? _)%string); [done|].
  destruct (Fee tx <? _) eqn:Hfee; [done|].
  set (tx1 := with_defaults tx outs gas ty).
  destruct (String.eqb_spec (From tx1) "") as [|Hf]; [done|].
  destruct (String.eqb_spec (PubKey tx1) "") as [|Hpk]; [done|].
  destruct (String.eqb_spec (SigHex tx1) "") as [|Hsg]; [done|]. cbn [orb].
  destruct (String.eqb_spec (From tx1) (PubKey tx1)) as [Hfp|]; [|done]. cbn [negb].
  destruct (sig_Verify _ _ _) eqn:Hsig; [|done]. cbn [negb].
  destruct (GetNonce_default d (From tx1) Hok) as (on & Hon & Hdn).
  erewrite gbind_ret by exact Hon. rewrite Hdn.
  destruct (Z.eqb_spec (TNonce tx1) (u64 (nonce (db_view d) (From tx1) + 1))) as [Hnon|]; [|done]. cbn [negb].
  destruct (GetBalance_default d (From tx1) Hok) as (ob & Hob & Hdb).
  erewrite gbind_ret by exact Hob. rewrite Hdb.
  destruct (balance (db_view d) (From tx1) <? _) eqn:Hbal; [done|].
  assert (default_type tx1 = tx1) as Hdt.
  { unfold default_type. by rewrite (proj2 (String.eqb_neq (TType tx1) "") Hty). }
  assert (is_claim tx1 = (ty =? "otap_claim")%string) as Hic by done.
  assert ((TType tx1 =? "coinbase")%string = false) as Hnc by (by apply String.eqb_neq).
  destruct (ty =? "otap_claim")%string eqn:Hcl.
  - unfold gbind. destruct (submit_claim mustHex32 tx1 d) as [[[e|]|e|] d1] eqn:Hsc; try done.
    intros [= <- <-]. destruct (submit_claim_ok d tx1 d1 Hok Hsc)
      as (-> & c & Ppt & Hc & Hcp & Hto & Hft & Hcs & Hpt & Hver & Hneed).
    split; [done|]. apply mined_alone_valid; [done..| | |].
    + apply basic_tx_intro; [done..|]. rewrite Hic. rewrite Hc. by exists Ppt.
    + unfold claim_present. by rewrite Hic, Hc.
    + unfold w_tx. cbn [acc_of a_non a_bal with_non]. rewrite Hnon, Z.eqb_refl. cbn [negb].
      rewrite Hic, Hc, (proj2 (Z.ltb_ge _ _)) by done. by eexists.
  - intros [= <- <-]. split; [done|]. apply mined_alone_valid; [done..| | |].
    + apply basic_tx_intro; [done..|]. by rewrite Hic.
    + unfold claim_present. by rewrite Hic.
    + unfold w_tx. cbn [acc_of a_non a_bal with_non]. rewrite Hnon, Z.eqb_refl. cbn [negb].
      rewrite Hic, Hbal. by eexists.
Qed.
End Admission.

(** ** Validation only reads *)
Section ReadOnly.
Context {L : LevelDB} {HL : LevelDBOk L} {HS : Hashes} {CD : Codecs} {ED : Ed25519} {E : Edwards}
  {MO : MapOrder} {FS : SnapFiles}.
Context (cfg : Config) (mustHex32 : string -> string) (genesis : Genesis) (P : string -> Prop).

Lemma keeps_sim_db {A} (m : GoM db_t A) : keeps P m -> keeps P (sim_db m).
Proof.
  intros Hm [d s] k Hk. unfold sim_db, gzoom. specialize (Hm d k Hk). cbn. by destruct (m d).
Qed.
Lemma keeps_sim_mod f : keeps P (sim_mod f).
Proof. by intros [d s] k Hk. Qed.
Lemma keeps_gget : keeps P (gget (S := db_t * sim)).
Proof. by intros [d s] k Hk. Qed.
Lemma keeps_GetBalance id : keeps P (GetBalance id).
Proof. unfold GetBalance. frame. Qed.
Lemma keeps_GetNonce id : keeps P (GetNonce id).
Proof. unfold GetNonce. frame. Qed.
#[local] Hint Resolve keeps_sim_db keeps_sim_mod keeps_gget keeps_GetBalance keeps_GetNonce : frame.
Lemma keeps_getBal id : keeps P (getBal cached_ops id).
Proof. cbn [getBal cached_ops]. frame. apply keeps_sim_db. frame. Qed.
Lemma keeps_getNon id : keeps P (getNon cached_ops id).
Proof. cbn [getNon cached_ops]. frame. apply keeps_sim_db. frame. Qed.
Lemma keeps_setBal id v : keeps P (setBal cached_ops id v).
Proof. cbn [setBal cached_ops]. frame. Qed.
Lemma keeps_setNon id v : keeps P (setNon cached_ops id v).
Proof. cbn [setNon cached_ops]. frame. Qed.
#[local] Hint Resolve keeps_getBal keeps_getNon keeps_setBal keeps_setNon : frame.

Lemma keeps_StateTip b : keeps P (ValidateBlockStateTip cfg b).
Proof.
  assert (keeps P (StateTip_sim cfg b)) as H.
  { unfold StateTip_sim, tip_coinbase, tip_tx, credit_out. frame. }
  intros d k Hk. unfold ValidateBlockStateTip. specialize (H (d, empty_sim) k Hk).
  by destruct (StateTip_sim cfg b (d, empty_sim)) as [o [d' s']].
Qed.

Lemma keeps_fork_replay n h s : keeps P (fork_replay cfg mustHex32 n h s).
Proof. revert h s. induction n; intros h s; cbn [fork_replay]; frame. Qed.
#[local] Hint Resolve keeps_fork_replay : frame.

Lemma keeps_OnMainParent b : keeps P (ValidateBlockStateOnMainParent cfg mustHex32 genesis b).
Proof. unfold ValidateBlockStateOnMainParent. frame. Qed.
End ReadOnly.
#[export] Hint Resolve keeps_StateTip keeps_OnMainParent : frame.

(** ** Block submission *)
Section Submit.
Context {L : LevelDB} {HL : LevelDBOk L} {HS : Hashes} {CD : Codecs} {ED : Ed25519} {E : Edwards}
  {MO : MapOrder} {FS : SnapFiles}.
Context (cfg : Config) (mustHex32 : string -> string) (genesis : Genesis).
Context (NextWorkRequired : (Z -> GoM db_t (option BlockHeader)) -> (Z -> GoM db_t (option Z)) ->
  Z -> GoM db_t (option Z)).

(** The difficulty rule is handed two readers and writes nothing. *)
Hypothesis NextWork_reads : forall P h, keeps P (NextWorkRequired getHeader getBits h).

(** What a block must satisfy before anything is stored. *)
Record admissible (d : db_t) (b : Block) : Prop := {
  adm_chain : ChainID (Header b) = g_ChainID genesis;
  adm_limits : ValidateLimits cfg b = Ret tt;
  adm_basic : ValidateBlockBasic cfg mustHex32 b = Ret tt;
  adm_pow : MeetsTarget (HeaderHash (Header b)) (Bits (Header b)) = true;
  adm_parent : exists p, block_at d (Hash_String (PrevHash (Header b))) = Some p /\
    u64 (Height (Header p) + 1) = Height (Header b);
}.

Lemma keeps_check_block P b : keeps P (check_block cfg mustHex32 genesis NextWorkRequired b).
Proof.
  unfold check_block, GetBlockByHash. frame.
Qed.

Lemma on_db_inv {A} (m : GoM db_t A) d f a s :
  on_db m (d, f) = (Ret a, s) -> exists d1, m d = (Ret a, d1) /\ s = (d1, f).
Proof. unfold on_db, gzoom. cbn. destruct (m d) as [o d1]. intros [= -> <-]. eauto. Qed.

Lemma gtry_inv {S A} (m : GoM S A) s a s' : gtry m s = (Ret (inr a), s') -> m s = (Ret a, s').
Proof. unfold gtry. destruct (m s) as [[] t]; intros [= <- <-]; done. Qed.

Lemma glift_inv {S A} (o : outcome A) (s : S) a s' : glift o s = (Ret a, s') -> o = Ret a /\ s' = s.
Proof. by intros [= -> ->]. Qed.

Lemma block_at_view d d' h : db_view d' = db_view d -> block_at d' h = block_at d h.
Proof. intros Hv. unfold block_at. by rewrite Hv. Qed.

Lemma keeps_all_view {A} (m : GoM (db_t * fs_t) A) s o d f :
  keeps (fun _ => True) m -> m s = (o, (d, f)) -> db_view d = db_view s.1.
Proof. intros Hk He. apply map_eq. intros k. specialize (Hk s k I). by rewrite He in Hk. Qed.

Lemma check_block_inv b d f c s1 :
  check_block cfg mustHex32 genesis NextWorkRequired b (d, f) = (Ret c, s1) ->
  match c with
  | None => Height (Header b) = 0
  | Some (hh, ph) => admissible d b /\ hh = Hash_String (HeaderHash (Header b)) /\
                     ph = Hash_String (PrevHash (Header b))
  end.
Proof.
  unfold check_block. destruct (String.eqb_spec (ChainID (Header b)) (g_ChainID genesis)) as [Hc|]; [|done].
  cbn [negb].
  intros ([] & s2 & [Hlim ->]%glift_inv & ([] & [d2 f2] & Hfork & ([] & s3 & [Hbas ->]%glift_inv & H)%gbind_inv)%gbind_inv)%gbind_inv.
  pose proof (keeps_all_view _ _ _ _ _ (keeps_OnMainParent cfg mustHex32 genesis _ b) Hfork) as Hv.
  cbn [fst] in Hv. cbv zeta in H. destruct (MeetsTarget _ _) eqn:Hpow; [|done]. cbn [negb] in H.
  destruct (Z.eqb_spec (Height (Header b)) 0); [by injection H as <- _|].
  apply gbind_inv in H as (r & s3 & Hr & H).
  destruct (try_GetBlockByHash d2 (Hash_String (PrevHash (Header b)))) as (r' & Hr' & Hb).
  assert (r' = Ret r /\ s3 = (d2, f2)) as [-> ->].
  { unfold on_db, gtry, gzoom in Hr, Hr'. cbn [fst snd] in Hr.
    destruct (GetBlockByHash _ d2) as [[] d3]; simplify_eq; done. }
  destruct r as [e|[|p|p e]]; try done.
  destruct (Z.eqb_spec (u64 (Height (Header p) + 1)) (Height (Header b))) as [Hh|]; [|done]. cbn [negb] in H.
  assert (admissible d b) as Hadm.
  { split; [done..|]. exists p. split; [|done]. rewrite <- (block_at_view d d2) by done. by apply Hb. }
  apply gbind_inv in H as (bits & s4 & _ & H).
  destruct bits as [eb|]; [destruct (negb _); [done|]|]; by injection H as <- _.
Qed.

(** C4. The store changes only for a block that belongs to this chain, passes the limits and
    the transaction rules, meets its proof-of-work target and links to a stored parent one
    height below; whatever else is submitted, the store is left as it was. *)
Theorem SubmitBlock_changes_only_admissible n b_Height feeSum now b d f :
  let '(o, (d', f')) := SubmitBlock cfg mustHex32 genesis NextWorkRequired n b_Height feeSum now b (d, f) in
  db_view d' = db_view d \/ admissible d b.
Proof.
  unfold SubmitBlock, gbind at 1.
  destruct (check_block cfg mustHex32 genesis NextWorkRequired b (d, f)) as [o [d1 f1]] eqn:Hc.
  pose proof (keeps_all_view _ _ _ _ _ (keeps_check_block _ b) Hc) as Hv.
  destruct o as [[[hh ph]|]|e|]; [|by left..].
  apply check_block_inv in Hc as (Hadm & _).
  destruct (gbind _ _ (d1, f1)) as [o [d2 f2]]. by right.
Qed.

(** *** What is stored with the block *)

(** The account state, the tip and its work. *)
Definition state_or_tip (k : string) : Prop :=
  is_state_key k = true \/ k = keyTipHeight \/ k = keyTipBlockID \/ k = keyTipWork.

Lemma keeps_store_block b hh ph : keeps state_or_tip (store_block b hh ph).
Proof.
  assert (forall x, ~ state_or_tip (keyHeaderByHash x) /\ ~ state_or_tip (keyWork x)) as Hk
    by (intros x; split; intros [?|[?|[?|?]]]; done).
  unfold store_block, PutHeader_any, GetWork, PutWork, PutBlock. frame.
  - apply keeps_write. intros o [<-|[<-|[]]]; intros [?|[?|[?|?]]]; done.
  - apply keeps_put_json, Hk.
  - apply keeps_put_be64, Hk.
Qed.

Lemma GetTip_agree d d' :
  db_view d' !! keyTipHeight = db_view d !! keyTipHeight ->
  db_view d' !! keyTipBlockID = db_view d !! keyTipBlockID ->
  GetTip d' = ((GetTip d).1, d').
Proof.
  intros H1 H2. unfold GetTip, gbind. rewrite !kv_get_ok, H1.
  destruct (db_view d !! keyTipHeight) as [hb|]; [|done]. unfold glift.
  destruct (json_u64_unmarshal hb); [|done..]. rewrite !kv_get_ok, H2.
  by destruct (db_view d !! keyTipBlockID).
Qed.

Lemma get_be64_agree d d' k : db_view d' !! k = db_view d !! k ->
  get_be64 k d' = ((get_be64 k d).1, d').
Proof.
  intros H. unfold get_be64, gbind. rewrite !kv_get_ok, H.
  destruct (db_view d !! k) as [b|]; [|done]. by destruct (BE_Uint64 b).
Qed.

Lemma keeps_advance_tip n now b hh cum :
  keeps (fun k => is_state_key k = true) (advance_tip cfg genesis n now b hh cum).
Proof.
  unfold advance_tip, PutTip, PutTipWork, PutHashByHeightOverwrite, PutCheckpoint,
    processCheckpointVotes, tryFinalizeHeight, PutVote, HasVote, has_key, PutFinalized. frame.
Qed.

(** The accounts of two stores agree. *)
Definition accounts_kept (d d' : db_t) : Prop :=
  forall id, balance (db_view d') id = balance (db_view d) id /\
             nonce (db_view d') id = nonce (db_view d) id.

Lemma accounts_kept_state d d' :
  (forall k, is_state_key k = true -> db_view d' !! k = db_view d !! k) -> accounts_kept d d'.
Proof. intros H id. unfold balance, nonce, cell. by rewrite !H. Qed.

(** Accepting a block on top of the current tip does not apply its transactions: whatever
    the block contains and however the call ends, every balance and nonce in the store is
    what it was. *)
Theorem SubmitBlock_tip_keeps_accounts n b_Height feeSum now b d f tipH tipHash :
  GetTip d = (Ret (Some (tipH, tipHash)), d) ->
  Hash_String (PrevHash (Header b)) = tipHash -> Height (Header b) = u64 (tipH + 1) ->
  accounts_kept d
    (SubmitBlock cfg mustHex32 genesis NextWorkRequired n b_Height feeSum now b (d, f)).2.1.
Proof.
  intros Ht Hprev Hh. apply accounts_kept_state.
  unfold SubmitBlock, gbind at 1.
  destruct (check_block cfg mustHex32 genesis NextWorkRequired b (d, f)) as [o [d1 f1]] eqn:Hc.
  pose proof (keeps_all_view _ _ _ _ _ (keeps_check_block _ b) Hc) as Hv1. cbn [fst] in Hv1.
  destruct o as [[[hh ph]|]|e|]; [|by cbn; rewrite Hv1..].
  apply check_block_inv in Hc as (_ & _ & ->).
  pose proof (keeps_store_block b hh (Hash_String (PrevHash (Header b))) d1) as Hk.
  unfold store_of, store_db in Hk. unfold gbind at 1, on_db at 1, gzoom at 1. cbn [fst snd].
  destruct (store_block b hh (Hash_String (PrevHash (Header b))) d1) as [oc d2]. cbn [snd] in Hk.
  destruct oc as [cum|e|]; [|by cbn; intros k Hkk; rewrite Hk, Hv1 by (by left)..].
  assert (GetTip d2 = (Ret (Some (tipH, tipHash)), d2)) as Ht2.
  { rewrite (GetTip_agree d), Ht; [done|..]; rewrite Hk, Hv1 by (unfold state_or_tip; tauto); done. }
  erewrite gbind_ret by (apply gignore_ret; unfold on_db, gzoom; cbn [fst snd]; rewrite Ht2; reflexivity).
  unfold extends_tip. rewrite Hprev, String.eqb_refl, Hh, Z.eqb_refl. cbn [andb].
  intros k Hkk. transitivity (db_view d2 !! k); [|by rewrite Hk, Hv1 by (by left)].
  exact (keeps_on_db _ _ (keeps_advance_tip n now b hh cum) (d2, f1) k Hkk).
Qed.

(** *** Blocks of a losing branch *)

Lemma store_block_inv b hh ph d cum d2 : store_block b hh ph d = (Ret cum, d2) ->
  main_hash d2 (Height (Header b)) = Some hh /\
  exists pw w, GetWork ph d = (Ret pw, d) /\ Work64 (Bits (Header b)) = Ret w /\
    cum = Cumulative (default 0 pw) w.
Proof.
  unfold store_block, PutBlock.
  intros ([] & d0 & (bs & ? & [Hm ->]%glift_inv & Hw)%gbind_inv & H)%gbind_inv.
  rewrite db_write_ok in Hw. injection Hw as <-.
  apply gbind_inv in H as ([] & d3 & Hhd & H).
  assert (forall k, ~ (exists x, k = keyHeaderByHash x) -> db_view d3 !! k = db_view (db_batch
    [BPut (keyBlockByHash hh) bs; BPut (keyHashByHeight (Height (Header b))) hh] d) !! k) as Hk3.
  { intros k Hk. pose proof (keeps_ignore (fun k => ~ exists x, k = keyHeaderByHash x) tt
      (PutHeader_any hh (Header b))) as Hkeep. unfold PutHeader_any in Hkeep, Hhd.
    specialize (Hkeep ltac:(apply keeps_put_json; intros Hx; apply Hx; by exists hh)).
    specialize (Hkeep (db_batch [BPut (keyBlockByHash hh) bs;
      BPut (keyHashByHeight (Height (Header b))) hh] d) k Hk).
    by rewrite Hhd in Hkeep. }
  apply gbind_inv in H as (pw & d4 & Hg & H).
  assert (d4 = d3 /\ GetWork ph d = (Ret pw, d)) as [-> Hg'].
  { unfold GetWork, get_be64, gbind in Hg |- *. rewrite kv_get_ok in Hg |- *.
    rewrite Hk3, db_view_batch in Hg by (intros [x Hx]; done).
    unfold batch_apply in Hg. cbn [fold_left batch_step] in Hg.
    rewrite !lookup_insert_ne in Hg by done.
    destruct (db_view d !! keyWork ph) as [v|]; [|by injection Hg as <- <-].
    destruct (BE_Uint64 v); cbn in Hg |- *; unfold gret, gpanic in *; by simplify_eq. }
  apply gbind_inv in H as (w & ? & [Hw ->]%glift_inv & H). cbv zeta in H.
  apply gbind_inv in H as ([] & d5 & Hp & H). injection H as <- <-.
  assert (gignore tt (PutWork hh (Cumulative (default 0 pw) w)) d3 = (Ret tt, db_ins (keyWork hh) (BE_PutUint64 (Cumulative (default 0 pw) w)) d3)) as Hp'.
  { eapply gignore_ret. unfold PutWork, put_be64. apply db_put_ok. }
  rewrite Hp' in Hp. injection Hp as <-. split; [|by exists pw, w].
  unfold main_hash. rewrite db_view_ins, lookup_insert_ne by done.
  rewrite Hk3 by (intros [x Hx]; done). rewrite db_view_batch. unfold batch_apply.
  cbn [fold_left batch_step]. apply lookup_insert_eq.
Qed.

(** The block does not continue the tip. *)
Definition off_tip (b : Block) (tipH : Z) (tipHash : string) : Prop :=
  Hash_String (PrevHash (Header b)) <> tipHash \/ Height (Header b) <> u64 (tipH + 1).

(** A block of a branch with no more work than the main chain replaces the main-chain
    entry of its height although the tip stays where it is: the height index then names a
    block that is not an ancestor of the tip. *)
Theorem SubmitBlock_losing_branch_indexed n b_Height feeSum now b d f d' f' tipH tipHash tw w pw :
  GetTip d = (Ret (Some (tipH, tipHash)), d) -> Height (Header b) <> 0 ->
  off_tip b tipH tipHash -> GetTipWork d = (Ret (Some tw), d) ->
  Work64 (Bits (Header b)) = Ret w -> GetWork (Hash_String (PrevHash (Header b))) d = (Ret (Some pw), d) -> Cumulative pw w <= tw ->
  SubmitBlock cfg mustHex32 genesis NextWorkRequired n b_Height feeSum now b (d, f) = (Ret tt, (d', f')) ->
  GetTip d' = (Ret (Some (tipH, tipHash)), d') /\
  main_hash d' (Height (Header b)) = Some (Hash_String (HeaderHash (Header b))).
Proof.
  intros Ht Hn0 Hnot Htw Hw Hpw Hle H. unfold SubmitBlock in H.
  apply gbind_inv in H as (c & [d1 f1] & Hc & H).
  pose proof (keeps_all_view _ _ _ _ _ (keeps_check_block _ b) Hc) as Hv1. cbn [fst] in Hv1.
  apply check_block_inv in Hc. destruct c as [[hh ph]|]; [|done].
  destruct Hc as (_ & -> & ->).
  apply gbind_inv in H as (cum & s2 & (d2 & Hs & ->)%on_db_inv & H).
  pose proof (keeps_store_block b (Hash_String (HeaderHash (Header b)))
    (Hash_String (PrevHash (Header b))) d1) as Hk.
  rewrite Hs in Hk. unfold store_of, store_db in Hk. cbn [snd] in Hk.
  apply store_block_inv in Hs as (Hmain & pw' & w' & Hpw' & Hw' & ->).
  assert (GetTip d2 = (Ret (Some (tipH, tipHash)), d2)) as Ht2.
  { rewrite (GetTip_agree d), Ht; [done|..]; rewrite Hk, Hv1 by (unfold state_or_tip; tauto); done. }
  assert (GetTipWork d2 = (Ret (Some tw), d2)) as Htw2.
  { unfold GetTipWork in *. rewrite (get_be64_agree d), Htw; [done|]. rewrite Hk, Hv1 by (unfold state_or_tip; tauto). done. }
  assert (pw' = Some pw) as ->.
  { unfold GetWork in *. rewrite (get_be64_agree d) in Hpw' by (by rewrite Hv1).
    rewrite Hpw in Hpw'. by injection Hpw' as <-. }
  assert (w' = w) as -> by congruence.
  erewrite gbind_ret in H
    by (apply gignore_ret; unfold on_db, gzoom; cbn [fst snd]; rewrite Ht2; reflexivity).
  assert (extends_tip b (Hash_String (PrevHash (Header b))) (Some (tipH, tipHash)) = false) as Hext.
  { unfold extends_tip. destruct Hnot as [Hne|Hne];
      [by rewrite (proj2 (String.eqb_neq _ _) Hne)|by rewrite (proj2 (Z.eqb_neq _ _) Hne), andb_false_r]. }
  rewrite Hext in H.
  erewrite gbind_ret in H
    by (apply gignore_ret; unfold on_db, gzoom; cbn [fst snd]; rewrite Htw2; reflexivity).
  cbn [default id] in H. rewrite (proj2 (Z.ltb_ge _ _)) in H by done. injection H as <- <-. done.
Qed.

(** *** Mining *)

Context {TS : TxSort} {HTS : TxSortOk TS}.

Lemma check_block_basic b s c s1 :
  check_block cfg mustHex32 genesis NextWorkRequired b s = (Ret c, s1) ->
  ValidateBlockBasic cfg mustHex32 b = Ret tt.
Proof.
  unfold check_block. destruct (negb _); [done|].
  intros ([] & s2 & _ & ([] & s3 & _ & ([] & s4 & [Hb _]%glift_inv & _)%gbind_inv)%gbind_inv)%gbind_inv.
  done.
Qed.

Lemma filter_keeps_reward {S} (o : SimOps S) tx txs s out s' : In tx txs -> TType tx = "coinbase" ->
  filter_loop o txs s = (Ret out, s') -> In tx out.
Proof.
  intros Hin Hcb. revert s out s'. induction txs as [|t txs IH]; intros s out s' H; [done|].
  cbn [filter_loop] in H. apply gbind_inv in H as (keep & s1 & Hk & H).
  apply gbind_inv in H as (rest & s2 & Hr & H). injection H as <- <-.
  destruct Hin as [->|Hin].
  - unfold filter_tx in Hk. rewrite Hcb in Hk. cbn in Hk.
    apply gbind_inv in Hk as ([] & s3 & _ & Hk). injection Hk as <- <-. by left.
  - specialize (IH Hin _ _ _ Hr). destruct keep; [by right|done].
Qed.

Lemma reward_in_body h txs tx : In tx txs -> TType tx = "coinbase" ->
  ValidateBlockBasic cfg mustHex32 {| Header := h; Txs := mined_txs cfg txs |} <> Ret tt.
Proof.
  intros Hin Hcb.
  assert (existsb (fun tx => (TType tx =? "coinbase")%string) txs = true) as Hex.
  { apply existsb_exists. exists tx. split; [done|]. by apply String.eqb_eq. }
  unfold ValidateBlockBasic, mined_txs, coinbase_rules. cbn [Txs].
  destruct (ic_Enabled (c_Issuance cfg)).
  - cbn [coinbase_tx TType String.eqb]. cbn. by rewrite Hex.
  - by rewrite Hex.
Qed.

(** The call of the miner ends with a new block. *)
Definition produces_block {S A : Type} (r : outcome (option A) * S) : bool :=
  match r.1 with Ret (Some _) => true | _ => false end.

(** A transaction that calls itself a reward stops mining: the assembly filter always
    keeps it, and the block made of what the pool gave out then breaks the reward rules, so
    no block is produced (and what was drained is gone). *)
Theorem reward_in_pool_stops_mining n b_Height feeSum fuel now d f mp txs d1 mp1 tx :
  Drain fuel now 500 (d, mp) = (Ret (Some txs), (d1, mp1)) -> In tx txs -> TType tx = "coinbase" ->
  produces_block
    (MineOne cfg mustHex32 genesis NextWorkRequired n b_Height feeSum fuel now (d, f, mp)) = false.
Proof.
  intros Hdr Hin Hcb. destruct (MineOne _ _ _ _ _ _ _ _ _ _) as [[[r|]|e|] s'] eqn:H; try done.
  exfalso.
  unfold MineOne in H. destruct (isReadOnly cfg || _); [done|].
  erewrite gbind_ret in H by (unfold on_mp, gzoom; cbn [fst snd]; rewrite Hdr; reflexivity).
  apply gbind_inv in H as (kept & s1 & Hf & H). apply gbind_inv in H as ([] & s2 & _ & H). cbv zeta in H.
  apply gbind_inv in H as (h & s3 & _ & H).
  destruct (MineHeader fuel h) as [[[hash nonce] h']|]; [|done].
  apply gbind_inv in H as ([] & s4 & Hs & _).
  assert (In tx kept) as Hk.
  { unfold on_chain, on_db, gzoom, FilterTxsBySimState in Hf. cbn [fst snd] in Hf.
    destruct (filter_loop cached_ops (sort_txs txs) (d1, empty_sim)) as [o [d2 sm]] eqn:Hfl.
    injection Hf as -> _. eapply filter_keeps_reward; [|done|exact Hfl].
    apply list_elem_of_In. rewrite (sort_perm txs). by apply list_elem_of_In. }
  unfold on_chain, gzoom in Hs.
  destruct (SubmitBlock _ _ _ _ _ _ _ _ _ _) as [o s5] eqn:Hsub. injection Hs as -> _.
  unfold SubmitBlock in Hsub. apply gbind_inv in Hsub as (c & s6 & Hc & _).
  by apply check_block_basic, (reward_in_body h' kept tx Hk Hcb) in Hc.
Qed.
End Submit.
