(* ===== verification/SyncOnce.v ===== *)
(** * core/node/sync.go: one round of header-first synchronisation

    What the peers answer to the HTTP requests ([fetchChainInfo], [fetchHeaders],
    [fetchBlockByHash], [fetchBlockByHeight], [postLocate]) is given by functions from requests
    to outcomes; a round asks each question once.  [reorgFromPeer] is called and declared
    nowhere; it is an argument. *)

From S2P Require Import Prelude GoLang KV Chain Pow Storage State Config Crypto Validate Apply Frame Mempool Forkchoice Finality Node.

Record chainInfoResp := { ci_ChainID : string; ci_Height : Z; ci_Tip : string; ci_TipWork : Z }.
Record locateResp := { lr_Found : bool; lr_Hash : string; lr_Height : Z }.
Record blockResp := { br_Height : Z; br_Hash : string; br_Block : Block }.
Record blockByHashResp := { bh_Hash : string; bh_Block : Block }.

(** The network. *)
Record Answers := {
  fetchChainInfo : string -> outcome chainInfoResp;
  fetchHeaders : string -> Z -> Z -> outcome (list BlockHeader);
  fetchBlockByHash : string -> string -> outcome blockByHashResp;
  fetchBlockByHeight : string -> Z -> outcome blockResp;
  postLocate : string -> list string -> outcome locateResp }.

Section SyncOnce.
Context {L : LevelDB} {HS : Hashes} {CD : Codecs} {ED : Ed25519} {E : Edwards} {MO : MapOrder}
  {FS : SnapFiles}.
Context {any : Type} {AJ : JSON any}.
Context (cfg : Config) (mustHex32 : string -> string) (genesis : Genesis).
Context (NextWorkRequired : (Z -> GoM db_t (option BlockHeader)) -> (Z -> GoM db_t (option Z)) ->
  Z -> GoM db_t (option Z)).
Context (n : FinNode) (b_Height feeSum now : Z).
Context (reorgFromPeer : string -> Z -> GoM (db_t * fs_t) unit).
Context (net : Answers).

(** The peer of our chain with the greatest height: peer, height and tip. *)
Definition best_peer_step (best : string * Z * string) (p : string) : string * Z * string :=
  match fetchChainInfo net p with
  | Ret ci =>
      if negb (ci_ChainID ci =? g_ChainID genesis)%string then best
      else if best.1.2 <? ci_Height ci then (p, ci_Height ci, ci_Tip ci) else best
  | _ => best
  end.
Definition best_peer (peers : list string) : string * Z * string := fold_left best_peer_step peers ("", 0, "").

(** Scoring headers: the hashes in order and the cumulative work of the last one scored. *)
Fixpoint score_headers (work : Z) (headers : list BlockHeader) : GoM db_t (list string * Z) :=
  match headers with
  | [] => gret ([], work)
  | hdr :: rest =>
      let h := HeaderHash hdr in
      if negb (MeetsTarget h (Bits hdr)) then gret ([], work)
      else
        let hashHex := Hash_String h in
        let! r := gtry (GetWork (Hash_String (PrevHash hdr))) in
        match r with
        | inr (Some parentWork) =>
            let! w := glift (Work64 (Bits hdr)) in
            let cum := Cumulative parentWork w in
            gignore tt (PutHeader_any hashHex hdr) ;;;
            gignore tt (PutWork hashHex cum) ;;;
            let! (seq, work) := score_headers cum rest in
            gret (hashHex :: seq, work)
        | _ => gret ([hashHex], work)
        end
  end.

Definition submit (b : Block) : GoM (db_t * fs_t) unit :=
  SubmitBlock cfg mustHex32 genesis NextWorkRequired n b_Height feeSum now b.

(** Fetching and submitting until something fails. *)
Fixpoint submit_fast (peer : string) (seq : list string) : GoM (db_t * fs_t) unit :=
  match seq with
  | [] => gret tt
  | hh :: rest =>
      let! br := gtry (glift (fetchBlockByHash net peer hh)) in
      match br with
      | inl _ => gret tt
      | inr br =>
          let! e := gtry (submit (bh_Block br)) in
          match e with inl _ => gret tt | inr _ => submit_fast peer rest end
      end
  end.

(** The same with the reorganisation that follows a rejected block. *)
Fixpoint submit_located (peer : string) (bestHeight : Z) (seq : list string) : GoM (db_t * fs_t) unit :=
  match seq with
  | [] => gret tt
  | hh :: rest =>
      let! br := glift (fetchBlockByHash net peer hh) in
      let! e := gtry (submit (bh_Block br)) in
      match e with
      | inr _ => submit_located peer bestHeight rest
      | inl err =>
          let! r := gtry (reorgFromPeer peer bestHeight) in
          match r with inr _ => gret tt | inl _ => gerr err end
      end
  end.

(** The finalized block, or genesis, that the peer has to have too. *)
Definition sync_anchor : GoM db_t (Z * string) :=
  let! o := GetFinalized in
  match o with
  | Some a => gret a
  | None =>
      let! r := gignore (NotFound, "") (GetBlockByHeight 0) in
      match found_ok r.1 with Some _ => gret (0, r.2) | None => gerr "missing genesis" end
  end.

(** [if count > maxBlocks { count = maxBlocks }] on [int]. *)
Definition round_count (count : Z) : Z :=
  if sc_MaxBlocksPerRound (c_Sync cfg) <? count then sc_MaxBlocksPerRound (c_Sync cfg) else count.

(** From the common ancestor on. *)
Definition sync_located (bestPeer : string) (bestHeight curWork : Z) : GoM (db_t * fs_t) unit :=
  let! (finH, finHash) := on_db sync_anchor in
  let! pb := glift (fetchBlockByHeight net bestPeer finH) in
  if negb (br_Hash pb =? finHash)%string then gerr "peer finalized anchor mismatch"
  else
    let! locator := on_db (BuildBlockLocator 32) in
    let! anc := gtry (glift (postLocate net bestPeer locator)) in
    match anc with
    | inl _ => gret tt
    | inr anc =>
        if negb (lr_Found anc) then gret tt
        else if lr_Height anc <? finH then gerr "ancestor below finalized"
        else
          let from := u64 (lr_Height anc + 1) in
          let count := round_count (i64 (u64 (bestHeight - lr_Height anc))) in
          let! hdrs := glift (fetchHeaders net bestPeer from count) in
          if Nat.eqb (length hdrs) 0 then gret tt
          else
            let! (seq, work) := on_db (score_headers 0 hdrs) in
            if work <=? curWork then gret tt
            else submit_located bestPeer bestHeight seq
    end.

Definition syncOnce : GoM (db_t * fs_t) unit :=
  let '(bestPeer, bestHeight, bestTipHash) := best_peer (sc_Peers (c_Sync cfg)) in
  if (bestPeer =? "")%string then gret tt
  else
    let! t := on_db GetTip in
    match t with
    | None => gret tt
    | Some (localH, _) =>
        if bestHeight <=? localH then gret tt
        else
          let! w := gignore None (on_db GetTipWork) in
          let curWork := default 0 w in
          let start := u64 (localH + 1) in
          let need := round_count (i64 (u64 (bestHeight - localH))) in
          let! hs := gtry (glift (fetchHeaders net bestPeer start need)) in
          let headers := match hs with inr l => l | inl _ => [] end in
          let! (seq, work) := on_db (score_headers 0 headers) in
          if (curWork <? work) && negb (Nat.eqb (length seq) 0) then submit_fast bestPeer seq
          else if (bestTipHash =? "")%string then gret tt
          else sync_located bestPeer bestHeight curWork
    end.

(** ** Properties *)

(** *** Which peer is asked *)

Definition reports (p : string) (ci : chainInfoResp) : Prop :=
  fetchChainInfo net p = Ret ci /\ ci_ChainID ci = g_ChainID genesis.

(** The peer that is asked for headers is one that reports this chain, at a height no other
    configured peer of this chain exceeds; none is asked only if no peer reports a height
    above 0. *)
Theorem best_peer_highest peers : let '(p, h, tip) := best_peer peers in
  (forall q ci, In q peers -> reports q ci -> ci_Height ci <= h) /\
  (0 < h -> In p peers /\ exists ci, reports p ci /\ ci_Height ci = h /\ ci_Tip ci = tip) /\ 0 <= h.
Proof.
  unfold best_peer.
  assert (forall l seen best, (forall q ci, In q seen -> reports q ci -> ci_Height ci <= best.1.2) ->
    (0 < best.1.2 -> In best.1.1 seen /\ exists ci, reports best.1.1 ci /\ ci_Height ci = best.1.2 /\ ci_Tip ci = best.2) ->
    0 <= best.1.2 ->
    let '(p, h, tip) := fold_left best_peer_step l best in
    (forall q ci, In q (seen ++ l) -> reports q ci -> ci_Height ci <= h) /\
    (0 < h -> In p (seen ++ l) /\ exists ci, reports p ci /\ ci_Height ci = h /\ ci_Tip ci = tip) /\ 0 <= h) as H.
  { induction l as [|p l IH]; intros seen [[bp bh] bt] H1 H2 H3; cbn [fold_left fst snd] in *.
    { rewrite app_nil_r. done. }
    specialize (IH (seen ++ [p]) (best_peer_step (bp, bh, bt) p)). rewrite <- app_assoc in IH. cbn [app] in IH.
    apply IH; unfold best_peer_step; cbn [fst snd]; destruct (fetchChainInfo net p) as [ci|e|] eqn:Ef;
      try destruct (String.eqb_spec (ci_ChainID ci) (g_ChainID genesis)) as [Ec|Ec]; cbn [negb];
      try destruct (Z.ltb_spec bh (ci_Height ci)); cbn [fst snd]; try done; try lia.
    all: try (intros q ci' [Hq|[<-|[]]]%in_app_or [Hr Hc]; [specialize (H1 q ci' Hq (conj Hr Hc)); lia|];
      rewrite Ef in Hr; try done; injection Hr as <-; first [lia | done]).
    all: try (intros Hpos; destruct (H2 Hpos) as [Hin Hex]; split; [apply in_or_app; by left|done]).
    intros _. split; [apply in_or_app; right; by left|]. exists ci. done. }
  apply (H peers [] ("", 0, "")); cbn; [done|lia|lia].
Qed.

(** *** Headers alone *)

Context {HL : LevelDBOk L}.

(** The entries scoring writes. *)
Definition header_entry (k : string) : Prop := exists h, k = keyHeaderByHash h \/ k = keyWork h.

Lemma keeps_score work headers : keeps (fun k => ~ header_entry k) (score_headers work headers).
Proof.
  revert work. induction headers as [|hdr rest IH]; intros work; cbn [score_headers];
    unfold GetWork, get_be64, PutHeader_any, PutWork, put_be64, put_json; frame.
  - apply keeps_put. intros H. apply H. eexists. by left.
  - apply keeps_put. intros H. apply H. eexists. by right.
Qed.

Lemma submit_fast_keeps P peer seq : (forall h r, fetchBlockByHash net peer h <> Ret r) ->
  keeps P (submit_fast peer seq).
Proof.
  intros H. destruct seq as [|hh rest]; cbn [submit_fast]; [apply keeps_ret|].
  intros s k Hk. unfold gbind, gtry, glift. specialize (H hh).
  by destruct (fetchBlockByHash net peer hh) as [r|e|]; [exfalso; by eapply H|..].
Qed.

Lemma submit_located_keeps P peer bestHeight seq : (forall h r, fetchBlockByHash net peer h <> Ret r) ->
  keeps P (submit_located peer bestHeight seq).
Proof.
  intros H. destruct seq as [|hh rest]; cbn [submit_located]; [apply keeps_ret|].
  intros s k Hk. unfold gbind, glift. specialize (H hh).
  by destruct (fetchBlockByHash net peer hh) as [r|e|]; [exfalso; by eapply H|..].
Qed.

Lemma keeps_sync_anchor P : keeps P sync_anchor.
Proof. unfold sync_anchor. frame. Qed.

Lemma keeps_locator P max : keeps P (BuildBlockLocator (any := any) max).
Proof.
  unfold BuildBlockLocator. frame. generalize (Z.to_nat (if max <=? 0 then 32 else max)) as room.
  assert (forall room k step h, keeps P (locator_loop (any := any) room k step h)) as H; [|intros; apply H].
  induction room as [|room IH]; intros k step h; cbn [locator_loop]; [apply keeps_ret|].
  unfold GetBlockByHeight_any, GetHashByHeight. frame; apply IH.
Qed.

#[local] Hint Resolve keeps_sync_anchor keeps_locator keeps_score submit_fast_keeps submit_located_keeps : frame.

Lemma keeps_sync_located peer bestHeight curWork : (forall p h r, fetchBlockByHash net p h <> Ret r) ->
  keeps (fun k => ~ header_entry k) (sync_located peer bestHeight curWork).
Proof. intros H. unfold sync_located. frame. Qed.
#[local] Hint Resolve keeps_sync_located : frame.

(** Whatever headers, heights and ancestors peers claim, without a block from them a round of
    synchronisation changes nothing but the stored headers and their work: not the tip, not
    the main chain, not the accounts, not finality. *)
Theorem syncOnce_headers_only s k : (forall p h r, fetchBlockByHash net p h <> Ret r) ->
  ~ header_entry k -> store_of (syncOnce s).2 !! k = store_of s !! k.
Proof.
  intros Hno Hk.
  assert (keeps (fun x => ~ header_entry x) syncOnce) as H; [|by apply H].
  unfold syncOnce, GetTipWork. frame.
Qed.
End SyncOnce.
