(* ===== verification/Gossip.v ===== *)
(** * core/node/p2p_gossip.go, gossip.go, gossip_block.go: messages between nodes

    The state of the message handler that [startP2PGossip] installs: the store and files, the
    pool, the sync manager, the limiter, the two caches with the mutex that guards them, and
    the messages sent.  [None] as the result of a handler is waiting for that mutex forever.
    [time.Now()] is [now] in seconds and [nano] in nanoseconds.  Used and declared nowhere, and
    therefore arguments: [n.cfg.Chain.ChainID] and [GenesisHash], [validateTxAdmission],
    [setHeadersCount], [setLastHashes] and the transaction [tx] that the case of a block
    stores.  The payload of a [headers] message is decoded into the type [headersResp]
    declared at the top of the handler. *)

From Stdlib Require Import SpecFloat.
From S2P Require Import Prelude GoLang KV Chain Pow Storage State Fees Config Crypto Validate Apply Mempool Forkchoice Sync Finality Node.

(** ** The limiter *)

Definition f64_add (a b : f64) : f64 := SFadd 53 1024 a b.
Definition f64_sub (a b : f64) : f64 := SFsub 53 1024 a b.
Definition minf (a b : f64) : f64 := if f64_ltb a b then a else b.

(** Tokens and time of the last message, per peer. *)
Record peerLimiter := { rl_m : gmap string (f64 * Z); rl_rate : f64; rl_burst : f64 }.

Definition newPeerLimiter (rate burst : f64) : peerLimiter :=
  {| rl_m := ∅; rl_rate := rate; rl_burst := burst |}.

Definition allow (nano : Z) (peer : string) (rl : peerLimiter) : bool * peerLimiter :=
  let '(tokens, last) := default (rl_burst rl, nano) (rl_m rl !! peer) in
  let dt := f64_div (f64_of_Z (i64 (nano - last))) (f64_of_Z 1000000000) in
  let tokens := minf (rl_burst rl) (f64_add tokens (f64_mul dt (rl_rate rl))) in
  let store t := {| rl_m := <[peer := (t, nano)]> (rl_m rl); rl_rate := rl_rate rl; rl_burst := rl_burst rl |} in
  if f64_ltb tokens (f64_of_Z 1) then (false, store tokens)
  else (true, store (f64_sub tokens (f64_of_Z 1))).

(** ** Messages *)

Record Msg := { msg_Type : string; msg_ID : string; msg_Hash : string; msg_Data : string }.
Definition msg (t : string) : Msg := {| msg_Type := t; msg_ID := ""; msg_Hash := ""; msg_Data := "" |}.
Definition msg_data (t data : string) : Msg := {| msg_Type := t; msg_ID := ""; msg_Hash := ""; msg_Data := data |}.
Definition msg_id (t id : string) : Msg := {| msg_Type := t; msg_ID := id; msg_Hash := ""; msg_Data := "" |}.
Definition msg_hash (t h : string) : Msg := {| msg_Type := t; msg_ID := ""; msg_Hash := h; msg_Data := "" |}.

(** The JSON values of the handler. *)
Record helloMsg := { he_ver : string; he_chain_id : string; he_genesis_hash : string; he_caps : list string }.
(** The two entries of the decoded map that are read, when they are strings. *)
Record helloView := { hv_chain_id : option string; hv_genesis_hash : option string }.
Record anchorMsg := { an_Height : Z; an_Hash : string; an_Set : bool }.
Record headersResp := { hr_From : Z; hr_Headers : list BlockHeader; hr_Hashes : list string }.

Class GossipCodecs := {
  codec_hello :: JSON helloMsg; codec_helloView :: JSON helloView; codec_anchor :: JSON anchorMsg;
  codec_headersReq :: JSON headersReq; codec_headersResp :: JSON headersResp;
  codec_peers :: JSON (list Peer) }.

(** [_ = json.Unmarshal(b, &v)]. *)
Definition unmarshal_any {A} `{JSON A} (b : string) : A :=
  match json_unmarshal b with Ret a => a | _ => json_partial b end.
(** [b, _ := json.Marshal(v)]. *)
Definition marshal_any {A} `{JSON A} (a : A) : string :=
  match json_marshal a with Ret b => b | _ => "" end.

(** ** The handler *)
Section Gossip.
Context {L : LevelDB} {HS : Hashes} {CD : Codecs} {GC : GossipCodecs} {ED : Ed25519} {E : Edwards}
  {MO : MapOrder} {FS : SnapFiles}.
Context (cfg : Config) (mustHex32 : string -> string) (genesis : Genesis).
Context (NextWorkRequired : (Z -> GoM db_t (option BlockHeader)) -> (Z -> GoM db_t (option Z)) ->
  Z -> GoM db_t (option Z)).
Context (n : FinNode) (b_Height feeSum : Z).
Context (chainID genesisHash : string).
Context (validateTxAdmission : Tx -> GoM db_t Tx).
Context (setHeadersCount : Z -> syncManager -> syncManager).
Context (setLastHashes : list string -> syncManager -> syncManager).
Context (senders : list string) (stray_tx : Tx).

Record p2p_state := {
  g_chain : db_t * fs_t;
  g_mp : Mempool;
  g_sm : option syncManager;
  g_lim : peerLimiter;
  g_seenTx : gmap string Z;
  g_seenBlk : gmap string Z;
  g_locked : bool;
  g_out : list (option string * Msg) }.

Definition upd_chain (c : db_t * fs_t) (s : p2p_state) : p2p_state :=
  {| g_chain := c; g_mp := g_mp s; g_sm := g_sm s; g_lim := g_lim s; g_seenTx := g_seenTx s;
     g_seenBlk := g_seenBlk s; g_locked := g_locked s; g_out := g_out s |}.
Definition upd_sm (sm : option syncManager) (s : p2p_state) : p2p_state :=
  {| g_chain := g_chain s; g_mp := g_mp s; g_sm := sm; g_lim := g_lim s; g_seenTx := g_seenTx s;
     g_seenBlk := g_seenBlk s; g_locked := g_locked s; g_out := g_out s |}.
Definition upd_lim (rl : peerLimiter) (s : p2p_state) : p2p_state :=
  {| g_chain := g_chain s; g_mp := g_mp s; g_sm := g_sm s; g_lim := rl; g_seenTx := g_seenTx s;
     g_seenBlk := g_seenBlk s; g_locked := g_locked s; g_out := g_out s |}.
Definition upd_seen (tx blk : gmap string Z) (locked : bool) (s : p2p_state) : p2p_state :=
  {| g_chain := g_chain s; g_mp := g_mp s; g_sm := g_sm s; g_lim := g_lim s; g_seenTx := tx;
     g_seenBlk := blk; g_locked := locked; g_out := g_out s |}.
Definition upd_out (o : list (option string * Msg)) (s : p2p_state) : p2p_state :=
  {| g_chain := g_chain s; g_mp := g_mp s; g_sm := g_sm s; g_lim := g_lim s; g_seenTx := g_seenTx s;
     g_seenBlk := g_seenBlk s; g_locked := g_locked s; g_out := o |}.

Definition on_gchain {A} (m : GoM (db_t * fs_t) A) : GoM p2p_state A := gzoom g_chain upd_chain m.
Definition on_gdb {A} (m : GoM db_t A) : GoM p2p_state A := on_gchain (on_db m).
Definition on_gmp {A} (m : GoM (db_t * Mempool) A) : GoM p2p_state A :=
  gzoom (fun s => ((g_chain s).1, g_mp s))
    (fun r s => {| g_chain := (r.1, (g_chain s).2); g_mp := r.2; g_sm := g_sm s; g_lim := g_lim s;
                   g_seenTx := g_seenTx s; g_seenBlk := g_seenBlk s; g_locked := g_locked s;
                   g_out := g_out s |}) m.
(** [if n.sm != nil { n.sm.f() }]. *)
Definition with_sync (f : syncManager -> syncManager) : GoM p2p_state unit :=
  gmodify (fun s => upd_sm (option_map f (g_sm s)) s).
Definition SendTo (peer : string) (m : Msg) : GoM p2p_state unit :=
  gmodify (fun s => upd_out (g_out s ++ [(Some peer, m)]) s).
Definition SendAll (m : Msg) : GoM p2p_state unit :=
  gmodify (fun s => upd_out (g_out s ++ [(None, m)]) s).

Definition penalizePeer (now : Z) (pub : string) (delta : Z) : GoM db_t unit :=
  let! ps := gignore zero_PeerStat (AddPeerScore now pub delta) in
  if ps_Score ps <=? -50 then gignore tt (BanPeer now pub 600) else gret tt.

(** [return] after a penalty. *)
Definition punish (now : Z) (peer : string) (delta : Z) : GoM p2p_state (option unit) :=
  on_gdb (penalizePeer now peer delta) ;;; gret (Some tt).

(** *** hello *)

Definition on_get_hello (peer : string) : GoM p2p_state (option unit) :=
  SendTo peer (msg_data "hello" (marshal_any
    {| he_ver := "1"; he_chain_id := chainID; he_genesis_hash := genesisHash;
       he_caps := ["headers"; "blocks"; "votes"] |})) ;;;
  gret (Some tt).

Definition on_hello (now : Z) (peer : string) (m : Msg) : GoM p2p_state (option unit) :=
  let h : helloView := unmarshal_any (msg_Data m) in
  if match hv_chain_id h with
     | Some cid => negb (cid =? "")%string && negb (cid =? chainID)%string | None => false end
  then punish now peer (-100)
  else if match hv_genesis_hash h with
     | Some gh => negb (genesisHash =? "")%string && negb (gh =? "")%string && negb (gh =? genesisHash)%string
     | None => false end
  then punish now peer (-100)
  else gret (Some tt).

(** *** Finalized anchors *)

(** The finalized height and the hash of the main-chain block there. *)
Definition local_anchor : GoM db_t (option Z * string) :=
  let! f := gignore None GetFinalizedHeight in
  if 0 <? default 0 f then
    let! r := gignore (NotFound, "") (GetBlockByHeight (default 0 f)) in
    gret (f, match found_ok r.1 with Some b => Hash_String (BlockHash b) | None => "" end)
  else gret (f, "").

Definition on_get_anchor (peer : string) : GoM p2p_state (option unit) :=
  let! (f, hash) := on_gdb local_anchor in
  SendTo peer (msg_data "anchor" (marshal_any
    {| an_Height := default 0 f; an_Hash := hash; an_Set := match f with Some _ => true | None => false end |})) ;;;
  gret (Some tt).

Definition on_anchor (now : Z) (peer : string) (m : Msg) : GoM p2p_state (option unit) :=
  match json_unmarshal (msg_Data m) with
  | Ret a =>
      let! (f, lHash) := on_gdb local_anchor in
      let lH := default 0 f in
      let okMatch := if 0 <? lH then an_Set a && (an_Height a =? lH) && (an_Hash a =? lHash)%string else true in
      with_sync (setPeerAnchorOK peer okMatch) ;;;
      if negb okMatch then punish now peer (-10)
      else if 1048576 <? Z.of_nat (String.length (msg_Data m)) then punish now peer (-10)
      else gret (Some tt)
  | _ => punish now peer (-2)
  end.

(** The check at the start of [headers] and [block]: refuse a peer not known to agree. *)
Definition anchor_refused (peer : string) : GoM p2p_state bool :=
  let! f := gignore None (on_gdb GetFinalizedHeight) in
  let! s := gget in
  gret ((0 <? default 0 f) && match g_sm s with Some sm => negb (isPeerAnchorOK peer sm) | None => false end).

(** *** Headers *)

(** The first locator hash we have gives the start. *)
Fixpoint locate_start (start : Z) (locator : list string) : GoM db_t Z :=
  match locator with
  | [] => gret start
  | h :: rest =>
      let! r := gignore NotFound (GetBlockByHash h) in
      match found_ok r with
      | Some b => gret (u64 (Height (Header b) + 1))
      | None => locate_start start rest
      end
  end.

Fixpoint collect_headers (k : nat) (h : Z) : GoM db_t (list BlockHeader * list string) :=
  match k with
  | O => gret ([], [])
  | S k' =>
      let! r := gignore (NotFound, "") (GetBlockByHeight h) in
      match found_ok r.1 with
      | None => gret ([], [])
      | Some b =>
          let! (hs, hashes) := collect_headers k' (u64 (h + 1)) in
          gret (Header b :: hs, Hash_String (BlockHash b) :: hashes)
      end
  end.

Definition answer_headers (req : headersReq) : GoM db_t headersResp :=
  let count := if hq_Count req <=? 0 then 200 else hq_Count req in
  let count := if 2000 <? count then 2000 else count in
  let! from := locate_start (hq_From req) (hq_Locator req) in
  let! t := gignore None GetTip in
  let tipH := default 0 (option_map fst t) in
  let end_ := u64 (u64 (from + count) - 1) in
  let end_ := if tipH <? end_ then tipH else end_ in
  let! (hs, hashes) := collect_headers (Z.to_nat (end_ + 1 - from)) from in
  gret {| hr_From := from; hr_Headers := hs; hr_Hashes := hashes |}.

Definition on_get_headers (peer : string) (m : Msg) : GoM p2p_state (option unit) :=
  let! resp := on_gdb (answer_headers (unmarshal_any (msg_Data m))) in
  SendTo peer (msg_data "headers" (marshal_any resp)) ;;;
  gret (Some tt).

Definition on_headers (now : Z) (peer : string) (m : Msg) : GoM p2p_state (option unit) :=
  let! no := anchor_refused peer in
  if no : bool then punish now peer (-5)
  else
    let resp : headersResp := unmarshal_any (msg_Data m) in
    with_sync (fun sm => setLastHashes (hr_Hashes resp) (setHeadersCount (len (hr_Headers resp)) sm)) ;;;
    gignore tt (on_gdb (AddPeerScore now peer 0 ;;; gret tt)) ;;;
    gret (Some tt).

(** *** Peers *)

Definition on_get_peers (peer : string) : GoM p2p_state (option unit) :=
  let! ps := gtry (on_gdb (ListPeers 2000)) in
  match ps with
  | inl _ => gret (Some tt)
  | inr ps => SendTo peer (msg_data "peers" (marshal_any ps)) ;;; gret (Some tt)
  end.

Definition on_peers (now : Z) (peer : string) (m : Msg) : GoM p2p_state (option unit) :=
  match json_unmarshal (A := list Peer) (msg_Data m) with
  | Ret ps =>
      gfor ps (fun p => if (pe_Addr p =? "")%string then gret tt else gignore tt (on_gdb (PutPeer p))) ;;;
      gret (Some tt)
  | _ => punish now peer (-2)
  end.

(** *** Announcements *)

(** [seenMu.Lock()]: [None] when the mutex is held. *)
Definition lock : GoM p2p_state (option unit) :=
  fun s => if g_locked s then (Ret None, s)
           else (Ret (Some tt), upd_seen (g_seenTx s) (g_seenBlk s) true s).
Definition unlock : GoM p2p_state unit := gmodify (fun s => upd_seen (g_seenTx s) (g_seenBlk s) false s).

Definition on_inv_tx (now : Z) (peer : string) (m : Msg) : GoM p2p_state (option unit) :=
  let txid := msg_ID m in
  if (txid =? "")%string then gret (Some tt)
  else
    let? _ := lock in
    let! seen := on_gdb (HasSeenTx txid) in
    if seen : bool then gret (Some tt)
    else
      let! s := gget in
      let ok := match g_seenTx s !! txid with Some _ => true | None => false end in
      (if ok then gret tt
       else gmodify (fun s => upd_seen (<[txid := now]> (g_seenTx s)) (g_seenBlk s) (g_locked s) s) ;;;
            on_gdb (MarkSeenTx now txid)) ;;;
      unlock ;;;
      if ok then gret (Some tt)
      else SendTo peer (msg_id "get_tx" txid) ;;; gret (Some tt).

Definition on_inv_block (now : Z) (peer : string) (m : Msg) : GoM p2p_state (option unit) :=
  let h := msg_Hash m in
  if (h =? "")%string then gret (Some tt)
  else
    let? _ := lock in
    let! seen := on_gdb (HasSeenBlk h) in
    if seen : bool then gret (Some tt)
    else
      let! s := gget in
      let ok := match g_seenBlk s !! h with Some _ => true | None => false end in
      (if ok then gret tt
       else gmodify (fun s => upd_seen (g_seenTx s) (<[h := now]> (g_seenBlk s)) (g_locked s) s) ;;;
            on_gdb (MarkSeenBlk now h)) ;;;
      unlock ;;;
      if ok then gret (Some tt)
      else SendTo peer (msg_hash "get_block" h) ;;; gret (Some tt).

(** *** Transactions and blocks *)

Definition on_get_tx (peer : string) (m : Msg) : GoM p2p_state (option unit) :=
  let txid := msg_ID m in
  if (txid =? "")%string then gret (Some tt)
  else
    let! tx := gignore None (on_gdb (GetTx txid)) in
    match tx with
    | Some tx =>
        SendTo peer {| msg_Type := "tx"; msg_ID := txid; msg_Hash := ""; msg_Data := marshal_any tx |} ;;;
        gret (Some tt)
    | None => gret (Some tt)
    end.

Definition with_type (tx : Tx) : Tx :=
  if (TType tx =? "")%string
  then with_defaults tx (Outputs tx) (GasAsset tx) "transfer" else tx.

Definition on_tx (now : Z) (peer : string) (m : Msg) : GoM p2p_state (option unit) :=
  match json_unmarshal (A := Tx) (msg_Data m) with
  | Ret tx =>
      let! v := gtry (on_gdb (validateTxAdmission (with_type tx))) in
      match v with
      | inl _ => punish now peer (-5)
      | inr tx =>
          let! a := gtry (on_gmp (Add senders now tx)) in
          match a with
          | inl _ => punish now peer (-3)
          | inr _ =>
              gignore tt (on_gdb (AddPeerScore now peer 1 ;;; gret tt)) ;;;
              on_gdb (PutMempoolTxWithOrigin now tx 3600 peer) ;;;
              SendAll (msg_id "inv_tx" (TxID tx)) ;;;
              gret (Some tt)
          end
      end
  | _ => punish now peer (-2)
  end.

Definition on_get_block (peer : string) (m : Msg) : GoM p2p_state (option unit) :=
  let h := msg_Hash m in
  if (h =? "")%string then gret (Some tt)
  else
    let! r := gignore NotFound (on_gdb (GetBlockByHash h)) in
    match found_ok r with
    | None => gret (Some tt)
    | Some b =>
        SendTo peer {| msg_Type := "block"; msg_ID := ""; msg_Hash := h; msg_Data := marshal_any b |} ;;;
        gret (Some tt)
    end.

Definition on_block (now : Z) (peer : string) (m : Msg) : GoM p2p_state (option unit) :=
  let! no := anchor_refused peer in
  if no : bool then punish now peer (-5)
  else
    (if negb (msg_Hash m =? "")%string then with_sync (clearInFlight (msg_Hash m)) else gret tt) ;;;
    match json_unmarshal (A := Block) (msg_Data m) with
    | Ret b =>
        let! e := gtry (on_gchain (SubmitBlock cfg mustHex32 genesis NextWorkRequired n b_Height feeSum now b)) in
        match e with
        | inl _ => with_sync (markFail now peer) ;;; punish now peer (-10)
        | inr _ =>
            gignore tt (on_gdb (AddPeerScore now peer 1 ;;; gret tt)) ;;;
            on_gdb (PutMempoolTxWithOrigin now stray_tx 3600 peer) ;;;
            SendAll (msg_hash "inv_block" (Hash_String (BlockHash b))) ;;;
            gret (Some tt)
        end
    | _ => punish now peer (-2)
    end.

(** *** Dispatch *)

Definition dispatch (now : Z) (peer : string) (m : Msg) : GoM p2p_state (option unit) :=
  let t := msg_Type m in
  if (t =? "get_hello")%string then on_get_hello peer
  else if (t =? "hello")%string then on_hello now peer m
  else if (t =? "get_anchor")%string then on_get_anchor peer
  else if (t =? "anchor")%string then on_anchor now peer m
  else if (t =? "get_headers")%string then on_get_headers peer m
  else if (t =? "headers")%string then on_headers now peer m
  else if (t =? "get_peers")%string then on_get_peers peer
  else if (t =? "peers")%string then on_peers now peer m
  else if (t =? "inv_tx")%string then on_inv_tx now peer m
  else if (t =? "get_tx")%string then on_get_tx peer m
  else if (t =? "tx")%string then on_tx now peer m
  else if (t =? "inv_block")%string then on_inv_block now peer m
  else if (t =? "get_block")%string then on_get_block peer m
  else if (t =? "block")%string then on_block now peer m
  else gret (Some tt).

(** The function given to [SetHandler]. *)
Definition handle (now nano : Z) (peer : string) (m : Msg) : GoM p2p_state (option unit) :=
  let allow_list := p2_Allowlist (c_P2P cfg) in
  if negb (Nat.eqb (length allow_list) 0) && negb (mem_str peer allow_list) then gret (Some tt)
  else
    let! (banned, _) := gignore (false, 0) (on_gdb (IsBanned now peer)) in
    if banned : bool then gret (Some tt)
    else
      let! ok := fun s => let '(ok, rl) := allow nano peer (g_lim s) in (Ret ok, upd_lim rl s) in
      if negb ok then gret (Some tt) else dispatch now peer m.

(** The state [startP2PGossip] starts from. *)
Definition start_state (c : db_t * fs_t) (mp : Mempool) (sm : option syncManager) : p2p_state :=
  {| g_chain := c; g_mp := mp; g_sm := sm;
     g_lim := newPeerLimiter (f64_of_Z 30) (f64_of_Z 60); g_seenTx := ∅; g_seenBlk := ∅;
     g_locked := false; g_out := [] |}.
End Gossip.

(** *** validateHeadersChain *)

Fixpoint links_ok (headers : list BlockHeader) (hashes : list string) : bool :=
  match headers, hashes with
  | h :: headers', x :: hashes' => (Hash_String (PrevHash h) =? x)%string && links_ok headers' hashes'
  | _, _ => true
  end.

Definition validateHeadersChain (tipHash : string) (headers : list BlockHeader) (hashes : list string) : bool :=
  match headers with
  | [] => true
  | h0 :: rest =>
      if negb (Nat.eqb (length hashes) 0) && negb (Nat.eqb (length hashes) (length headers)) then false
      else if negb (Hash_String (PrevHash h0) =? tipHash)%string then false
      else if negb (Nat.eqb (length hashes) 0) then links_ok rest hashes
      else true
  end.

(** ** Relay over HTTP (gossip.go, gossip_block.go) *)

Record GossipTxMsg := { gt_Hop : Z; gt_Tx : Tx }.
Record GossipBlockMsg := { gb_Hop : Z; gb_Block : Block; gb_Hash : string }.

(** What a node posts: the address and the message; the answers are ignored. *)
Inductive post : Type :=
| PostTx (url : string) (m : GossipTxMsg)
| PostBlock (url : string) (m : GossipBlockMsg).

Section Relay.
Context {L : LevelDB} {HS : Hashes} {CD : Codecs} (cfg : Config).

(** The configured peers, then the stored ones. *)
Definition relay_peers : GoM db_t (list string) :=
  let! ps := gtry (ListPeers 5000) in
  gret (gc_Peers (c_Gossip cfg) ++ match ps with inr ps => map pe_Addr ps | inl _ => [] end).

Definition gossipTx (tx : Tx) (hop : Z) : GoM db_t (list post) :=
  if negb (gc_Enabled (c_Gossip cfg)) then gret []
  else if gc_MaxHops (c_Gossip cfg) <=? hop then gret []
  else
    let! peers := relay_peers in
    gret (map (fun peer => PostTx (peer +:+ "/gossip/tx") {| gt_Hop := i64 (hop + 1); gt_Tx := tx |}) peers).

Definition gossipBlock (b : Block) (hash : string) (hop : Z) : GoM db_t (list post) :=
  if negb (gc_Enabled (c_Gossip cfg)) then gret []
  else if gc_MaxHops (c_Gossip cfg) <=? hop then gret []
  else
    let! peers := relay_peers in
    gret (map (fun peer => PostBlock (peer +:+ "/gossip/block")
      {| gb_Hop := i64 (hop + 1); gb_Block := b; gb_Hash := hash |}) peers).
End Relay.

(** [p2pBroadcastTx], [p2pBroadcastBlock]: what is sent to every session; [p2p] says whether
    there is a transport. *)
Definition p2pBroadcastTx {HS : Hashes} (p2p : bool) (tx : Tx) : list Msg :=
  if p2p then [msg_id "inv_tx" (TxID tx)] else [].
Definition p2pBroadcastBlock {HS : Hashes} (p2p : bool) (b : Block) : list Msg :=
  if p2p then [msg_hash "inv_block" (Hash_String (BlockHash b))] else [].
