(* ===== verification/Transport.v ===== *)
(** * internal/reservep2p: identities, the hello handshake and sessions

    A connection is what was written to it and what is still to be read.  [writeFrame],
    [readFrame] and [deriveSessionKey] are called and declared nowhere and are arguments; so are
    the random nonces and whether writing to the connection succeeds.  [ed25519] is the interface
    of [Crypto].  Deadlines of a connection are left out, and so are the ignored errors of
    [aes.NewCipher] and [cipher.NewGCM], which a 32-byte key does not give.
    The theorems: both ends of a handshake derive the same key and name each other
    ([handshake_agrees]), and a recorded hello opens a session again, with a key that everyone
    who saw the connection can compute ([replayed_hello_takes_session]). *)

From S2P Require Import Prelude GoLang KV Chain Config Crypto Finality KeyVault Sync Gossip.

Record hello := { h_Type : string; h_Pub : string; h_Nonce : string; h_Sig : string }.

Class TransportCodecs := { codec_helloLine :: JSON hello; codec_Msg :: JSON Msg }.

(** [b, _ := json.Marshal(m)] and [json.Unmarshal]. *)
Definition EncodeMsg {TC : TransportCodecs} (m : Msg) : string := marshal_any m.
Definition DecodeMsg {TC : TransportCodecs} (b : string) : outcome Msg := json_unmarshal b.

(** ** Lines *)

Definition newline : ascii := ascii_of_nat 10.
Definition is_eol (c : ascii) : bool := Ascii.eqb c newline || Ascii.eqb c (ascii_of_nat 13).

Fixpoint drop_eol (l : list ascii) : list ascii :=
  match l with c :: l' => if is_eol c then drop_eol l' else l | [] => [] end.
Definition bytesTrim (b : string) : string := list_str (rev (drop_eol (rev (str_list b)))).

(** [r.ReadBytes('\n')]: the line with its end, and the rest; [None] when there is none. *)
Fixpoint read_line (s : string) : option (string * string) :=
  match s with
  | EmptyString => None
  | String c s' =>
      if Ascii.eqb c newline then Some (String c "", s')
      else match read_line s' with Some (l, r) => Some (String c l, r) | None => None end
  end.

(** ** Sessions *)

(** The peer, the key of the cipher and the bytes to read. *)
Record Session := { s_PeerPub : string; s_Key : string; s_In : string }.

Section Transport.
Context {ED : Ed25519} {TC : TransportCodecs}.
Context (deriveSessionKey : string -> string -> string -> string -> string).
Context (writeFrame : string -> string -> outcome string).
Context (readFrame : string -> string -> outcome (string * string)).

(** The signed text. *)
Definition hello_text (pub nonce : string) : string := "hello|" +:+ pub +:+ "|" +:+ nonce.

Definition make_hello (pubHex priv nonce : string) : hello :=
  let nonceHex := hex_EncodeToString nonce in
  {| h_Type := "hello"; h_Pub := pubHex; h_Nonce := nonceHex;
     h_Sig := hex_EncodeToString (ed_Sign priv (hello_text pubHex nonceHex)) |}.

Definition hello_line (h : hello) : string := marshal_any h +:+ String newline "".

(** The checks both ends make of the other's line. *)
Definition check_hello (h : hello) : outcome unit :=
  if negb (h_Type h =? "hello")%string then Err "bad hello"
  else
    match hex_DecodeString (h_Pub h) with
    | Ret pub =>
        if negb (Nat.eqb (String.length pub) 32) then Err "bad peer pub"
        else
          match hex_DecodeString (h_Sig h) with
          | Ret sig =>
              if negb (Nat.eqb (String.length sig) 64) then Err "bad peer sig"
              else if negb (ed_Verify pub (hello_text (h_Pub h) (h_Nonce h)) sig) then Err "hello verify failed"
              else Ret tt
          | Err _ => Err "bad peer sig"
          | Panic => Panic
          end
    | Err _ => Err "bad peer pub"
    | Panic => Panic
    end.

(** The line read, decoded. *)
Definition read_hello (inp : string) : outcome (hello * string) :=
  match read_line inp with
  | None => Err "EOF"
  | Some (line, rest) => olet h := json_unmarshal (bytesTrim line) in Ret (h, rest)
  end.

(** What is written, and the session; [wr] is the outcome of writing. *)
Definition DialSession (pubHex priv nonceA : string) (wr : outcome unit) (inp : string) : string * outcome Session :=
  let h := make_hello pubHex priv nonceA in
  (hello_line h,
   olet _ := wr in
   olet (resp, rest) := read_hello inp in
   olet _ := check_hello resp in
   Ret {| s_PeerPub := h_Pub resp; s_Key := deriveSessionKey pubHex (h_Pub resp) (h_Nonce h) (h_Nonce resp);
          s_In := rest |}).

Definition ServeSession (localPub localPriv nonceB : string) (wr : outcome unit) (inp : string)
    : string * outcome Session :=
  match (olet (h, rest) := read_hello inp in olet _ := check_hello h in Ret (h, rest)) with
  | Ret (h, rest) =>
      let resp := make_hello localPub localPriv nonceB in
      (hello_line resp,
       olet _ := wr in
       Ret {| s_PeerPub := h_Pub h; s_Key := deriveSessionKey (h_Pub h) localPub (h_Nonce h) (h_Nonce resp);
              s_In := rest |})
  | Err e => ("", Err e)
  | Panic => ("", Panic)
  end.

(** dial.go: the public key the other side claims; nothing is verified. *)
Definition Dial_probe (inp : string) : outcome string :=
  olet (resp, _) := read_hello inp in
  if negb (h_Type resp =? "hello")%string then Err "bad response" else Ret (h_Pub resp).

(** The whole probe: the line it sends and what it makes of the answer. *)
Definition Dial_hello (pubHex priv nonce inp : string) : string * outcome string :=
  (hello_line (make_hello pubHex priv nonce), Dial_probe inp).

(** The bytes [Session.Send] writes. *)
Definition Send (s : Session) (m : Msg) : outcome string := writeFrame (s_Key s) (EncodeMsg m).

(** [ReadLoop] on the bytes that arrived: the calls of the handler, in order; [fuel] frames. *)
Fixpoint ReadLoop (fuel : nat) (s : Session) : list (string * Msg) :=
  match fuel with
  | O => []
  | S f =>
      match readFrame (s_Key s) (s_In s) with
      | Ret (pt, rest) =>
          let s' := {| s_PeerPub := s_PeerPub s; s_Key := s_Key s; s_In := rest |} in
          match DecodeMsg pt with
          | Ret m => (s_PeerPub s, m) :: ReadLoop f s'
          | _ => ReadLoop f s'
          end
      | _ => []
      end
  end.

(** ** The node's sessions *)

Record P2PNode := { pn_pubHex : string; pn_priv : string; pn_sessions : gmap string Session }.

Definition add_session (n : P2PNode) (s : Session) : P2PNode :=
  {| pn_pubHex := pn_pubHex n; pn_priv := pn_priv n; pn_sessions := <[s_PeerPub s := s]> (pn_sessions n) |}.

(** [handleConn] and [Node.Dial]: what is written to the connection, and the node. *)
Definition handleConn (nonceB : string) (wr : outcome unit) (inp : string) (n : P2PNode) : string * P2PNode :=
  let '(out, r) := ServeSession (pn_pubHex n) (pn_priv n) nonceB wr inp in
  (out, match r with Ret s => add_session n s | _ => n end).

Definition Dial (nonceA : string) (wr : outcome unit) (inp : string) (n : P2PNode) : string * (outcome unit * P2PNode) :=
  let '(out, r) := DialSession (pn_pubHex n) (pn_priv n) nonceA wr inp in
  (out, match r with Ret s => (Ret tt, add_session n s) | Err e => (Err e, n) | Panic => (Panic, n) end).

Definition Sessions {MO : MapOrder} (n : P2PNode) : list string := (range (pn_sessions n)).*1.

(** The bytes written to the session of a peer. *)
Definition node_SendTo (n : P2PNode) (peerPub : string) (m : Msg) : outcome string :=
  match pn_sessions n !! peerPub with None => Err "no_session" | Some s => Send s m end.

(** The bytes written to every session. *)
Definition node_SendAll {MO : MapOrder} (n : P2PNode) (m : Msg) : list (string * outcome string) :=
  map (fun e => (e.1, Send e.2 m)) (range (pn_sessions n)).

(** *** Identity *)

(** [b, _ := hex.DecodeString(s)]: the bytes before the first error. *)
Fixpoint hex_prefix (s : string) : string :=
  match s with
  | String a (String b s') =>
      match hex_val a, hex_val b with
      | Some x, Some y => String (byte_of_Z (x * 16 + y)) (hex_prefix s')
      | _, _ => ""
      end
  | _ => ""
  end.

Definition LoadOrGenIdentity {V} (get : string -> GoM V (option string)) (set : string -> string -> GoM V unit)
    (gen : outcome (string * string)) : GoM V (string * string) :=
  let create :=
    let! (pub, priv) := glift gen in
    let pubHex := hex_EncodeToString pub in
    gignore tt (set "p2p.ed25519_pub" pubHex) ;;;
    gignore tt (set "p2p.ed25519_priv" (hex_EncodeToString priv)) ;;;
    gret (pubHex, priv) in
  let! p := get "p2p.ed25519_pub" in
  let! s := get "p2p.ed25519_priv" in
  match p, s with
  | Some p, Some s =>
      let sb := hex_prefix s in
      if Nat.eqb (String.length sb) 64 then gret (p, sb) else create
  | _, _ => create
  end.

(** ** Laws of the other packages *)

(** [encoding/json] writes one line: it escapes the ends of lines inside strings. *)
Definition one_line (s : string) : Prop := forall c, In c (str_list s) -> is_eol c = false.
Definition line_codec (h : hello) : Prop :=
  exists b, json_marshal h = Ret b /\ one_line b /\ json_unmarshal b = Ret h.

(** ** Lines *)

Lemma read_line_app b rest : one_line b -> read_line (b +:+ String newline rest) = Some (b +:+ String newline "", rest).
Proof.
  induction b as [|c b IH]; intros Hb; [done|].
  change (String c b +:+ String newline rest) with (String c (b +:+ String newline rest)). cbn [read_line].
  assert (is_eol c = false) as Hc by (apply Hb; by left). unfold is_eol in Hc.
  apply orb_false_iff in Hc as [-> _]. rewrite IH; [done|]. intros x Hx. apply Hb. by right.
Qed.

Lemma bytesTrim_line b : one_line b -> bytesTrim (b +:+ String newline "") = b.
Proof.
  intros Hb. unfold bytesTrim. rewrite str_list_app. cbn [str_list]. rewrite rev_app_distr. cbn [rev app drop_eol].
  change (is_eol newline) with true. cbn iota.
  assert (drop_eol (rev (str_list b)) = rev (str_list b)) as ->.
  { destruct (rev (str_list b)) as [|c l] eqn:Hl; [done|]. cbn [drop_eol].
    rewrite Hb; [done|]. apply in_rev. rewrite Hl. by left. }
  rewrite rev_involutive. apply String.string_of_list_ascii_of_string.
Qed.

Lemma read_hello_line h rest : line_codec h -> read_hello (hello_line h +:+ rest) = Ret (h, rest).
Proof.
  intros (b & Hm & Hb & Hu). unfold read_hello, hello_line, marshal_any. rewrite Hm, str_app_assoc.
  change (String newline "" +:+ rest) with (String newline rest).
  by rewrite read_line_app, bytesTrim_line, Hu by done.
Qed.

Lemma make_hello_ok pub priv nonce : key_pair pub priv ->
  check_hello (make_hello (hex_EncodeToString pub) priv nonce) = Ret tt.
Proof.
  intros [Hl Hs]. unfold check_hello, make_hello. cbn. rewrite !hex_Decode_Encode, Hl. cbn.
  match goal with |- context [ed_Sign priv ?m] => destruct (Hs m) as [Hv H64] end.
  by rewrite H64, Hv.
Qed.

(** ** Theorems *)

(** C38. When a node dials another and the lines arrive, both ends hold a session with the other's
    identity and the same key, and what follows the lines is left to be read. *)
Theorem handshake_agrees pubA privA nonceA pubB privB nonceB restA restB :
  key_pair pubA privA -> key_pair pubB privB ->
  let hA := make_hello (hex_EncodeToString pubA) privA nonceA in
  let hB := make_hello (hex_EncodeToString pubB) privB nonceB in
  line_codec hA -> line_codec hB ->
  exists key,
  DialSession (hex_EncodeToString pubA) privA nonceA (Ret tt) (hello_line hB +:+ restB) =
    (hello_line hA, Ret {| s_PeerPub := hex_EncodeToString pubB; s_Key := key; s_In := restB |}) /\
  ServeSession (hex_EncodeToString pubB) privB nonceB (Ret tt) (hello_line hA +:+ restA) =
    (hello_line hB, Ret {| s_PeerPub := hex_EncodeToString pubA; s_Key := key; s_In := restA |}).
Proof.
  intros HA HB hA hB LA LB. eexists. unfold DialSession, ServeSession. cbv zeta. fold hA hB.
  rewrite !read_hello_line by done. cbn [obind].
  assert (check_hello hA = Ret tt) as -> by (by apply make_hello_ok).
  assert (check_hello hB = Ret tt) as -> by (by apply make_hello_ok). done.
Qed.

(** Whoever presents a hello that was once accepted is accepted again, whatever the node answers:
    the session of the signer is replaced by one on the new connection, and its key is a function
    of the two lines that crossed the wire in clear. *)
Theorem replayed_hello_takes_session h n nonceB rest : line_codec h -> check_hello h = Ret tt ->
  let n' := (handleConn nonceB (Ret tt) (hello_line h +:+ rest) n).2 in
  let answer := make_hello (pn_pubHex n) (pn_priv n) nonceB in
  (handleConn nonceB (Ret tt) (hello_line h +:+ rest) n).1 = hello_line answer /\
  pn_sessions n' !! h_Pub h = Some {| s_PeerPub := h_Pub h; s_In := rest;
    s_Key := deriveSessionKey (h_Pub h) (h_Pub answer) (h_Nonce h) (h_Nonce answer) |} /\
  forall p, p <> h_Pub h -> pn_sessions n' !! p = pn_sessions n !! p.
Proof.
  intros Hl Hc. cbv zeta. unfold handleConn, ServeSession. rewrite read_hello_line by done.
  cbn [obind]. rewrite Hc. cbn. split; [done|]. split; [apply lookup_insert_eq|].
  intros p Hp. by rewrite lookup_insert_ne.
Qed.

End Transport.
