(* ===== verification/Api.v ===== *)
(** * core/node/node.go: the HTTP interface of a node

    Every handler that [Start] registers, as a function of the request and the node's state.
    A response is a status and a body; a body given to the JSON encoder, or written as JSON text,
    is a [json] value, other texts stay texts, and the metrics are their names and values.
    [json.NewDecoder(req.Body).Decode] is the class [Body].  [time.Now()] is [now] in seconds
    and [nano] in nanoseconds, [n.p2p.Sessions()] is [sessions], [None] without transport.
    [None] as a result is a handler still running when its fuel is used up.  Used by the source
    and declared nowhere, and therefore arguments: [ListVotes], [validateTxAdmission],
    [ApplyBlock], [findForkPointCached], [InFlightTimeoutSec] and [maxQueueFill]. *)

From S2P Require Import Prelude GoLang KV Chain Pow Storage State Fees Pop Config Crypto Validate Apply Mempool Forkchoice Sync Finality Node Gossip.

(** ** Numbers in requests *)

Definition max_u64 : Z := M64 - 1.

(** [strconv.ParseUint(s, 10, 64)]: the value, which is the largest one when the number does not
    fit, and whether there was no error. *)
Fixpoint parse_uint_loop (v : Z) (l : list ascii) : Z * bool :=
  match l with
  | [] => (v, true)
  | c :: l' =>
      if negb (is_digit c) then (0, false)
      else let v' := v * 10 + digit_val c in
           if max_u64 <? v' then (max_u64, false) else parse_uint_loop v' l'
  end.
Definition strconv_ParseUint (s : string) : Z * bool :=
  match str_list s with [] => (0, false) | l => parse_uint_loop 0 l end.

(** [strconv.Atoi] on a 64-bit machine. *)
Definition Atoi (s : string) : Z * bool :=
  let '(neg, digits) := match s with
    | String "-" s' => (true, s') | String "+" s' => (false, s') | _ => (false, s) end in
  let '(un, ok) := strconv_ParseUint digits in
  if negb ok && negb (un =? max_u64) then (0, false)
  else if negb neg && (M63 <=? un) then (M63 - 1, false)
  else if neg && (M63 <? un) then (- M63, false)
  else ((if neg then - un else un), true).

(** ** Requests, responses, state *)

Record Request := { rq_Method : string; rq_Query : string -> string; rq_Body : string }.

Inductive json : Type :=
| JStr (s : string) | JInt (z : Z) | JBool (b : bool)
| JStrs (l : list string)
| JObj (l : list (string * json)) | JArr (l : list json)
| JTx (tx : Tx) | JTxs (l : list Tx) | JBlock (b : Block) | JHeader (h : BlockHeader)
| JHeaders (l : list BlockHeader) | JStat (p : PeerStat) | JStats (l : list PeerStat)
| JCandidates (l : list Candidate) | JValidators (l : list Validator)
| JFValidators (l : list FinalityValidator) | JCheckpoints (l : list Checkpoint)
| JVotes (l : list VoteRecord) | JParticipants (l : list Participant) | JPeers (l : list Peer)
| JMemTxs (l : list memTx) | JStatus (s : SyncStatus) | JPoolConfig (c : MempoolConfig)
| JInts (m : gmap string Z) | JQueue (m : gmap string (list Z)).

Inductive resp_body : Type :=
| RNone | RText (s : string) | RJson (v : json)
(** Lines [prefix ++ name ++ value]. *)
| RLines (prefix : string) (l : list (string * Z)).
Record Response := { rs_Status : Z; rs_Body : resp_body }.

(** Bodies of requests. *)
Class Body (A : Type) := { decode_body : string -> outcome A; decode_partial : string -> A }.

Record pubBody := { pb_Pub : string; pb_Seconds : Z }.
Record posBody := { po_PubkeyHex : string; po_Name : string; po_Weight : Z }.
Record popBody := { pp_ID : string; pp_Weight : Z; pp_Type : string; pp_Delta : Z }.
Record rpcBody := { rpc_Method : string; rpc_txid : option string }.

Class Bodies := {
  body_pub :: Body pubBody; body_bool :: Body bool; body_locator :: Body (list string);
  body_pos :: Body posBody; body_vote :: Body VoteRecord; body_pop :: Body popBody;
  body_addr :: Body string; body_gossipTx :: Body GossipTxMsg; body_gossipBlock :: Body GossipBlockMsg;
  body_rpc :: Body rpcBody; body_tx :: Body Tx }.

Section Api.
Context {L : LevelDB} {HS : Hashes} {CD : Codecs} {ED : Ed25519} {E : Edwards}
  {MO : MapOrder} {FS : SnapFiles} {TS : TxSort} {BD : Bodies} {HV : JSON HeightView}.
Context (cfg : Config) (mustHex32 : string -> string) (genesis : Genesis).
Context (NextWorkRequired : (Z -> GoM db_t (option BlockHeader)) -> (Z -> GoM db_t (option Z)) ->
  Z -> GoM db_t (option Z)).
Context (n : FinNode) (b_Height feeSum : Z).
Context (ListVotes : Z -> Z -> GoM db_t (list VoteRecord)).
Context (validateTxAdmission : Tx -> GoM db_t Tx).
Context (ApplyBlock : Block -> GoM (db_t * fs_t) unit).
Context (rs_SetBalance : string -> Z -> GoM db_t unit).
Context (findForkPointCached : Z -> string -> Z -> string -> GoM db_t (Z * string)).
Context (InFlightTimeoutSec maxQueueFill : Z).
Context (senders : list string) (sessions : option (list string)) (ready : bool) (fuel : nat).

Record api := {
  a_chain : db_t * fs_t;
  a_sm : option syncManager;
  a_mp : Mempool;
  (** [n.cfg.Sync.AutoConverge]. *)
  a_auto : bool;
  a_posts : list post;
  (** Messages to all sessions. *)
  a_sent : list Msg }.

Definition set_chain (c : db_t * fs_t) (s : api) : api :=
  {| a_chain := c; a_sm := a_sm s; a_mp := a_mp s; a_auto := a_auto s; a_posts := a_posts s; a_sent := a_sent s |}.
Definition set_sm (sm : option syncManager) (s : api) : api :=
  {| a_chain := a_chain s; a_sm := sm; a_mp := a_mp s; a_auto := a_auto s; a_posts := a_posts s; a_sent := a_sent s |}.
Definition set_auto (b : bool) (s : api) : api :=
  {| a_chain := a_chain s; a_sm := a_sm s; a_mp := a_mp s; a_auto := b; a_posts := a_posts s; a_sent := a_sent s |}.

(** The parts the operations of the node work on. *)
Definition on_node {A} (m : GoM (db_t * fs_t) A) : GoM api A := gzoom a_chain set_chain m.
Definition on_kv {A} (m : GoM db_t A) : GoM api A := on_node (on_db m).
Definition on_files {A} (m : GoM fs_t A) : GoM api A := on_node (on_fs m).
Definition on_mempool {A} (m : GoM (db_t * Mempool) A) : GoM api A :=
  gzoom (fun s => ((a_chain s).1, a_mp s))
    (fun r s => {| a_chain := (r.1, (a_chain s).2); a_sm := a_sm s; a_mp := r.2; a_auto := a_auto s;
                   a_posts := a_posts s; a_sent := a_sent s |}) m.
Definition on_chain_mp {A} (m : GoM (db_t * fs_t * Mempool) A) : GoM api A :=
  gzoom (fun s => (a_chain s, a_mp s))
    (fun r s => {| a_chain := r.1; a_sm := a_sm s; a_mp := r.2; a_auto := a_auto s; a_posts := a_posts s; a_sent := a_sent s |}) m.
Definition on_chain_sm {A} (m : GoM (db_t * fs_t * option syncManager) A) : GoM api A :=
  gzoom (fun s => (a_chain s, a_sm s))
    (fun r s => {| a_chain := r.1; a_sm := r.2; a_mp := a_mp s; a_auto := a_auto s; a_posts := a_posts s; a_sent := a_sent s |}) m.
Definition on_all {A} (m : GoM (db_t * fs_t * option syncManager * Mempool) A) : GoM api A :=
  gzoom (fun s => (a_chain s, a_sm s, a_mp s))
    (fun r s => {| a_chain := r.1.1; a_sm := r.1.2; a_mp := r.2; a_auto := a_auto s; a_posts := a_posts s; a_sent := a_sent s |}) m.
Definition with_sm (f : syncManager -> syncManager) : GoM api unit :=
  gmodify (fun s => set_sm (option_map f (a_sm s)) s).
Definition send_posts (m : GoM db_t (list post)) : GoM api unit :=
  let! l := on_kv m in
  gmodify (fun s => {| a_chain := a_chain s; a_sm := a_sm s; a_mp := a_mp s; a_auto := a_auto s;
                       a_posts := a_posts s ++ l; a_sent := a_sent s |}).

Definition Handler : Type := Request -> GoM api (option Response).

Definition respond (status : Z) (b : resp_body) : GoM api (option Response) :=
  gret (Some {| rs_Status := status; rs_Body := b |}).
(** [w.WriteHeader(status)]. *)
Definition code (status : Z) : GoM api (option Response) := respond status RNone.
(** [w.WriteHeader(status); w.Write(text)]. *)
Definition fail_text (status : Z) (text : string) : GoM api (option Response) := respond status (RText text).
(** [json.NewEncoder(w).Encode(map[string]any{...})]. *)
Definition obj (l : list (string * json)) : GoM api (option Response) := respond 200 (RJson (JObj l)).
Definition ok_true : GoM api (option Response) := obj [("ok", JBool true)].

(** [if req.Method != m { w.WriteHeader(405); return }]. *)
Definition only (m : string) (h : Handler) : Handler := fun req =>
  if negb (rq_Method req =? m)%string then code 405 else h req.

(** [if err := ...Decode(&body); err != nil { w.WriteHeader(400); return }]. *)
Definition with_body {A} `{Body A} (k : A -> GoM api (option Response)) : Handler := fun req =>
  match decode_body (rq_Body req) with Ret b => k b | Err _ => code 400 | Panic => gpanic end.
(** [_ = ...Decode(&body)]. *)
Definition body_or_partial {A} `{Body A} (req : Request) : A :=
  match decode_body (rq_Body req) with Ret b => b | _ => decode_partial (rq_Body req) end.

(** [v, err := m; if err != nil { w.WriteHeader(500); return }]. *)
Definition or_500 {A} (m : GoM api A) (k : A -> GoM api (option Response)) : GoM api (option Response) :=
  let! r := gtry m in match r with inl _ => code 500 | inr a => k a end.

(** [h, hash, ok, _ := GetTip(db)]: the zero values when there is none. *)
Definition tip_view : GoM api (Z * string * bool) :=
  let! t := gignore None (on_kv GetTip) in
  gret match t with Some (h, hash) => (h, hash, true) | None => (0, "", false) end.
Definition header_tip_view : GoM api (Z * string * bool) :=
  let! t := gignore None (on_kv GetHeaderTip) in
  gret match t with Some (h, hash) => (h, hash, true) | None => (0, "", false) end.
(** The inline function for ["finalized_hash"]. *)
Definition finalized_hash : GoM api json :=
  let! h := gignore None (on_kv GetFinalizedHash) in gret (JStr (default "" h)).
Definition is_set {A} (o : option A) : json := JBool match o with Some _ => true | None => false end.

(** ** Liveness, peers, roles *)

Definition healthz : Handler := fun _ => respond 200 (RText "ok").
Definition readyz : Handler := fun _ =>
  if ready then respond 200 (RText "ready") else fail_text 503 "not ready".

Definition p2p_peerstat : Handler := fun req =>
  let pub := rq_Query req "pub" in
  if (pub =? "")%string then code 400
  else or_500 (on_kv (GetPeerStat pub)) (fun r => respond 200 (RJson (JStat r.1))).

Definition p2p_bans (now : Z) : Handler := fun _ =>
  or_500 (on_kv (ListPeerStats 2000)) (fun ps =>
    let bans := List.filter (fun s => now <? ps_BannedUntil s) ps in
    obj [("count", JInt (len bans)); ("bans", JStats bans)]).

Definition p2p_unban (now : Z) : Handler := only "POST" (with_body (fun body : pubBody =>
  if (pb_Pub body =? "")%string then code 400
  else gignore tt (on_kv (UnbanPeer now (pb_Pub body))) ;;; ok_true)).

Definition p2p_ban (now : Z) : Handler := only "POST" (with_body (fun body : pubBody =>
  if (pb_Pub body =? "")%string then code 400
  else
    let seconds := if pb_Seconds body =? 0 then 600 else pb_Seconds body in
    gignore tt (on_kv (BanPeer now (pb_Pub body) seconds)) ;;; ok_true)).

Definition p2p_sessions : Handler := fun _ =>
  let ss := default [] sessions in obj [("count", JInt (len ss)); ("sessions", JStrs ss)].

Definition p2p_info : Handler := fun _ =>
  let c := c_P2P cfg in
  obj [("enabled", JBool (p2_Enabled c)); ("bind", JStr (p2_Bind c)); ("port", JInt (p2_Port c))].

Definition node_role : Handler := fun _ =>
  obj [("role", JStr (nc_Role (c_Node cfg))); ("read_only", JBool (isReadOnly cfg))].

Definition peers_add (now : Z) : Handler := only "POST" (with_body (fun addr : string =>
  if (addr =? "")%string then code 400
  else gignore tt (on_kv (PutPeer {| pe_Addr := addr; pe_AddedUnix := now |})) ;;; ok_true)).

Definition peers_list : Handler := fun _ =>
  or_500 (on_kv (ListPeers 5000)) (fun ps => obj [("count", JInt (len ps)); ("peers", JPeers ps)]).

Definition gossip_view : list (string * json) :=
  let c := c_Gossip cfg in
  [("enabled", JBool (gc_Enabled c)); ("peers", JStrs (gc_Peers c)); ("max_hops", JInt (gc_MaxHops c))].
Definition gossip_info : Handler := fun _ => obj gossip_view.

(** ** rpc and metrics *)

Definition pool_info (m : Mempool) : json :=
  JObj [("total_txs", JInt (mp_totalTxs m)); ("total_bytes", JInt (mp_totalBytes m));
        ("accounts", JInt (map_len (mp_byAcct m))); ("per_account", JInts (Info_perAcct m));
        ("config", JPoolConfig (mp_cfg m))].

Definition api_fetchChainInfo : GoM api json :=
  let! (h, hash, ok) := tip_view in
  gret (JObj [("tip_height", JInt h); ("tip_hash", JStr hash)]).

Definition zero_Tx : Tx :=
  {| From := ""; PubKey := ""; SigHex := ""; TType := ""; TClaim := None; TVersion := 0; TNonce := 0;
     Fee := 0; GasAsset := ""; Outputs := []; Memo := "" |}.

Definition rpc : Handler := only "POST" (with_body (fun req : rpcBody =>
  let m := rpc_Method req in
  if (m =? "chain.info")%string then let! v := api_fetchChainInfo in respond 200 (RJson v)
  else if (m =? "mempool.info")%string then let! s := gget in respond 200 (RJson (pool_info (a_mp s)))
  else if (m =? "gossip.info")%string then obj gossip_view
  else if (m =? "tx.get")%string then
    let! tx := gignore None (on_kv (GetTx (default "" (rpc_txid req)))) in
    obj [("found", is_set tx); ("tx", JTx (default zero_Tx tx))]
  else respond 400 (RJson (JObj [("error", JStr "unknown_method")])))).

Definition session_count : Z := len (default [] sessions).

(** The lines of the text, as name and value. *)
Definition metrics : Handler := fun _ =>
  let! (tipH, _, _) := tip_view in
  let! s0 := gget in
  let! ht := header_tip_view in
  let hh := if ht.2 then ht.1.1 else tipH in
  let! fh := gignore None (on_kv GetFinalizedHeight) in
  let! s := gget in
  let '(pend, infl) := match a_sm s with
    | Some sm => let st := snapshot tipH 0 sm in (ss_PendingBlocks st, ss_InFlightBlocks st)
    | None => (0, 0) end in
  respond 200 (RLines "reserveos_" [("tip_height", tipH); ("header_tip_height", hh);
    ("finalized_height", default 0 fh); ("sync_pending", pend); ("sync_inflight", infl);
    ("p2p_peers", session_count); ("mempool_txs", mp_totalTxs (a_mp s0))]).

(** ** Synchronisation *)

Definition sync_last_headers : Handler := fun _ =>
  let! s := gget in
  match a_sm s with
  | None => code 404
  | Some sm => let hs := ss_LastHeaderHashes (snapshot 0 0 sm) in
               obj [("count", JInt (len hs)); ("hashes", JStrs hs)]
  end.

Definition query_height (req : Request) (name : string) : Z := (strconv_ParseUint (rq_Query req name)).1.

Definition sync_candidates : Handler := fun req =>
  let h := query_height req "height" in
  or_500 (on_kv (ListCandidatesAtHeight h 200)) (fun c =>
    obj [("height", JInt h); ("count", JInt (len c)); ("candidates", JCandidates c)]).

Definition tip_reply (l : list (string * json)) : GoM api (option Response) :=
  let! (h, hash, ok) := tip_view in
  obj (l ++ [("tip_height", JInt h); ("tip_hash", JStr hash); ("set", JBool ok)]).

(** [n.TryConvergeToBest()] with the values of the undeclared names. *)
Definition converge (now : Z) : GoM api (option unit) :=
  on_all (TryConvergeToBest ApplyBlock maxQueueFill fuel rs_SetBalance cfg genesis findForkPointCached senders now).

Definition sync_retry (now nano : Z) : Handler := only "POST" (fun _ =>
  with_sm (fun sm => (requeueTimedOut nano InFlightTimeoutSec sm).2) ;;;
  let! r := gtry (converge now) in
  match r with
  | inr None => gret None
  | _ => tip_reply [("ok", JBool true)]
  end).

(** [w.WriteHeader(400); w.Write([]byte(err.Error()))]. *)
Definition fail_err (e : goerr) : GoM api (option Response) := fail_text 400 e.

Definition sync_converge (now : Z) : Handler := only "POST" (fun _ =>
  let! r := gtry (converge now) in
  match r with
  | inl e => fail_err e
  | inr None => gret None
  | inr (Some _) =>
      let! (h, hash, ok) := tip_view in
      let! (hh, hhash, okH) := header_tip_view in
      obj [("ok", JBool true); ("block_tip", JInt h); ("block_tip_hash", JStr hash); ("block_tip_set", JBool ok);
           ("header_tip", JInt hh); ("header_tip_hash", JStr hhash); ("header_tip_set", JBool okH)]
  end).

Fixpoint count_missing (path : list string) : GoM db_t Z :=
  match path with
  | [] => gret 0
  | bh :: rest =>
      let! r := gignore NotFound (GetBlockByHash bh) in
      let! m := count_missing rest in
      gret (match found_ok r with Some _ => m | None => m + 1 end)
  end.

Definition sync_reorg_best_check : Handler := fun _ =>
  let! (curH, _, _) := tip_view in
  let! (hH, hHash, okH) := header_tip_view in
  let? missing :=
    if okH && negb (hHash =? "")%string && (curH <? hH) then
      let! path := gtry (on_kv (headerPathFromTo fuel (u64 (curH + 1)) hH hHash)) in
      match path with
      | inl _ => gret (Some 0)
      | inr None => gret None
      | inr (Some path) => let! m := on_kv (count_missing path) in gret (Some m)
      end
    else gret (Some 0) in
  obj [("ok", JBool true); ("missing_blocks", JInt missing)].

Definition sync_reorg_best (now : Z) : Handler := only "POST" (fun _ =>
  let! r := gtry (on_chain_mp (ReorgToBestHeaderChain ApplyBlock rs_SetBalance cfg genesis fuel
                                 findForkPointCached senders now)) in
  match r with
  | inl e => fail_err e
  | inr None => gret None
  | inr (Some _) => tip_reply [("ok", JBool true)]
  end).

Definition sync_rebuild : Handler := only "POST" (fun req =>
  let h := query_height req "height" in
  let! r := gtry (on_node (RebuildStateToHeight ApplyBlock rs_SetBalance cfg genesis h)) in
  match r with
  | inl e => fail_err e
  | inr _ => obj [("ok", JBool true); ("height", JInt h)]
  end).

Definition commit_next : GoM api (option unit) := on_chain_sm (TryCommitNext ApplyBlock maxQueueFill fuel).

Fixpoint commit_times (k : nat) : GoM api (option unit) :=
  match k with
  | O => gret (Some tt)
  | S k' => let? _ := commit_next in commit_times k'
  end.

Definition sync_commit_until : Handler := only "POST" (fun req =>
  let nn := (Atoi (rq_Query req "n")).1 in
  let nn := if nn <=? 0 then 100 else nn in
  let? _ := commit_times (Z.to_nat nn) in
  tip_reply [("ok", JBool true)]).

Definition commit_reply : GoM api (option Response) :=
  let? _ := commit_next in
  let! (h, hash, ok) := tip_view in
  obj [("tip_height", JInt h); ("tip_hash", JStr hash); ("ok", JBool ok)].
Definition sync_commit : Handler := only "POST" (fun _ => commit_reply).
Definition sync_advance : Handler := only "POST" (fun _ => commit_reply).

Definition reset_queues (sm : syncManager) : syncManager :=
  set_status (set_queues sm ∅ []) (status_queues (sm_status sm) 0 0).
Definition sync_reset : Handler := only "POST" (fun _ => with_sm reset_queues ;;; ok_true).

Definition sync_peers : Handler := fun _ =>
  let! s := gget in
  let ss := default [] sessions in
  obj [("count", JInt (len ss));
       ("peers", JArr (map (fun p => JObj [("pub", JStr p);
          ("anchor_ok", JBool match a_sm s with Some sm => isPeerAnchorOK p sm | None => true end)]) ss))].

Definition sync_auto_converge : Handler := only "POST" (fun req =>
  gmodify (set_auto (body_or_partial req)) ;;;
  let! s := gget in obj [("ok", JBool true); ("enabled", JBool (a_auto s))]).

Definition sync_pause : Handler := only "POST" (fun req =>
  let paused : bool := body_or_partial req in
  with_sm (setPaused paused) ;;;
  obj [("ok", JBool true); ("paused", JBool paused)]).

Definition sync_headers_at_height : Handler := fun req =>
  let h := query_height req "h" in
  or_500 (on_kv (ListHeaderHashesAtHeight h 200)) (fun hashes =>
    obj [("height", JInt h); ("count", JInt (len hashes)); ("hashes", JStrs hashes)]).

(** The walk down from the header tip, at most [room] hashes. *)
Fixpoint plan_loop (room : nat) (start : Z) (cur : string) : GoM db_t (list string) :=
  match room with
  | O => gret []
  | S room' =>
      let! hdr := gignore None (GetHeaderByHash cur) in
      match hdr with
      | None => gret []
      | Some hdr =>
          if Height hdr <? start then gret []
          else if Height hdr =? start then gret [cur]
          else let! rest := plan_loop room' start (Hash_String (PrevHash hdr)) in gret (cur :: rest)
      end
  end.

Definition sync_plan : Handler := fun req =>
  let k := (Atoi (rq_Query req "n")).1 in
  let k := if k <=? 0 then 50 else k in
  let k := if 500 <? k then 500 else k in
  let! (blockH, _, _) := tip_view in
  let! (hdrH, hdrHash, okH) := header_tip_view in
  if negb okH || (hdrHash =? "")%string || (hdrH <=? blockH)
  then obj [("count", JInt 0); ("hashes", JStrs [])]
  else
    let start := u64 (blockH + 1) in
    let! seq := on_kv (plan_loop (Z.to_nat k) start hdrHash) in
    obj [("count", JInt (len seq)); ("hashes", JStrs (rev seq)); ("start_height", JInt start);
         ("header_tip", JInt hdrH)].

Definition sync_state_height : Handler := fun _ =>
  let! (h, hash, ok) := tip_view in
  let! fh := finalized_hash in
  obj [("height", JInt h); ("hash", JStr hash); ("set", JBool ok); ("finalized_hash", fh)].

Definition sync_missing : Handler := fun _ =>
  let! (blockH, _, _) := tip_view in
  let! ht := header_tip_view in
  let hdrH := if ht.2 then ht.1.1 else blockH in
  let missing := i64 (i64 hdrH - i64 blockH) in
  let missing := if missing <? 0 then 0 else missing in
  obj [("block_tip", JInt blockH); ("header_tip", JInt hdrH); ("missing_blocks", JInt missing)].

Definition sync_cumwork : Handler := fun req =>
  let hash := rq_Query req "hash" in
  or_500 (on_kv (GetCumWork hash)) (fun cw =>
    obj [("hash", JStr hash); ("cumwork", JInt (default 0 cw)); ("set", is_set cw)]).

(** [h, hash, ok] as fields. *)
Definition tip_fields (t : option (Z * string)) : list (string * json) :=
  [("height", JInt (default 0 (option_map fst t))); ("hash", JStr (default "" (option_map snd t)));
   ("set", is_set t)].

Definition sync_best_header_tip : Handler := fun _ =>
  or_500 (on_kv GetHeaderTip) (fun t =>
    let! cw := match t with
      | Some (_, hash) => if (hash =? "")%string then gret None else gignore None (on_kv (GetCumWork hash))
      | None => gret None end in
    obj (tip_fields t ++ [("cumwork", JInt (default 0 cw))])).

Definition sync_header_tip : Handler := fun _ =>
  or_500 (on_kv GetHeaderTip) (fun t =>
    let! fh := finalized_hash in obj (tip_fields t ++ [("finalized_hash", fh)])).

Definition sync_frontier : Handler := fun _ =>
  or_500 (on_kv GetHeaderFrontier) (fun t =>
    let! fh := finalized_hash in obj (tip_fields t ++ [("finalized_hash", fh)])).

Definition sync_status : Handler := fun _ =>
  let! (tipH, _, _) := tip_view in
  let! s := gget in
  let st := match a_sm s with
    | Some sm => snapshot tipH session_count sm
    | None => {| ss_Mode := "headers_first"; ss_Peers := session_count; ss_LastRequestedUnix := 0;
                 ss_LastHeadersCount := 0; ss_LastHeaderHashes := []; ss_InFlightBlocks := 0;
                 ss_PendingBlocks := 0; ss_TipHeight := tipH |} end in
  respond 200 (RJson (JStatus st)).

(** ** Chain *)

Definition mine_template : Handler := fun _ =>
  let! txs := on_mempool EligibleSnapshot in
  let! txs := on_kv (FilterTxsBySimState txs) in
  obj [("count", JInt (len txs)); ("txids", JStrs (map TxID txs))].

Definition version : Handler := fun _ => obj [("service", JStr "core-node"); ("api_version", JInt 1)].

(** An error text as the handlers write it. *)
Definition err_text (e : string) : resp_body := RJson (JObj [("error", JStr e)]).

Definition chain_locate : Handler := only "POST" (fun req =>
  match decode_body (A := list string) (rq_Body req) with
  | Panic => gpanic
  | Err _ => respond 400 (err_text "bad_json")
  | Ret locator =>
      let! r := gtry (on_kv (FindFirstKnown locator)) in
      match r with
      | inl _ => respond 500 (err_text "db")
      | inr None => obj [("found", JBool false)]
      | inr (Some (hh, h)) => obj [("found", JBool true); ("hash", JStr hh); ("height", JInt h)]
      end
  end).

Definition chain_info (BlockTimeTargetSeconds DifficultyWindowBlocks : Z) : Handler := fun _ =>
  let! r := gtry (on_kv GetTip) in
  match r with
  | inl _ => respond 500 (err_text "db")
  | inr None => respond 503 (err_text "no_tip")
  | inr (Some (h, tip)) =>
      obj [("chain_id", JStr (g_ChainID genesis)); ("height", JInt h); ("tip", JStr tip);
           ("block_time_target_seconds", JInt BlockTimeTargetSeconds);
           ("difficulty_window_blocks", JInt DifficultyWindowBlocks)]
  end.

Definition chain_mine_one (now : Z) : Handler := only "POST" (fun _ =>
  let! r := gtry (on_chain_mp (MineOne cfg mustHex32 genesis NextWorkRequired n b_Height feeSum fuel now)) in
  match r with
  | inl e => respond 400 (err_text e)
  | inr None => gret None
  | inr (Some (hashHex, nonce)) => obj [("ok", JBool true); ("hash", JStr hashHex); ("nonce", JInt nonce)]
  end).

Definition block_by_hash_reply (req : Request) (k : string -> Block -> list (string * json))
    : GoM api (option Response) :=
  let h := rq_Query req "hash" in
  if (h =? "")%string then respond 400 (err_text "missing hash")
  else
    let! r := gtry (on_kv (GetBlockByHash h)) in
    match r with
    | inr (Found b) => obj (k h b)
    | _ => respond 404 (err_text "not found")
    end.

Definition chain_block_by_hash : Handler := only "GET" (fun req =>
  block_by_hash_reply req (fun h b => [("hash", JStr h); ("block", JBlock b)])).
Definition chain_header_by_hash : Handler := only "GET" (fun req =>
  block_by_hash_reply req (fun h b => [("hash", JStr h); ("header", JHeader (Header b))])).

Fixpoint headers_loop (k : nat) (h : Z) : GoM db_t (list BlockHeader) :=
  match k with
  | O => gret []
  | S k' =>
      let! r := gtry (GetBlockByHeight h) in
      match r with
      | inr (Found b, _) => let! rest := headers_loop k' (u64 (h + 1)) in gret (Header b :: rest)
      | _ => gret []
      end
  end.

Definition chain_headers : Handler := only "GET" (fun req =>
  let '(from, ok) := strconv_ParseUint (rq_Query req "from") in
  if negb ok then respond 400 (err_text "bad from")
  else
    let '(count, ok) := Atoi (rq_Query req "count") in
    if negb ok || (count <=? 0) then respond 400 (err_text "bad count")
    else
      let count := if 2000 <? count then 2000 else count in
      let! headers := on_kv (headers_loop (Z.to_nat count) from) in
      obj [("from", JInt from); ("count", JInt (len headers)); ("headers", JHeaders headers)]).

Definition chain_block : Handler := only "GET" (fun req =>
  let q := rq_Query req "height" in
  if (q =? "")%string then respond 400 (err_text "missing height")
  else
    let '(h64, ok) := strconv_ParseUint q in
    if negb ok then respond 400 (err_text "bad height")
    else
      let! r := gtry (on_kv (GetBlockByHeight h64)) in
      match r with
      | inr (Found b, hashHex) => obj [("height", JInt h64); ("hash", JStr hashHex); ("block", JBlock b)]
      | _ => respond 404 (err_text "not found")
      end).

(** ** Finality and validators *)

Definition finality_info : Handler := fun _ =>
  let! r := gtry (on_kv GetFinalized) in
  match r with
  | inl _ => respond 500 (err_text "db")
  | inr None => obj [("finalized", JBool false)]
  | inr (Some (h, hh)) => obj [("finalized", JBool true); ("height", JInt h); ("hash", JStr hh)]
  end.

Definition pos_register (now : Z) : Handler := only "POST" (with_body (fun body : posBody =>
  if (po_PubkeyHex body =? "")%string then respond 400 (err_text "missing_pubkey")
  else
    let w := if po_Weight body <=? 0 then 1 else po_Weight body in
    gignore tt (on_kv (PutValidator now {| va_PubkeyHex := po_PubkeyHex body; va_Name := po_Name body;
      va_Weight := w; va_AddedUnix := 0; va_Slashed := false |})) ;;;
    ok_true)).

Definition pos_validators_source : Handler := fun _ =>
  obj [("validator_source", JStr (pos_ValidatorSource (c_PoS cfg)))].

Definition pos_slashing_status : Handler := fun _ =>
  let! vals := gignore [] (on_kv (ListValidators 5000)) in
  obj [("validators", JInt (len vals)); ("slashed", JInt (len (List.filter va_Slashed vals)))].

Definition pos_validators : Handler := fun _ =>
  or_500 (on_kv (ListValidators 5000)) (fun vals =>
    obj [("count", JInt (len vals)); ("validators", JValidators vals)]).

Definition finality_validators : Handler := fun _ =>
  obj [("enabled", JBool (finalityEnabled n));
       ("threshold", JStr (FormatInt (thresholdNum n) +:+ "/" +:+ FormatInt (thresholdDen n)));
       ("checkpoint_interval", JInt (checkpointInterval n)); ("local_pubkey", JStr (localPubHex n));
       ("validators", JFValidators (validators n))].

Definition finality_submit_vote (now : Z) : Handler := only "POST" (fun req =>
  match decode_body (A := VoteRecord) (rq_Body req) with
  | Panic => gpanic
  | Err _ => respond 400 (err_text "bad_json")
  | Ret vr =>
      let! (st, e) := on_kv (submit_vote n genesis ListVotes now vr) in
      if st =? 200 then ok_true else respond st (err_text e)
  end).

Definition finality_anchor : Handler := fun _ =>
  let! (f, hash) := on_kv local_anchor in
  let! fh := finalized_hash in
  obj [("height", JInt (default 0 f)); ("hash", JStr hash); ("set", is_set f); ("finalized_hash", fh)].

Definition finality_status : Handler := fun _ =>
  let! f := gignore None (on_kv GetFinalizedHeight) in
  let! cps := gignore [] (on_kv (ListCheckpoints 5000)) in
  obj [("finalized_height", JInt (default 0 f)); ("finalized_set", is_set f);
       ("latest_checkpoint_height", JInt (default 0 (option_map cp_Height (last cps))))].

Definition finality_finalized : Handler := fun _ =>
  or_500 (on_kv GetFinalizedHeight) (fun f =>
    let! fh := finalized_hash in
    obj [("finalized_height", JInt (default 0 f)); ("set", is_set f); ("finalized_hash", fh)]).

Definition finality_tally : Handler := fun req =>
  let h := query_height req "height" in
  or_500 (on_kv (ListVotes h 5000)) (fun votes =>
    let! vals := gignore [] (on_kv (ListValidators 5000)) in
    let '(wBy, totalW) := fold_left weight_step vals (∅, 0) in
    let tally := fold_left (tally_step wBy) votes ∅ in
    let! (_, hh, _) := header_tip_view in
    obj [("height", JInt h); ("checkpoint_id", JStr (FormatUint h +:+ ":" +:+ hh));
         ("total_weight", JInt totalW); ("tally", JInts tally); ("votes", JInt (len votes))]).

Definition finality_checkpoints : Handler := only "GET" (fun req =>
  let '(from, ok) := strconv_ParseUint (rq_Query req "from") in
  let from := if ok then from else 0 in
  let '(count, ok) := Atoi (rq_Query req "count") in
  let count := if negb ok || (count <=? 0) then 50 else count in
  let count := if 200 <? count then 200 else count in
  or_500 (on_kv (ListCheckpoints 5000)) (fun cps =>
    let cps := if 0 <? from then List.filter (fun cp => from <=? cp_Height cp) cps else cps in
    let cps := firstn (Z.to_nat count) cps in
    obj [("from", JInt from); ("count", JInt (len cps)); ("checkpoints", JCheckpoints cps)])).

Definition finality_votes : Handler := only "GET" (fun req =>
  let '(h64, ok) := strconv_ParseUint (rq_Query req "height") in
  if negb ok then respond 400 (err_text "bad_height")
  else
    let! r := gtry (on_kv (ListVotesForHeight h64)) in
    match r with
    | inl _ => respond 500 (err_text "db")
    | inr votes => obj [("height", JInt h64); ("votes", JVotes votes)]
    end).

(** ** Accounts and snapshots *)

(** The guard the account queries share. *)
Definition with_id (name : string) (k : string -> GoM api (option Response)) : Handler := only "GET" (fun req =>
  let id := rq_Query req name in
  if (id =? "")%string then respond 400 (err_text ("missing " +:+ name)) else k id).

Definition balance_of (id : string) : GoM api json :=
  let! b := gignore None (on_kv (GetBalance id)) in gret (JInt (default 0 b)).
Definition nonce_of (id : string) : GoM api json :=
  let! b := gignore None (on_kv (GetNonce id)) in gret (JInt (default 0 b)).

Definition state_nonce : Handler := with_id "id" (fun id =>
  let! nn := nonce_of id in obj [("id", JStr id); ("nonce", nn)]).
Definition state_info : Handler := with_id "id" (fun id =>
  let! bal := balance_of id in
  let! nn := nonce_of id in obj [("id", JStr id); ("balance", bal); ("nonce", nn)]).
Definition state_balance : Handler := with_id "id" (fun id =>
  let! bal := balance_of id in obj [("id", JStr id); ("balance", bal)]).
Definition otap_bucket : Handler := with_id "p" (fun p =>
  let! bal := balance_of ("otap:" +:+ p) in obj [("p", JStr p); ("bucket_balance", bal)]).

Definition state_snapshot_info : Handler := fun req =>
  let path := rq_Query req "path" in
  if (path =? "")%string then code 400
  else or_500 (on_files (ReadSnapshotAuto path)) (fun ss =>
    obj [("version", JInt (sn_Version ss)); ("height", JInt (sn_Height ss)); ("tip_hash", JStr (sn_TipHash ss));
         ("created_unix", JInt (sn_CreatedUnix ss)); ("balances", JInt (map_len (sn_Balances ss)));
         ("nonces", JInt (map_len (sn_Nonces ss)))]).

Definition state_snapshots : Handler := fun _ =>
  or_500 (on_files (ListSnapshots (st_SnapshotDir (c_State cfg)))) (fun paths =>
    obj [("count", JInt (len paths)); ("paths", JStrs paths)]).

Definition state_snapshot_trigger (now : Z) : Handler := only "POST" (fun _ =>
  or_500 (on_kv GetTip) (fun t =>
    let '(h, tip) := default (0, "") t in
    let dir := st_SnapshotDir (c_State cfg) in
    or_500 (on_node (if (st_SnapshotFormat (c_State cfg) =? "bin")%string
                     then WriteSnapshotBin now dir h tip else WriteSnapshot now dir h tip)) (fun path =>
      obj [("ok", JBool true); ("path", JStr path); ("height", JInt h)]))).

(** ** Participation *)

Definition missing_id : GoM api (option Response) := respond 400 (err_text "missing id").

Definition pop_register (now : Z) : Handler := only "POST" (with_body (fun body : popBody =>
  if (pp_ID body =? "")%string then missing_id
  else
    let w := if pp_Weight body <=? 0 then 1 else pp_Weight body in
    gignore tt (on_kv (PutParticipant {| pt_ID := pp_ID body; pt_Weight := w; pt_AddedAt := now |})) ;;;
    ok_true)).

(** The factor of an event. *)
Definition event_mul (ty : string) : Z :=
  if (ty =? "relay")%string then 5
  else if (ty =? "storage")%string then 3
  else if (ty =? "uptime")%string then 2 else 1.

Definition pop_event (now : Z) : Handler := only "POST" (with_body (fun body : popBody =>
  if (pp_ID body =? "")%string then missing_id
  else
    let ty := if (pp_Type body =? "")%string then "heartbeat" else pp_Type body in
    let delta := if pp_Delta body =? 0 then 1 else pp_Delta body in
    let applied := u64 (delta * event_mul ty) in
    gignore tt (on_kv (PutPoPEvent now {| ev_ID := pp_ID body; ev_Type := ty; ev_Delta := delta; ev_TimeUnix := 0 |})) ;;;
    gignore tt (on_kv (AddScore (pp_ID body) applied)) ;;;
    obj [("ok", JBool true); ("applied", JInt applied)])).

Definition pop_heartbeat : Handler := only "POST" (with_body (fun body : popBody =>
  if (pp_ID body =? "")%string then missing_id
  else
    let delta := if pp_Delta body =? 0 then 1 else pp_Delta body in
    gignore tt (on_kv (AddScore (pp_ID body) delta)) ;;; ok_true)).

Definition pop_score : Handler := only "GET" (fun req =>
  let id := rq_Query req "id" in
  if (id =? "")%string then code 400
  else let! sc := gignore None (on_kv (GetScore id)) in
       obj [("id", JStr id); ("score", JInt (default 0 sc))]).

Definition pop_participants : Handler := only "GET" (fun _ =>
  or_500 (on_kv (ListParticipants 5000)) (fun parts =>
    obj [("count", JInt (len parts)); ("participants", JParticipants parts)])).

(** ** Relay *)

Definition gossip_block (now : Z) : Handler := only "POST" (with_body (fun msg : GossipBlockMsg =>
  let b := gb_Block msg in
  let! r := gtry (on_node (SubmitBlock cfg mustHex32 genesis NextWorkRequired n b_Height feeSum now b)) in
  match r with
  | inl _ => respond 400 (err_text "rejected")
  | inr _ => send_posts (gossipBlock cfg b (gb_Hash msg) (gb_Hop msg)) ;;; ok_true
  end)).

Definition gossip_tx (now : Z) : Handler := only "POST" (with_body (fun msg : GossipTxMsg =>
  let! v := gtry (on_kv (validateTxAdmission (with_type (gt_Tx msg)))) in
  match v with
  | inl _ => respond 400 (err_text "rejected")
  | inr tx =>
      let! a := gtry (on_mempool (Add senders now tx)) in
      match a with
      | inl _ => respond 400 (err_text "mempool")
      | inr _ => send_posts (gossipTx cfg tx (gt_Hop msg)) ;;; ok_true
      end
  end)).

(** ** Pool *)

Definition mempool_eligible : Handler := fun _ =>
  let! txs := on_mempool EligibleSnapshot in obj [("count", JInt (len txs)); ("txs", JTxs txs)].
Definition mempool_queue : Handler := fun _ =>
  let! s := gget in
  let q := QueueSnapshot (a_mp s) in obj [("accounts", JInt (map_len q)); ("queue", JQueue q)].
Definition mempool_persisted : Handler := fun _ =>
  or_500 (on_kv (ListPersistedMempool 1000)) (fun items => obj [("count", JInt (len items)); ("items", JMemTxs items)]).
Definition mempool_prune (now : Z) : Handler := only "POST" (fun _ =>
  gignore [] (on_kv (LoadMempoolTxs now 5000)) ;;; ok_true).
Definition mempool_info : Handler := fun _ =>
  let! s := gget in respond 200 (RJson (pool_info (a_mp s))).

(** The node's own transactions: [POST /tx/submit]. *)
Definition tx_submit (now : Z) : Handler := fun req =>
  if isReadOnly cfg then respond 403 (err_text "read_only")
  else if negb (nc_AllowPublicSubmit (c_Node cfg)) then respond 403 (err_text "submit_disabled")
  else if negb (rq_Method req =? "POST")%string then code 405
  else
    match decode_body (A := Tx) (rq_Body req) with
    | Panic => gpanic
    | Err _ => respond 400 (err_text "bad_json")
    | Ret tx =>
        let! r := on_kv (submit_checks cfg mustHex32 tx) in
        match r with
        | inl e => respond 400 (err_text e)
        | inr tx =>
            let! a := gtry (on_mempool (Add senders now tx)) in
            match a with
            | inl e => respond 400 (err_text e)
            | inr _ =>
                gignore tt (on_kv (PutTx tx)) ;;;
                send_posts (gossipTx cfg tx 0) ;;;
                gmodify (fun s => {| a_chain := a_chain s; a_sm := a_sm s; a_mp := a_mp s; a_auto := a_auto s;
                                     a_posts := a_posts s;
                                     a_sent := a_sent s ++ p2pBroadcastTx (bool_decide (is_Some sessions)) tx |}) ;;;
                on_kv (PutMempoolTx now tx 3600) ;;;
                obj [("ok", JBool true); ("txid", JStr (TxID tx))]
            end
        end
    end.

Definition tx_get : Handler := only "GET" (fun req =>
  let txid := rq_Query req "txid" in
  if (txid =? "")%string then code 400
  else or_500 (on_kv (GetTx txid)) (fun tx =>
    match tx with
    | None => obj [("found", JBool false)]
    | Some tx => obj [("found", JBool true); ("tx", JTx tx)]
    end)).

(** ** Fees *)

(** [for h := from; h <= to; h++]: the sums of the blocks that have one, and how many. *)
Fixpoint reconcile_loop (fuel : nat) (h to total blocks : Z) : GoM db_t (option (Z * Z)) :=
  if to <? h then gret (Some (total, blocks))
  else
    match fuel with
    | O => gret None
    | S f =>
        let! s := GetBlockFeeSum h in
        match s with
        | Some s => reconcile_loop f (u64 (h + 1)) to (i64 (total + s)) (i64 (blocks + 1))
        | None => reconcile_loop f (u64 (h + 1)) to total blocks
        end
    end.

Definition fees_reconcile : Handler := fun req =>
  let from := query_height req "from" in
  let to := query_height req "to" in
  let! to := if to =? 0 then let! (th, _, ok) := tip_view in gret (if ok : bool then th else to) else gret to in
  if to <? from then code 400
  else
    let? r := on_kv (reconcile_loop fuel from to 0 0) in
    obj [("from", JInt from); ("to", JInt to); ("blocks", JInt r.2); ("fee_sum_total", JInt r.1)].

Definition fees_info : Handler := fun _ =>
  let! pools := on_kv GetFeePools in
  let c := c_Fees cfg in
  obj [("gas_asset", JStr (fe_GasAsset c)); ("mode", JStr (fe_Mode c)); ("base_fee_min", JInt (fe_BaseFeeMin c));
       ("per_byte", JInt (fe_PerByte c)); ("otap_multiplier", JInt (fe_OTAPMultiplier c)); ("pools", JInts pools)].

(** ** The table of routes, as [Start] registers them *)

Definition routes (now nano BlockTimeTargetSeconds DifficultyWindowBlocks : Z) : list (string * Handler) :=
  [("/healthz", healthz); ("/readyz", readyz); ("/p2p/peerstat", p2p_peerstat);
   ("/p2p/bans", p2p_bans now); ("/p2p/unban", p2p_unban now); ("/p2p/ban", p2p_ban now);
   ("/p2p/sessions", p2p_sessions); ("/p2p/info", p2p_info); ("/node/role", node_role); ("/rpc", rpc);
   ("/metrics", metrics); ("/sync/last_headers", sync_last_headers);
   ("/sync/candidates", sync_candidates); ("/sync/retry", sync_retry now nano);
   ("/sync/converge", sync_converge now); ("/sync/reorg_best_check", sync_reorg_best_check);
   ("/sync/reorg_best", sync_reorg_best now); ("/sync/rebuild", sync_rebuild);
   ("/sync/commit_until", sync_commit_until); ("/sync/commit", sync_commit);
   ("/sync/advance", sync_advance); ("/sync/reset", sync_reset); ("/sync/peers", sync_peers);
   ("/sync/auto_converge", sync_auto_converge); ("/sync/pause", sync_pause);
   ("/sync/headers_at_height", sync_headers_at_height); ("/sync/plan", sync_plan);
   ("/sync/state_height", sync_state_height); ("/sync/missing", sync_missing);
   ("/sync/cumwork", sync_cumwork); ("/sync/best_header_tip", sync_best_header_tip);
   ("/sync/header_tip", sync_header_tip); ("/sync/frontier", sync_frontier);
   ("/sync/status", sync_status); ("/mine/template", mine_template); ("/version", version);
   ("/chain/locate", chain_locate);
   ("/chain/info", chain_info BlockTimeTargetSeconds DifficultyWindowBlocks);
   ("/finality/info", finality_info); ("/pos/register", pos_register now);
   ("/pos/validators/source", pos_validators_source); ("/pos/slashing/status", pos_slashing_status);
   ("/pos/validators", pos_validators); ("/finality/validators", finality_validators);
   ("/finality/submit_vote", finality_submit_vote now); ("/finality/anchor", finality_anchor);
   ("/finality/status", finality_status); ("/finality/finalized", finality_finalized);
   ("/finality/tally", finality_tally); ("/finality/checkpoints", finality_checkpoints);
   ("/finality/votes", finality_votes); ("/state/nonce", state_nonce); ("/state/info", state_info);
   ("/state/snapshot/info", state_snapshot_info); ("/state/snapshots", state_snapshots);
   ("/state/snapshot/trigger", state_snapshot_trigger now); ("/state/balance", state_balance);
   ("/otap/bucket", otap_bucket); ("/pop/register", pop_register now); ("/pop/event", pop_event now);
   ("/pop/heartbeat", pop_heartbeat); ("/pop/score", pop_score); ("/pop/participants", pop_participants);
   ("/peers/add", peers_add now); ("/peers/list", peers_list); ("/gossip/info", gossip_info);
   ("/gossip/block", gossip_block now); ("/gossip/tx", gossip_tx now);
   ("/mempool/eligible", mempool_eligible); ("/mempool/queue", mempool_queue);
   ("/mempool/persisted", mempool_persisted); ("/mempool/prune", mempool_prune now);
   ("/mempool/info", mempool_info); ("/fees/reconcile", fees_reconcile); ("/fees/info", fees_info);
   ("/tx/get", tx_get); ("/tx/submit", tx_submit now); ("/chain/mine_one", chain_mine_one now);
   ("/chain/block_by_hash", chain_block_by_hash); ("/chain/header_by_hash", chain_header_by_hash);
   ("/chain/headers", chain_headers); ("/chain/block", chain_block)].

(** A path outside the table is answered by the server, not by the node. *)
Definition serve (now nano BlockTimeTargetSeconds DifficultyWindowBlocks : Z) (path : string) : Handler :=
  match List.find (fun r => (r.1 =? path)%string) (routes now nano BlockTimeTargetSeconds DifficultyWindowBlocks) with
  | Some r => r.2
  | None => fun _ => code 404
  end.
End Api.
