(* ===== verification/PlatformDB.v ===== *)
(** * services/platformdb-daemon: a table of settings behind a token

    The keys it takes from the vault or creates, and the two handlers over the table [kv].  The
    database is the map that SQLite documents for the one table; [fault] says whether the write
    fails, which the handler does not notice.  The theorems: a write is answered with success and
    read back when it did not fail, and a request without the token changes nothing
    ([kv_set_get]). *)

From S2P Require Import Prelude GoLang KV Api.

Record PConfig := {
  pf_Bind : string; pf_Port : Z; pf_Path : string; pf_Mode : string; pf_KeyvaultPath : string;
  pf_KeyvaultEnv : string }.

Definition or_default (s dflt : string) : string := if (s =? "")%string then dflt else s.

(** The defaults of [main]. *)
Definition fill_platform (c : PConfig) : PConfig :=
  {| pf_Bind := or_default (pf_Bind c) "127.0.0.1"; pf_Port := if pf_Port c =? 0 then 9030 else pf_Port c;
     pf_Path := or_default (pf_Path c) "runtime/platformdb/platform.db"; pf_Mode := or_default (pf_Mode c) "sqlite";
     pf_KeyvaultPath := or_default (pf_KeyvaultPath c) "runtime/keyvault/keyvault.enc";
     pf_KeyvaultEnv := or_default (pf_KeyvaultEnv c) "RESERVEOS_KEYMASTER" |}.

(** [key, ok := kv.GetString(name); if !ok || key == "" { key = fresh; _ = kv.SetString(name, key) }]. *)
Definition load_or_create {V} (get : string -> GoM V (option string)) (set : string -> string -> GoM V unit)
    (name fresh : string) : GoM V string :=
  let! k := get name in
  let key := default "" k in
  if (key =? "")%string then gignore tt (set name fresh) ;;; gret fresh else gret key.

Definition platform_key {V} get set (pid : Z) : GoM V string :=
  load_or_create get set "platformdb.sqlcipher_key" ("devkey-" +:+ FormatUint pid).
Definition platform_token {V} get set (now : Z) : GoM V string :=
  load_or_create get set "platformdb.token" ("tok-" +:+ FormatUint now).

(** The data source name. *)
Definition platform_dsn (c : PConfig) (key : string) : string :=
  if (pf_Mode c =? "sqlcipher")%string
  then "file:" +:+ pf_Path c +:+ "?_pragma_key=" +:+ key +:+ "&_pragma_cipher_page_size=4096"
  else pf_Path c.

(** ** The handlers *)

(** Value and time of the last update. *)
Definition kv_table : Type := gmap string (string * Z).

Record kvBody := { kb_K : string; kb_V : string }.

Record PRequest := { pr_Method : string; pr_Token : string; pr_Query : string -> string; pr_Body : string }.

Section Handlers.
Context {BK : Body kvBody}.

Definition kv_get_handler (req : PRequest) (t : kv_table) : Z * json :=
  let k := pr_Query req "k" in
  (200, match t !! k with
        | Some (v, _) => JObj [("ok", JBool true); ("k", JStr k); ("v", JStr v)]
        | None => JObj [("ok", JBool false)]
        end).

Definition kv_set_handler (token : string) (fault : bool) (now : Z) (req : PRequest) (t : kv_table) : Z * kv_table :=
  if negb (pr_Method req =? "POST")%string then (405, t)
  else if negb (pr_Token req =? token)%string then (401, t)
  else
    let b := match decode_body (pr_Body req) with Ret b => b | _ => decode_partial (pr_Body req) end in
    (200, if fault then t else <[kb_K b := (kb_V b, now)]> t).

(** With the token, a write that the database takes is what every later read of that name gives,
    other names read as before, and the answer is the same when the database refused; without the
    token, or with another method, nothing changes. *)
Theorem kv_set_get token fault now req t b k : decode_body (pr_Body req) = Ret b ->
  let '(st, t') := kv_set_handler token fault now req t in
  let read := kv_get_handler {| pr_Method := "GET"; pr_Token := ""; pr_Query := fun _ => k; pr_Body := "" |} in
  (st = 200 <-> pr_Method req = "POST" /\ pr_Token req = token) /\
  (st = 200 -> fault = false -> read t' =
     if (k =? kb_K b)%string then (200, JObj [("ok", JBool true); ("k", JStr k); ("v", JStr (kb_V b))]) else read t) /\
  (st <> 200 \/ fault = true -> t' = t).
Proof.
  intros Hb. unfold kv_set_handler. rewrite Hb.
  destruct (String.eqb_spec (pr_Method req) "POST") as [->|Hm]; cbn [negb].
  2:{ split; [split; [lia|by intros [? _]]|]. split; [lia|done]. }
  destruct (String.eqb_spec (pr_Token req) token) as [->|Ht]; cbn [negb].
  2:{ split; [split; [lia|by intros [_ ?]]|]. split; [lia|done]. }
  split; [done|]. split; [|by intros [?| ->]].
  intros _ ->. unfold kv_get_handler, kv_table. cbn [pr_Query].
  destruct (String.eqb_spec k (kb_K b)) as [->|Hk]; [by rewrite lookup_insert_eq|by rewrite lookup_insert_ne].
Qed.
End Handlers.
