(* ===== verification/HttpClient.v ===== *)
(** * The HTTP clients and what they reach

    The requests of core/node/sync.go, core/node/finality_gossip.go and of the clients of
    services/wallet-daemon/walletd, and how a server sees them: net/url's query strings, the
    dispatch of a node ([Api]) and of the storage service ([StorageDaemon]).  [http_do] is
    net/http's client: method, address and body to status and body, in a world [W] that the
    servers live in; headers and time-outs are left out.  The texts of encoded values are
    [json_marshal] and [body_text]; decoding is the class [Body] of [Api]. *)

From S2P Require Import Prelude GoLang KV Chain Pow Storage State Fees Pop Config Crypto Validate Apply Mempool Forkchoice Sync Finality KeyVault StorageDaemon Node Wallet SyncOnce Gossip Api.

(** ** Query strings (net/url) *)

Fixpoint split_char (sep : ascii) (s : string) : list string :=
  match s with
  | EmptyString => [""]
  | String c s' =>
      if Ascii.eqb c sep then "" :: split_char sep s'
      else match split_char sep s' with x :: l => String c x :: l | [] => [String c ""] end
  end.

(** [strings.Cut]: before and after the first separator; all and nothing without one. *)
Fixpoint cut_char (sep : ascii) (s : string) : string * string :=
  match s with
  | EmptyString => ("", "")
  | String c s' =>
      if Ascii.eqb c sep then ("", s') else let '(a, b) := cut_char sep s' in (String c a, b)
  end.

Fixpoint has_char (x : ascii) (s : string) : bool :=
  match s with EmptyString => false | String c s' => Ascii.eqb c x || has_char x s' end.

(** [url.QueryUnescape]; [None] is an error. *)
Fixpoint QueryUnescape (s : string) : option string :=
  match s with
  | EmptyString => Some ""
  | String c s' =>
      if Ascii.eqb c "%" then
        match s' with
        | String a (String b s'') =>
            match hex_val a, hex_val b with
            | Some x, Some y => option_map (String (byte_of_Z (x * 16 + y))) (QueryUnescape s'')
            | _, _ => None
            end
        | _ => None
        end
      else option_map (String (if Ascii.eqb c "+" then " "%char else c)) (QueryUnescape s')
  end.

(** One setting of [url.ParseQuery]; what it cannot read is left out. *)
Definition parse_pair (p : string) : option (string * string) :=
  if has_char ";" p || (p =? "")%string then None
  else
    let '(k, v) := cut_char "=" p in
    match QueryUnescape k, QueryUnescape v with
    | Some k, Some v => Some (k, v)
    | _, _ => None
    end.

(** [req.URL.Query().Get(name)]. *)
Definition query_get (raw name : string) : string :=
  match List.find (fun e => (e.1 =? name)%string) (omap parse_pair (split_char "&" raw)) with
  | Some e => e.2
  | None => ""
  end.

(** ** Clients *)

(** [itoaI]. *)
Definition itoaI (v : Z) : string := if v <=? 0 then "0" else itoaU v.

(** The targets of the decoders. *)
Record headersOut := { ho_From : Z; ho_Count : Z; ho_Headers : list BlockHeader }.
Record votesOut := { vo_Height : Z; vo_Votes : list VoteRecord }.
Record ChainInfo := { wi_ChainID : string; wi_Height : Z; wi_Tip : string }.
Record BlockResp := { wb_Height : Z; wb_Hash : string; wb_Txs : list (list TxOut) }.
Record StateInfo := { si_ID : string; si_Balance : Z; si_Nonce : Z }.
(** The entry ["txid"] of the decoded map, when it is a string. *)
Record submitOut := { so_txid : option string }.

Class ClientCodecs := {
  out_chainInfo :: Body chainInfoResp; out_headers :: Body headersOut; out_block :: Body blockResp;
  out_blockByHash :: Body blockByHashResp; out_locate :: Body locateResp; out_votes :: Body votesOut;
  out_walletInfo :: Body ChainInfo; out_walletBlock :: Body BlockResp; out_stateInfo :: Body StateInfo;
  out_submit :: Body submitOut; out_alloc :: Body allocSlotResp;
  in_locator :: JSON (list string); in_alloc :: JSON allocSlotReq; in_confirm :: JSON markConfirmedReq }.

Section Clients.
Context {CD : Codecs} {CC : ClientCodecs}.
Context {W : Type} (http_do : string -> string -> string -> GoM W (Z * string)).

(** [hc.Get], the check of the status, [json.NewDecoder(resp.Body).Decode(&out)]. *)
Definition get_json {A} `{Body A} (bad : Z -> goerr) (url : string) : GoM W A :=
  let! (status, b) := http_do "GET" url "" in
  if negb (status =? 200) then gerr (bad status) else glift (decode_body b).
Definition post_json {A B} `{JSON A} `{Body B} (bad : Z -> goerr) (url : string) (a : A) : GoM W B :=
  let! (status, b) := http_do "POST" url (marshal_any a) in
  if negb (status =? 200) then gerr (bad status) else glift (decode_body b).

Definition bad_status (_ : Z) : goerr := "bad status".

(** *** core/node/sync.go *)

Definition http_postLocate (peer : string) (locator : list string) : GoM W locateResp :=
  post_json bad_status (peer +:+ "/chain/locate") locator.
Definition http_fetchChainInfo (peer : string) : GoM W chainInfoResp :=
  get_json bad_status (peer +:+ "/chain/info").
Definition http_fetchHeaders (peer : string) (from count : Z) : GoM W (Z * list BlockHeader) :=
  let! out := get_json bad_status (peer +:+ "/chain/headers?from=" +:+ itoaU from +:+ "&count=" +:+ itoaI count) in
  gret (ho_From out, ho_Headers out).
Definition http_fetchBlockByHeight (peer : string) (height : Z) : GoM W blockResp :=
  get_json bad_status (peer +:+ "/chain/block?height=" +:+ itoaU height).
Definition http_fetchBlockByHash (peer hashHex : string) : GoM W blockByHashResp :=
  get_json bad_status (peer +:+ "/chain/block_by_hash?hash=" +:+ hashHex).

(** *** core/node/finality_gossip.go *)

Definition postJSON {A} `{JSON A} (url : string) (a : A) : GoM W unit :=
  http_do "POST" url (marshal_any a) ;;; gret tt.
(** The status is not looked at. *)
Definition getVotes (peer : string) (height : Z) : GoM W (list VoteRecord) :=
  let! (_, b) := http_do "GET" (peer +:+ "/finality/votes?height=" +:+ itoaU height) "" in
  let! out := glift (decode_body b) in
  gret (vo_Votes out).

(** *** walletd/node_client.go *)

Definition client_ChainInfo (base : string) : GoM W ChainInfo :=
  get_json (fun st => "chain/info " +:+ FormatUint st) (base +:+ "/chain/info").
Definition client_BlockByHeight (base : string) (h : Z) : GoM W BlockResp :=
  get_json (fun st => "chain/block " +:+ FormatUint st) (base +:+ "/chain/block?height=" +:+ FormatUint h).
Definition client_StateInfo (base id : string) : GoM W StateInfo :=
  get_json (fun st => "state/info " +:+ FormatUint st) (base +:+ "/state/info?id=" +:+ id).
Definition client_SubmitTx (base : string) (tx : Tx) : GoM W string :=
  let! (status, b) := http_do "POST" (base +:+ "/tx/submit") (marshal_any tx) in
  let out := match decode_body b with Ret o => o | _ => decode_partial b end in
  if negb (status =? 200) then gerr ("tx/submit " +:+ FormatUint status)
  else gret (default "" (so_txid out)).

(** *** walletd/storage_client.go *)

Definition client_AllocSlot (base : string) (req : allocSlotReq) : GoM W allocSlotResp :=
  post_json (fun st => "alloc_slot status " +:+ FormatUint st) (base +:+ "/alloc_slot") req.
Definition client_MarkConfirmed (base : string) (req : markConfirmedReq) : GoM W unit :=
  let! (status, _) := http_do "POST" (base +:+ "/mark_confirmed") (marshal_any req) in
  if negb (status =? 200) then gerr ("mark_confirmed status " +:+ FormatUint status) else gret tt.

(** *** The answers in one state of the world *)

(** What the wallet's polling loop asks the node. *)
Definition node_answers (base id : string) (w : W) : NodeAnswers :=
  {| na_ChainInfo := olet ci := (client_ChainInfo base w).1 in Ret (wi_ChainID ci, wi_Height ci);
     na_Block h := olet b := (client_BlockByHeight base h w).1 in Ret (wb_Txs b);
     na_Nonce _ := olet si := (client_StateInfo base id w).1 in Ret (si_Nonce si) |}.

Definition answers (w : W) : Answers :=
  {| fetchChainInfo peer := (http_fetchChainInfo peer w).1;
     fetchHeaders peer from count := olet (_, hs) := (http_fetchHeaders peer from count w).1 in Ret hs;
     fetchBlockByHash peer h := (http_fetchBlockByHash peer h w).1;
     fetchBlockByHeight peer h := (http_fetchBlockByHeight peer h w).1;
     postLocate peer l := (http_postLocate peer l w).1 |}.
End Clients.

(** ** Servers *)

(** Method, path, query and body of a request to status and body of the answer. *)
Definition Server (S : Type) : Type := string -> string -> (string -> string) -> string -> GoM S (Z * string).

Section NodeServer.
Context {L : LevelDB} {FS : SnapFiles}.
Context (body_text : resp_body -> string).
Context (serve : string -> Request -> GoM api (option Response)).

(** A handler that does not end is a time-out; a panic in a handler closes the connection. *)
Definition node_server : Server api := fun method path query body s =>
  match serve path {| rq_Method := method; rq_Query := query; rq_Body := body |} s with
  | (Ret (Some r), s') => (Ret (rs_Status r, body_text (rs_Body r)), s')
  | (Ret None, s') => (Err "timeout", s')
  | (_, s') => (Err "EOF", s')
  end.
End NodeServer.

(** The routes of storaged; the texts of refusals and acknowledgements are left out. *)
Section StorageServer.
Context (fault : stmt -> bool) (now : Z) (alloc_text : allocSlotResp -> string).
Context {B1 : Body allocSlotReq} {B2 : Body markConfirmedReq} {B3 : Body slotSetHashReq}.

Definition storage_server : Server tables := fun method path query body t =>
  if (path =? "/alloc_slot")%string then
    let '(status, r, t') := handleAllocSlot fault now method (decode_body body) t in
    (Ret (status, match r with Some r => alloc_text r | None => "" end), t')
  else if (path =? "/mark_confirmed")%string then
    let '(status, t') := handleMarkConfirmed fault method (decode_body body) t in (Ret (status, ""), t')
  else if (path =? "/slot_set_hash")%string then
    let '(status, t') := handleSlotSetHash fault method (decode_body body) t in (Ret (status, ""), t')
  else if (path =? "/healthz")%string then (Ret (200, "ok"), t)
  else (Ret (404, ""), t).
End StorageServer.

(** *** Addresses *)

(** The characters that pass through an address as they are. *)
Definition is_plain (c : ascii) : bool :=
  is_digit c || ((97 <=? Z_of_byte c) && (Z_of_byte c <=? 122)) || ((65 <=? Z_of_byte c) && (Z_of_byte c <=? 90)) ||
  Ascii.eqb c "_" || Ascii.eqb c "-" || Ascii.eqb c ".".
Definition plain (s : string) : Prop := forall c, In c (str_list s) -> is_plain c = true.
Definition path_char (c : ascii) : bool := is_plain c || Ascii.eqb c "/".
Definition plain_path (s : string) : Prop := forall c, In c (str_list s) -> path_char c = true.

(** Settings as the clients write them. *)
Fixpoint query_of (l : list (string * string)) : string :=
  match l with
  | [] => ""
  | [(k, v)] => k +:+ "=" +:+ v
  | (k, v) :: l' => k +:+ "=" +:+ v +:+ "&" +:+ query_of l'
  end.
Definition address (base path : string) (l : list (string * string)) : string :=
  base +:+ path +:+ match l with [] => "" | _ => "?" +:+ query_of l end.

(** Requests to [base] reach the server that holds the part [get] of the world: net/http splits
    the address at the first question mark and hands the rest to the handlers. *)
Definition reaches {W S} (http_do : string -> string -> string -> GoM W (Z * string)) (base : string)
    (get : W -> S) (set : S -> W -> W) (srv : Server S) : Prop :=
  forall method path l body w, plain_path path -> Forall (fun e => plain e.1 /\ plain e.2) l ->
  http_do method (address base path l) body w =
  gzoom get set (srv method path (query_get (query_of l)) body) w.
