(* ===== verification/Gateway.v ===== *)
(** * services/initialize-daemon: the gateway in front of the services

    The configuration, the commands of the services that are started, the limiter and the check
    in front of the routes, and which file a page is served from; the routes are [GatewayMux] and
    the pages [GatewayServe].  The limiter has the text of the one in p2p_gossip.go and is the
    same function.  [realIP] ends in names it does not declare; what it returns without the
    header is the argument [gr_Remote].  [strings.TrimSpace] is an argument.
    The theorem: a client that names a new address in [X-Forwarded-For] with every request is
    never limited ([forwarded_never_limited]). *)

From S2P Require Import Prelude GoLang KV Chain WebFS Storage Config Crypto Finality Sync Node Gossip PlatformDB HttpClient.

Record ServiceSpec := { sv_Name : string; sv_Enabled : bool; sv_Command : list string; sv_WorkDir : string;
  sv_Env : gmap string string }.
Record RouteSpec := { ro_PathPrefix : string; ro_Target : string }.
Record WebSpec := { ws_RuntimeWebDir : string; ws_Marketing : Bundle; ws_Portal : Bundle; ws_Wallet : Bundle }.
Record GConfig := {
  gw_TCPEnabled : bool; gw_TCPListen : string; gw_TCPTarget : string; gw_TokenEnv : string; gw_Bind : string; gw_Port : Z;
  gw_Web : WebSpec; gw_Routes : list RouteSpec; gw_Services : list ServiceSpec }.

Definition fill_web (w : WebSpec) : WebSpec :=
  {| ws_RuntimeWebDir := or_default (ws_RuntimeWebDir w) "runtime/web"; ws_Marketing := ws_Marketing w;
     ws_Portal := ws_Portal w; ws_Wallet := ws_Wallet w |}.

Definition fill_gateway (c : GConfig) : GConfig :=
  {| gw_TCPEnabled := gw_TCPEnabled c; gw_TCPListen := or_default (gw_TCPListen c) "0.0.0.0:18444";
     gw_TCPTarget := or_default (gw_TCPTarget c) "127.0.0.1:18444";
     gw_TokenEnv := or_default (gw_TokenEnv c) "RESERVEOS_PLATFORMDB_TOKEN"; gw_Bind := or_default (gw_Bind c) "0.0.0.0";
     gw_Port := if gw_Port c =? 0 then 8080 else gw_Port c; gw_Web := fill_web (gw_Web c);
     gw_Routes := gw_Routes c; gw_Services := gw_Services c |}.

(** The flat directory that is built. *)
Definition web_config (c : GConfig) : WConfig :=
  let w := gw_Web c in
  {| wc_RuntimeWebDir := ws_RuntimeWebDir w; wc_Bundles := [ws_Marketing w; ws_Portal w; ws_Wallet w] |}.

(** ** Services *)

(** A service that is to be started. *)
Definition runnable (s : ServiceSpec) : bool := sv_Enabled s && negb (Nat.eqb (length (sv_Command s)) 0).

(** [exec.Cmd]: an empty directory is that of the gateway. *)
Record Cmd := { cmd_Args : list string; cmd_Dir : string; cmd_Env : list string }.

Section Services.
Context {MO : MapOrder}.
Context {X : Type} (environ : list string) (cmd_Start : Cmd -> GoM X unit) (cmd_Kill : Cmd -> GoM X unit).

Definition service_cmd (s : ServiceSpec) : Cmd :=
  {| cmd_Args := sv_Command s; cmd_Dir := sv_WorkDir s;
     cmd_Env := environ ++ List.map (fun e => e.1 +:+ "=" +:+ e.2) (range (sv_Env s)) |}.

(** The operating system and the processes that were started. *)
Record procs := { pr_os : X; pr_procs : list Cmd }.

(** The body of the loop over the services.  [log.Fatal] is an error of the whole. *)
Definition start_service (s : ServiceSpec) : GoM procs unit :=
  if negb (sv_Enabled s) then gret tt
  else if Nat.eqb (length (sv_Command s)) 0 then gret tt
  else
    let cmd := service_cmd s in
    gzoom pr_os (fun x p => {| pr_os := x; pr_procs := pr_procs p |}) (cmd_Start cmd) ;;;
    gmodify (fun p => {| pr_os := pr_os p; pr_procs := pr_procs p ++ [cmd] |}).
Definition start_services (c : GConfig) : GoM procs unit := gfor (gw_Services c) start_service.

(** What follows the signal: errors of [Kill] are dropped. *)
Definition stop_services : GoM procs unit :=
  let! p := gget in
  gfor (pr_procs p) (fun cmd =>
    gzoom pr_os (fun x p => {| pr_os := x; pr_procs := pr_procs p |}) (gignore tt (cmd_Kill cmd))).

(** ** Which services run *)

Lemma start_service_run s p o p' : start_service s p = (o, p') ->
  pr_procs p' = pr_procs p ++ (if runnable s then match o with Ret _ => [service_cmd s] | _ => [] end else []) /\
  (runnable s = false -> o = Ret tt).
Proof.
  unfold start_service, runnable. destruct (sv_Enabled s); cbn [negb andb]; [|intros [= <- <-]; by rewrite app_nil_r].
  destruct (Nat.eqb _ 0); cbn [negb]; [intros [= <- <-]; by rewrite app_nil_r|].
  unfold gbind, gzoom. destruct (cmd_Start (service_cmd s) (pr_os p)) as [[[]|e|] x]; intros [= <- <-]; cbn; by rewrite ?app_nil_r.
Qed.

(** When all could be started, those and no others run, in order. *)
Lemma start_services_all l p p' : gfor l start_service p = (Ret tt, p') ->
  pr_procs p' = pr_procs p ++ List.map service_cmd (List.filter runnable l).
Proof.
  revert p. induction l as [|s l IH]; intros p H; cbn [gfor] in H.
  { injection H as <-. by rewrite app_nil_r. }
  apply gbind_inv in H as ([] & p1 & H1 & H2). apply IH in H2 as ->. apply start_service_run in H1 as [-> _].
  rewrite <- app_assoc. cbn [List.filter]. by destruct (runnable s).
Qed.

(** When a service cannot be started the program ends there: the services before it have been
    started and are not stopped. *)
Theorem failed_start_leaves_services c p e p' : start_services c p = (Err e, p') ->
  exists l1 s l2, gw_Services c = l1 ++ s :: l2 /\ runnable s = true /\
  pr_procs p' = pr_procs p ++ List.map service_cmd (List.filter runnable l1).
Proof.
  unfold start_services. generalize (gw_Services c). intros l. revert p.
  induction l as [|s l IH]; intros p H; [done|]. cbn [gfor] in H. unfold gbind in H.
  destruct (start_service s p) as [o p1] eqn:Hs. apply start_service_run in Hs as [Hp Ho].
  destruct o as [[]|e'|]; [|injection H as <- <-|done].
  - apply IH in H as (l1 & s' & l2 & -> & Hr & ->). exists (s :: l1), s', l2. split_and!; [done..|].
    rewrite Hp, <- app_assoc. cbn [List.filter]. by destruct (runnable s).
  - exists [], s, l. destruct (runnable s); [|by specialize (Ho eq_refl)]. split_and!; [done..|by rewrite Hp].
Qed.
End Services.

(** ** The limiter *)

Definition rateLimiter : Type := peerLimiter.
Definition newRateLimiter (rate burst : f64) : rateLimiter := newPeerLimiter rate burst.
Definition rate_allow (nano : Z) (ip : string) (rl : rateLimiter) : bool * rateLimiter := allow nano ip rl.

Section Gateway.
Context (TrimSpace : string -> string).

(** The parts of a request the gateway looks at; [gr_Remote] stands for the undeclared name,
    [gr_Max] for the limit a body is read up to. *)
Record GRequest := { gr_Method : string; gr_Path : string; gr_Query : string; gr_Body : string; gr_Max : option Z;
  gr_Forwarded : string; gr_Remote : string }.

(** [http.MaxBytesReader] and [io.ReadAll] of a body. *)
Definition MaxBytesReader (n : Z) (r : GRequest) : GRequest :=
  {| gr_Method := gr_Method r; gr_Path := gr_Path r; gr_Query := gr_Query r; gr_Body := gr_Body r; gr_Max := Some n;
     gr_Forwarded := gr_Forwarded r; gr_Remote := gr_Remote r |}.
Definition read_body (r : GRequest) : outcome string :=
  match gr_Max r with
  | Some n => if n <? Z.of_nat (String.length (gr_Body r)) then Err "http: request body too large" else Ret (gr_Body r)
  | None => Ret (gr_Body r)
  end.

Definition realIP (r : GRequest) : string :=
  if negb (gr_Forwarded r =? "")%string then
    match split_char "," (gr_Forwarded r) with p :: _ => TrimSpace p | [] => gr_Remote r end
  else gr_Remote r.

(** Whether the limiter is asked. *)
Definition limited_path (p : string) : bool :=
  str_prefix "/api/" p && negb (p =? "/api/healthz")%string && negb (p =? "/api/network/status")%string.

(** The handler of the server: [None] is the answer 429, [Some a] what the routes answer. *)
Definition gateway {A} (routes : GRequest -> A) (nano : Z) (r : GRequest) (lim : rateLimiter) : option A * rateLimiter :=
  if limited_path (gr_Path r) then
    let r := MaxBytesReader (2 * 2 ^ 20) r in
    let '(ok, lim) := rate_allow nano (realIP r) lim in
    if negb ok then (None, lim) else (Some (routes r), lim)
  else (Some (routes r), lim).

(** The file a page is served from; [exists_] is [os.Stat] without an error, [None] is 404. *)
Definition web_file (Join : string -> string -> string) (dir : string) (exists_ : string -> bool) (p : string) : option string :=
  if (p =? "/")%string || (p =? "")%string then Some (Join dir "marketing.index.html")
  else if str_prefix "/portal" p then Some (Join dir "portal.index.html")
  else if str_prefix "/wallet" p then Some (Join dir "wallet.index.html")
  else let try_ := Join dir (str_trim_prefix "/" p) in if exists_ try_ then Some try_ else None.

(** ** The limit and the header *)

(** The answers to requests with their times. *)
Fixpoint answers_of {A} (routes : GRequest -> A) (rs : list (Z * GRequest)) (lim : rateLimiter) : list (option A) :=
  match rs with
  | [] => []
  | (nano, r) :: rs' => let '(a, lim) := gateway routes nano r lim in a :: answers_of routes rs' lim
  end.

(** The request as it reaches the routes. *)
Definition capped (r : GRequest) : GRequest := if limited_path (gr_Path r) then MaxBytesReader (2 * 2 ^ 20) r else r.
Lemma realIP_cap n r : realIP (MaxBytesReader n r) = realIP r.
Proof. done. Qed.

(** A limiter with the settings of [main]. *)
Definition gateway_limiter (lim : rateLimiter) : Prop := rl_rate lim = f64_of_Z 20 /\ rl_burst lim = f64_of_Z 40.

Lemma allow_new nano ip lim : gateway_limiter lim -> rl_m lim !! ip = None ->
  exists lim', rate_allow nano ip lim = (true, lim') /\ gateway_limiter lim' /\
  forall q, q <> ip -> rl_m lim' !! q = rl_m lim !! q.
Proof.
  intros [Hr Hb] Hn. unfold rate_allow, allow. rewrite Hn, Hr, Hb. cbn [from_option default id].
  rewrite Z.sub_diag. change (i64 0) with 0.
  assert (f64_ltb (minf (f64_of_Z 40) (f64_add (f64_of_Z 40)
    (f64_mul (f64_div (f64_of_Z 0) (f64_of_Z 1000000000)) (f64_of_Z 20)))) (f64_of_Z 1) = false) as -> by (vm_compute; reflexivity).
  eexists. split; [reflexivity|]. split; [done|]. intros q Hq. cbn [rl_m]. by rewrite lookup_insert_ne.
Qed.

(** Requests that arrive under pairwise different forwarded addresses, none of which the limiter
    has seen, all reach the routes, however many there are and however fast they come. *)
Theorem forwarded_never_limited {A} (routes : GRequest -> A) rs lim : gateway_limiter lim ->
  NoDup (map (fun e => realIP e.2) rs) -> (forall e, In e rs -> rl_m lim !! realIP e.2 = None) ->
  answers_of routes rs lim = map (fun e => Some (routes (capped e.2))) rs.
Proof.
  revert lim. induction rs as [|[nano r] rs IH]; intros lim Hl Hnd Hnew; [done|].
  apply NoDup_cons in Hnd as [Hni Hnd]. cbn [answers_of map fst snd]. unfold gateway, capped.
  destruct (limited_path (gr_Path r)).
  2:{ f_equal. apply IH; [done|done|]. intros e He. apply Hnew. by right. }
  cbv zeta. rewrite realIP_cap. destruct (allow_new nano (realIP r) lim Hl (Hnew (nano, r) ltac:(by left))) as (lim' & -> & Hl' & Hq).
  cbn [negb]. f_equal. apply IH; [done|done|]. intros e He. rewrite Hq; [apply Hnew; by right|].
  intros Heq. apply Hni. cbn [snd]. rewrite <- Heq. apply list_elem_of_In, in_map_iff. eauto.
Qed.
End Gateway.
