(* ===== verification/GatewayMux.v ===== *)
(** * services/initialize-daemon: the routes of the gateway

    [http.ServeMux] as the gateway uses it: patterns are paths, one that ends in a slash stands
    for all paths below it, an exact pattern goes before these and a longer one before a shorter
    one, a pattern without a slash or given twice is a panic, and a request for an unclean path is
    redirected.  Patterns with a host, a method, braces or escapes have a further meaning in
    net/http, which is left out; [url.Parse] is an argument.
    The theorem [register_routes_spec]: whatever prefixes are configured, the gateway's own pages
    answer their own paths, any other path goes to the longest configured prefix of its elements,
    and the rest to the web pages. *)

From S2P Require Import Prelude GoLang KV Chain WebFS Storage Config Crypto Finality Sync Node Gossip PlatformDB HttpClient Gateway.

(** ** Paths *)

(** The loop of [path.Clean] over the elements of a rooted path, the last element first. *)
Fixpoint clean_elems (acc l : list string) : list string :=
  match l with
  | [] => acc
  | e :: l' =>
      if (e =? "")%string || (e =? ".")%string then clean_elems acc l'
      else if (e =? "..")%string then clean_elems (tail acc) l'
      else clean_elems (e :: acc) l'
  end.
Definition path_of (elems : list string) : string :=
  match elems with [] => "/" | _ => fold_right (fun e s => "/" +:+ e +:+ s) "" elems end.
Definition path_Clean (p : string) : string := path_of (rev (clean_elems [] (split_char "/" p))).

(** net/http's [cleanPath]. *)
Definition cleanPath (p : string) : string :=
  if (p =? "")%string then "/"
  else
    let p := if str_prefix "/" p then p else "/" +:+ p in
    let np := path_Clean p in
    if str_suffix "/" p && negb (np =? "/")%string then np +:+ "/" else np.

(** ** The mux *)

(** A parsed target: scheme and host, path, query. *)
Record URL := { u_Origin : string; u_Path : string; u_Query : string }.

(** The gateway's own handlers. *)
Inductive page := Healthz | NetPeers | NetPeersAdd | NetMetrics | NetStatus | GatewayStatus | ApiHealthz | Web.
#[global] Instance page_eq : EqDecision page.
Proof. solve_decision. Defined.

(** What a pattern leads to: an own handler, or a target behind [StripPrefix]. *)
Inductive dest := Own (p : page) | Proxy (prefix : string) (u : URL).

Definition mux : Type := list (string * dest).

Definition registered (m : mux) (pat : string) : bool := existsb (fun e => String.eqb e.1 pat) m.

Definition mux_Handle (m : mux) (pat : string) (d : dest) : outcome mux :=
  if negb (has_char "/" pat) || registered m pat then Panic else Ret (m ++ [(pat, d)]).

(** The pattern that is the path. *)
Definition mux_exact (m : mux) (p : string) : option (string * dest) := List.find (fun e => String.eqb e.1 p) m.
(** The longest pattern with a slash at its end that the path begins with. *)
Definition mux_below (m : mux) (p : string) : option (string * dest) :=
  fold_left (fun best e =>
    if str_suffix "/" e.1 && str_prefix e.1 p then
      match best with
      | Some b => if (String.length b.1 <? String.length e.1)%nat then Some e else best
      | None => Some e
      end
    else best) m None.
Definition mux_match (m : mux) (p : string) : option (string * dest) :=
  match mux_exact m p with Some e => Some e | None => mux_below m p end.

(** [ServeMux.Handler]: a redirection or a handler. *)
Inductive routed := Redirect (path : string) | To (d : dest) | NotFound.
Definition mux_route (m : mux) (p : string) : routed :=
  let path := cleanPath p in
  if negb (registered m path) && negb (str_suffix "/" path) && registered m (path +:+ "/") then Redirect (path +:+ "/")
  else if negb (path =? p)%string then Redirect path
  else match mux_match m path with Some (_, d) => To d | None => NotFound end.

(** ** Registration *)

Definition page_path (p : page) : string :=
  match p with
  | Healthz => "/healthz" | NetPeers => "/api/network/peers" | NetPeersAdd => "/api/network/peers/add"
  | NetMetrics => "/api/network/metrics" | NetStatus => "/api/network/status"
  | GatewayStatus => "/api/gateway/status" | ApiHealthz => "/api/healthz" | Web => "/"
  end.
Definition own_pages : list page := [Healthz; NetPeers; NetPeersAdd; NetMetrics; NetStatus; GatewayStatus; ApiHealthz; Web].

Fixpoint register_own (m : mux) (l : list page) : outcome mux :=
  match l with
  | [] => Ret m
  | p :: l' => match mux_Handle m (page_path p) (Own p) with Ret m => register_own m l' | Err e => Err e | Panic => Panic end
  end.

Section Routes.
Context (url_Parse : string -> outcome URL).

(** The loop over the routes; a target that cannot be parsed ends the program. *)
Fixpoint register_routes (m : mux) (l : list RouteSpec) : outcome mux :=
  match l with
  | [] => Ret m
  | rt :: l' =>
      match url_Parse (ro_Target rt) with
      | Err e => Err e
      | Panic => Panic
      | Ret tgt =>
          let d := Proxy (ro_PathPrefix rt) tgt in
          match mux_Handle m (ro_PathPrefix rt +:+ "/") d with
          | Ret m =>
              match mux_Handle m (ro_PathPrefix rt) d with
              | Ret m => register_routes m l'
              | Err e => Err e
              | Panic => Panic
              end
          | Err e => Err e
          | Panic => Panic
          end
      end
  end.

Definition new_mux (c : GConfig) : outcome mux :=
  match register_own [] own_pages with
  | Ret m => register_routes m (gw_Routes c)
  | Err e => Err e
  | Panic => Panic
  end.
End Routes.

(** ** Where a path is routed *)

(** A path begins with the elements of the prefix. *)
Definition covers (rt : RouteSpec) (p : string) : Prop :=
  p = ro_PathPrefix rt \/ str_prefix (ro_PathPrefix rt +:+ "/") p = true.

Section Spec.
Context (url_Parse : string -> outcome URL) (c : GConfig).

(** Configured prefixes that can be registered: rooted, without a slash at the end, different
    from each other and from the gateway's own paths, with targets that can be parsed. *)
Record routes_ok : Prop := {
  ok_rooted : forall rt, In rt (gw_Routes c) -> str_prefix "/" (ro_PathPrefix rt) = true;
  ok_open : forall rt, In rt (gw_Routes c) -> str_suffix "/" (ro_PathPrefix rt) = false;
  ok_own : forall rt pg, In rt (gw_Routes c) -> ro_PathPrefix rt <> page_path pg;
  ok_distinct : NoDup (List.map ro_PathPrefix (gw_Routes c));
  ok_target : forall rt, In rt (gw_Routes c) -> exists u, url_Parse (ro_Target rt) = Ret u;
}.

(** Own pages first, then the longest prefix, then the web pages. *)
Inductive routed_to (p : string) : dest -> Prop :=
| to_own pg : pg <> Web -> p = page_path pg -> routed_to p (Own pg)
| to_proxy rt u : (forall pg, p <> page_path pg) -> In rt (gw_Routes c) -> covers rt p ->
    (forall rt', In rt' (gw_Routes c) -> covers rt' p ->
       (String.length (ro_PathPrefix rt') <= String.length (ro_PathPrefix rt))%nat) ->
    url_Parse (ro_Target rt) = Ret u -> routed_to p (Proxy (ro_PathPrefix rt) u)
| to_web : (forall pg, pg <> Web -> p <> page_path pg) -> (forall rt, In rt (gw_Routes c) -> ~ covers rt p) ->
    routed_to p (Own Web).
End Spec.

(** *** Strings *)

Lemma str_suffix_spec p s : str_suffix p s = true <-> exists b, s = b +:+ p.
Proof.
  split; [|intros [b ->]; apply str_suffix_app].
  unfold str_suffix. intros [_ He%String.eqb_eq]%andb_true_iff.
  exists (str_take (String.length s - String.length p) s). rewrite <- He at 2. by rewrite str_take_drop.
Qed.

Lemma slash_end_inj a b : a +:+ "/" = b +:+ "/" -> a = b.
Proof.
  intros H. apply str_app_inj_length in H as [H _]; [done|].
  apply (f_equal String.length) in H. rewrite !str_length_app in H. lia.
Qed.

Lemma str_prefix_length p s : str_prefix p s = true -> (String.length p <= String.length s)%nat.
Proof. intros [r ->]%str_prefix_spec. rewrite str_length_app. lia. Qed.

Lemma page_path_inj p q : page_path p = page_path q -> p = q.
Proof. by destruct p, q. Qed.
Lemma page_path_slash p : str_suffix "/" (page_path p) = true -> p = Web.
Proof. by destruct p. Qed.

(** *** Looking patterns up *)

Lemma mux_exact_spec m p e : NoDup m.*1 -> mux_exact m p = Some e <-> In e m /\ e.1 = p.
Proof.
  intros Hnd. unfold mux_exact. split.
  - intros [Hi He%String.eqb_eq]%find_some. done.
  - intros [Hi <-]. induction m as [|x m IH]; [done|]. cbn [List.find].
    cbn in Hnd. apply NoDup_cons in Hnd as [Hx Hnd]. destruct Hi as [->|Hi]; [by rewrite String.eqb_refl|].
    destruct (String.eqb_spec x.1 e.1) as [E|_]; [|auto].
    destruct Hx. rewrite E. apply list_elem_of_fmap_2, list_elem_of_In, Hi.
Qed.

Lemma mux_exact_none m p : mux_exact m p = None <-> forall e, In e m -> e.1 <> p.
Proof.
  unfold mux_exact. split.
  - intros H e He E. apply (find_none _ _ H) in He. by apply String.eqb_neq in He.
  - intros H. destruct (List.find _ m) as [e|] eqn:E; [|done]. apply find_some in E as [He E%String.eqb_eq].
    by destruct (H e He).
Qed.

(** A pattern the path is below. *)
Definition below (p : string) (e : string * dest) : Prop := str_suffix "/" e.1 = true /\ str_prefix e.1 p = true.

Lemma mux_below_spec m p : match mux_below m p with
  | Some b => In b m /\ below p b /\ forall e, In e m -> below p e -> (String.length e.1 <= String.length b.1)%nat
  | None => forall e, In e m -> ~ below p e
  end.
Proof.
  induction m as [|x m IH] using rev_ind; [by intros e []|]. unfold mux_below in *. rewrite fold_left_app. cbn [fold_left].
  destruct (fold_left _ m None) as [b|].
  - destruct IH as (Hi & Hb & Hm). destruct (str_suffix "/" x.1 && str_prefix x.1 p) eqn:Hx.
    + apply andb_true_iff in Hx. destruct (Nat.ltb_spec (String.length b.1) (String.length x.1)).
      * rewrite in_app_iff. split_and!; [right; by left|done|]. intros e [He|[<-|[]]]%in_app_iff Hbe; [|lia]. specialize (Hm e He Hbe). lia.
      * rewrite in_app_iff. split_and!; [by left|done|]. intros e [He|[<-|[]]]%in_app_iff Hbe; [|lia]. by apply Hm.
    + rewrite in_app_iff. split_and!; [by left|done|]. intros e [He|[<-|[]]]%in_app_iff [H1 H2]; [by apply Hm|by rewrite H1, H2 in Hx].
  - destruct (str_suffix "/" x.1 && str_prefix x.1 p) eqn:Hx.
    + apply andb_true_iff in Hx. rewrite in_app_iff. split_and!; [right; by left|done|]. intros e [He|[<-|[]]]%in_app_iff Hbe; [|lia]. by destruct (IH e He).
    + intros e [He|[<-|[]]]%in_app_iff [H1 H2]; [by apply (IH e He)|by rewrite H1, H2 in Hx].
Qed.

(** *** What is registered *)

Section Registered.
Context (url_Parse : string -> outcome URL).

(** The entries of a route. *)
Definition route_entry (l : list RouteSpec) (e : string * dest) : Prop :=
  exists rt u, In rt l /\ url_Parse (ro_Target rt) = Ret u /\ e.2 = Proxy (ro_PathPrefix rt) u /\
    (e.1 = ro_PathPrefix rt +:+ "/" \/ e.1 = ro_PathPrefix rt).

Lemma registered_spec m pat : registered m pat = true <-> In pat m.*1.
Proof.
  unfold registered. rewrite existsb_exists. split.
  - intros (e & He & <-%String.eqb_eq). by apply in_map.
  - intros (e & <- & He)%in_map_iff. exists e. by rewrite String.eqb_refl.
Qed.

Lemma mux_Handle_new m pat d : has_char "/" pat = true -> ~ In pat m.*1 -> mux_Handle m pat d = Ret (m ++ [(pat, d)]).
Proof.
  intros Hs Hn. unfold mux_Handle. rewrite Hs. destruct (registered m pat) eqn:E; [|done].
  by apply registered_spec in E.
Qed.

Lemma rooted_slash p : str_prefix "/" p = true -> has_char "/" p = true /\ has_char "/" (p +:+ "/") = true.
Proof. intros [r ->]%str_prefix_spec. by split. Qed.

Lemma register_routes_run l : forall m,
  (forall rt, In rt l -> str_prefix "/" (ro_PathPrefix rt) = true) ->
  (forall rt, In rt l -> str_suffix "/" (ro_PathPrefix rt) = false) ->
  (forall rt, In rt l -> ~ In (ro_PathPrefix rt) m.*1 /\ ~ In (ro_PathPrefix rt +:+ "/") m.*1) ->
  NoDup (List.map ro_PathPrefix l) -> (forall rt, In rt l -> exists u, url_Parse (ro_Target rt) = Ret u) -> NoDup m.*1 ->
  exists m', register_routes url_Parse m l = Ret m' /\ NoDup m'.*1 /\ forall e, In e m' <-> In e m \/ route_entry l e.
Proof.
  induction l as [|rt l IH]; intros m Hr Ho Hm Hd Ht Hnd.
  { exists m. split_and!; [done..|]. intros e. split; [by left|]. by intros [H|(? & ? & [] & _)]. }
  destruct (Ht rt (or_introl eq_refl)) as [u Hu]. destruct (Hm rt (or_introl eq_refl)) as [Hm1 Hm2].
  destruct (rooted_slash _ (Hr rt (or_introl eq_refl))) as [Hs1 Hs2]. pose proof (Ho rt (or_introl eq_refl)) as Hor.
  cbn [List.map] in Hd. apply NoDup_cons in Hd as [Hni Hd]. rewrite list_elem_of_In in Hni.
  assert (ro_PathPrefix rt +:+ "/" <> ro_PathPrefix rt) as Hne.
  { intros E. by rewrite <- E, str_suffix_app in Hor. }
  set (d := Proxy (ro_PathPrefix rt) u).
  assert (~ In (ro_PathPrefix rt) (m ++ [(ro_PathPrefix rt +:+ "/", d)]).*1) as Hn1.
  { rewrite fmap_app, in_app_iff. intros [H|[H|[]]]; [done|]. by apply Hne. }
  destruct (IH (m ++ [(ro_PathPrefix rt +:+ "/", d); (ro_PathPrefix rt, d)])) as (m' & Hrun & Hnd' & He).
  - intros r Hi. apply Hr. by right.
  - intros r Hi. apply Ho. by right.
  - intros r Hi. destruct (Hm r (or_intror Hi)) as [H1 H2]. rewrite fmap_app, !in_app_iff.
    assert (ro_PathPrefix r <> ro_PathPrefix rt) as Hrr.
    { intros E. apply Hni. rewrite <- E. apply in_map, Hi. }
    pose proof (Ho r (or_intror Hi)) as Hor'. split; intros [H|[H|[H|[]]]]; try done; cbn in H.
    + by rewrite <- H, str_suffix_app in Hor'.
    + apply slash_end_inj in H. congruence.
    + by rewrite H, str_suffix_app in Hor.
  - done.
  - intros r Hi. apply Ht. by right.
  - rewrite fmap_app. apply NoDup_app. split_and!; [done| |].
    + intros x Hx Hin. cbn in Hin. rewrite !elem_of_cons, elem_of_nil in Hin.
      apply list_elem_of_In in Hx. destruct Hin as [->|[->|[]]]; contradiction.
    + cbn. repeat constructor; rewrite ?elem_of_cons, ?elem_of_nil; intuition congruence.
  - exists m'. split_and!; [|done|].
    + cbn [register_routes]. rewrite Hu. fold d. rewrite mux_Handle_new by done. rewrite mux_Handle_new by done.
      rewrite <- app_assoc. exact Hrun.
    + intros e. rewrite He, in_app_iff. unfold route_entry. split.
      * intros [[H|[<-|[<-|[]]]]|(r & v & Hi & Hp)]; [by left|right; exists rt, u..|right; exists r, v]; cbn; tauto.
      * intros [H|(r & v & [<-|Hi] & Hp & H2 & H1)]; [tauto| |right; exists r, v; tauto].
        left. right. destruct e as [e1 e2]. cbn in *. rewrite Hu in Hp. injection Hp as <-.
        destruct H1 as [-> | ->]; rewrite H2; tauto.
Qed.

Lemma new_mux_run c : routes_ok url_Parse c -> exists m, new_mux url_Parse c = Ret m /\ NoDup m.*1 /\
  forall e, In e m <-> (exists pg, e = (page_path pg, Own pg)) \/ route_entry (gw_Routes c) e.
Proof.
  intros [Hr Ho Hw Hd Ht].
  set (own := List.map (fun p => (page_path p, Own p)) own_pages).
  assert (forall x, In x own.*1 <-> exists pg, x = page_path pg) as Hown.
  { intros x. split.
    - intros (e & <- & (pg & <- & _)%in_map_iff)%in_map_iff. by exists pg.
    - intros [pg ->]. destruct pg; cbn; tauto. }
  destruct (register_routes_run (gw_Routes c) own) as (m & Hm & Hnd & He); try done.
  - intros rt Hi. rewrite !Hown. split; intros [pg E]; [by apply (Hw rt pg)|].
    assert (pg = Web) as -> by (apply page_path_slash; rewrite <- E; apply str_suffix_app).
    specialize (Hr rt Hi). destruct (ro_PathPrefix rt) as [|a [|b s]]; [done| |]; by destruct a as [[] [] [] [] [] [] [] []].
  - apply (bool_decide_unpack _). vm_compute. exact I.
  - exists m. split_and!; [exact Hm|done|]. intros e. rewrite He. split.
    + intros [H|H]; [left|by right]. apply in_map_iff in H as (pg & <- & _). by exists pg.
    + intros [[pg ->]|H]; [left|by right]. destruct pg; cbn; tauto.
Qed.
End Registered.

Section Routing.
Context (url_Parse : string -> outcome URL) (c : GConfig) (Hok : routes_ok url_Parse c).

Lemma prefix_below rt p : In rt (gw_Routes c) -> covers rt p ->
  (String.length (ro_PathPrefix rt) <= String.length p)%nat /\ (1 < String.length (ro_PathPrefix rt))%nat.
Proof.
  intros Hi Hc. split.
  - destruct Hc as [->|Hc%str_prefix_length]; [done|]. rewrite str_length_app in Hc. lia.
  - pose proof (ok_rooted _ _ Hok rt Hi) as Hr. pose proof (ok_open _ _ Hok rt Hi) as Ho.
    apply str_prefix_spec in Hr as [r Hr]. rewrite Hr in *. destruct r; [done|]. rewrite str_length_app. cbn. lia.
Qed.

(** The root is covered by no prefix. *)
Lemma root_uncovered rt : In rt (gw_Routes c) -> ~ covers rt "/".
Proof. intros Hi Hc. pose proof (prefix_below rt "/" Hi Hc) as [H1 H2]. cbn in H1. lia. Qed.

(** A path is routed in one way only. *)
Lemma routed_to_unique p d d' : routed_to url_Parse c p d -> routed_to url_Parse c p d' -> d = d'.
Proof.
  intros [pg H1 H2|rt u H1 H2 H3 H4 H5|H1 H2] [pg' H1' H2'|rt' u' H1' H2' H3' H4' H5'|H1' H2'];
    try (by exfalso; naive_solver); try done.
  - f_equal. apply page_path_inj. congruence.
  - specialize (H4 rt' H2' H3'). specialize (H4' rt H2 H3).
    assert (forall r, covers r p -> exists x, p = ro_PathPrefix r +:+ x) as Hx.
    { intros r [->|[x ->]%str_prefix_spec]; [exists ""; by rewrite str_app_nil_r|].
      exists ("/" +:+ x). by rewrite str_app_assoc. }
    destruct (Hx rt H3) as [x E], (Hx rt' H3') as [x' E']. rewrite E in E'.
    apply str_app_inj_length in E' as [E' _]; [|lia].
    assert (rt = rt') as <-; [|congruence].
    pose proof (ok_distinct _ _ Hok) as Hd. revert H2 H2' Hd E'. clear.
    induction (gw_Routes c) as [|r l IH]; [done|]. cbn [List.map]. intros H1 H2 [Hn Hd]%NoDup_cons E.
    rewrite list_elem_of_In in Hn. destruct H1 as [->|H1], H2 as [->|H2]; [done| | |auto]; exfalso; apply Hn.
    + rewrite E. apply in_map, H2.
    + rewrite <- E. apply in_map, H1.
Qed.

Context (m : mux) (Hnd : NoDup m.*1)
  (Hm : forall e, In e m <-> (exists pg, e = (page_path pg, Own pg)) \/ route_entry url_Parse (gw_Routes c) e).

Lemma exact_routed p e : In e m -> e.1 = p -> routed_to url_Parse c p e.2.
Proof.
  intros [[pg ->]|(rt & u & Hi & Hu & He2 & He1)]%Hm <-; cbn [fst snd].
  - destruct (decide (pg = Web)) as [->|Hw]; [|by apply to_own]. apply to_web.
    + by intros [].
    + intros rt Hi. by apply root_uncovered.
  - rewrite He2. apply to_proxy; [|done| |intros rt' Hi' Hc'|done].
    + intros pg E. destruct He1 as [H|H]; rewrite H in E; [|by apply (ok_own _ _ Hok rt pg)].
      assert (pg = Web) as -> by (apply page_path_slash; rewrite <- E; apply str_suffix_app).
      apply (root_uncovered rt Hi). right. rewrite E. done.
    + destruct He1 as [-> | ->]; [right|by left]. rewrite <- (str_app_nil_r (_ +:+ "/")) at 2. apply str_prefix_app.
    + destruct He1 as [H|H]; rewrite H in Hc'; [|by apply (prefix_below rt' _ Hi' Hc')].
      destruct Hc' as [E|Hc'%str_prefix_length].
      * pose proof (ok_open _ _ Hok rt' Hi') as Ho. by rewrite <- E, str_suffix_app in Ho.
      * rewrite !str_length_app in Hc'. lia.
Qed.

Lemma below_routed p b : (forall e, In e m -> e.1 <> p) -> In b m -> below p b ->
  (forall e, In e m -> below p e -> (String.length e.1 <= String.length b.1)%nat) -> routed_to url_Parse c p b.2.
Proof.
  intros Hx Hb [Hs Hp] Hlong.
  assert (forall pg, p <> page_path pg) as Hown.
  { intros pg ->. apply (Hx (page_path pg, Own pg)); [|done]. apply Hm. left. by exists pg. }
  assert (forall rt, In rt (gw_Routes c) -> covers rt p -> (String.length (ro_PathPrefix rt) + 1 <= String.length b.1)%nat) as Hcov.
  { intros rt Hi Hc. destruct (ok_target _ _ Hok rt Hi) as [u Hu].
    assert (forall x, x = ro_PathPrefix rt +:+ "/" \/ x = ro_PathPrefix rt -> In (x, Proxy (ro_PathPrefix rt) u) m) as Hin.
    { intros x Hxx. apply Hm. right. by exists rt, u. }
    destruct Hc as [->|Hc]; [by destruct (Hx _ (Hin _ (or_intror eq_refl)))|].
    specialize (Hlong _ (Hin _ (or_introl eq_refl)) (conj (str_suffix_app _ _) Hc)).
    cbn [fst] in Hlong. rewrite str_length_app in Hlong. cbn in Hlong. lia. }
  apply Hm in Hb as [[pg ->]|(rt & u & Hi & Hu & He2 & He1)]; cbn [fst snd] in *.
  - apply page_path_slash in Hs as ->. apply to_web; [by intros|]. intros rt Hi Hc.
    pose proof (Hcov rt Hi Hc). pose proof (prefix_below rt p Hi Hc). cbn in *. lia.
  - rewrite He2. pose proof (ok_open _ _ Hok rt Hi) as Ho.
    destruct He1 as [H|H]; [|by rewrite H, Ho in Hs]. rewrite H in Hp.
    apply to_proxy; [done|done|by right| |done]. intros rt' Hi' Hc'. specialize (Hcov rt' Hi' Hc').
    rewrite H, str_length_app in Hcov. cbn in Hcov. lia.
Qed.

Lemma route_clean p : cleanPath p = p -> str_prefix "/" p = true ->
  exists d, mux_route m p = To d /\ routed_to url_Parse c p d.
Proof.
  intros Hc Hp. unfold mux_route. rewrite Hc, String.eqb_refl. cbn [negb].
  destruct (negb (registered m p) && negb (str_suffix "/" p) && registered m (p +:+ "/")) eqn:Hred.
  { exfalso. rewrite !andb_true_iff, !negb_true_iff in Hred. destruct Hred as [[H1 H2] H3].
    apply registered_spec in H3 as H4. apply in_map_iff in H4 as (e & E & [[pg ->]|(rt & u & Hi & Hu & He2 & He1)]%Hm); cbn in *.
    - assert (pg = Web) as -> by (apply page_path_slash; rewrite E; apply str_suffix_app).
      destruct p as [|a [|b s]]; [done| |]; by destruct a as [[] [] [] [] [] [] [] []].
    - pose proof (ok_open _ _ Hok rt Hi) as Ho. destruct He1 as [H|H]; [|by rewrite <- H, E, str_suffix_app in Ho].
      rewrite E in H. apply slash_end_inj in H as ->.
      assert (registered m (ro_PathPrefix rt) = true); [|congruence]. apply registered_spec, in_map_iff.
      exists (ro_PathPrefix rt, Proxy (ro_PathPrefix rt) u). split; [done|]. apply Hm. right. exists rt, u. tauto. }
  unfold mux_match. destruct (mux_exact m p) as [[x d]|] eqn:He.
  - apply (mux_exact_spec m p (x, d) Hnd) in He as [Hi Hx]. exists d. split; [done|]. exact (exact_routed p (x, d) Hi Hx).
  - pose proof (proj1 (mux_exact_none m p) He) as Hn. pose proof (mux_below_spec m p) as Hb.
    destruct (mux_below m p) as [[x d]|].
    + destruct Hb as (Hi & Hb & Hl). exists d. split; [done|]. exact (below_routed p (x, d) Hn Hi Hb Hl).
    + exfalso. apply (Hb ("/", Own Web)); [apply Hm; left; by exists Web|]. by split.
Qed.
End Routing.

(** Registration and routing together. *)
Lemma mux_routes url_Parse c : routes_ok url_Parse c ->
  exists m, new_mux url_Parse c = Ret m /\
  forall p d, cleanPath p = p -> str_prefix "/" p = true -> mux_route m p = To d <-> routed_to url_Parse c p d.
Proof.
  intros Hok. destruct (new_mux_run url_Parse c Hok) as (m & Hrun & Hnd & Hm). exists m. split; [done|].
  intros p d Hc Hp. destruct (route_clean url_Parse c Hok m Hnd Hm p Hc Hp) as (d' & -> & Hd'). split.
  - by intros [= <-].
  - intros Hd. f_equal. by apply (routed_to_unique url_Parse c Hok p).
Qed.

(** C14. A gateway whose prefixes can be registered starts, and routes a request for a clean path
    by three rules: the gateway answers its own pages itself, also below a configured prefix such
    as [/api] ([/api/healthz] among them, which one section of the README says is proxied to the
    node and a later one that the gateway provides); any other path goes to the target of the
    longest configured prefix that is a prefix of its elements; and all other paths go to the web
    pages. *)
Theorem gateway_routes url_Parse c : routes_ok url_Parse c ->
  exists m, new_mux url_Parse c = Ret m /\
  forall p d, cleanPath p = p -> str_prefix "/" p = true -> mux_route m p = To d <-> routed_to url_Parse c p d.
Proof. apply mux_routes. Qed.
