(* ===== verification/GatewayServe.v ===== *)
(** * services/initialize-daemon: the pages of the gateway and its handler

    Every handler of [main] and the handler in front of them, in a world of servers ([http_do],
    as in [HttpClient]) and files ([WebFS]).  [http.ServeFile] is written out for files; what it
    does with a directory or a file that cannot be opened is an argument, as are [net.Dial], the
    decoding of JSON into [any] and the encoding of what was built from it, and what a server has
    done when a body breaks off at the limit ([cut_short]).  The single-host reverse proxy of
    net/http/httputil is written out; headers and time-outs are left out.  The address in
    [/api/healthz] is declared after its use; it is the argument [addr]. *)

From S2P Require Import Prelude GoLang KV Chain WebFS Storage Config Crypto Finality Sync Node Gossip PlatformDB HttpClient Gateway GatewayMux.

(** Status and body, or a redirection. *)
Inductive ganswer := GAnswer (status : Z) (body : string) | GRedirect (location : string).

(** What the pages encode: [V] are decoded JSON values. *)
Inductive jany (V : Type) := JBool (b : bool) | JText (s : string) | JNum (z : Z) | JParsed (v : V) | JObj (l : list (string * jany V)).
Arguments JBool {V}. Arguments JText {V}. Arguments JNum {V}. Arguments JParsed {V}. Arguments JObj {V}.

(** ** The reverse proxy *)

(** [http.StripPrefix]: [None] is 404. *)
Definition strip_prefix (prefix path : string) : option string :=
  if (prefix =? "")%string then Some path
  else
    let p := str_trim_prefix prefix path in
    if (String.length p <? String.length path)%nat then Some p else None.

Definition singleJoiningSlash (a b : string) : string :=
  let aslash := str_suffix "/" a in
  let bslash := str_prefix "/" b in
  if aslash && bslash then a +:+ str_drop 1 b
  else if negb aslash && negb bslash then a +:+ "/" +:+ b
  else a +:+ b.

(** The address a request is forwarded to. *)
Definition rewrite_url (u : URL) (path query : string) : string :=
  let q := if (u_Query u =? "")%string || (query =? "")%string then u_Query u +:+ query
           else u_Query u +:+ "&" +:+ query in
  u_Origin u +:+ singleJoiningSlash (u_Path u) path +:+ (if (q =? "")%string then "" else "?" +:+ q).

(** ** Files *)

Class WebServe {W : WebFiles} := {
  (** [os.Stat]: [Some true] for a directory. *)
  web_Stat : string -> wfs -> option bool;
  serve_dir : string -> string -> wfs -> ganswer;
  serve_error : goerr -> ganswer;
}.

(** [http.containsDotDot]. *)
Definition containsDotDot (p : string) : bool :=
  existsb (String.eqb "..") (split_char "/" (list_str (List.map (fun c => if Ascii.eqb c "\" then "/"%char else c) (str_list p)))).

Section Serve.
Context {W : WebFiles} {WS : WebServe}.

Definition ServeFile (path name : string) (f : wfs) : ganswer :=
  if containsDotDot path then GAnswer 400 "invalid URL path"
  else if str_suffix "/index.html" path then GRedirect "./"
  else match web_Stat name f with
       | Some true => serve_dir path name f
       | _ => match web_ReadFile name f with Ret c => GAnswer 200 c | Err e => serve_error e | Panic => serve_error "" end
       end.

(** The handler of [/]: the file, or 404. *)
Definition serve_web (dir path : string) (f : wfs) : ganswer :=
  match web_file filepath_Join dir (fun p => match web_Stat p f with Some _ => true | None => false end) path with
  | Some name => ServeFile path name f
  | None => GAnswer 404 "404 page not found"
  end.

(** ** The handlers *)

Context {Net V : Type} (http_do : string -> string -> string -> GoM Net (Z * string)).
Context (cut_short : string -> string -> Net -> Net) (dial : string -> GoM Net unit).
Context (json_any : string -> option V) (Encode : jany V -> string) (addr : string).

(** A request whose body is that of [r]. *)
Definition forward (method url : string) (r : GRequest) : GoM Net (Z * string) := fun w =>
  match read_body r with
  | Ret b => http_do method url b w
  | Err e => (Err e, cut_short method url w)
  | Panic => (Panic, w)
  end.

Definition proxy (u : URL) (path : string) (r : GRequest) : GoM Net ganswer :=
  let! res := gtry (forward (gr_Method r) (rewrite_url u path (gr_Query r)) r) in
  match res with
  | inr (status, b) => gret (GAnswer status b)
  | inl _ => gret (GAnswer 502 "")
  end.

Definition fetchJSON (url : string) : GoM Net (jany V) :=
  let! res := gtry (http_do "GET" url "") in
  match res with
  | inl e => gret (JObj [("error", JText e)])
  | inr (status, b) =>
      match json_any b with
      | None => gret (JObj [("status", JNum status); ("raw", JText b)])
      | Some v => gret (JParsed v)
      end
  end.

Definition nodeBase : string := "http://127.0.0.1:18445".

Definition net_peers : GoM Net ganswer :=
  let! v := fetchJSON (nodeBase +:+ "/peers/list") in gret (GAnswer 200 (Encode v)).

Definition net_peers_add (r : GRequest) : GoM Net ganswer :=
  if negb (gr_Method r =? "POST")%string then gret (GAnswer 405 "")
  else
    let! res := gtry (forward "POST" (nodeBase +:+ "/peers/add") r) in
    match res with
    | inl e => gret (GAnswer 502 (Encode (JObj [("error", JText e)])))
    | inr (status, b) => gret (GAnswer status b)
    end.

Definition net_metrics : GoM Net ganswer :=
  let! res := gtry (http_do "GET" (nodeBase +:+ "/metrics") "") in
  match res with
  | inl _ => gret (GAnswer 502 "upstream error")
  | inr (status, b) => gret (GAnswer status b)
  end.

Definition net_status : GoM Net ganswer :=
  let! chain := fetchJSON (nodeBase +:+ "/chain/info") in
  let! mempool := fetchJSON (nodeBase +:+ "/mempool/info") in
  let! gossip := fetchJSON (nodeBase +:+ "/gossip/info") in
  let! p2p := fetchJSON (nodeBase +:+ "/p2p/info") in
  let! fees := fetchJSON (nodeBase +:+ "/fees/info") in
  gret (GAnswer 200 (Encode (JObj [("node", JObj [("chain", chain); ("mempool", mempool); ("gossip", gossip);
    ("p2p", p2p); ("fees", fees)])]))).

Definition p2p_tcp : GoM Net bool :=
  let! res := gtry (dial "127.0.0.1:18444") in
  gret (match res with inl _ => false | inr _ => true end).

(** [fetch] of the status page. *)
Definition alive (url : string) : GoM Net bool :=
  let! res := gtry (http_do "GET" url "") in
  gret (match res with inl _ => false | inr (status, _) => (200 <=? status) && (status <? 500) end).

Definition gateway_status : GoM Net ganswer :=
  let! p2p := p2p_tcp in
  let! node := alive "http://127.0.0.1:18445/healthz" in
  let! wallet := alive "http://127.0.0.1:9020/healthz" in
  let! db := alive "http://127.0.0.1:9030/healthz" in
  gret (GAnswer 200 (Encode (JObj [("ok", JBool true); ("p2p_tcp", JBool p2p); ("node_http", JBool node);
    ("wallet_http", JBool wallet); ("platformdb_http", JBool db)]))).

Definition api_healthz : GoM Net ganswer :=
  let! p2p := p2p_tcp in
  gret (GAnswer 200 (Encode (JObj [("ok", JBool true); ("p2p_tcp", JBool p2p); ("gateway", JObj [("addr", JText addr)])]))).

(** The servers and the files. *)
Record gworld := { gx_net : Net; gx_files : wfs }.
Definition set_net (n : Net) (w : gworld) : gworld := {| gx_net := n; gx_files := gx_files w |}.

Definition serve_page (dir : string) (pg : page) (r : GRequest) : GoM gworld ganswer :=
  match pg with
  | Healthz => gret (GAnswer 200 "ok")
  | NetPeers => gzoom gx_net set_net net_peers
  | NetPeersAdd => gzoom gx_net set_net (net_peers_add r)
  | NetMetrics => gzoom gx_net set_net net_metrics
  | NetStatus => gzoom gx_net set_net net_status
  | GatewayStatus => gzoom gx_net set_net gateway_status
  | ApiHealthz => gzoom gx_net set_net api_healthz
  | Web => let! w := gget in gret (serve_web dir (gr_Path r) (gx_files w))
  end.

(** [mux.ServeHTTP]. *)
Definition serve_mux (c : GConfig) (m : mux) (r : GRequest) : GoM gworld ganswer :=
  match mux_route m (gr_Path r) with
  | Redirect p => gret (GRedirect (p +:+ (if (gr_Query r =? "")%string then "" else "?" +:+ gr_Query r)))
  | NotFound => gret (GAnswer 404 "404 page not found")
  | To (Own pg) => serve_page (ws_RuntimeWebDir (gw_Web c)) pg r
  | To (Proxy prefix u) =>
      match strip_prefix prefix (gr_Path r) with
      | None => gret (GAnswer 404 "404 page not found")
      | Some p => gzoom gx_net set_net (proxy u p r)
      end
  end.

Record gstate := { gs_world : gworld; gs_lim : rateLimiter }.

(** The handler of the server. *)
Definition handler (TrimSpace : string -> string) (c : GConfig) (m : mux) (nano : Z) (r : GRequest) : GoM gstate ganswer := fun s =>
  match gateway TrimSpace (serve_mux c m) nano r (gs_lim s) with
  | (None, lim) => (Ret (GAnswer 429 "rate limited"), {| gs_world := gs_world s; gs_lim := lim |})
  | (Some k, lim) => let '(o, w) := k (gs_world s) in (o, {| gs_world := w; gs_lim := lim |})
  end.

(** Everything [main] does before it listens: defaults, pages, services, routes. *)
Context {HS : Hashes} {MO : MapOrder} {X : Type}.
Context (environ : list string) (cmd_Start : Cmd -> GoM X unit) (url_Parse : string -> outcome URL).

Record gboot := { bt_files : wfs; bt_procs : procs (X := X) }.

Definition boot (c : GConfig) : GoM gboot (GConfig * mux) :=
  let c := fill_gateway c in
  gzoom bt_files (fun f b => {| bt_files := f; bt_procs := bt_procs b |}) (EnsureFlatWebFS (web_config c)) ;;;
  gzoom bt_procs (fun p b => {| bt_files := bt_files b; bt_procs := p |}) (start_services environ cmd_Start c) ;;;
  let! m := glift (new_mux url_Parse c) in
  gret (c, m).
End Serve.
