(* ===== verification/GossipProps.v ===== *)
(** * Properties of the message handler

    A repeated announcement ends the relay of announced transactions and blocks by the handler
    ([repeat_stops_relay]),
    penalties and bans ([penalizePeer_bans]), peers without an agreed finalized block
    ([unanchored_ignored]), the answer to [get_headers] ([answer_headers_spec]), the link
    check of headers ([validateHeadersChain_linked]) and the limiter ([limiter_burst]). *)

From S2P Require Import Prelude GoLang KV Chain Pow Storage StorageProps State StateProps Fees Config Crypto Validate Apply Frame Mempool Forkchoice Sync Finality Node Gossip.

Section GossipProps.
Context {L : LevelDB} {HL : LevelDBOk L} {HS : Hashes} {CD : Codecs} {GC : GossipCodecs} {ED : Ed25519} {E : Edwards}
  {MO : MapOrder} {FS : SnapFiles}.
Context (cfg : Config) (mustHex32 : string -> string) (genesis : Genesis).
Context (NextWorkRequired : (Z -> GoM db_t (option BlockHeader)) -> (Z -> GoM db_t (option Z)) ->
  Z -> GoM db_t (option Z)).
Context (n : FinNode) (b_Height feeSum : Z).
Context (chainID genesisHash : string).
Context (validateTxAdmission : Tx -> GoM db_t Tx).
Context (setHeadersCount : Z -> syncManager -> syncManager).
Context (setLastHashes : list string -> syncManager -> syncManager).
Context (senders : list string) (stray_tx : Tx).

Notation dispatch := (dispatch cfg mustHex32 genesis NextWorkRequired n b_Height feeSum chainID genesisHash
  validateTxAdmission setHeadersCount setLastHashes senders stray_tx).
Notation handle := (handle cfg mustHex32 genesis NextWorkRequired n b_Height feeSum chainID genesisHash
  validateTxAdmission setHeadersCount setLastHashes senders stray_tx).

(** ** The mutex of the announcement caches *)

(** A request for the body of an announced transaction or block. *)
Definition asks (m : Msg) : Prop := msg_Type m = "get_tx" \/ msg_Type m = "get_block".

(** With the mutex held the computation leaves it held and asks nobody for a body. *)
Definition mute {A} (m : GoM p2p_state A) : Prop := forall s, g_locked s = true ->
  g_locked (m s).2 = true /\
  exists l, g_out (m s).2 = g_out s ++ l /\ Forall (fun x : option string * Msg => ~ asks x.2) l.

Lemma mute_same {A} (m : GoM p2p_state A) :
  (forall s, g_locked (m s).2 = g_locked s /\ g_out (m s).2 = g_out s) -> mute m.
Proof.
  intros H s Hs. destruct (H s) as [H1 H2]. split; [congruence|]. exists []. by rewrite app_nil_r.
Qed.

Lemma mute_ret {A} (a : A) : mute (gret a).
Proof. by apply mute_same. Qed.
Lemma mute_get : mute gget.
Proof. by apply mute_same. Qed.
Lemma mute_sync f : mute (with_sync f).
Proof. by apply mute_same. Qed.

Lemma mute_bind {A B} (m : GoM p2p_state A) (f : A -> GoM p2p_state B) :
  mute m -> (forall a, mute (f a)) -> mute (gbind m f).
Proof.
  intros Hm Hf s Hs. unfold gbind. destruct (Hm s Hs) as (H1 & l & Ho & Hl).
  destruct (m s) as [[a|e|] s']; cbn [snd] in *; [|by split; eauto..].
  destruct (Hf a s' H1) as (H2 & l' & Ho' & Hl'). split; [done|].
  exists (l ++ l'). split; [by rewrite Ho', Ho, app_assoc|by apply Forall_app].
Qed.

Lemma mute_ignore {A} (d : A) (m : GoM p2p_state A) : mute m -> mute (gignore d m).
Proof. intros Hm s Hs. unfold gignore. specialize (Hm s Hs). by destruct (m s) as [[] s']. Qed.
Lemma mute_try {A} (m : GoM p2p_state A) : mute m -> mute (gtry m).
Proof. intros Hm s Hs. unfold gtry. specialize (Hm s Hs). by destruct (m s) as [[] s']. Qed.
Lemma mute_for {A} (l : list A) (f : A -> GoM p2p_state unit) : (forall x, mute (f x)) -> mute (gfor l f).
Proof. intros Hf. induction l; cbn [gfor]; [apply mute_ret|]. apply mute_bind; auto. Qed.
Lemma mute_gchain {A} (m : GoM (db_t * fs_t) A) : mute (on_gchain m).
Proof. apply mute_same. intros s. unfold on_gchain, gzoom. by destruct (m (g_chain s)). Qed.
Lemma mute_gmp {A} (m : GoM (db_t * Mempool) A) : mute (on_gmp m).
Proof. apply mute_same. intros s. unfold on_gmp, gzoom. by destruct (m _). Qed.
Lemma mute_send peer m : ~ asks m -> mute (SendTo peer m).
Proof. intros Hm s Hs. split; [done|]. eexists. split; [done|]. by repeat constructor. Qed.
Lemma mute_sendall m : ~ asks m -> mute (SendAll m).
Proof. intros Hm s Hs. split; [done|]. eexists. split; [done|]. by repeat constructor. Qed.

(** Waiting: the rest of the handler does not run. *)
Lemma mute_locked {A} (k : option unit -> GoM p2p_state A) : mute (k None) -> mute (gbind lock k).
Proof. intros Hk s Hs. unfold gbind, lock. rewrite Hs. cbn. by apply Hk. Qed.

Ltac mute_step :=
  match goal with
  | |- forall _, _ => intro
  | |- mute (let _ := _ in _) => cbv zeta
  | |- mute (gret _) => apply mute_ret
  | |- mute gget => apply mute_get
  | |- mute (gbind lock _) => apply mute_locked
  | |- mute (gbind _ _) => apply mute_bind
  | |- mute (gtry _) => apply mute_try
  | |- mute (gignore _ _) => apply mute_ignore
  | |- mute (gfor _ _) => apply mute_for
  | |- mute (on_gchain _) => apply mute_gchain
  | |- mute (on_gmp _) => apply mute_gmp
  | |- mute (with_sync _) => apply mute_sync
  | |- mute (SendTo _ _) => apply mute_send; intros [H|H]; discriminate H
  | |- mute (SendAll _) => apply mute_sendall; intros [H|H]; discriminate H
  | |- mute (match ?x with _ => _ end) => destruct x
  end.

Lemma mute_dispatch now peer m : mute (dispatch now peer m).
Proof.
  unfold Gossip.dispatch, on_get_hello, on_hello, on_get_anchor, on_anchor, on_get_headers, on_headers,
    on_get_peers, on_peers, on_inv_tx, on_get_tx, on_tx, on_inv_block, on_get_block, on_block,
    punish, anchor_refused, on_gdb.
  repeat mute_step.
Qed.

Lemma mute_handle now nano peer m : mute (handle now nano peer m).
Proof.
  unfold Gossip.handle, on_gdb. repeat mute_step; try apply mute_dispatch.
  apply mute_same. intros s. by destruct (allow nano peer (g_lim s)).
Qed.

(** A message as it reaches the handler: the two clocks, the sender, the message. *)
Definition delivery : Type := Z * Z * string * Msg.

(** The state after messages were handled one after the other; a handler that waits leaves
    the state as it is where it waits, and its session answers no more. *)
Definition deliver (ms : list delivery) (s : p2p_state) : p2p_state :=
  fold_left (fun s '(now, nano, peer, m) => (handle now nano peer m s).2) ms s.

Lemma deliver_mute ms s : g_locked s = true ->
  g_locked (deliver ms s) = true /\
  exists l, g_out (deliver ms s) = g_out s ++ l /\ Forall (fun x : option string * Msg => ~ asks x.2) l.
Proof.
  revert s. induction ms as [|[[[now nano] peer] m] ms IH]; intros s Hs.
  { split; [done|]. exists []. by rewrite app_nil_r. }
  change (deliver ((now, nano, peer, m) :: ms) s) with (deliver ms (handle now nano peer m s).2).
  destruct (mute_handle now nano peer m s Hs) as (H1 & l & Ho & Hl).
  destruct (IH _ H1) as (H2 & l' & Ho' & Hl'). split; [done|].
  exists (l ++ l'). split; [by rewrite Ho', Ho, app_assoc|by apply Forall_app].
Qed.

(** *** Announcing twice *)

Definition seen_tx (id : string) (s : p2p_state) : Prop := is_Some (db_view (g_chain s).1 !! keySeenTx id).
Definition seen_blk (h : string) (s : p2p_state) : Prop := is_Some (db_view (g_chain s).1 !! keySeenBlk h).

Lemma has_key_run k d : has_key k d = (Ret (bool_decide (is_Some (db_view d !! k))), d).
Proof. unfold has_key, gbind. rewrite kv_get_ok. by destruct (db_view d !! k). Qed.

Lemma on_gdb_run {A} (m : GoM db_t A) s o d : m (g_chain s).1 = (o, d) ->
  on_gdb m s = (o, upd_chain (d, (g_chain s).2) s).
Proof. intros H. unfold on_gdb, on_gchain, on_db, gzoom. by rewrite H. Qed.

Lemma upd_chain_same s : upd_chain ((g_chain s).1, (g_chain s).2) s = s.
Proof. by destruct s as [[d f] ? ? ? ? ? ? ?]. Qed.

(** An announcement that is already recorded leaves with the mutex held. *)
Lemma on_inv_tx_seen now peer m s : g_locked s = false -> msg_ID m <> "" -> seen_tx (msg_ID m) s ->
  on_inv_tx now peer m s = (Ret (Some tt), upd_seen (g_seenTx s) (g_seenBlk s) true s).
Proof.
  intros Hs Hid Hseen. unfold on_inv_tx. destruct (String.eqb_spec (msg_ID m) "") as [|_]; [done|].
  unfold gbind at 1, lock. rewrite Hs. cbn [fst snd].
  set (s1 := upd_seen _ _ _ s).
  rewrite (gbind_ret _ _ _ true s1); [done|].
  rewrite (on_gdb_run _ _ (Ret true) (g_chain s1).1); [by rewrite upd_chain_same|].
  unfold HasSeenTx, gignore. rewrite has_key_run. by rewrite bool_decide_true.
Qed.

Lemma on_inv_block_seen now peer m s : g_locked s = false -> msg_Hash m <> "" -> seen_blk (msg_Hash m) s ->
  on_inv_block now peer m s = (Ret (Some tt), upd_seen (g_seenTx s) (g_seenBlk s) true s).
Proof.
  intros Hs Hid Hseen. unfold on_inv_block. destruct (String.eqb_spec (msg_Hash m) "") as [|_]; [done|].
  unfold gbind at 1, lock. rewrite Hs. cbn [fst snd].
  set (s1 := upd_seen _ _ _ s).
  rewrite (gbind_ret _ _ _ true s1); [done|].
  rewrite (on_gdb_run _ _ (Ret true) (g_chain s1).1); [by rewrite upd_chain_same|].
  unfold HasSeenBlk, gignore. rewrite has_key_run. by rewrite bool_decide_true.
Qed.

(** The first announcement records the transaction and asks the announcer for it. *)
Lemma on_inv_tx_marks now peer id s : g_locked s = false -> id <> "" -> g_seenTx s !! id = None ->
  ~ seen_tx id s -> exists s', on_inv_tx now peer (msg_id "inv_tx" id) s = (Ret (Some tt), s') /\
  g_locked s' = false /\ seen_tx id s' /\ g_out s' = g_out s ++ [(Some peer, msg_id "get_tx" id)].
Proof.
  intros Hs Hid Hc Hn. unfold on_inv_tx, msg_id. cbn [msg_ID].
  destruct (String.eqb_spec id "") as [|_]; [done|].
  unfold gbind at 1, lock. rewrite Hs. cbn [fst snd]. set (s1 := upd_seen _ _ _ s).
  rewrite (gbind_ret _ _ _ false s1).
  2:{ rewrite (on_gdb_run _ _ (Ret false) (g_chain s1).1); [by rewrite upd_chain_same|].
      unfold HasSeenTx, gignore. rewrite has_key_run. by rewrite bool_decide_false. }
  unfold gbind, gget, gmodify, MarkSeenTx, put_be64, on_gdb, on_gchain, on_db, gzoom, gignore. cbn.
  rewrite Hc. cbn. rewrite db_put_ok. cbn. eexists. split; [done|]. unfold seen_tx. cbn.
  rewrite db_view_ins, lookup_insert_eq. repeat split; eauto.
Qed.

(** C23. One repeated announcement of a transaction ends the relay of the message handler: from then
    on, whatever messages arrive from whichever peers, the mutex of the caches stays held and the
    handler answers none of them by asking for a transaction or a block.  (The workers of the
    synchronisation do not take this mutex and still ask for blocks by themselves.) *)
Theorem repeat_stops_relay now1 now2 peer1 peer2 id s ms : g_locked s = false -> id <> "" ->
  g_seenTx s !! id = None ->
  let s1 := (dispatch now1 peer1 (msg_id "inv_tx" id) s).2 in
  let s2 := (dispatch now2 peer2 (msg_id "inv_tx" id) s1).2 in
  g_locked (deliver ms s2) = true /\
  exists l, g_out (deliver ms s2) = g_out s1 ++ l /\ Forall (fun x : option string * Msg => ~ asks x.2) l.
Proof.
  intros Hs Hid Hc s1 s2. change s1 with (on_inv_tx now1 peer1 (msg_id "inv_tx" id) s).2 in s2 |- *.
  change s2 with (on_inv_tx now2 peer2 (msg_id "inv_tx" id) (on_inv_tx now1 peer1 (msg_id "inv_tx" id) s).2).2.
  clear s2. clear s1. set (s1 := (on_inv_tx now1 _ _ s).2).
  assert ((on_inv_tx now2 peer2 (msg_id "inv_tx" id) s1).2 = upd_seen (g_seenTx s1) (g_seenBlk s1) true s1) as ->.
  { destruct (decide (is_Some (db_view (g_chain s).1 !! keySeenTx id))) as [Hd|Hd].
    - assert (s1 = upd_seen (g_seenTx s) (g_seenBlk s) true s) as -> by (unfold s1; by rewrite on_inv_tx_seen).
      unfold on_inv_tx. cbn [msg_id msg_ID]. destruct (String.eqb_spec id "") as [|_]; [done|]. done.
    - destruct (on_inv_tx_marks now1 peer1 id s Hs Hid Hc Hd) as (s' & Hrun & H1 & H2 & _).
      unfold s1. rewrite Hrun. by rewrite on_inv_tx_seen. }
  exact (deliver_mute ms (upd_seen (g_seenTx s1) (g_seenBlk s1) true s1) eq_refl).
Qed.

(** ** Penalties *)

Context {HUs : Utf8 PeerStat} {HJs : JSONOk PeerStat}.

(** The recorded score and the end of the ban of a peer; a missing record is 0 for both. *)
Definition stat_of (d : db_t) (pub : string) : PeerStat :=
  match db_view d !! keyPeerStat pub with
  | Some b => match json_unmarshal b with Ret ps => ps | _ => zero_PeerStat end
  | None => zero_PeerStat
  end.
(** The record of [pub], when there is one, decodes. *)
Definition stat_ok (d : db_t) (pub : string) : Prop :=
  forall b, db_view d !! keyPeerStat pub = Some b -> exists ps, json_unmarshal (A := PeerStat) b = Ret ps.
(** Every record under this key is text [encoding/json] keeps. *)
Definition pub_ok (pub : string) : Prop := forall sc ban upd,
  utf8_ok {| ps_PubkeyHex := pub; ps_Score := sc; ps_BannedUntil := ban; ps_UpdatedUnix := upd |} = true.

Lemma GetPeerStat_run d pub : stat_ok d pub -> exists ps ok, GetPeerStat pub d = (Ret (ps, ok), d) /\
  ps_Score ps = ps_Score (stat_of d pub) /\ ps_BannedUntil ps = ps_BannedUntil (stat_of d pub) /\
  (ok = false -> stat_of d pub = zero_PeerStat).
Proof.
  intros Hok. unfold GetPeerStat, get_json, gbind, stat_of. rewrite kv_get_ok.
  destruct (db_view d !! keyPeerStat pub) as [b|] eqn:Hb; cbn; [|by eexists _, _].
  destruct (Hok b Hb) as [ps Hps]. unfold glift. rewrite Hps. cbn. by eexists _, _.
Qed.

Lemma PutPeerStat_run d now ps : pub_ok (ps_PubkeyHex ps) -> exists d', PutPeerStat now ps d = (Ret tt, d') /\
  stat_ok d' (ps_PubkeyHex ps) /\ ps_Score (stat_of d' (ps_PubkeyHex ps)) = ps_Score ps /\
  ps_BannedUntil (stat_of d' (ps_PubkeyHex ps)) = ps_BannedUntil ps /\
  forall k, k <> keyPeerStat (ps_PubkeyHex ps) -> db_view d' !! k = db_view d !! k.
Proof.
  intros Hp. unfold PutPeerStat, put_json, gbind, glift.
  destruct (json_round_trip _ (Hp (ps_Score ps) (ps_BannedUntil ps) now)) as (b & Hm & Hu).
  rewrite Hm, db_put_ok. eexists. split; [done|]. unfold stat_ok, stat_of.
  rewrite db_view_ins, lookup_insert_eq, Hu. cbn. split; [intros ? [= <-]; eauto|].
  do 2 (split; [done|]). intros k Hk. by rewrite lookup_insert_ne.
Qed.

Lemma AddPeerScore_run d now pub delta : stat_ok d pub -> pub_ok pub ->
  exists ps d', AddPeerScore now pub delta d = (Ret ps, d') /\ stat_ok d' pub /\
  ps_Score ps = i64 (ps_Score (stat_of d pub) + delta) /\
  ps_Score (stat_of d' pub) = i64 (ps_Score (stat_of d pub) + delta) /\
  ps_BannedUntil (stat_of d' pub) = ps_BannedUntil (stat_of d pub) /\
  forall k, k <> keyPeerStat pub -> db_view d' !! k = db_view d !! k.
Proof.
  intros Hok Hp. unfold AddPeerScore.
  destruct (GetPeerStat_run d pub Hok) as (ps & ok & Hrun & Hsc & Hban & _).
  rewrite (gbind_ret _ _ _ (ps, ok) d) by (by apply gignore_ret). cbv zeta.
  set (ps' := {| ps_PubkeyHex := pub |}).
  destruct (PutPeerStat_run d now ps' Hp) as (d' & Hput & H1 & H2 & H3 & H4).
  rewrite (gbind_ret _ _ _ tt d') by (by apply gignore_ret). eexists _, d'. split; [done|].
  cbn in *. rewrite <- Hsc, <- Hban. done.
Qed.

Lemma BanPeer_run d now pub sec : stat_ok d pub -> pub_ok pub -> exists d', BanPeer now pub sec d = (Ret tt, d') /\
  stat_ok d' pub /\ ps_Score (stat_of d' pub) = ps_Score (stat_of d pub) /\
  ps_BannedUntil (stat_of d' pub) = i64 (now + sec) /\
  forall k, k <> keyPeerStat pub -> db_view d' !! k = db_view d !! k.
Proof.
  intros Hok Hp. unfold BanPeer.
  destruct (GetPeerStat_run d pub Hok) as (ps & ok & Hrun & Hsc & Hban & _).
  rewrite (gbind_ret _ _ _ (ps, ok) d) by (by apply gignore_ret).
  set (ps' := {| ps_PubkeyHex := pub |}).
  destruct (PutPeerStat_run d now ps' Hp) as (d' & Hput & H1 & H2 & H3 & H4).
  exists d'. split; [done|]. cbn in *. by rewrite <- Hsc.
Qed.

Lemma IsBanned_run d now pub : stat_ok d pub -> 0 <= now ->
  exists u, IsBanned now pub d = (Ret (now <? ps_BannedUntil (stat_of d pub), u), d).
Proof.
  intros Hok Hnow. unfold IsBanned.
  destruct (GetPeerStat_run d pub Hok) as (ps & ok & Hrun & _ & Hban & Hz).
  rewrite (gbind_ret _ _ _ (ps, ok) d) by (by apply gignore_ret). unfold gret.
  rewrite <- Hban. destruct ok; cbn [negb].
  - destruct (Z.ltb_spec now (ps_BannedUntil ps)); eauto.
  - rewrite Hban, Hz by done. cbn. destruct (Z.ltb_spec now 0); [lia|eauto].
Qed.

Lemma penalizePeer_run d now pub delta : stat_ok d pub -> pub_ok pub ->
  let score := i64 (ps_Score (stat_of d pub) + delta) in
  exists d', penalizePeer now pub delta d = (Ret tt, d') /\ stat_ok d' pub /\
  ps_Score (stat_of d' pub) = score /\
  ps_BannedUntil (stat_of d' pub) = (if score <=? -50 then i64 (now + 600) else ps_BannedUntil (stat_of d pub)) /\
  forall k, k <> keyPeerStat pub -> db_view d' !! k = db_view d !! k.
Proof.
  intros Hok Hp score. unfold penalizePeer.
  destruct (AddPeerScore_run d now pub delta Hok Hp) as (ps & d1 & Hadd & Hok1 & Hps & Hsc & Hban & Hk).
  rewrite (gbind_ret _ _ _ ps d1) by (by apply gignore_ret). rewrite Hps. fold score.
  destruct (Z.leb_spec score (-50)); [|by exists d1].
  destruct (BanPeer_run d1 now pub 600 Hok1 Hp) as (d2 & Hb & Hok2 & Hsc2 & Hban2 & Hk2).
  exists d2. split; [by rewrite (gignore_ret _ _ _ tt d2)|]. rewrite Hsc2, Hsc, Hban2.
  repeat (split; [done|]). intros k Hne. by rewrite Hk2, Hk.
Qed.

(** A penalty that takes the score to -50 or below bans the peer: until 600 seconds have
    passed every message it sends is dropped without any effect, not even on the limiter.
    A smaller penalty changes only the score. *)
Theorem penalizePeer_bans now delta peer s d' : stat_ok (g_chain s).1 peer -> pub_ok peer ->
  is_i64 (ps_Score (stat_of (g_chain s).1 peer) + delta) -> 0 <= now < 2 ^ 62 ->
  penalizePeer now peer delta (g_chain s).1 = (Ret tt, d') ->
  let s' := upd_chain (d', (g_chain s).2) s in
  (ps_Score (stat_of (g_chain s).1 peer) + delta <= -50 ->
     forall t nano m, 0 <= t < now + 600 -> handle t nano peer m s' = (Ret (Some tt), s')) /\
  (-50 < ps_Score (stat_of (g_chain s).1 peer) + delta ->
     ps_BannedUntil (stat_of d' peer) = ps_BannedUntil (stat_of (g_chain s).1 peer)).
Proof.
  intros Hok Hp Hi Hnow Hpen s'.
  destruct (penalizePeer_run _ now peer delta Hok Hp) as (d2 & Hrun & Hok2 & _ & Hban & _).
  rewrite Hrun in Hpen. injection Hpen as ->. rewrite (i64_id _ Hi) in Hban.
  split; intros Hsc.
  - intros t nano m Ht. unfold Gossip.handle. destruct (_ && _); [done|].
    destruct (IsBanned_run d' t peer Hok2 ltac:(lia)) as [u Hb].
    rewrite (gbind_ret _ _ _ (true, u) s'); [done|]. apply gignore_ret.
    rewrite (on_gdb_run _ _ (Ret (true, u)) d').
    { by destruct s as [[? ?] ? ? ? ? ? ? ?]. }
    change (g_chain s').1 with d'. rewrite Hb, Hban.
    destruct (Z.leb_spec (ps_Score (stat_of (g_chain s).1 peer) + delta) (-50)); [|lia].
    rewrite i64_id by (unfold is_i64; lia). by destruct (Z.ltb_spec t (now + 600)); [|lia].
  - rewrite Hban. by destruct (Z.leb_spec (ps_Score (stat_of (g_chain s).1 peer) + delta) (-50)); [lia|].
Qed.

(** ** Peers without an agreed finalized block *)

(** Once a block is finalized, a block or headers from a peer that has not shown the same
    finalized block change nothing but that peer's record: the chain, the pool, the sync
    manager, the limiter, the caches and the messages sent stay what they were. *)
Theorem unanchored_ignored now peer m s sm fin : In (msg_Type m) ["block"; "headers"] ->
  cell_ok (db_view (g_chain s).1) keyFinalized -> db_view (g_chain s).1 !! keyFinalized = Some fin ->
  0 < be_get fin -> g_sm s = Some sm -> isPeerAnchorOK peer sm = false ->
  stat_ok (g_chain s).1 peer -> pub_ok peer ->
  exists d', dispatch now peer m s = (Ret (Some tt), upd_chain (d', (g_chain s).2) s) /\
  (forall k, k <> keyPeerStat peer -> db_view d' !! k = db_view (g_chain s).1 !! k) /\
  ps_Score (stat_of d' peer) = i64 (ps_Score (stat_of (g_chain s).1 peer) - 5).
Proof.
  intros Hty Hc Hf Hpos Hsm Han Hok Hp.
  assert (anchor_refused peer s = (Ret true, s)) as Href.
  { unfold anchor_refused. rewrite (gbind_ret _ _ _ (Some (be_get fin)) s).
    - unfold gbind, gget. rewrite Hsm, Han. cbn. by destruct (Z.ltb_spec 0 (be_get fin)); [|lia].
    - apply gignore_ret. rewrite (on_gdb_run _ _ (Ret (Some (be_get fin))) (g_chain s).1).
      + by rewrite upd_chain_same.
      + unfold GetFinalizedHeight. rewrite get_be64_len8_run by done. by rewrite Hf. }
  destruct (penalizePeer_run _ now peer (-5) Hok Hp) as (d' & Hrun & _ & Hsc & _ & Hk).
  exists d'. split; [|done].
  assert (dispatch now peer m s = punish now peer (-5) s) as ->.
  { unfold Gossip.dispatch. destruct Hty as [<-|[<-|[]]]; cbn -[on_block on_headers punish];
      unfold on_block, on_headers; by rewrite (gbind_ret _ _ _ true s). }
  unfold punish. by rewrite (gbind_ret _ _ _ tt (upd_chain (d', (g_chain s).2) s))
    by (apply on_gdb_run; exact Hrun).
Qed.

(** ** Answering a request for headers *)

(** The block of the main chain at a height. *)
Definition main_block (d : db_t) (h : Z) : option Block :=
  match db_view d !! keyHashByHeight h with Some x => block_at d x | None => None end.

Lemma GetBlockByHeight_run d h : linked d -> exists x,
  GetBlockByHeight h d = (Ret (match main_block d h with Some b => Found b | None => NotFound end, x), d).
Proof.
  intros Hl. unfold GetBlockByHeight, GetHashByHeight, main_block.
  erewrite gbind_ret by apply kv_get_ok.
  destruct (db_view d !! keyHashByHeight h) as [x|]; [|by eexists].
  rewrite (gbind_ret _ _ _ _ _ (GetBlockByHash_run d x Hl)). by eexists.
Qed.

Lemma collect_headers_run d k h : linked d -> is_u64 h -> h + Z.of_nat k <= M64 ->
  exists bs, collect_headers k h d = (Ret (map Header bs, map (fun b => Hash_String (BlockHash b)) bs), d) /\
  (length bs <= k)%nat /\
  (forall i b, bs !! i = Some b -> main_block d (h + Z.of_nat i) = Some b) /\
  ((length bs < k)%nat -> main_block d (h + Z.of_nat (length bs)) = None).
Proof.
  intros Hl. revert h. induction k as [|k IH]; intros h Hh Hb; cbn [collect_headers].
  { exists []. split; [done|]. split; [done|]. split; [done|]. cbn. lia. }
  destruct (GetBlockByHeight_run d h Hl) as [x Hx].
  rewrite (gbind_ret _ _ _ _ _ (gignore_ret _ _ _ _ _ Hx)). cbn [fst].
  destruct (main_block d h) as [b|] eqn:Hm; cbn [found_ok].
  2:{ exists []. split; [done|]. split; [cbn; lia|]. split; [done|]. by rewrite Z.add_0_r. }
  destruct k as [|k].
  { exists [b]. cbn. split; [done|]. split; [lia|]. split; [|lia].
    intros [|i] b'; [|done]. intros [= ->]. by rewrite Z.add_0_r. }
  destruct (IH (u64 (h + 1))) as (bs & Hrun & Hlen & Hin & Hend).
  { apply u64_range. }
  { rewrite u64_id by (unfold is_u64 in *; lia). lia. }
  rewrite u64_id in * by (unfold is_u64 in *; lia).
  rewrite (gbind_ret _ _ _ _ _ Hrun). exists (b :: bs). split; [done|]. cbn [length].
  split; [lia|]. split.
  - intros [|i] b'; [intros [= ->]; by rewrite Z.add_0_r|]. intros Hi. rewrite <- (Hin i b' Hi). f_equal. lia.
  - intros Hlt. rewrite <- Hend by lia. f_equal. lia.
Qed.

(** Where the answer starts: above the first locator hash that is stored, or as asked. *)
Fixpoint known_start (d : db_t) (start : Z) (locator : list string) : Z :=
  match locator with
  | [] => start
  | h :: rest => match block_at d h with Some b => u64 (Height (Header b) + 1) | None => known_start d start rest end
  end.

Lemma locate_start_run d start locator : linked d ->
  locate_start start locator d = (Ret (known_start d start locator), d).
Proof.
  intros Hl. induction locator as [|h rest IH]; cbn [locate_start known_start]; [done|].
  rewrite (gbind_ret _ _ _ _ _ (gignore_ret _ _ _ _ _ (GetBlockByHash_run d h Hl))).
  by destruct (block_at d h).
Qed.

(** The number of headers a request is answered with at most. *)
Definition headers_wanted (req : headersReq) : Z :=
  if hq_Count req <=? 0 then 200 else Z.min (hq_Count req) 2000.

(** The answer to [get_headers] is a run of consecutive main-chain blocks that starts above the
    first common block, never longer than asked, than 2000 or than the tip, and it ends early
    only where the index has no block. *)
Theorem answer_headers_spec d req tipH tip : linked d -> GetTip d = (Ret (Some (tipH, tip)), d) ->
  is_u64 tipH -> is_u64 (hq_From req) ->
  let from := known_start d (hq_From req) (hq_Locator req) in from + 2000 < M64 ->
  exists bs, answer_headers req d = (Ret {| hr_From := from; hr_Headers := map Header bs;
      hr_Hashes := map (fun b => Hash_String (BlockHash b)) bs |}, d) /\
  len bs <= headers_wanted req /\
  (forall i b, bs !! i = Some b -> main_block d (from + Z.of_nat i) = Some b /\ from + Z.of_nat i <= tipH) /\
  (len bs < headers_wanted req -> from + len bs <= tipH -> main_block d (from + len bs) = None).
Proof.
  intros Hl Htip Ht Hfrom from Hroom.
  assert (is_u64 from) as Hu.
  { unfold from. clear Hroom from. induction (hq_Locator req); cbn; [done|].
    destruct (block_at d a); [apply u64_range|done]. }
  unfold answer_headers. cbv zeta.
  rewrite (gbind_ret _ _ _ _ _ (locate_start_run d _ _ Hl)). fold from.
  rewrite (gbind_ret _ _ _ _ _ (gignore_ret _ _ _ _ _ Htip)). cbn [option_map from_option fst id]. change (id tipH) with tipH.
  set (count := if 2000 <? _ then _ else _).
  assert (count = headers_wanted req /\ 0 < count <= 2000) as [Hcount Hrange].
  { unfold count, headers_wanted. destruct (Z.leb_spec (hq_Count req) 0); cbn; [lia|].
    destruct (Z.ltb_spec 2000 (hq_Count req)); lia. }
  unfold is_u64 in *. rewrite (u64_id (from + count)), (u64_id (from + count - 1)) by (unfold is_u64; lia).
  set (last := if tipH <? _ then _ else _).
  assert (last = Z.min tipH (from + count - 1)) as Hlast.
  { unfold last. destruct (Z.ltb_spec tipH (from + count - 1)); lia. }
  destruct (collect_headers_run d (Z.to_nat (last + 1 - from)) from Hl) as (bs & Hrun & Hlen & Hin & Hend);
    [done|lia|].
  rewrite (gbind_ret _ _ _ _ _ Hrun). exists bs. split; [done|]. unfold len.
  split; [lia|]. split.
  - intros i b Hi. split; [by apply Hin|]. apply lookup_lt_Some in Hi. lia.
  - intros H1 H2. apply Hend. lia.
Qed.
End GossipProps.

(** ** Links of received headers *)

(** Every header names the hash of the one before, the first one the tip. *)
Fixpoint header_links {HS : Hashes} (tip : string) (headers : list BlockHeader) : Prop :=
  match headers with
  | [] => True
  | h :: rest => Hash_String (PrevHash h) = tip /\ header_links (Hash_String (HeaderHash h)) rest
  end.

Section Headers.
Context {HS : Hashes}.

Definition hash_hex (h : BlockHeader) : string := Hash_String (HeaderHash h).

Lemma links_ok_spec h headers : links_ok headers (hash_hex h :: map hash_hex headers) = true <->
  header_links (hash_hex h) headers.
Proof.
  revert h. induction headers as [|x rest IH]; intros h; cbn [links_ok map header_links]; [done|].
  rewrite andb_true_iff, String.eqb_eq. by rewrite IH.
Qed.

(** With the hashes of the headers alongside, the check accepts exactly a chain on top of the
    tip; without them it looks at the first header only. *)
Theorem validateHeadersChain_linked tip headers :
  (validateHeadersChain tip headers (map hash_hex headers) = true <-> header_links tip headers) /\
  (validateHeadersChain tip headers [] = true <->
     match headers with [] => True | h :: _ => Hash_String (PrevHash h) = tip end).
Proof.
  destruct headers as [|h rest]; [done|]. unfold validateHeadersChain. cbn [map length Nat.eqb negb andb].
  rewrite length_map, Nat.eqb_refl. cbn [negb].
  destruct (String.eqb_spec (Hash_String (PrevHash h)) tip) as [He|He]; cbn [negb header_links];
    [|naive_solver].
  split; [|done]. fold (hash_hex h). rewrite links_ok_spec. tauto.
Qed.
End Headers.

(** ** The limiter *)

(** [k] messages of one peer at one instant: what the limiter says to each. *)
Fixpoint allow_many (k : nat) (nano : Z) (peer : string) (rl : peerLimiter) : list bool * peerLimiter :=
  match k with
  | O => ([], rl)
  | S k' => let '(ok, rl1) := allow nano peer rl in
            let '(oks, rl2) := allow_many k' nano peer rl1 in (ok :: oks, rl2)
  end.

Definition node_rate : f64 := f64_of_Z 30.
Definition node_burst : f64 := f64_of_Z 60.

#[export] Instance f64_eq_dec : EqDecision f64.
Proof. solve_decision. Defined.

(** The arithmetic of the bucket at whole seconds, for every content. *)
Definition refill (t sec : Z) : f64 := minf node_burst (f64_add (f64_of_Z t)
  (f64_mul (f64_div (f64_of_Z (sec * 1000000000)) (f64_of_Z 1000000000)) node_rate)).
Definition take_one (t : Z) : bool :=
  bool_decide (f64_ltb (f64_of_Z t) (f64_of_Z 1) = (t <? 1)) &&
  ((t <? 1) || bool_decide (f64_sub (f64_of_Z t) (f64_of_Z 1) = f64_of_Z (t - 1))).

Lemma bucket_table : forallb (fun t => take_one (Z.of_nat t) && forallb (fun sec =>
  bool_decide (refill (Z.of_nat t) (Z.of_nat sec) = f64_of_Z (Z.min 60 (Z.of_nat t + 30 * Z.of_nat sec))))
  (seq 0 3)) (seq 0 61) = true.
Proof. vm_compute. reflexivity. Qed.

Lemma bucket_exact t : 0 <= t <= 60 -> take_one t = true /\
  forall sec, 0 <= sec <= 2 -> refill t sec = f64_of_Z (Z.min 60 (t + 30 * sec)).
Proof.
  intros Ht. pose proof (proj1 (forallb_forall _ _) bucket_table (Z.to_nat t)) as H. cbv beta in H.
  rewrite Z2Nat.id in H by lia. apply andb_true_iff in H as [H1 H2]; [|apply in_seq; lia].
  split; [done|]. intros sec Hs.
  pose proof (proj1 (forallb_forall _ _) H2 (Z.to_nat sec)) as H. cbv beta in H.
  rewrite Z2Nat.id in H by lia. eapply bool_decide_eq_true_1, H, in_seq. lia.
Qed.

(** A limiter with the node's rate and burst. *)
Definition node_limiter (rl : peerLimiter) : Prop := rl_rate rl = node_rate /\ rl_burst rl = node_burst.

(** The bucket of a peer: [t] tokens at time [last]; a peer that was never seen has a full one. *)
Definition bucket (rl : peerLimiter) (peer : string) (t last : Z) : Prop :=
  rl_m rl !! peer = Some (f64_of_Z t, last) \/ (rl_m rl !! peer = None /\ t = 60).

Lemma allow_run rl peer t last sec : node_limiter rl -> bucket rl peer t last -> 0 <= t <= 60 -> 0 <= sec <= 2 ->
  let nano := last + sec * 1000000000 in let have := Z.min 60 (t + 30 * sec) in
  exists rl', allow nano peer rl = (0 <? have, rl') /\ node_limiter rl' /\
  rl_m rl' = <[peer := (f64_of_Z (Z.max 0 (have - 1)), nano)]> (rl_m rl).
Proof.
  intros [Hr Hb] Hbk Ht Hs nano have. unfold allow. rewrite Hr, Hb.
  assert (exists tk la, default (node_burst, nano) (rl_m rl !! peer) = (tk, la) /\
    minf node_burst (f64_add tk (f64_mul (f64_div (f64_of_Z (i64 (nano - la))) (f64_of_Z 1000000000)) node_rate)) =
    f64_of_Z have) as (tk & la & -> & ->).
  { destruct Hbk as [->|[-> ->]]; cbn [from_option id]; eexists _, _; (split; [done|]).
    - replace (nano - last) with (sec * 1000000000) by lia. rewrite i64_id by (unfold is_i64; lia).
      by apply bucket_exact.
    - replace (nano - nano) with (0 * 1000000000) by lia. rewrite i64_id by done.
      unfold have. replace (Z.min 60 (60 + 30 * sec)) with (Z.min 60 (60 + 30 * 0)) by lia.
      by apply (bucket_exact 60). }
  destruct (bucket_exact have) as [Hone _]; [unfold have; lia|].
  apply andb_true_iff in Hone as [Hlt%bool_decide_eq_true_1 Hsub]. rewrite Hlt.
  destruct (Z.ltb_spec have 1), (Z.ltb_spec 0 have); try lia.
  - eexists. split; [done|]. split; [done|]. cbn. by replace (Z.max 0 (have - 1)) with have by (unfold have in *; lia).
  - cbn in Hsub. apply bool_decide_eq_true_1 in Hsub. rewrite Hsub. eexists. split; [done|]. split; [done|].
    cbn. by replace (Z.max 0 (have - 1)) with (have - 1) by lia.
Qed.

(** At one instant, 0, 1 or 2 seconds after the last message of a peer, exactly as many of its
    messages pass as the bucket holds: the old content and 30 per second, 60 at most; a peer
    never seen gets 60.  The buckets of other peers are untouched. *)
Theorem limiter_burst k rl peer t last sec : node_limiter rl -> bucket rl peer t last ->
  0 <= t <= 60 -> 0 <= sec <= 2 ->
  let have := Z.to_nat (Z.min 60 (t + 30 * sec)) in
  let r := allow_many k (last + sec * 1000000000) peer rl in
  r.1 = replicate (Nat.min k have) true ++ replicate (k - have) false /\
  forall q, q <> peer -> rl_m r.2 !! q = rl_m rl !! q.
Proof.
  cbv zeta. revert rl t last sec. induction k as [|k IH]; intros rl t last sec Hn Hbk Ht Hs; [done|].
  set (have := Z.to_nat (Z.min 60 (t + 30 * sec))). cbn [allow_many].
  destruct (allow_run rl peer t last sec Hn Hbk Ht Hs) as (rl' & Hal & Hn' & Hm). rewrite Hal.
  set (left := Z.max 0 (Z.min 60 (t + 30 * sec) - 1)) in *.
  specialize (IH rl' left (last + sec * 1000000000) 0 Hn').
  rewrite Z.mul_0_l, Z.add_0_r in IH. destruct IH as [IH1 IH2]; [left; by rewrite Hm, lookup_insert_eq|lia..|].
  destruct (allow_many k _ peer rl') as [oks rl2]. cbn [fst snd] in *. split.
  - rewrite IH1. replace (Z.to_nat (Z.min 60 (left + 30 * 0))) with (have - 1)%nat by (unfold have, left; lia).
    destruct (Z.ltb_spec 0 (Z.min 60 (t + 30 * sec))); unfold have in *.
    + destruct (Z.to_nat (Z.min 60 (t + 30 * sec))) as [|hv] eqn:E; [lia|].
      cbn [Nat.min Nat.sub replicate app]. by rewrite Nat.sub_0_r.
    + replace (Z.to_nat (Z.min 60 (t + 30 * sec))) with 0%nat by lia. cbn. by rewrite Nat.min_0_r, Nat.sub_0_r.
  - intros q Hq. by rewrite IH2, Hm, lookup_insert_ne.
Qed.
