(* ===== verification/ApiProps.v ===== *)
(** * Properties of the HTTP interface

    Requests other than [POST] are safe on every route ([other_methods_safe]), registration
    clears a slashing ([register_unslashes]), the header range served to peers
    ([chain_headers_spec]), the fee report ends except at the last height
    ([reconcile_exact], [reconcile_never_ends]), and relays count their hops
    ([relay_hops]). *)

From S2P Require Import Prelude GoLang KV Chain Pow Storage StorageProps State Fees Config Crypto Validate Apply Mempool Forkchoice Sync Finality Node Gossip GossipProps Api.

(** ** Computations that leave a part of the state alone *)

Section Fixes.
Context {S T : Type} (f : S -> T).

Definition fixes {A} (m : GoM S A) : Prop := forall s, f (m s).2 = f s.

Lemma fixes_ret {A} (a : A) : fixes (gret a).
Proof. done. Qed.
Lemma fixes_err {A} e : fixes (gerr (A := A) e).
Proof. done. Qed.
Lemma fixes_panic {A} : fixes (gpanic (A := A)).
Proof. done. Qed.
Lemma fixes_lift {A} (o : outcome A) : fixes (glift o).
Proof. done. Qed.
Lemma fixes_part {A} (o : option A) : fixes (gpart o).
Proof. by destruct o. Qed.
Lemma fixes_get : fixes gget.
Proof. done. Qed.
Lemma fixes_bind {A B} (m : GoM S A) (k : A -> GoM S B) :
  fixes m -> (forall a, fixes (k a)) -> fixes (gbind m k).
Proof.
  intros Hm Hk s. unfold gbind. specialize (Hm s).
  destruct (m s) as [[a|e|] s']; cbn [snd] in *; [by rewrite Hk|done..].
Qed.
Lemma fixes_try {A} (m : GoM S A) : fixes m -> fixes (gtry m).
Proof. intros Hm s. unfold gtry. specialize (Hm s). by destruct (m s) as [[] ?]. Qed.
Lemma fixes_ignore {A} (d : A) (m : GoM S A) : fixes m -> fixes (gignore d m).
Proof. intros Hm s. unfold gignore. specialize (Hm s). by destruct (m s) as [[] ?]. Qed.
Lemma fixes_for {A} (l : list A) (k : A -> GoM S unit) : (forall a, fixes (k a)) -> fixes (gfor l k).
Proof. intros Hk. induction l; cbn [gfor]; [apply fixes_ret|apply fixes_bind; auto]. Qed.
End Fixes.

(** Nothing is changed. *)
Notation reads := (fixes id).

Lemma reads_zoom {S T A} (get : S -> T) (set : T -> S -> S) (m : GoM T A) :
  (forall s, set (get s) s = s) -> reads m -> reads (gzoom get set m).
Proof.
  intros Hs Hm s. unfold gzoom. specialize (Hm (get s)). unfold id in *.
  destruct (m (get s)) as [o t]; cbn [snd] in *. by rewrite Hm.
Qed.

Create HintDb reads.

Ltac reads_step :=
  match goal with
  | |- forall _, _ => intro
  | |- fixes _ (let _ := _ in _) => cbv zeta
  | |- fixes _ (gret _) => apply fixes_ret
  | |- fixes _ (gerr _) => apply fixes_err
  | |- fixes _ gpanic => apply fixes_panic
  | |- fixes _ (glift _) => apply fixes_lift
  | |- fixes _ (gpart _) => apply fixes_part
  | |- fixes _ gget => apply fixes_get
  | |- fixes _ (gbind _ _) => apply fixes_bind
  | |- fixes _ (gtry _) => apply fixes_try
  | |- fixes _ (gignore _ _) => apply fixes_ignore
  | |- fixes _ (gfor _ _) => apply fixes_for
  | |- fixes _ (match ?x with _ => _ end) => destruct x
  | |- _ => solve [eauto with reads]
  end.
Ltac reads_tac := repeat reads_step.

(** ** The reading operations of the store *)
Section Store.
Context {L : LevelDB} {HS : Hashes} {CD : Codecs}.

Lemma reads_kv_get k : reads (kv_get k).
Proof. done. Qed.
Lemma reads_kv_iter p : reads (kv_iter p).
Proof. done. Qed.
#[local] Hint Resolve reads_kv_get reads_kv_iter : reads.
Lemma reads_scan {A} p (body : string * string -> scan_step A) k : reads (scan_prefix p body k).
Proof. unfold scan_prefix. reads_tac. Qed.
Lemma reads_be64 k : reads (get_be64 k).
Proof. unfold get_be64. reads_tac. Qed.
Lemma reads_be64_len8 k : reads (get_be64_len8 k).
Proof. unfold get_be64_len8. reads_tac. Qed.
Lemma reads_json_found {A} `{JSON A} k : reads (get_json_found (A := A) k).
Proof. unfold get_json_found. reads_tac. Qed.
Lemma reads_json {A} `{JSON A} k : reads (get_json (A := A) k).
Proof. unfold get_json. reads_tac. Qed.
Lemma reads_getU64 k : reads (getU64 k).
Proof. unfold getU64. reads_tac. Qed.
#[local] Hint Resolve reads_scan reads_be64 reads_be64_len8 reads_json_found reads_json reads_getU64 : reads.
Lemma reads_GetTip : reads GetTip.
Proof. unfold GetTip. reads_tac. Qed.
Lemma reads_GetHeaderTip : reads GetHeaderTip.
Proof. unfold GetHeaderTip. reads_tac. Qed.
Lemma reads_GetHeaderFrontier : reads GetHeaderFrontier.
Proof. unfold GetHeaderFrontier. reads_tac. Qed.
Lemma reads_GetFinalized : reads GetFinalized.
Proof. unfold GetFinalized. reads_tac. Qed.
Lemma reads_GetBlockByHeight h : reads (GetBlockByHeight h).
Proof. unfold GetBlockByHeight, GetHashByHeight, GetBlockByHash. reads_tac. Qed.
Lemma reads_GetBalance id : reads (GetBalance id).
Proof. unfold GetBalance. reads_tac. Qed.
Lemma reads_GetFeePools : reads GetFeePools.
Proof. unfold GetFeePools. reads_tac. Qed.
Lemma reads_GetBlockFeeSum h : reads (GetBlockFeeSum h).
Proof. unfold GetBlockFeeSum. reads_tac. Qed.
Lemma reads_GetPeerStat pub : reads (GetPeerStat pub).
Proof. unfold GetPeerStat. reads_tac. Qed.
End Store.
#[export] Hint Resolve reads_kv_get reads_kv_iter reads_scan reads_be64 reads_be64_len8 reads_json_found
  reads_json reads_getU64 reads_GetTip reads_GetHeaderTip reads_GetHeaderFrontier reads_GetFinalized
  reads_GetBlockByHeight reads_GetBalance reads_GetFeePools reads_GetBlockFeeSum reads_GetPeerStat : reads.

Section Readers.
Context {L : LevelDB} {HS : Hashes} {CD : Codecs} {MO : MapOrder} {TS : TxSort} {FS : SnapFiles} {VJ : JSON HeightView}.

Lemma reads_eligible : reads EligibleSnapshot.
Proof.
  assert (forall l, reads (eligible_loop l)) as H.
  { induction l as [|[acct mp] l IH]; cbn [eligible_loop]; unfold cur_nonce, GetNonce; [apply fixes_ret|].
    reads_tac. apply reads_zoom; [by intros []|]. reads_tac. }
  unfold EligibleSnapshot. reads_tac. done.
Qed.

(** The simulation writes to its own maps only. *)
Lemma fixes_sim_db {A} (m : GoM db_t A) : reads m -> fixes fst (sim_db m).
Proof. intros Hm [d s]. unfold sim_db, gzoom. specialize (Hm d). cbn in *. by destruct (m d). Qed.
Lemma fixes_sim_mod f : fixes fst (sim_mod f).
Proof. by intros [d s]. Qed.
Lemma fixes_getBal id : fixes fst (getBal cached_ops id).
Proof. cbn [getBal cached_ops]. reads_tac; first [apply fixes_sim_mod|apply fixes_sim_db]. reads_tac. Qed.
Lemma fixes_getNon id : fixes fst (getNon cached_ops id).
Proof.
  cbn [getNon cached_ops]. unfold GetNonce. reads_tac; first [apply fixes_sim_mod|apply fixes_sim_db]. reads_tac.
Qed.
Lemma fixes_setBal id v : fixes fst (setBal cached_ops id v).
Proof. apply fixes_sim_mod. Qed.
Lemma fixes_setNon id v : fixes fst (setNon cached_ops id v).
Proof. apply fixes_sim_mod. Qed.
#[local] Hint Resolve fixes_getBal fixes_getNon fixes_setBal fixes_setNon : reads.

Lemma reads_FilterTxs txs : reads (FilterTxsBySimState txs).
Proof.
  assert (forall l, fixes fst (filter_loop cached_ops l)) as H.
  { induction l as [|tx l IH]; cbn [filter_loop]; unfold filter_tx, credit_out; reads_tac. }
  intros d. unfold FilterTxsBySimState. specialize (H (sort_txs txs) (d, empty_sim)).
  by destruct (filter_loop cached_ops (sort_txs txs) (d, empty_sim)) as [r [d' s']].
Qed.

Lemma reads_FindFirstKnown locator : reads (FindFirstKnown locator).
Proof. induction locator as [|h l IH]; cbn [FindFirstKnown]; reads_tac. Qed.
Lemma reads_header_path fuel a b c : reads (headerPathFromTo fuel a b c).
Proof.
  assert (forall k cur, reads (header_path_loop k a b cur)) as H.
  { induction k as [|k IH]; intros cur; cbn [header_path_loop]; unfold GetHeaderByHash; reads_tac. }
  unfold headerPathFromTo. reads_tac.
Qed.
Lemma reads_count_missing path : reads (count_missing path).
Proof. induction path; cbn [count_missing]; unfold GetBlockByHash; reads_tac. Qed.
Lemma reads_plan room start cur : reads (plan_loop room start cur).
Proof. revert cur. induction room; intros cur; cbn [plan_loop]; unfold GetHeaderByHash; reads_tac. Qed.
Lemma reads_headers k h : reads (headers_loop k h).
Proof. revert h. induction k; intros h; cbn [headers_loop]; reads_tac. Qed.
Lemma reads_reconcile k h to t b : reads (reconcile_loop k h to t b).
Proof. revert h t b. induction k; intros h t b; cbn [reconcile_loop]; reads_tac. Qed.
Lemma reads_anchor : reads local_anchor.
Proof. unfold local_anchor, GetFinalizedHeight. reads_tac. Qed.
Lemma reads_snapshots dir : reads (ListSnapshots dir).
Proof. done. Qed.
Lemma reads_snapshot path : reads (ReadSnapshotAuto path).
Proof. unfold ReadSnapshotAuto. by destruct (str_suffix _ _). Qed.
End Readers.
#[export] Hint Resolve reads_eligible reads_FilterTxs reads_FindFirstKnown reads_header_path reads_count_missing
  reads_plan reads_headers reads_reconcile reads_anchor reads_snapshots reads_snapshot : reads.

(** ** Every route *)
Section Routes.
Context {L : LevelDB} {HS : Hashes} {CD : Codecs} {ED : Ed25519} {E : Edwards}
  {MO : MapOrder} {FS : SnapFiles} {TS : TxSort} {BD : Bodies} {HV : JSON HeightView}.
Context (cfg : Config) (mustHex32 : string -> string) (genesis : Genesis).
Context (NextWorkRequired : (Z -> GoM db_t (option BlockHeader)) -> (Z -> GoM db_t (option Z)) ->
  Z -> GoM db_t (option Z)).
Context (n : FinNode) (b_Height feeSum : Z).
Context (ListVotes : Z -> Z -> GoM db_t (list VoteRecord)).
Context (validateTxAdmission : Tx -> GoM db_t Tx).
Context (ApplyBlock : Block -> GoM (db_t * fs_t) unit).
Context (rs_SetBalance : string -> Z -> GoM db_t unit).
Context (findForkPointCached : Z -> string -> Z -> string -> GoM db_t (Z * string)).
Context (InFlightTimeoutSec maxQueueFill : Z).
Context (senders : list string) (sessions : option (list string)) (ready : bool) (fuel : nat).

Notation serve := (serve cfg mustHex32 genesis NextWorkRequired n b_Height feeSum ListVotes validateTxAdmission
  ApplyBlock rs_SetBalance findForkPointCached InFlightTimeoutSec maxQueueFill senders sessions ready fuel).
Notation routes := (routes cfg mustHex32 genesis NextWorkRequired n b_Height feeSum ListVotes validateTxAdmission
  ApplyBlock rs_SetBalance findForkPointCached InFlightTimeoutSec maxQueueFill senders sessions ready fuel).

Lemma reads_on_kv {A} (m : GoM db_t A) : reads m -> reads (on_kv m).
Proof.
  intros Hm. apply reads_zoom; [by intros []|]. unfold on_db. by apply reads_zoom; [intros []|].
Qed.
Lemma reads_on_files {A} (m : GoM fs_t A) : reads m -> reads (on_files m).
Proof.
  intros Hm. apply reads_zoom; [by intros []|]. unfold on_fs. by apply reads_zoom; [intros []|].
Qed.
Lemma reads_on_mempool {A} (m : GoM (db_t * Mempool) A) : reads m -> reads (on_mempool m).
Proof. apply reads_zoom. by intros [[] ? ? ? ? ?]. Qed.
Lemma reads_respond st b : reads (respond st b).
Proof. done. Qed.
Lemma reads_or_500 {A} (m : GoM api A) k : reads m -> (forall a, reads (k a)) -> reads (or_500 m k).
Proof. intros Hm Hk. unfold or_500. reads_tac; by try apply Hk. Qed.

(** A request of another method does not reach the handler. *)
Lemma only_post h req : rq_Method req <> "POST" -> reads (only "POST" h req).
Proof. intros Hm. unfold only. by destruct (String.eqb_spec (rq_Method req) "POST"). Qed.
Lemma only_get h req : reads (h req) -> reads (only "GET" h req).
Proof. intros Hh. unfold only. by destruct (rq_Method req =? "GET")%string. Qed.

(** [ListVotes] lists. *)
Hypothesis ListVotes_reads : forall h k, reads (ListVotes h k).

Ltac route_step :=
  match goal with
  | |- fixes _ (on_kv _) => apply reads_on_kv
  | |- fixes _ (on_files _) => apply reads_on_files
  | |- fixes _ (on_mempool _) => apply reads_on_mempool
  | |- fixes _ (respond _ _) => apply reads_respond
  | |- fixes _ (or_500 _ _) => apply reads_or_500
  | |- fixes _ (only "GET" _ _) => apply only_get
  | |- _ => reads_step
  end.

Lemma other_methods_read now nano bt dw : Forall (fun r : string * Handler =>
  forall req, rq_Method req <> "POST" -> reads (r.2 req)) (routes now nano bt dw).
Proof.
  unfold Api.routes. repeat (apply Forall_cons; split); try apply Forall_nil_2; cbn [snd]; intros req Hm.
  all: try (by apply only_post).
  all: try solve [unfold healthz, readyz, p2p_peerstat, p2p_bans, p2p_sessions, p2p_info, node_role, metrics,
    sync_last_headers, sync_candidates, sync_reorg_best_check, sync_peers, sync_headers_at_height, sync_plan,
    sync_state_height, sync_missing, sync_cumwork, sync_best_header_tip, sync_header_tip, sync_frontier,
    sync_status, mine_template, version, chain_info, finality_info, pos_validators_source, pos_slashing_status,
    pos_validators, finality_validators, finality_anchor, finality_status, finality_finalized, finality_tally,
    finality_checkpoints, finality_votes, state_nonce, state_info, state_snapshot_info, state_snapshots,
    state_balance, otap_bucket, with_id, balance_of, nonce_of, pop_score, pop_participants, peers_list,
    gossip_info, mempool_eligible, mempool_queue, mempool_persisted, mempool_info, fees_reconcile, fees_info,
    tx_get, chain_block_by_hash, chain_header_by_hash, block_by_hash_reply, chain_headers, chain_block,
    tip_view, header_tip_view, finalized_hash, obj, code, fail_text, ListCheckpoints, ListValidators,
    ListPeerStats, ListPeers, ListParticipants, ListPersistedMempool, ListCandidatesAtHeight,
    ListHeaderHashesAtHeight, ListVotesForHeight, GetFinalizedHeight, GetFinalizedHash, GetCumWork, GetNonce,
    GetScore, GetTx, GetBlockByHash; repeat route_step].
  unfold tx_submit. destruct (isReadOnly cfg); [done|]. destruct (negb _); [done|].
  by destruct (String.eqb_spec (rq_Method req) "POST").
Qed.

(** C28. On every path, a request whose method is not [POST] leaves the whole state as it was: the
    store, the files, the pool, the sync manager, the settings and what was sent. *)
Theorem other_methods_safe now nano bt dw path req s : rq_Method req <> "POST" ->
  (serve now nano bt dw path req s).2 = s.
Proof.
  intros Hm. pose proof (other_methods_read now nano bt dw) as H. unfold Api.serve.
  destruct (List.find _ _) as [r|] eqn:Hf; [|done].
  apply find_some in Hf as [Hin _]. rewrite Forall_forall in H.
  apply list_elem_of_In in Hin. exact (H r Hin req Hm s).
Qed.

(** ** Registration of validators *)

Context {HL : LevelDBOk L} {HUv : Utf8 Validator} {HJv : JSONOk Validator}.

(** What the registry holds for a key. *)
Definition registered (d : db_t) (pub : string) : option Validator :=
  match db_view d !! keyValidator pub with
  | Some b => match json_unmarshal b with Ret v => Some v | _ => None end
  | None => None
  end.

Lemma on_kv_run {A} (m : GoM db_t A) s o d : m (a_chain s).1 = (o, d) ->
  on_kv m s = (o, set_chain (d, (a_chain s).2) s).
Proof. intros H. unfold on_kv, on_node, on_db, gzoom. by rewrite H. Qed.

(** Whoever asks, [POST /pos/register] stores the key with the weight asked for and not slashed,
    whatever the registry said of it before. *)
Theorem register_unslashes now req body s : rq_Method req = "POST" -> 0 < now ->
  decode_body (rq_Body req) = Ret body -> po_PubkeyHex body <> "" ->
  let v := {| va_PubkeyHex := po_PubkeyHex body; va_Name := po_Name body;
              va_Weight := if po_Weight body <=? 0 then 1 else po_Weight body;
              va_AddedUnix := now; va_Slashed := false |} in utf8_ok v = true ->
  exists d', pos_register now req s = (Ret (Some {| rs_Status := 200; rs_Body := RJson (JObj [("ok", JBool true)]) |}),
                                       set_chain (d', (a_chain s).2) s) /\
  registered d' (po_PubkeyHex body) = Some v /\
  forall k, k <> keyValidator (po_PubkeyHex body) -> db_view d' !! k = db_view (a_chain s).1 !! k.
Proof.
  intros Hm Hnow Hb Hp v Hu. unfold pos_register, only, with_body. rewrite Hm, String.eqb_refl, Hb. cbn [negb].
  destruct (String.eqb_spec (po_PubkeyHex body) "") as [|_]; [done|].
  destruct (json_round_trip v Hu) as (txt & Hmar & Hun).
  set (d' := db_ins (keyValidator (po_PubkeyHex body)) txt (a_chain s).1). exists d'.
  split; [|split].
  - rewrite (gbind_ret _ _ _ tt (set_chain (d', (a_chain s).2) s)); [done|].
    apply gignore_ret, on_kv_run. unfold PutValidator. cbn. unfold put_json, gbind, glift. fold v.
    rewrite Hmar. apply db_put_ok.
  - unfold registered, d'. by rewrite db_view_ins, lookup_insert_eq, Hun.
  - intros k Hk. unfold d'. by rewrite db_view_ins, lookup_insert_ne.
Qed.

(** ** Headers for peers *)

Lemma headers_loop_collect d k h : linked d ->
  exists hs, headers_loop k h d = (Ret hs, d) /\ exists xs, collect_headers k h d = (Ret (hs, xs), d).
Proof.
  intros Hl. revert h. induction k as [|k IH]; intros h; cbn [headers_loop collect_headers]; [by eexists; eauto|].
  destruct (GetBlockByHeight_run d h Hl) as [x Hx].
  rewrite (gbind_ret _ _ _ _ _ (gtry_ret _ _ _ _ Hx)), (gbind_ret _ _ _ _ _ (gignore_ret _ _ _ _ _ Hx)).
  cbn [fst]. destruct (main_block d h) as [b|]; cbn [found_ok]; [|by eexists; eauto].
  destruct (IH (u64 (h + 1))) as (hs & H1 & xs & H2).
  rewrite (gbind_ret _ _ _ _ _ H1), (gbind_ret _ _ _ _ _ H2). by eexists; eauto.
Qed.

(** [GET /chain/headers] answers with consecutive main-chain headers from the height asked for,
    2000 at most, and stops early only where there is no block. *)
Theorem chain_headers_spec req s from count : linked (a_chain s).1 -> rq_Method req = "GET" ->
  strconv_ParseUint (rq_Query req "from") = (from, true) -> is_u64 from ->
  Atoi (rq_Query req "count") = (count, true) -> 0 < count -> from + 2000 < M64 ->
  exists bs, chain_headers req s = (Ret (Some {| rs_Status := 200; rs_Body := RJson (JObj
      [("from", JInt from); ("count", JInt (len bs)); ("headers", JHeaders (map Header bs))]) |}), s) /\
  len bs <= Z.min count 2000 /\
  (forall i b, bs !! i = Some b -> main_block (a_chain s).1 (from + Z.of_nat i) = Some b) /\
  (len bs < Z.min count 2000 -> main_block (a_chain s).1 (from + len bs) = None).
Proof.
  intros Hl Hm Hf Hu Hc Hpos Hroom. unfold chain_headers, only. rewrite Hm, String.eqb_refl, Hf, Hc. cbn [negb orb].
  destruct (Z.leb_spec count 0); [lia|]. cbv zeta.
  assert ((if 2000 <? count then 2000 else count) = Z.min count 2000) as ->
    by (destruct (Z.ltb_spec 2000 count); lia).
  destruct (headers_loop_collect (a_chain s).1 (Z.to_nat (Z.min count 2000)) from Hl) as (hs & H1 & xs & H2).
  destruct (collect_headers_run (a_chain s).1 (Z.to_nat (Z.min count 2000)) from Hl Hu)
    as (bs & H3 & Hlen & Hin & Hend); [lia|].
  rewrite H2 in H3. injection H3 as -> ->.
  exists bs. unfold len in *. split; [|split; [lia|split; [done|intros; apply Hend; lia]]].
  rewrite (gbind_ret _ _ _ (map Header bs) s).
  - unfold obj, respond, gret. unfold len. by rewrite length_map.
  - rewrite (on_kv_run _ _ _ _ H1). by destruct s as [[] ? ? ? ? ?].
Qed.

(** ** The fee report *)

(** The fee sum recorded for a height. *)
Definition fee_at (d : db_t) (h : Z) : option Z :=
  match db_view d !! keyBlockFees h with
  | Some b => if Nat.eqb (String.length b) 8 then option_map i64 (BE_Uint64 b) else None
  | None => None
  end.
Definition fee_total (d : db_t) (from : Z) (k : nat) : Z :=
  sumZ (fun h => default 0 (fee_at d h)) (seqZ from (Z.of_nat k)).
Definition fee_blocks (d : db_t) (from : Z) (k : nat) : Z :=
  sumZ (fun h => match fee_at d h with Some _ => 1 | None => 0 end) (seqZ from (Z.of_nat k)).

Lemma GetBlockFeeSum_run d h : GetBlockFeeSum h d = (Ret (fee_at d h), d).
Proof.
  unfold GetBlockFeeSum, gbind, gignore, fee_at. rewrite kv_get_ok. by destruct (db_view d !! keyBlockFees h).
Qed.

Lemma seqZ_step from k : seqZ from (Z.of_nat (S k)) = from :: seqZ (from + 1) (Z.of_nat k).
Proof. rewrite seqZ_cons by lia. f_equal. f_equal; lia. Qed.

Lemma reconcile_run d to k f h total blocks : (k <= f)%nat -> is_u64 h -> to < max_u64 -> to + 1 = h + Z.of_nat k ->
  is_i64 total -> is_i64 blocks ->
  reconcile_loop f h to total blocks d =
    (Ret (Some (i64 (total + fee_total d h k), i64 (blocks + fee_blocks d h k))), d).
Proof.
  revert f h total blocks. induction k as [|k IH]; intros f h total blocks Hf Hh Hto Hk Ht Hb.
  { destruct f; cbn [reconcile_loop]; destruct (Z.ltb_spec to h); try lia;
      unfold gret, fee_total, fee_blocks; by rewrite seqZ_nil, !sumZ_nil, !Z.add_0_r, !i64_id by done. }
  destruct f as [|f]; [lia|]. cbn [reconcile_loop]. destruct (Z.ltb_spec to h); [lia|].
  rewrite (gbind_ret _ _ _ _ _ (GetBlockFeeSum_run d h)).
  unfold max_u64, is_u64 in *. rewrite u64_id by (unfold is_u64; lia).
  unfold fee_total, fee_blocks. rewrite seqZ_step, !sumZ_cons.
  assert (forall t b, is_i64 t -> is_i64 b -> reconcile_loop f (h + 1) to t b d =
    (Ret (Some (i64 (t + fee_total d (h + 1) k), i64 (b + fee_blocks d (h + 1) k))), d)) as Hrest
    by (intros; apply IH; unfold is_u64; auto; lia).
  fold (fee_total d (h + 1) k) (fee_blocks d (h + 1) k).
  destruct (fee_at d h) as [x|]; cbn [from_option]; unfold id; rewrite Hrest by auto using i64_range;
    rewrite ?i64_add_l; repeat match goal with |- i64 _ = i64 _ => fail 1 | |- _ => f_equal end; f_equal; lia.
Qed.

(** Below the last height the report ends after one step per height and gives the number of
    blocks that have a recorded sum and the 64-bit sum of those. *)
Theorem reconcile_exact d from to : is_u64 from -> from <= to < max_u64 ->
  (Z.to_nat (to + 1 - from) <= fuel)%nat ->
  let k := Z.to_nat (to + 1 - from) in
  reconcile_loop fuel from to 0 0 d = (Ret (Some (i64 (fee_total d from k), i64 (fee_blocks d from k))), d).
Proof. intros Hf Hto Hfuel k. apply (reconcile_run d to k); try done; lia. Qed.

Lemma reconcile_stuck d f h total blocks : is_u64 h ->
  reconcile_loop f h max_u64 total blocks d = (Ret None, d).
Proof.
  revert h total blocks. induction f as [|f IH]; intros h total blocks Hh; cbn [reconcile_loop];
    (destruct (Z.ltb_spec max_u64 h); [unfold max_u64, is_u64 in *; lia|]); [done|].
  rewrite (gbind_ret _ _ _ _ _ (GetBlockFeeSum_run d h)).
  destruct (fee_at d h); apply IH, u64_range.
Qed.

(** Asked for sums up to the last height, which is also what any number too large is read as, the
    report never ends: no number of steps is enough, because the height wraps to 0. *)
Theorem reconcile_never_ends req s : query_height req "to" = max_u64 -> is_u64 (query_height req "from") ->
  fees_reconcile fuel req s = (Ret None, s).
Proof.
  intros Hto Hf. unfold fees_reconcile. cbv zeta. rewrite Hto.
  change (max_u64 =? 0) with false. unfold gbind at 1. unfold gret at 1.
  destruct (Z.ltb_spec max_u64 (query_height req "from")); [unfold max_u64, is_u64 in *; lia|].
  rewrite (gbind_ret _ _ _ None s); [done|].
  rewrite (on_kv_run _ _ _ _ (reconcile_stuck _ _ _ _ _ Hf)). by destruct s as [[] ? ? ? ? ?].
Qed.
End Routes.

(** ** Hops *)
Section Relays.
Context {L : LevelDB} {HS : Hashes} {CD : Codecs}.

(** A transaction that arrives with hop [h] can be relayed [k] times more, by nodes whose
    configured limit is at most [M]. *)
Inductive relays (M : Z) : Z -> nat -> Prop :=
| relays_end h : relays M h 0
| relays_on cfg d tx h posts d' url m k : gc_MaxHops (c_Gossip cfg) <= M ->
    gossipTx cfg tx h d = (Ret posts, d') -> In (PostTx url m) posts -> relays M (gt_Hop m) k ->
    relays M h (S k).

(** Every relay counts: at most [M - h] follow, which is more than [M] when the first sender put a
    negative hop into its message, since no handler checks it. *)
Theorem relay_hops M h k : M < M63 -> - M63 <= h -> relays M h k -> Z.of_nat k <= Z.max 0 (M - h).
Proof.
  intros HM Hh Hr. induction Hr as [h|cfg d tx h posts d' url m k Hmax Hg Hin Hr IH]; [lia|].
  unfold gossipTx in Hg. destruct (negb _); [by injection Hg as <- <-|].
  destruct (Z.leb_spec (gc_MaxHops (c_Gossip cfg)) h); [by injection Hg as <- <-|].
  apply gbind_inv in Hg as (peers & d1 & _ & Hg). injection Hg as <- <-.
  apply in_map_iff in Hin as (p & [= <- <-] & _). cbn [gt_Hop] in IH.
  rewrite i64_id in IH by (unfold is_i64; lia). specialize (IH ltac:(lia)). lia.
Qed.
End Relays.
