(* ===== verification/HttpProps.v ===== *)
(** * Properties of the HTTP clients against the servers they reach

    Numbers and query strings survive the way ([ParseUint_itoaU], [query_get_of]); the answers a
    node gets from a peer are functions of the peer's store ([peer_answers]); a wallet's claims
    change nothing at the node ([claims_change_nothing]); the second account of a storage
    service gets no address ([second_account_refused]). *)

From S2P Require Import Prelude GoLang KV Chain Pow Storage StorageProps State Fees Config Crypto Validate Apply Mempool Forkchoice Sync Finality KeyVault StorageDaemon Node Wallet SyncOnce Gossip Api GossipProps ApiProps HttpClient.

(** ** Numbers *)

Lemma digits_val_app a b : digits_val (a ++ b) = digits_val a + 10 ^ Z.of_nat (length a) * digits_val b.
Proof.
  induction a as [|c a IH]; [cbn; lia|]. cbn [app digits_val length]. rewrite IH, Nat2Z.inj_succ, Z.pow_succ_r by lia. lia.
Qed.

Lemma digits_val_pos l : Forall (fun c => is_digit c = true) l -> 0 <= digits_val l.
Proof.
  induction 1 as [|c l Hc _ IH]; cbn [digits_val]; [lia|].
  unfold is_digit, digit_val in *. apply andb_true_iff in Hc as [H1%Z.leb_le _]. lia.
Qed.

Lemma parse_uint_digits l v : Forall (fun c => is_digit c = true) l -> 0 <= v ->
  v * 10 ^ Z.of_nat (length l) + digits_val (rev l) < M64 ->
  parse_uint_loop v l = (v * 10 ^ Z.of_nat (length l) + digits_val (rev l), true).
Proof.
  intros Hl. revert v. induction Hl as [|c l Hc Hl IH]; intros v Hv Hfit.
  { cbn in *. do 2 f_equal; lia. }
  cbn [rev] in *. rewrite digits_val_app in *. cbn [digits_val parse_uint_loop length] in *. rewrite length_rev in *.
  rewrite Nat2Z.inj_succ, Z.pow_succ_r in * by lia. rewrite Hc. cbn [negb].
  assert (0 <= digit_val c) by (unfold is_digit, digit_val in *; apply andb_true_iff in Hc as [?%Z.leb_le _]; lia).
  assert (0 <= digits_val (rev l)) by (apply digits_val_pos, Forall_rev, Hl).
  assert (1 <= 10 ^ Z.of_nat (length l)) by (pose proof (Z.pow_pos_nonneg 10 (Z.of_nat (length l))); lia).
  assert ((v * 10 + digit_val c) * 10 ^ Z.of_nat (length l) + digits_val (rev l) < M64) as Hf by nia.
  destruct (Z.ltb_spec max_u64 (v * 10 + digit_val c)); [unfold max_u64 in *; nia|].
  rewrite IH by (done || lia). f_equal. nia.
Qed.

Lemma itoaU_digits v : is_u64 v -> Forall (fun c => is_digit c = true) (str_list (itoaU v)) /\ itoaU v <> "".
Proof.
  intros Hv. unfold itoaU. destruct (Z.eqb_spec v 0) as [->|Hne]; [split; [by repeat constructor|done]|].
  rewrite String.list_ascii_of_string_of_list_ascii. split.
  - apply List.Forall_forall. intros c. rewrite <- in_rev. apply digits_rev_digits.
  - intros He%(f_equal str_list). rewrite String.list_ascii_of_string_of_list_ascii in He.
    apply (f_equal (@rev _)) in He. rewrite rev_involutive in He.
    assert (digits_val (digits_rev 20 v) = v) as Hd by (apply digits_val_rev; unfold is_u64 in Hv; simpl; lia).
    rewrite He in Hd. cbn in Hd. lia.
Qed.

(** What [itoaU] writes is what [strconv.ParseUint] reads. *)
Lemma ParseUint_itoaU v : is_u64 v -> strconv_ParseUint (itoaU v) = (v, true).
Proof.
  intros Hv. destruct (itoaU_digits v Hv) as [Hd Hne]. unfold strconv_ParseUint.
  assert (digits_val (rev (str_list (itoaU v))) = v) as Hval.
  { unfold itoaU. destruct (Z.eqb_spec v 0) as [->|]; [done|].
    rewrite String.list_ascii_of_string_of_list_ascii, rev_involutive. apply digits_val_rev.
    unfold is_u64 in Hv. simpl. lia. }
  pose proof (parse_uint_digits (str_list (itoaU v)) 0 Hd ltac:(lia)) as H.
  rewrite Hval, Z.mul_0_l, Z.add_0_l in H.
  destruct (str_list (itoaU v)) as [|c l] eqn:E; [|apply H; unfold is_u64 in Hv; lia].
  destruct Hne. by destruct (itoaU v).
Qed.

(** Digits have no sign. *)
Lemma Atoi_digit c s : is_digit c = true -> Atoi (String c s) =
  let '(un, ok) := strconv_ParseUint (String c s) in
  if negb ok && negb (un =? max_u64) then (0, false)
  else if M63 <=? un then (M63 - 1, false) else (un, true).
Proof.
  intros Hc. unfold Atoi. destruct c as [[] [] [] [] [] [] [] []]; try discriminate Hc;
    by destruct (strconv_ParseUint _) as [un ok].
Qed.

Lemma Atoi_itoaI v : 0 <= v < M63 -> Atoi (itoaI v) = (v, true).
Proof.
  intros Hv. unfold itoaI. destruct (Z.leb_spec v 0); [assert (v = 0) as -> by lia; done|].
  assert (is_u64 v) as Hu by (unfold is_u64; lia). destruct (itoaU_digits v Hu) as [Hd Hne].
  pose proof (ParseUint_itoaU v Hu) as Hp. destruct (itoaU v) as [|c s]; [done|].
  rewrite Atoi_digit by (by inversion Hd). rewrite Hp. cbn [negb andb].
  by destruct (Z.leb_spec M63 v); [lia|].
Qed.

(** ** Query strings *)

Lemma plain_char c : is_plain c = true ->
  Ascii.eqb c "&" = false /\ Ascii.eqb c "=" = false /\ Ascii.eqb c ";" = false /\
  Ascii.eqb c "%" = false /\ Ascii.eqb c "+" = false.
Proof. destruct c as [[] [] [] [] [] [] [] []]; vm_compute; auto. Qed.

Lemma plain_cons c s : plain (String c s) -> is_plain c = true /\ plain s.
Proof. intros H. split; [apply H; by left|intros x Hx; apply H; by right]. Qed.
Lemma plain_digits s : Forall (fun c => is_digit c = true) (str_list s) -> plain s.
Proof. intros H c Hc. rewrite List.Forall_forall in H. unfold is_plain. by rewrite (H c Hc). Qed.

Lemma has_char_app x a b : has_char x (a +:+ b) = has_char x a || has_char x b.
Proof. induction a as [|c a IH]; [done|]. cbn. by rewrite <- orb_assoc, <- IH. Qed.

Lemma has_plain s : plain s -> has_char "&" s = false /\ has_char "=" s = false /\ has_char ";" s = false.
Proof.
  induction s as [|c s IH]; [done|]. intros [Hc Hs]%plain_cons. cbn [has_char].
  destruct (plain_char c Hc) as (-> & -> & -> & _). by apply IH.
Qed.

Lemma unescape_plain s : plain s -> QueryUnescape s = Some s.
Proof.
  induction s as [|c s IH]; [done|]. intros [Hc Hs]%plain_cons. cbn [QueryUnescape].
  destruct (plain_char c Hc) as (_ & _ & _ & -> & ->). by rewrite IH.
Qed.

Lemma split_none sep s : has_char sep s = false -> split_char sep s = [s].
Proof.
  induction s as [|c s IH]; [done|]. cbn [has_char split_char]. intros [-> Hs]%orb_false_iff. by rewrite IH.
Qed.
Lemma split_sep sep s r : has_char sep s = false -> split_char sep (s +:+ String sep r) = s :: split_char sep r.
Proof.
  induction s as [|c s IH].
  { intros _. change (split_char sep (String sep r) = "" :: split_char sep r). cbn [split_char]. by rewrite Ascii.eqb_refl. }
  cbn [has_char]. intros [H1 Hs]%orb_false_iff.
  change (String c s +:+ String sep r) with (String c (s +:+ String sep r)). cbn [split_char]. by rewrite H1, IH.
Qed.
Lemma cut_sep sep a b : has_char sep a = false -> cut_char sep (a +:+ String sep b) = (a, b).
Proof.
  induction a as [|c a IH].
  { intros _. change (cut_char sep (String sep b) = ("", b)). cbn [cut_char]. by rewrite Ascii.eqb_refl. }
  cbn [has_char]. intros [H1 Ha]%orb_false_iff.
  change (String c a +:+ String sep b) with (String c (a +:+ String sep b)). cbn [cut_char]. by rewrite H1, IH.
Qed.

Lemma parse_pair_plain k v : plain k -> plain v -> parse_pair (k +:+ String "=" v) = Some (k, v).
Proof.
  intros Hk Hv. destruct (has_plain k Hk) as (_ & H1 & H2). destruct (has_plain v Hv) as (_ & _ & H3).
  unfold parse_pair. rewrite has_char_app, H2. cbn [has_char orb]. rewrite H3. change (Ascii.eqb "=" ";") with false.
  assert ((k +:+ String "=" v =? "")%string = false) as -> by (by destruct k). cbn [orb].
  by rewrite cut_sep, !unescape_plain by done.
Qed.

Lemma pair_no_amp k v : plain k -> plain v -> has_char "&" (k +:+ String "=" v) = false.
Proof.
  intros Hk Hv. rewrite has_char_app. destruct (has_plain k Hk) as (-> & _). cbn [has_char orb].
  by destruct (has_plain v Hv) as (-> & _).
Qed.

(** Settings of plain characters are read back. *)
Lemma query_get_of l name : Forall (fun e => plain e.1 /\ plain e.2) l ->
  query_get (query_of l) name =
  match List.find (fun e => (e.1 =? name)%string) l with Some e => e.2 | None => "" end.
Proof.
  intros Hl. unfold query_get. destruct l as [|e l]; [done|].
  assert (omap parse_pair (split_char "&" (query_of (e :: l))) = e :: l) as ->; [|done].
  revert e Hl. induction l as [|e' l IH]; intros [k v] [[Hk Hv] Hl]%Forall_cons; cbn [fst snd] in Hk, Hv.
  - cbn [query_of]. change ("=" +:+ v) with (String "=" v). rewrite split_none by (by apply pair_no_amp).
    cbn. by rewrite parse_pair_plain.
  - change (query_of ((k, v) :: e' :: l)) with (k +:+ String "=" (v +:+ String "&" (query_of (e' :: l)))).
    assert (forall r, k +:+ String "=" (v +:+ r) = (k +:+ String "=" v) +:+ r) as Ha
      by (intros r; rewrite str_app_assoc; done).
    rewrite Ha, split_sep by (by apply pair_no_amp).
    cbn [omap list_omap]. rewrite parse_pair_plain by done. f_equal. by apply IH.
Qed.

(** ** A node as the server *)
Section NodeServer.
Context {L : LevelDB} {HL : LevelDBOk L} {HS : Hashes} {CD : Codecs} {ED : Ed25519} {E : Edwards}
  {MO : MapOrder} {FS : SnapFiles} {TS : TxSort} {BD : Bodies} {HV : JSON HeightView} {CC : ClientCodecs}.
Context {UH : Utf8 BlockHeader} {UB : Utf8 Block}.
Context (cfg : Config) (mustHex32 : string -> string) (genesis : Genesis).
Context (NextWorkRequired : (Z -> GoM db_t (option BlockHeader)) -> (Z -> GoM db_t (option Z)) ->
  Z -> GoM db_t (option Z)).
Context (n : FinNode) (b_Height feeSum : Z).
Context (ListVotes : Z -> Z -> GoM db_t (list VoteRecord)).
Context (validateTxAdmission : Tx -> GoM db_t Tx).
Context (ApplyBlock : Block -> GoM (db_t * fs_t) unit).
Context (rs_SetBalance : string -> Z -> GoM db_t unit).
Context (findForkPointCached : Z -> string -> Z -> string -> GoM db_t (Z * string)).
Context (InFlightTimeoutSec maxQueueFill : Z).
Context (senders : list string) (sessions : option (list string)) (ready : bool) (fuel : nat).
Context (now nano bt dw : Z) (body_text : resp_body -> string).
Context {W : Type} (http_do : string -> string -> string -> GoM W (Z * string)).
Context (get : W -> api) (set : api -> W -> W) (w : W) (base : string).

Notation serve := (serve cfg mustHex32 genesis NextWorkRequired n b_Height feeSum ListVotes validateTxAdmission
  ApplyBlock rs_SetBalance findForkPointCached InFlightTimeoutSec maxQueueFill senders sessions ready fuel
  now nano bt dw).

(** [encoding/json] decodes an object into a structure by the names of its fields; entries without
    a field are skipped and fields without an entry are zero. *)
Record decodes : Prop := {
  dec_info : forall c h t, utf8_ok c = true -> utf8_ok t = true -> is_u64 h ->
    decode_body (body_text (RJson (JObj [("chain_id", JStr c); ("height", JInt h); ("tip", JStr t);
      ("block_time_target_seconds", JInt bt); ("difficulty_window_blocks", JInt dw)]))) =
    Ret {| ci_ChainID := c; ci_Height := h; ci_Tip := t; ci_TipWork := 0 |};
  dec_headers : forall from k hs, is_u64 from -> is_i64 k -> utf8_ok hs = true ->
    decode_body (body_text (RJson (JObj [("from", JInt from); ("count", JInt k); ("headers", JHeaders hs)]))) =
    Ret {| ho_From := from; ho_Count := k; ho_Headers := hs |};
  dec_block : forall h x b, is_u64 h -> utf8_ok x = true -> utf8_ok b = true ->
    decode_body (body_text (RJson (JObj [("height", JInt h); ("hash", JStr x); ("block", JBlock b)]))) =
    Ret {| br_Height := h; br_Hash := x; br_Block := b |};
  dec_by_hash : forall x b, utf8_ok x = true -> utf8_ok b = true ->
    decode_body (body_text (RJson (JObj [("hash", JStr x); ("block", JBlock b)]))) =
    Ret {| bh_Hash := x; bh_Block := b |} }.

(** The strings of the store are texts. *)
Record texts (d : db_t) : Prop := {
  txt_header : forall x b, block_at d x = Some b -> utf8_ok (Header b) = true;
  txt_block : forall x b, block_at d x = Some b -> utf8_ok b = true;
  txt_index : forall h x, db_view d !! keyHashByHeight h = Some x -> utf8_ok x = true }.

Hypothesis reached : reaches http_do base get set (node_server body_text serve).
Hypothesis same_world : set (get w) w = w.

(** A request that the node answers and that leaves the node as it was. *)
Lemma served method path l body r : plain_path path -> Forall (fun e => plain e.1 /\ plain e.2) l ->
  serve path {| rq_Method := method; rq_Query := query_get (query_of l); rq_Body := body |} (get w) =
    (Ret (Some r), get w) ->
  http_do method (address base path l) body w = (Ret (rs_Status r, body_text (rs_Body r)), w).
Proof.
  intros Hp Hl Hr. rewrite reached by done. unfold gzoom, node_server. by rewrite Hr, same_world.
Qed.

Lemma get_served {A} `{Body A} bad path l r : plain_path path -> Forall (fun e => plain e.1 /\ plain e.2) l ->
  serve path {| rq_Method := "GET"; rq_Query := query_get (query_of l); rq_Body := "" |} (get w) =
    (Ret (Some r), get w) ->
  get_json http_do bad (address base path l) w =
    (if rs_Status r =? 200 then decode_body (body_text (rs_Body r)) else Err (bad (rs_Status r)), w).
Proof.
  intros Hp Hl Hr. unfold get_json. rewrite (gbind_ret _ _ _ _ _ (served _ _ _ _ _ Hp Hl Hr)).
  by destruct (rs_Status r =? 200).
Qed.

Lemma kv_same {A} (m : GoM db_t A) o : m (a_chain (get w)).1 = (o, (a_chain (get w)).1) -> on_kv m (get w) = (o, get w).
Proof. intros H. rewrite (on_kv_run _ _ _ _ H). by destruct (get w) as [[] ? ? ? ? ?]. Qed.

Lemma GetBlockByHeight_main d h : linked d -> GetBlockByHeight h d =
  (Ret (match main_block d h with Some b => Found b | None => NotFound end, default "" (db_view d !! keyHashByHeight h)), d).
Proof.
  intros Hl. unfold GetBlockByHeight, GetHashByHeight, main_block. erewrite gbind_ret by apply kv_get_ok.
  destruct (db_view d !! keyHashByHeight h) as [x|]; [|done].
  by rewrite (gbind_ret _ _ _ _ _ (GetBlockByHash_run d x Hl)).
Qed.

Lemma plain_const s : forallb is_plain (str_list s) = true -> plain s.
Proof. intros H c Hc. by apply (proj1 (forallb_forall _ _) H). Qed.
Lemma path_const s : forallb path_char (str_list s) = true -> plain_path s.
Proof. intros H c Hc. by apply (proj1 (forallb_forall _ _) H). Qed.
Lemma plain_itoaU v : is_u64 v -> plain (itoaU v).
Proof. intros Hv. apply plain_digits. by apply itoaU_digits. Qed.
Lemma plain_itoaI v : 0 <= v < M64 -> plain (itoaI v).
Proof. intros Hv. unfold itoaI. destruct (v <=? 0); [by apply plain_const|]. by apply plain_itoaU. Qed.

Lemma plain_ascii c : is_plain c = true -> (Z_of_byte c <? 128) = true.
Proof. destruct c as [[] [] [] [] [] [] [] []]; vm_compute; auto. Qed.
Lemma utf8_plain s : plain s -> utf8_ok s = true.
Proof.
  unfold utf8_ok, utf8_string. induction s as [|c s IH]; [done|]. intros [Hc Hs]%plain_cons.
  cbn [utf8_valid]. rewrite (plain_ascii c Hc). by apply IH.
Qed.

(** *** What a peer answers *)

Section Answers.
Context (d : db_t).
Hypothesis dec : decodes.
Hypothesis d_is : d = (a_chain (get w)).1.
Hypothesis d_linked : linked d.
Hypothesis d_texts : texts d.

Lemma main_block_at h b : main_block d h = Some b ->
  exists x, db_view d !! keyHashByHeight h = Some x /\ block_at d x = Some b.
Proof. unfold main_block. destruct (db_view d !! keyHashByHeight h) as [x|]; [|done]. eauto. Qed.

Lemma info_answer tipH tip : GetTip d = (Ret (Some (tipH, tip)), d) -> is_u64 tipH -> utf8_ok tip = true ->
  utf8_ok (g_ChainID genesis) = true ->
  http_fetchChainInfo http_do base w =
    (Ret {| ci_ChainID := g_ChainID genesis; ci_Height := tipH; ci_Tip := tip; ci_TipWork := 0 |}, w).
Proof.
  intros Ht Hh Hu Hc. change (http_fetchChainInfo http_do base) with
    (get_json (A := chainInfoResp) http_do bad_status (base +:+ "/chain/info")).
  rewrite <- (str_app_nil_r "/chain/info"). change (base +:+ "/chain/info" +:+ "") with (address base "/chain/info" []).
  erewrite get_served; [|by apply path_const|constructor|].
  2:{ change (serve "/chain/info") with (chain_info genesis bt dw). unfold chain_info.
      erewrite gbind_ret by (apply gtry_ret, kv_same; rewrite <- d_is; exact Ht). reflexivity. }
  cbn [rs_Status rs_Body Z.eqb]. by rewrite (dec_info dec).
Qed.

Lemma headers_answer from count : is_u64 from -> 0 < count < M63 -> from + 2000 < M64 -> exists bs,
  http_fetchHeaders http_do base from count w = (Ret (from, map Header bs), w) /\ len bs <= Z.min count 2000 /\
  (forall i b, bs !! i = Some b -> main_block d (from + Z.of_nat i) = Some b) /\
  (len bs < Z.min count 2000 -> main_block d (from + len bs) = None).
Proof.
  intros Hf Hc Hroom. set (l := [("from", itoaU from); ("count", itoaI count)]).
  assert (Forall (fun e => plain e.1 /\ plain e.2) l) as Hl.
  { repeat constructor; cbn [fst snd]; [by apply plain_const|by apply plain_itoaU|by apply plain_const|].
    apply plain_itoaI. lia. }
  destruct (chain_headers_spec {| rq_Method := "GET"; rq_Query := query_get (query_of l); rq_Body := "" |} (get w)
    from count) as (bs & Hrun & Hlen & Hin & Hend).
  { by rewrite <- d_is. } { done. }
  { cbn [rq_Query]. rewrite query_get_of by done. by apply ParseUint_itoaU. } { done. }
  { cbn [rq_Query]. rewrite query_get_of by done. apply Atoi_itoaI. lia. } { lia. } { done. }
  rewrite <- d_is in Hin, Hend. exists bs. split; [|done]. unfold http_fetchHeaders.
  rewrite (gbind_ret _ _ _ {| ho_From := from; ho_Count := len bs; ho_Headers := map Header bs |} w); [done|].
  change (base +:+ "/chain/headers?from=" +:+ itoaU from +:+ "&count=" +:+ itoaI count)
    with (address base "/chain/headers" l).
  erewrite get_served; [|by apply path_const|done|exact Hrun].
  cbn [rs_Status rs_Body Z.eqb]. rewrite (dec_headers dec); [reflexivity|done| |].
  - unfold is_i64, len in *. lia.
  - apply forallb_forall. intros x Hx. apply in_map_iff in Hx as (b & <- & Hb).
    apply list_elem_of_In, list_elem_of_lookup in Hb as [i Hi].
    destruct (main_block_at _ _ (Hin i b Hi)) as (y & _ & Hy). by apply (txt_header d d_texts y).
Qed.

Lemma height_answer h : is_u64 h -> http_fetchBlockByHeight http_do base h w =
  (match main_block d h with
   | Some b => Ret {| br_Height := h; br_Hash := default "" (db_view d !! keyHashByHeight h); br_Block := b |}
   | None => Err "bad status"
   end, w).
Proof.
  intros Hh. assert (Forall (fun e => plain e.1 /\ plain e.2) [("height", itoaU h)]) as Hl.
  { repeat constructor; [by apply plain_const|by apply plain_itoaU]. }
  unfold http_fetchBlockByHeight.
  change (base +:+ "/chain/block?height=" +:+ itoaU h) with (address base "/chain/block" [("height", itoaU h)]).
  erewrite get_served; [|by apply path_const|done|].
  2:{ change (serve "/chain/block") with chain_block. unfold chain_block, only. cbn [rq_Method rq_Query].
      rewrite query_get_of by done. cbn [List.find fst snd negb]. rewrite !String.eqb_refl. cbn [negb snd].
      destruct (itoaU_digits h Hh) as [_ Hne]. apply String.eqb_neq in Hne. rewrite Hne, ParseUint_itoaU by done. cbn [negb].
      erewrite gbind_ret by (apply gtry_ret, kv_same; rewrite <- d_is; by apply GetBlockByHeight_main).
      instantiate (1 := match main_block d h with Some b => _ | None => _ end).
      destruct (main_block d h); reflexivity. }
  destruct (main_block d h) as [b|] eqn:Hb; cbn [rs_Status rs_Body Z.eqb]; [|done].
  destruct (main_block_at _ _ Hb) as (x & Hx & Hbx). rewrite Hx.
  rewrite (dec_block dec); [done|done|by apply (txt_index d d_texts h)|by apply (txt_block d d_texts x)].
Qed.

Lemma hash_answer h : plain h -> h <> "" -> http_fetchBlockByHash http_do base h w =
  (match block_at d h with Some b => Ret {| bh_Hash := h; bh_Block := b |} | None => Err "bad status" end, w).
Proof.
  intros Hh Hne. assert (Forall (fun e => plain e.1 /\ plain e.2) [("hash", h)]) as Hl.
  { repeat constructor; [by apply plain_const|done]. }
  unfold http_fetchBlockByHash.
  change (base +:+ "/chain/block_by_hash?hash=" +:+ h) with (address base "/chain/block_by_hash" [("hash", h)]).
  erewrite get_served; [|by apply path_const|done|].
  2:{ change (serve "/chain/block_by_hash") with chain_block_by_hash.
      unfold chain_block_by_hash, only, block_by_hash_reply. cbn [rq_Method rq_Query].
      rewrite query_get_of by done. cbn [List.find fst snd negb]. rewrite !String.eqb_refl. cbn [negb snd].
      apply String.eqb_neq in Hne. rewrite Hne.
      erewrite gbind_ret by (apply gtry_ret, kv_same; rewrite <- d_is; by apply GetBlockByHash_run).
      instantiate (1 := match block_at d h with Some b => _ | None => _ end).
      destruct (block_at d h); reflexivity. }
  destruct (block_at d h) as [b|] eqn:Hb; cbn [rs_Status rs_Body Z.eqb]; [|done].
  rewrite (dec_by_hash dec); [done|by apply utf8_plain|by apply (txt_block d d_texts h)].
Qed.
End Answers.


(** C22. The requests of the block sync against a peer are answered from its store and leave it as it
    is: the tip, a run of consecutive main-chain headers from the height asked for, the
    main-chain block of a height, the block of a hash. *)
Theorem peer_answers d tipH tip : decodes -> d = (a_chain (get w)).1 -> linked d -> texts d ->
  GetTip d = (Ret (Some (tipH, tip)), d) -> is_u64 tipH -> utf8_ok tip = true -> utf8_ok (g_ChainID genesis) = true ->
  let net := answers http_do w in
  fetchChainInfo net base = Ret {| ci_ChainID := g_ChainID genesis; ci_Height := tipH; ci_Tip := tip; ci_TipWork := 0 |} /\
  (forall from count, is_u64 from -> 0 < count < M63 -> from + 2000 < M64 -> exists bs,
     fetchHeaders net base from count = Ret (map Header bs) /\ len bs <= Z.min count 2000 /\
     (forall i b, bs !! i = Some b -> main_block d (from + Z.of_nat i) = Some b) /\
     (len bs < Z.min count 2000 -> main_block d (from + len bs) = None)) /\
  (forall h, is_u64 h -> fetchBlockByHeight net base h =
     match main_block d h with
     | Some b => Ret {| br_Height := h; br_Hash := default "" (db_view d !! keyHashByHeight h); br_Block := b |}
     | None => Err "bad status"
     end) /\
  (forall h, plain h -> h <> "" -> fetchBlockByHash net base h =
     match block_at d h with Some b => Ret {| bh_Hash := h; bh_Block := b |} | None => Err "bad status" end).
Proof.
  intros Hdec Hd Hl Ht Htip Hh Hu Hc net. unfold net, answers. cbn [fetchChainInfo fetchHeaders fetchBlockByHeight fetchBlockByHash].
  split; [by rewrite (info_answer d Hdec Hd tipH tip)|]. split; [|split].
  - intros from count Hf Hcnt Hroom.
    destruct (headers_answer d Hdec Hd Hl Ht from count Hf Hcnt Hroom) as (bs & Hrun & Hrest).
    exists bs. by rewrite Hrun.
  - intros h Hhu. by rewrite (height_answer d Hdec Hd Hl Ht h Hhu).
  - intros h Hp Hne. by rewrite (hash_answer d Hdec Hd Hl Ht h Hp Hne).
Qed.

(** *** What becomes of a wallet's claims *)

(** C25. Every transaction the polling loop of a wallet submits is refused by the node it reaches, with
    the status 400, or 403 where the node takes no transactions, and leaves the whole state of the
    node as it was: no claim ever gets into the pool. *)
Theorem claims_change_nothing {A : AEAD} {MC : MemoCodec} t ans rnd wal tx :
  In (SubmitTx tx) (poll_tick t ans rnd wal).2 -> decode_body (marshal_any tx) = Ret tx ->
  exists st, client_SubmitTx http_do base tx w = (Err ("tx/submit " +:+ FormatUint st), w) /\ In st [400; 403].
Proof.
  intros Hin Htx.
  assert (exists r, serve "/tx/submit" {| rq_Method := "POST"; rq_Query := query_get (query_of []); rq_Body := marshal_any tx |}
    (get w) = (Ret (Some r), get w) /\ In (rs_Status r) [400; 403]) as (r & Hr & Hst).
  { change (serve "/tx/submit") with (tx_submit cfg mustHex32 senders sessions now). unfold tx_submit.
    destruct (isReadOnly cfg); [eexists; split; [reflexivity|cbn; tauto]|].
    destruct (nc_AllowPublicSubmit (c_Node cfg)); cbn [negb]; [|eexists; split; [reflexivity|cbn; tauto]].
    cbn [rq_Method rq_Body]. rewrite String.eqb_refl, Htx. cbn [negb].
    rewrite (gbind_ret _ _ _ (inl "no_outputs") (get w)); [eexists; split; [reflexivity|cbn; tauto]|].
    apply kv_same. by eapply claims_refused. }
  exists (rs_Status r). split; [|done]. unfold client_SubmitTx.
  rewrite <- (str_app_nil_r "/tx/submit"). change (base +:+ "/tx/submit" +:+ "") with (address base "/tx/submit" []).
  rewrite (gbind_ret _ _ _ _ _ (served _ _ [] _ _ (path_const "/tx/submit" eq_refl) (Forall_nil_2 _) Hr)).
  by destruct Hst as [<-|[<-|[]]].
Qed.
End NodeServer.

(** ** The storage service as the server *)
Section Storage.
Context {B1 : Body allocSlotReq} {B2 : Body markConfirmedReq} {B3 : Body slotSetHashReq} {CC : ClientCodecs}.
Context (fault : stmt -> bool) (now : Z) (alloc_text : allocSlotResp -> string).
Context {W : Type} (http_do : string -> string -> string -> GoM W (Z * string)).
Context (get : W -> tables) (set : tables -> W -> W) (w : W) (base : string).
Hypothesis reached : reaches http_do base get set (storage_server fault now alloc_text).
Hypothesis same_world : set (get w) w = w.

(** The storage service as the wallet's handler uses it. *)
Definition alloc_over (account : option string) (purpose : string) (expires : option Z) : outcome (Z * option Z) :=
  olet r := (client_AllocSlot http_do base
    {| al_AccountID := account; al_Purpose := purpose; al_ExpiresAt := expires |} w).1 in
  Ret (ar_SlotID r, ar_ExpiresAt r).

(** Two accounts that ask their wallet for an address without naming a purpose share the purpose
    "receive": once the first has its address, the second is told that the allocation failed, and
    the tables stay what they are. *)
Theorem second_account_refused {HS : Hashes} {E : Edwards} {ED : Ed25519} t wal req a row :
  sq_slots (get w) !! a = Some row -> sl_index row = 0 -> sl_purpose row = "receive" ->
  rr_Purpose req = "" -> sq_counters (get w) !! counterName (rr_AccountID req) "receive" = None ->
  (forall r : allocSlotReq, decode_body (marshal_any r) = Ret r) ->
  handleOTAPRequest alloc_over t wal "POST" (Ret req) = (500, None).
Proof.
  intros Ha Hi Hp Hr Hc Hdec. change (handleOTAPRequest alloc_over t wal "POST" (Ret req)) with (otap_request alloc_over t wal req).
  unfold otap_request. rewrite Hr, String.eqb_refl. cbv zeta. set (e := if _ : bool then _ else _).
  set (r := {| al_AccountID := rr_AccountID req; al_Purpose := "receive"; al_ExpiresAt := e |}).
  destruct (alloc_taken fault now (get w) a row r) as (st & Hal & Hst); [done|done|by rewrite Hp|done|done|].
  assert (exists err, (client_AllocSlot http_do base r w).1 = Err err) as (err & Herr).
  { unfold client_AllocSlot, post_json. rewrite <- (str_app_nil_r "/alloc_slot").
    change (base +:+ "/alloc_slot" +:+ "") with (address base "/alloc_slot" []).
    erewrite gbind_ret.
    2:{ rewrite (reached _ "/alloc_slot" [] _ w (path_const "/alloc_slot" eq_refl) (Forall_nil_2 _)). unfold gzoom, storage_server.
        rewrite String.eqb_refl, Hdec. change (handleAllocSlot fault now "POST" (Ret r) (get w)) with (alloc_slot fault now r (get w)).
        rewrite Hal. reflexivity. }
    cbv beta iota. destruct (Z.eqb_spec st 200); [done|]. cbn. by eexists. }
  unfold alloc_over. fold r. by rewrite Herr.
Qed.
End Storage.
