(* ===== verification/GatewayProps.v ===== *)
(** * Properties of the gateway

    A configured prefix is transparent: a request below it is the request of the server it is
    forwarded to ([gateway_forwards]); the site that was built at start-up is the site that is
    served ([gateway_serves_site]). *)

From S2P Require Import Prelude GoLang KV Chain WebFS WebPages Storage Config Crypto Finality Sync Node Gossip PlatformDB HttpClient HttpProps Gateway GatewayMux GatewayServe.

Lemma query_of_cons_empty e l : query_of (e :: l) <> "".
Proof. destruct e as [k v], l; cbn; by destruct k. Qed.

Lemma cut_length a b : (1 <= String.length a)%nat -> (String.length b <? String.length (a +:+ b))%nat = true.
Proof. intros H. apply Nat.ltb_lt. rewrite str_length_app. lia. Qed.

Section Gateway.
Context {W : WebFiles} {WS : WebServe} {Net V : Type} (http_do : string -> string -> string -> GoM Net (Z * string)).
Context (cut_short : string -> string -> Net -> Net) (dial : string -> GoM Net unit).
Context (json_any : string -> option V) (Encode : jany V -> string) (addr : string).
Context (TrimSpace : string -> string) (url_Parse : string -> outcome URL).
Notation handle := (handler http_do cut_short dial json_any Encode addr TrimSpace).
Notation serve := (serve_mux http_do cut_short dial json_any Encode addr).

(** The limiter lets a request through: it is not asked or it says so. *)
Definition admitted (nano : Z) (r : GRequest) (lim : rateLimiter) : Prop :=
  limited_path (gr_Path r) = true -> (rate_allow nano (realIP TrimSpace r) lim).1 = true.

(** The limiter after a request. *)
Definition counted (nano : Z) (r : GRequest) (lim : rateLimiter) : rateLimiter :=
  if limited_path (gr_Path r) then (rate_allow nano (realIP TrimSpace r) lim).2 else lim.

Lemma handler_admitted c m nano r s : admitted nano r (gs_lim s) ->
  handle c m nano r s =
  let '(o, w) := serve c m (capped r) (gs_world s) in (o, {| gs_world := w; gs_lim := counted nano r (gs_lim s) |}).
Proof.
  unfold handler, gateway, admitted, counted, capped. destruct (limited_path (gr_Path r)); [|done].
  intros H. cbv zeta. rewrite realIP_cap. specialize (H eq_refl).
  destruct (rate_allow nano (realIP TrimSpace r) (gs_lim s)) as [ok lim]. cbn [fst] in H. by subst ok.
Qed.

(** The limiter turns a request away and nothing behind it sees the request. *)
Lemma handler_limited c m nano r s : limited_path (gr_Path r) = true -> (rate_allow nano (realIP TrimSpace r) (gs_lim s)).1 = false ->
  handle c m nano r s = (Ret (GAnswer 429 "rate limited"), {| gs_world := gs_world s; gs_lim := counted nano r (gs_lim s) |}).
Proof.
  intros Hl Hr. unfold handler, gateway, counted. rewrite Hl. cbv zeta. rewrite realIP_cap.
  destruct (rate_allow nano (realIP TrimSpace r) (gs_lim s)) as [ok lim]. cbn [fst] in Hr. by subst ok.
Qed.

(** ** Prefixes *)

Lemma strip_route rt p rest : ro_PathPrefix rt <> "" -> p = ro_PathPrefix rt +:+ rest ->
  strip_prefix (ro_PathPrefix rt) p = Some rest.
Proof.
  intros Hne ->. unfold strip_prefix. destruct (String.eqb_spec (ro_PathPrefix rt) ""); [done|].
  rewrite str_trim_prefix_app, cut_length; [done|]. destruct (ro_PathPrefix rt); [done|cbn; lia].
Qed.

(** The target of a plain address. *)
Definition plain_url (base : string) : URL := {| u_Origin := base; u_Path := ""; u_Query := "" |}.

Lemma rewrite_plain base rest l :
  rewrite_url (plain_url base) rest (query_of l) =
  address base (if str_prefix "/" rest then rest else "/" +:+ rest) l.
Proof.
  unfold rewrite_url, address, singleJoiningSlash. cbn [u_Origin u_Path u_Query plain_url].
  change ((""=? "")%string) with true. cbn [orb]. change (str_suffix "/" "") with false. cbn [negb andb].
  change ("" +:+ query_of l) with (query_of l).
  f_equal. f_equal; [by destruct (str_prefix "/" rest)|].
  destruct l as [|e l]; [done|]. destruct (String.eqb_spec (query_of (e :: l)) ""); [|done]. by apply query_of_cons_empty in e0.
Qed.

Lemma capped_fields r : gr_Path (capped r) = gr_Path r /\ gr_Method (capped r) = gr_Method r /\
  gr_Query (capped r) = gr_Query r /\ gr_Body (capped r) = gr_Body r.
Proof. unfold capped. by destruct (limited_path (gr_Path r)). Qed.

Lemma capped_body r : gr_Max r = None -> Z.of_nat (String.length (gr_Body r)) <= 2 * 2 ^ 20 ->
  read_body (capped r) = Ret (gr_Body r).
Proof.
  intros Hm Hl. unfold capped, read_body. destruct (limited_path (gr_Path r)); [|by rewrite Hm].
  cbn [gr_Max MaxBytesReader gr_Body]. by destruct (Z.ltb_spec (2 * 2 ^ 20) (Z.of_nat (String.length (gr_Body r)))); [lia|].
Qed.

(** What the gateway makes of a server's answer. *)
Definition relayed (o : outcome (Z * string)) : outcome ganswer :=
  match o with Ret (status, b) => Ret (GAnswer status b) | Err _ => Ret (GAnswer 502 "") | Panic => Panic end.

(** C13. A prefix is transparent.  An admitted request for a path below a configured prefix, that
    is neither an own page nor below a longer prefix, is the request without the prefix to the
    server behind the target, with the same method, settings and body: the server's state
    changes as if it had been asked directly, its status and body are the gateway's answer, and
    a server that does not answer is 502. *)
Theorem gateway_forwards {S} (get : Net -> S) (set : S -> Net -> Net) (srv : Server S) c m nano r s rt base rest l :
  routes_ok url_Parse c -> new_mux url_Parse c = Ret m ->
  routed_to url_Parse c (gr_Path r) (Proxy (ro_PathPrefix rt) (plain_url base)) ->
  reaches http_do base get set srv ->
  In rt (gw_Routes c) -> gr_Path r = ro_PathPrefix rt +:+ rest -> cleanPath (gr_Path r) = gr_Path r -> plain_path rest ->
  gr_Query r = query_of l -> Forall (fun e => plain e.1 /\ plain e.2) l ->
  gr_Max r = None -> Z.of_nat (String.length (gr_Body r)) <= 2 * 2 ^ 20 -> admitted nano r (gs_lim s) ->
  handle c m nano r s =
  let '(o, t) := srv (gr_Method r) (if str_prefix "/" rest then rest else "/" +:+ rest) (query_get (query_of l)) (gr_Body r)
                   (get (gx_net (gs_world s))) in
  (relayed o, {| gs_world := set_net (set t (gx_net (gs_world s))) (gs_world s); gs_lim := counted nano r (gs_lim s) |}).
Proof.
  intros Hok Hm Hto Hre Hrt Hp Hc Hpl Hq Hl Hmax Hlen Had. rewrite handler_admitted by done.
  destruct (capped_fields r) as (E1 & E2 & E3 & E4). destruct (mux_routes url_Parse c Hok) as (m' & Hm' & Hr).
  assert (m' = m) as -> by congruence. pose proof (ok_rooted _ _ Hok rt Hrt) as Hroot.
  assert (str_prefix "/" (gr_Path r) = true) as Hs.
  { rewrite Hp. apply str_prefix_spec in Hroot as [x ->]. done. }
  apply (Hr _ _ Hc Hs) in Hto. unfold serve_mux. rewrite E1, Hto.
  rewrite (strip_route rt _ rest) by (done || by intros E; rewrite E in Hroot).
  unfold gzoom, proxy, gbind, gtry, forward. rewrite (capped_body r Hmax Hlen), E2, E3, Hq, rewrite_plain.
  rewrite Hre; [|destruct (str_prefix "/" rest); [done|intros x [<-|Hx]; [done|by apply Hpl]]|done].
  unfold gzoom. destruct (srv _ _ _ _ _) as [[[status b]|e|] t]; done.
Qed.

(** ** The site *)

(** A path that reaches the web pages as it is. *)
Definition web_path (c : GConfig) (p : string) : Prop :=
  str_prefix "/" p = true /\ cleanPath p = p /\ containsDotDot p = false /\ str_suffix "/index.html" p = false /\
  limited_path p = false /\ (forall pg, pg <> Web -> p <> page_path pg) /\ (forall rt, In rt (gw_Routes c) -> ~ covers rt p).

Lemma handler_web c m nano r s : routes_ok url_Parse c -> new_mux url_Parse c = Ret m -> web_path c (gr_Path r) ->
  handle c m nano r s = (Ret (serve_web (ws_RuntimeWebDir (gw_Web c)) (gr_Path r) (gx_files (gs_world s))), s).
Proof.
  intros Hok Hm (Hp & Hc & _ & _ & Hl & Hpg & Hrt). rewrite handler_admitted by (intros H; congruence).
  unfold counted, capped. rewrite Hl. destruct (mux_routes url_Parse c Hok) as (m' & Hm' & Hr).
  assert (m' = m) as -> by congruence. unfold serve_mux.
  rewrite (proj2 (Hr _ (Own Web) Hc Hp)) by (by apply to_web). by destruct s as [w lim].
Qed.

(** The page of a path. *)
Definition page_of (c : GConfig) (p : string) : option Bundle :=
  let w := gw_Web c in
  if (p =? "/")%string then Some (ws_Marketing w)
  else if str_prefix "/portal" p then Some (ws_Portal w)
  else if str_prefix "/wallet" p then Some (ws_Wallet w)
  else None.

(** The names the handler of [/] expects, and a directory of its own for the result. *)
Record site_ok (c : GConfig) : Prop := {
  so_dir : ws_RuntimeWebDir (gw_Web c) <> "";
  so_marketing : wb_Name (ws_Marketing (gw_Web c)) = "marketing";
  so_portal : wb_Name (ws_Portal (gw_Web c)) = "portal";
  so_wallet : wb_Name (ws_Wallet (gw_Web c)) = "wallet";
}.

(** The files of the directory can be read. *)
Definition readable {HW : WebFilesOk W} (dir : string) (f : wfs) : Prop :=
  forall n x, web_view f !! filepath_Join dir n = Some x ->
    web_Stat (filepath_Join dir n) f = Some false /\ web_ReadFile (filepath_Join dir n) f = Ret x.

Lemma page_file c p b Join dir ex : site_ok c -> page_of c p = Some b -> web_file Join dir ex p = Some (Join dir (index_name b)).
Proof.
  intros [_ H1 H2 H3]. unfold page_of, web_file. destruct (p =? "/")%string; cbn [orb].
  { intros [= <-]. unfold index_name. by rewrite H1. }
  destruct (String.eqb_spec p "") as [->|_]; [done|].
  destruct (str_prefix "/portal" p); [intros [= <-]; unfold index_name; by rewrite H2|].
  destruct (str_prefix "/wallet" p); [intros [= <-]; unfold index_name; by rewrite H3|done].
Qed.

Lemma asset_file c n Join dir (ex : string -> bool) : plain_name n -> page_of c ("/" +:+ n) = None -> ex (Join dir n) = true ->
  web_file Join dir ex ("/" +:+ n) = Some (Join dir n).
Proof.
  intros (Hn & _) Hp He. unfold page_of, web_file in *. destruct (("/" +:+ n =? "/")%string); [done|].
  destruct (str_prefix "/portal" _); [done|]. destruct (str_prefix "/wallet" _); [done|].
  change (("/" +:+ n =? "")%string) with false. cbn [orb].
  change (str_trim_prefix "/" ("/" +:+ n)) with n. by rewrite He.
Qed.

(** *** Paths of assets *)

Lemma has_char_in x s : has_char x s = false <-> ~ In x (str_list s).
Proof.
  induction s as [|a s IH]; cbn [has_char str_list In]; [tauto|]. rewrite orb_false_iff, IH, Ascii.eqb_neq. tauto.
Qed.

Lemma clean_asset n : plain_name n -> cleanPath ("/" +:+ n) = "/" +:+ n.
Proof.
  intros (H1 & H2 & H3 & H4). pose proof (proj2 (has_char_in "/" n) H4) as Hs.
  unfold cleanPath. change (("/" +:+ n =? "")%string) with false. change (str_prefix "/" ("/" +:+ n)) with true.
  cbv iota zeta. assert (path_Clean ("/" +:+ n) = "/" +:+ n) as ->.
  { unfold path_Clean. change (split_char "/" ("/" +:+ n)) with ("" :: split_char "/" n). rewrite split_none by done.
    apply String.eqb_neq in H1, H2, H3. cbn [clean_elems]. change (("" =? "")%string) with true. rewrite H1, H2, H3.
    change ("/" +:+ (n +:+ "") = "/" +:+ n). by rewrite str_app_nil_r. }
  destruct (str_suffix "/" ("/" +:+ n)) eqn:E; [|done]. apply str_suffix_spec in E as [b E].
  apply (f_equal (str_drop 1)) in E. change (str_drop 1 ("/" +:+ n)) with n in E.
  destruct b as [|a b]; [done|]. change (n = b +:+ "/") in E. destruct H4. rewrite E, str_list_app.
  apply in_app_iff. right. by left.
Qed.

Lemma dotdot_asset n : plain_name n -> ~ In "\"%char (str_list n) -> containsDotDot ("/" +:+ n) = false.
Proof.
  intros (_ & _ & H3 & H4) Hb. unfold containsDotDot.
  assert (List.map (fun c => if Ascii.eqb c "\" then "/"%char else c) (str_list ("/" +:+ n)) = str_list ("/" +:+ n)) as ->.
  { rewrite <- List.map_id. apply map_ext_in. intros x Hx. destruct (Ascii.eqb_spec x "\") as [->|]; [|done].
    rewrite str_list_app in Hx. by destruct Hx as [Hx|Hx]. }
  rewrite String.string_of_list_ascii_of_string. change (split_char "/" ("/" +:+ n)) with ("" :: split_char "/" n).
  rewrite split_none by (by apply has_char_in). cbn [existsb orb]. apply String.eqb_neq in H3. rewrite (String.eqb_sym ".." n), H3. done.
Qed.

Lemma no_slash_in n x y : ~ In "/"%char (str_list n) -> n <> x +:+ "/" +:+ y.
Proof. intros H ->. apply H. rewrite !str_list_app, !in_app_iff. right. left. by left. Qed.

Lemma asset_web_path {HS : Hashes} {HSO : HashesOk HS} c n x : plain_name n -> str_suffix ".html" n = false ->
  ~ In "\"%char (str_list n) -> (forall rt, In rt (gw_Routes c) -> ~ covers rt ("/" +:+ hashed_name n x)) ->
  web_path c ("/" +:+ hashed_name n x).
Proof.
  intros Hn Hh Hb Hc. pose proof (name_no_slash n Hn) as Hs. pose proof (hashed_plain n x Hs) as Hp.
  pose proof (name_no_slash _ Hp) as Hs'. split_and!; try done.
  - by apply clean_asset.
  - apply dotdot_asset; [done|]. intros Hin.
    assert (~ In "\"%char (str_list (hash12 x))) as Hx by (intros H%in_str_take; by apply hex_no_char in H).
    destruct (hashed_shape n x Hs) as [[_ E]|(b & e & E1 & _ & E)]; rewrite E in Hin; generalize dependent (hash12 x);
      intros h Hin Hx; rewrite ?E1, !str_list_app, !in_app_iff in *; cbn in *; intuition discriminate.
  - destruct (str_suffix "/index.html" _) eqn:E; [|done]. exfalso. apply str_suffix_spec in E as [b E].
    apply (f_equal (str_drop 1)) in E. change (str_drop 1 ("/" +:+ hashed_name n x)) with (hashed_name n x) in E.
    destruct b as [|a b]; [by apply (hashed_no_page n x "index" Hs Hh) in E|].
    by apply (no_slash_in _ b "index.html" Hs') in E.
  - unfold limited_path. destruct (str_prefix "/api/" _) eqn:E; [|done]. apply str_prefix_spec in E as [b E].
    apply (f_equal (str_drop 1)) in E. by apply (no_slash_in _ "api" b Hs') in E.
  - intros pg Hw E. assert (In "."%char (str_list (hashed_name n x))) as Hd.
    { destruct (hashed_shape n x Hs) as [[_ ->]|(b & e & _ & _ & ->)]; generalize (hash12 x); intros h;
        rewrite !str_list_app, !in_app_iff; cbn; tauto. }
    apply (f_equal (fun s => str_list (str_drop 1 s))) in E. change (str_drop 1 ("/" +:+ hashed_name n x)) with (hashed_name n x) in E.
    rewrite E in Hd. destruct pg; [..|done]; revert Hd; not_in.
Qed.

(** *** What is served *)
Section Site.
Context {HW : WebFilesOk W} {HS : Hashes} {HSO : HashesOk HS} {MO : MapOrder} {HMO : MapOrderOk MO}.

Lemma serve_file c p n x f : web_path c p -> readable (ws_RuntimeWebDir (gw_Web c)) f ->
  web_view f !! filepath_Join (ws_RuntimeWebDir (gw_Web c)) n = Some x ->
  ServeFile p (filepath_Join (ws_RuntimeWebDir (gw_Web c)) n) f = GAnswer 200 x.
Proof.
  intros (_ & _ & Hd & Hi & _) Hr Hx. unfold ServeFile. rewrite Hd, Hi.
  destruct (Hr n x Hx) as [-> ->]. done.
Qed.

Lemma site_names c : site_ok c -> NoDup (List.map index_name (wc_Bundles (web_config c))).
Proof.
  intros [_ H1 H2 H3]. cbn. unfold index_name. rewrite H1, H2, H3.
  apply (bool_decide_unpack _). vm_compute. exact I.
Qed.

(** The asset names a template can mention: those that do not interfere with placeholders. *)
Definition mentionable (n : string) : Prop := hole_name n /\ no_char "{" n /\ no_char ":" n.

(** A page of a bundle: its entry, with the placeholders of the assets of its directory replaced
    by their new names in the order Go iterates over the map. *)
Definition page_text (f : wfs) (b : Bundle) (t : string) : Prop :=
  exists raw assets, web_view f !! filepath_Join (wb_SourceDir b) (wb_Entry b) = Some raw /\
    (forall n v, assets !! n = Some v <-> asset_of (wb_SourceDir b) f n v) /\ t = expand raw (range assets).

(** A page whose template has no nested placeholder, in a directory of mentionable names, is the
    template with its placeholders filled. *)
Lemma page_text_filled f b t toks : page_text f b t ->
  web_view f !! filepath_Join (wb_SourceDir b) (wb_Entry b) = Some (render toks) -> page_ok toks ->
  (forall n v, asset_of (wb_SourceDir b) f n v -> mentionable n) ->
  exists assets, (forall n v, assets !! n = Some v <-> asset_of (wb_SourceDir b) f n v) /\ t = filled assets toks.
Proof.
  intros (raw & assets & Hraw & Has & ->) Hsrc Htok Hmen. exists assets. split; [done|].
  assert (raw = render toks) as -> by congruence. apply expand_filled; [done|].
  intros n v Hv%Has. destruct (Hmen n v Hv) as (H1 & H2 & H3). split; [done|].
  destruct Hv as (Hn & _ & y & _ & ->). by apply hashed_value.
Qed.

Lemma page_of_bundle c p b : page_of c p = Some b -> In b (wc_Bundles (web_config c)).
Proof.
  unfold page_of. destruct (p =? "/")%string; [intros [= <-]; by left|].
  destruct (str_prefix "/portal" p); [intros [= <-]; right; by left|].
  destruct (str_prefix "/wallet" p); [intros [= <-]; right; right; by left|done].
Qed.

(** C15. The site built at start-up is the site served.  A request for a page of one of the three
    bundles, outside the configured prefixes, is answered with the entry of the bundle in which
    the placeholders of the assets of its directory are replaced by the assets' new names; where
    no placeholder of the entry is nested in another and no asset name holds a brace or a colon
    this is the template with all of them filled.  A request for the new name of an asset is
    answered with a file of that digest, unless the name begins with [portal] or [wallet]: then
    the page of that bundle is the answer.  The limiter is not asked and nothing changes. *)
Theorem gateway_serves_site c m nano s f f' :
  routes_ok url_Parse c -> new_mux url_Parse c = Ret m -> site_ok c ->
  EnsureFlatWebFS (web_config c) f = (Ret tt, f') ->
  Forall (bundle_ok (ws_RuntimeWebDir (gw_Web c))) (wc_Bundles (web_config c)) ->
  gx_files (gs_world s) = f' -> readable (ws_RuntimeWebDir (gw_Web c)) f' ->
  (forall r b, web_path c (gr_Path r) -> page_of c (gr_Path r) = Some b ->
     exists t, page_text f b t /\ handle c m nano r s = (Ret (GAnswer 200 t), s) /\
       forall toks, web_view f !! filepath_Join (wb_SourceDir b) (wb_Entry b) = Some (render toks) -> page_ok toks ->
         (forall n v, asset_of (wb_SourceDir b) f n v -> mentionable n) ->
         exists assets, (forall n v, assets !! n = Some v <-> asset_of (wb_SourceDir b) f n v) /\ t = filled assets toks) /\
  (forall b r n x, In b (wc_Bundles (web_config c)) ->
     plain_name n -> str_suffix ".html" n = false -> ~ In "\"%char (str_list n) ->
     web_view f !! filepath_Join (wb_SourceDir b) n = Some x -> gr_Path r = "/" +:+ hashed_name n x ->
     (forall rt, In rt (gw_Routes c) -> ~ covers rt (gr_Path r)) ->
     match page_of c (gr_Path r) with
     | None => exists x', hash12 x' = hash12 x /\ handle c m nano r s = (Ret (GAnswer 200 x'), s)
     | Some b' => exists t, page_text f b' t /\ handle c m nano r s = (Ret (GAnswer 200 t), s)
     end).
Proof.
  intros Hok Hm Hsite Hrun Hbs Hf Hrd. set (dir := ws_RuntimeWebDir (gw_Web c)) in *.
  assert (web_dir (web_config c) = dir) as Hdir.
  { unfold web_dir. cbn [wc_RuntimeWebDir web_config]. fold dir. destruct (String.eqb_spec dir ""); [|done].
    by destruct (so_dir c Hsite). }
  destruct (EnsureFlatWebFS_run (web_config c) f f' Hrun) as [_ Hdone]; [by rewrite Hdir|by apply site_names|].
  rewrite Hdir in Hdone.
  assert (forall r b, web_path c (gr_Path r) -> page_of c (gr_Path r) = Some b ->
    exists t, page_text f b t /\ handle c m nano r s = (Ret (GAnswer 200 t), s)) as Hpage.
  { intros r b Hp Hpg. destruct (Hdone b (page_of_bundle _ _ _ Hpg)) as [_ (raw & assets & Hraw & Has & Hidx)].
    exists (expand raw (range assets)). split; [by exists raw, assets|].
    rewrite (handler_web c m nano r s Hok Hm Hp), Hf. f_equal. f_equal. unfold serve_web.
    rewrite (page_file c _ b) by done. exact (serve_file c _ (index_name b) _ f' Hp Hrd Hidx). }
  split.
  - intros r b Hp Hpg. destruct (Hpage r b Hp Hpg) as (t & Ht & Hh). exists t. split_and!; [done..|].
    intros toks. by apply page_text_filled.
  - intros b r n x Hb Hn Hh Hbs' Hx Hp Hc. rewrite Hp in Hc. pose proof (asset_web_path c n x Hn Hh Hbs' Hc) as Hw.
    rewrite <- Hp in Hw. destruct (page_of c (gr_Path r)) as [b'|] eqn:Hpg; [by apply Hpage|].
    destruct (Hdone b Hb) as [Hpub _]. destruct (Hpub n x Hn Hh Hx) as (x' & Hx' & Hd). exists x'. split; [done|].
    rewrite (handler_web c m nano r s Hok Hm Hw), Hf. rewrite Hp in *. f_equal. f_equal. unfold serve_web.
    rewrite (asset_file c); [|apply hashed_plain; by apply name_no_slash|done|].
    + apply (serve_file c _ _ x' f' Hw Hrd Hx').
    + fold dir. by destruct (Hrd _ _ Hx') as [-> _].
Qed.
End Site.
End Gateway.
