(* ===== verification/Boot.v ===== *)
(** * Starting a node

    internal/reserveconfig, internal/reserverpc, [New] and [Start] of internal/reservep2p, and
    [NewFromConfig], [Start] and [Stop] of core/node/node.go, over one file system, one table of
    bound addresses ([TcpProxy]) and the stores that [leveldb.OpenFile] returns.  A field of the
    node that is still nil is [None], and reading through it is a panic.  Goroutines are modelled
    by their bodies elsewhere; here is what [Start] does before it returns.
    The theorems: a node made by [NewFromConfig] panics in [Start], before it has read a file or
    bound a port ([Start_fresh_panics]); a store keeps the chain of its first genesis
    ([genesis_pins_chain]); [Stop] leaves the peer-to-peer listener open ([Stop_leaves_listener]), and the gateway's
    proxy may have taken its port ([p2p_port_taken]). *)

From S2P Require Import Prelude GoLang KV Chain WebFS Pow Storage StorageProps State StateProps Config Crypto Validate Apply Frame Mempool Forkchoice Finality KeyVault Sync Node Gossip Transport Api PlatformDB HttpClient Gateway TcpProxy.

(** ** internal/reserveconfig *)

Definition LoadJSON {F : VaultFiles} {A} `{JSON A} (path : string) : GoM vfs A := fun f =>
  (match os_ReadFile path f with Ret b => json_unmarshal b | Err e => Err e | Panic => Panic end, f).

(** ** internal/reserverpc *)

(** The patterns of the mux, and whether the listener is open. *)
Record RpcServer := { rp_addr : string; rp_mux : list string; rp_open : bool }.

(** [fmt.Sprintf("%s:%d", bind, port)]. *)
Definition bind_addr (bind : string) (port : Z) : string := bind +:+ ":" +:+ itoa port.

Definition rpc_New (bind : string) (port : Z) : RpcServer :=
  {| rp_addr := bind_addr bind port; rp_mux := []; rp_open := false |}.
(** A pattern that is registered twice is a panic. *)
Definition rpc_HandleFunc (s : RpcServer) (path : string) : outcome RpcServer :=
  if existsb (String.eqb path) (rp_mux s) then Panic
  else Ret {| rp_addr := rp_addr s; rp_mux := rp_mux s ++ [path]; rp_open := rp_open s |}.
Definition rpc_Start (me : nat) (s : RpcServer) : GoM bindings RpcServer := fun bs =>
  match net_Listen me (rp_addr s) bs with
  | Ret bs' => (Ret {| rp_addr := rp_addr s; rp_mux := rp_mux s; rp_open := true |}, bs')
  | Err e => (Err e, bs)
  | Panic => (Panic, bs)
  end.
(** [Shutdown] closes the listener. *)
Definition unbind (me : nat) (a : string) (bs : bindings) : bindings :=
  List.filter (fun b => negb (Nat.eqb b.2 me && (b.1 =? a)%string)) bs.
Definition rpc_Stop (me : nat) (s : RpcServer) (bs : bindings) : bindings :=
  if rp_open s then unbind me (rp_addr s) bs else bs.

(** ** internal/reservep2p *)

Record P2PSettings := { pg_Bind : string; pg_Port : Z; pg_KeyvaultPath : string; pg_KeyvaultEnv : string }.
Definition fill_p2p (c : P2PSettings) : P2PSettings :=
  {| pg_Bind := or_default (pg_Bind c) "0.0.0.0"; pg_Port := if pg_Port c =? 0 then 18444 else pg_Port c;
     pg_KeyvaultPath := or_default (pg_KeyvaultPath c) "runtime/keyvault/keyvault.enc";
     pg_KeyvaultEnv := or_default (pg_KeyvaultEnv c) "RESERVEOS_KEYMASTER" |}.

(** The node of the package with its settings and whether its listener is open. *)
Record P2P := { pp_cfg : P2PSettings; pp_node : P2PNode; pp_open : bool }.

Definition p2p_Start (me : nat) (p : P2P) : GoM bindings P2P := fun bs =>
  match net_Listen me (bind_addr (pg_Bind (pp_cfg p)) (pg_Port (pp_cfg p))) bs with
  | Ret bs' => (Ret {| pp_cfg := pp_cfg p; pp_node := pp_node p; pp_open := true |}, bs')
  | Err e => (Err e, bs)
  | Panic => (Panic, bs)
  end.
Definition p2p_Stop (me : nat) (p : P2P) (bs : bindings) : bindings :=
  if pp_open p then unbind me (bind_addr (pg_Bind (pp_cfg p)) (pg_Port (pp_cfg p))) bs else bs.

Section Boot.
Context {L : LevelDB} {HS : Hashes} {CD : Codecs} {ED : Ed25519} {MO : MapOrder}.
Context {G : GCM} {F : VaultFiles} {VC : VaultCodec} {JC : JSON Config}.
Context (rnd : outcome string) (Getenv : string -> string) (maybeRotateLocked : string -> GoM (Vault * vfs) unit).
(** Key generation for the validator and for the network, and [leveldb.OpenFile]. *)
Context (gen_pos gen_p2p : outcome (string * string)) (OpenFile : string -> outcome db_t).
Context (senders : list string) (now : Z) (me : nat) (paths : list string).

Notation open_vault := (OpenOrInit rnd Getenv maybeRotateLocked).
Notation vault_set := (SetString rnd).

Definition p2p_New (c : P2PSettings) : GoM vfs P2P :=
  let c := fill_p2p c in
  let! kv := open_vault {| oo_RotationDays := 5; oo_Path := pg_KeyvaultPath c; oo_KEKEnv := pg_KeyvaultEnv c |} in
  let! (pubHex, priv) := (fun f => let '(o, (_, f')) := LoadOrGenIdentity vault_get vault_set gen_p2p (kv, f) in (o, f')) in
  gret {| pp_cfg := c; pp_node := {| pn_pubHex := pubHex; pn_priv := priv; pn_sessions := ∅ |}; pp_open := false |}.

(** ** core/chain: the genesis file *)

Definition LoadGenesis (path : string) : GoM vfs Genesis :=
  let! g := LoadJSON path in
  glift (Genesis_Validate g) ;;; gret g.

(** ** internal/reservestorage: opening the store *)

Definition OpenLevelDB (path : string) : outcome db_t :=
  match OpenFile path with Ret db => Ret db | Err e => Err e | Panic => Panic end.

(** ** core/node *)

(** The fields [Start] sets. *)
Record NodeS := {
  n_cfg : Config; n_db : option db_t; n_vault : option Vault; n_rpc : option RpcServer; n_genesis : option Genesis;
  n_mp : option Mempool; n_p2p : option P2P; n_fin : option FinNode; n_ready : bool;
  n_sm : option syncManager;
  (** The store has been closed. *)
  n_closed : bool }.

Definition NewFromConfig (path : string) : GoM vfs NodeS :=
  let! cfg := LoadJSON path in
  let '(r, cfg) := Config_Validate cfg in
  glift r ;;;
  gret {| n_cfg := cfg; n_db := None; n_vault := None; n_rpc := None; n_genesis := None; n_mp := None; n_p2p := None;
          n_fin := None; n_ready := false; n_sm := None; n_closed := false |}.

(** The node, the files and the network of the process. *)
Record boot_st := { b_node : NodeS; b_files : vfs; b_net : bindings }.
Definition on_files {A} (m : GoM vfs A) : GoM boot_st A :=
  gzoom b_files (fun f s => {| b_node := b_node s; b_files := f; b_net := b_net s |}) m.
Definition on_net {A} (m : GoM bindings A) : GoM boot_st A :=
  gzoom b_net (fun bs s => {| b_node := b_node s; b_files := b_files s; b_net := bs |}) m.
Definition upd (f : NodeS -> NodeS) : GoM boot_st unit :=
  gmodify (fun s => {| b_node := f (b_node s); b_files := b_files s; b_net := b_net s |}).

Definition set_mp (m : Mempool) (n : NodeS) : NodeS :=
  {| n_cfg := n_cfg n; n_db := n_db n; n_vault := n_vault n; n_rpc := n_rpc n; n_genesis := n_genesis n; n_mp := Some m;
     n_p2p := n_p2p n; n_fin := n_fin n; n_ready := n_ready n; n_sm := n_sm n; n_closed := n_closed n |}.
Definition set_db (d : db_t) (n : NodeS) : NodeS :=
  {| n_cfg := n_cfg n; n_db := Some d; n_vault := n_vault n; n_rpc := n_rpc n; n_genesis := n_genesis n; n_mp := n_mp n;
     n_p2p := n_p2p n; n_fin := n_fin n; n_ready := n_ready n; n_sm := n_sm n; n_closed := n_closed n |}.
Definition set_genesis (g : Genesis) (n : NodeS) : NodeS :=
  {| n_cfg := n_cfg n; n_db := n_db n; n_vault := n_vault n; n_rpc := n_rpc n; n_genesis := Some g; n_mp := n_mp n;
     n_p2p := n_p2p n; n_fin := n_fin n; n_ready := n_ready n; n_sm := n_sm n; n_closed := n_closed n |}.
Definition set_vault (v : Vault) (n : NodeS) : NodeS :=
  {| n_cfg := n_cfg n; n_db := n_db n; n_vault := Some v; n_rpc := n_rpc n; n_genesis := n_genesis n; n_mp := n_mp n;
     n_p2p := n_p2p n; n_fin := n_fin n; n_ready := n_ready n; n_sm := n_sm n; n_closed := n_closed n |}.
Definition set_fin (x : FinNode) (n : NodeS) : NodeS :=
  {| n_cfg := n_cfg n; n_db := n_db n; n_vault := n_vault n; n_rpc := n_rpc n; n_genesis := n_genesis n; n_mp := n_mp n;
     n_p2p := n_p2p n; n_fin := Some x; n_ready := n_ready n; n_sm := n_sm n; n_closed := n_closed n |}.
Definition set_rpc (r : RpcServer) (n : NodeS) : NodeS :=
  {| n_cfg := n_cfg n; n_db := n_db n; n_vault := n_vault n; n_rpc := Some r; n_genesis := n_genesis n; n_mp := n_mp n;
     n_p2p := n_p2p n; n_fin := n_fin n; n_ready := n_ready n; n_sm := n_sm n; n_closed := n_closed n |}.
Definition set_p2p (p : option P2P) (n : NodeS) : NodeS :=
  {| n_cfg := n_cfg n; n_db := n_db n; n_vault := n_vault n; n_rpc := n_rpc n; n_genesis := n_genesis n; n_mp := n_mp n;
     n_p2p := p; n_fin := n_fin n; n_ready := n_ready n; n_sm := n_sm n; n_closed := n_closed n |}.
Definition set_ready (b : bool) (n : NodeS) : NodeS :=
  {| n_cfg := n_cfg n; n_db := n_db n; n_vault := n_vault n; n_rpc := n_rpc n; n_genesis := n_genesis n; n_mp := n_mp n;
     n_p2p := n_p2p n; n_fin := n_fin n; n_ready := b; n_sm := n_sm n; n_closed := n_closed n |}.

Definition set_sm (x : syncManager) (n : NodeS) : NodeS :=
  {| n_cfg := n_cfg n; n_db := n_db n; n_vault := n_vault n; n_rpc := n_rpc n; n_genesis := n_genesis n; n_mp := n_mp n;
     n_p2p := n_p2p n; n_fin := n_fin n; n_ready := n_ready n; n_sm := Some x; n_closed := n_closed n |}.
Definition set_closed (n : NodeS) : NodeS :=
  {| n_cfg := n_cfg n; n_db := n_db n; n_vault := n_vault n; n_rpc := n_rpc n; n_genesis := n_genesis n; n_mp := n_mp n;
     n_p2p := n_p2p n; n_fin := n_fin n; n_ready := n_ready n; n_sm := n_sm n; n_closed := true |}.

(** The pool is filled from the store of the node as it is before the store is opened. *)
Definition reload_pool : GoM boot_st unit :=
  let! s := gget in
  let n := b_node s in
  upd (set_mp (NewMempool (c_Mempool (n_cfg n)))) ;;;
  match n_db n with
  | None => gpanic
  | Some d =>
      let run := let! txs := gtry (on_pool_db (LoadMempoolTxs now 5000)) in
                 match txs with
                 | inr txs => gfor txs (fun tx => gignore false (Add senders now tx) ;;; gret tt)
                 | inl _ => gret tt
                 end in
      let '(o, (d', mp)) := run (d, NewMempool (c_Mempool (n_cfg n))) in
      upd (fun n => set_db d' (set_mp mp n)) ;;; glift o
  end.

(** The registrations. *)
Fixpoint register_paths (r : RpcServer) (l : list string) : outcome RpcServer :=
  match l with
  | [] => Ret r
  | p :: l' => match rpc_HandleFunc r p with Ret r => register_paths r l' | Err e => Err e | Panic => Panic end
  end.

Definition start_p2p : GoM boot_st unit :=
  let! s := gget in
  let cfg := n_cfg (b_node s) in
  if p2_Enabled (c_P2P cfg) then
    let! r := gtry (on_files (p2p_New {| pg_Bind := p2_Bind (c_P2P cfg); pg_Port := p2_Port (c_P2P cfg);
      pg_KeyvaultPath := kc_Path (c_Keyvault cfg); pg_KeyvaultEnv := kc_KEKEnv (c_Keyvault cfg) |})) in
    match r with
    | inl _ => upd (set_p2p None)
    | inr p =>
        let! r := gtry (on_net (p2p_Start me p)) in
        upd (set_p2p (Some (match r with inr p => p | inl _ => p end)))
    end ;;;
    upd (set_sm new_syncManager)
  else gret tt.

(** The finality part reads and writes the vault of the node. *)
Definition start_fin (g : Genesis) (v : Vault) : GoM boot_st unit := fun s =>
  let '(o, (v', f')) := start_finality vault_get vault_set gen_pos (n_cfg (b_node s)) g (v, b_files s) in
  let s' := {| b_node := set_vault v' (b_node s); b_files := f'; b_net := b_net s |} in
  match o with Ret x => upd (set_fin x) s' | Err e => (Err e, s') | Panic => (Panic, s') end.

Definition genesis_in_store (g : Genesis) (d : db_t) : GoM boot_st unit := fun s =>
  let '(o, d') := ensureGenesisStored g d in
  (o, {| b_node := set_db d' (b_node s); b_files := b_files s; b_net := b_net s |}).

Definition start_rpc : GoM boot_st unit :=
  let! s := gget in
  let cfg := n_cfg (b_node s) in
  let! r := glift (register_paths (rpc_New (rc_Bind (c_RPC cfg)) (rc_Port (c_RPC cfg))) paths) in
  let! r := gwrap "rpc: " (on_net (rpc_Start me r)) in
  upd (set_rpc r).

Definition Start : GoM boot_st unit :=
  reload_pool ;;;
  let! s := gget in
  let cfg := n_cfg (b_node s) in
  let! g := gwrap "genesis: " (on_files (LoadGenesis (c_GenesisFile cfg))) in
  upd (set_genesis g) ;;;
  let! v := gwrap "keyvault: " (on_files (open_vault {| oo_RotationDays := 0; oo_Path := kc_Path (c_Keyvault cfg);
    oo_KEKEnv := kc_KEKEnv (c_Keyvault cfg) |})) in
  upd (set_vault v) ;;;
  let! d := gwrap "leveldb: " (glift (OpenLevelDB (c_LevelDBPath cfg))) in
  upd (set_db d) ;;;
  genesis_in_store g d ;;;
  start_fin g v ;;;
  start_rpc ;;;
  start_p2p ;;;
  upd (set_ready true).

(** [Stop]; the peer-to-peer node keeps its listener and its handler. *)
Definition Stop : GoM boot_st unit :=
  upd (set_ready false) ;;;
  let! s := gget in
  match n_rpc (b_node s) with
  | Some r => on_net (gmodify (rpc_Stop me r))
  | None => gret tt
  end ;;;
  match n_db (b_node s) with Some _ => upd set_closed | None => gret tt end.

(** core/cmd/node: the program up to the wait for a signal; an error is [log.Fatalf]. *)
Definition node_main (path : string) (f : vfs) (bs : bindings) : outcome boot_st :=
  match NewFromConfig path f with
  | (Ret n, f') => match Start {| b_node := n; b_files := f'; b_net := bs |} with
                   | (Ret _, s) => Ret s
                   | (Err e, _) => Err e
                   | (Panic, _) => Panic
                   end
  | (Err e, _) => Err e
  | (Panic, _) => Panic
  end.
End Boot.

Lemma gwrap_inv {S A} p (m : GoM S A) s a s' : gwrap p m s = (Ret a, s') -> m s = (Ret a, s').
Proof.
  unfold gwrap. intros (r & s1 & H & H')%gbind_inv. unfold gtry in H.
  destruct (m s) as [[x|e|] s2]; [injection H as <- <-..|done]; by inversion H'.
Qed.

(** ** What the goroutines of [Start] repeat *)
Section Periodic.
Context {L : LevelDB} {HS : Hashes} {CD : Codecs} {ED : Ed25519} {MO : MapOrder} {any : Type} {AJ : JSON any}.

(** [startFinalityGossip]: the body of a tick; errors are dropped. *)
Definition finality_tick (n : FinNode) (cfg : Config) (genesis : Genesis)
    (peer_votes : string -> Z -> outcome (list VoteRecord)) (now : Z) : GoM db_t unit :=
  if negb (finalityEnabled n) then gret tt
  else
    gignore [] (ensureVotesUpToTip (any := any) n cfg genesis now) ;;;
    gignore tt (pullVotesFromPeers n cfg genesis peer_votes now).

(** The addresses the dial loop of p2p_gossip.go tries in a round; [hostname] is [url.Parse] and
    [Hostname]. *)
Definition dial_addrs (hostname : string -> outcome string) (peers : list string) : list string :=
  omap (fun p => match hostname p with
                 | Ret host => if (host =? "")%string then None else Some (host +:+ ":18444")
                 | _ => None
                 end) peers.

(** Whether [startSyncLoop] starts its ticker. *)
Definition sync_loop_runs (cfg : Config) : bool :=
  sc_Enabled (c_Sync cfg) && negb (Nat.eqb (length (sc_Peers (c_Sync cfg))) 0).
End Periodic.

(** ** The store of a started node *)
Section Genesis.
Context {L : LevelDB} {HL : LevelDBOk L} {HS : Hashes} {CD : Codecs} {ED : Ed25519} {MO : MapOrder}.

(** Keys of a block, of the tip and of finality are not that of genesis. *)
Lemma keeps_rest gh (gb : Block) : keeps (fun k => k = keyGenesis)
  (gwrap "genesis-block-store: " (PutBlock gh 0 gb) ;;;
   gwrap "tip-store: " (PutTip 0 gh) ;;;
   gignore tt (PutFinalized 0 gh) ;;;
   let! w := glift (Work64 (Bits (Header gb))) in
   gignore tt (PutWork gh w) ;;;
   gignore tt (PutTipWork w)).
Proof.
  unfold gwrap, PutBlock, PutTip, PutFinalized, PutWork, PutTipWork. frame; try (by intros H; discriminate H).
  apply keeps_write. by intros o [<-|[<-|[]]].
Qed.

(** After [ensureGenesisStored] the store holds a genesis of the chain of the file. *)
Lemma genesis_matches g d d' : (exists b, json_marshal g = Ret b /\ json_unmarshal b = Ret g) ->
  ensureGenesisStored g d = (Ret tt, d') ->
  exists g', (GetGenesis d').1 = Ret (Found g') /\ g_ChainID g' = g_ChainID g.
Proof.
  intros (b & Hb & Hu) H. unfold ensureGenesisStored in H. apply gbind_inv in H as (has & d1 & H1 & H).
  assert (d1 = d) as ->.
  { unfold gwrap, HasGenesis, has_key, gbind, gtry in H1. rewrite kv_get_ok in H1. by injection H1. }
  destruct has; cbn [negb] in H.
  - apply gbind_inv in H as (r0 & d1 & Hg%gwrap_inv & H).
    assert (d1 = d) as ->.
    { unfold GetGenesis, get_json_found, gbind in Hg. rewrite kv_get_ok in Hg. destruct (db_view d !! keyGenesis) as [x|]; [|by injection Hg].
      by destruct (json_unmarshal x); injection Hg. }
    destruct r0 as [|existing|? ?]; [discriminate H| |discriminate H].
    destruct (String.eqb_spec (g_ChainID existing) (g_ChainID g)) as [He|]; [|by inversion H].
    injection H as <-. exists existing. by rewrite Hg.
  - apply gbind_inv in H as ([] & d1 & Hp & H). unfold gwrap, PutGenesis, put_json in Hp.
    unfold gbind, gtry, glift in Hp. rewrite Hb, db_put_ok in Hp. injection Hp as <-.
    set (gb := GenesisBlock g) in *. set (gh := Hash_String (HeaderHash (Header gb))) in *.
    pose proof (keeps_rest gh gb (db_ins keyGenesis b d) keyGenesis eq_refl) as Hk. rewrite H in Hk.
    unfold store_of, store_db in Hk. cbn [snd] in Hk. rewrite db_view_ins, lookup_insert_eq in Hk.
    exists g. unfold GetGenesis, get_json_found, gbind. rewrite kv_get_ok, Hk, Hu. done.
Qed.

(** A store keeps the chain of the genesis it was first given: storing a genesis of the same chain
    again changes nothing, one of another chain is refused and changes nothing. *)
Theorem genesis_pins_chain g d d' : (exists b, json_marshal g = Ret b /\ json_unmarshal b = Ret g) ->
  ensureGenesisStored g d = (Ret tt, d') ->
  forall g2, if (g_ChainID g2 =? g_ChainID g)%string then ensureGenesisStored g2 d' = (Ret tt, d')
             else exists e, ensureGenesisStored g2 d' = (Err e, d').
Proof.
  intros Hc H g2. destruct (genesis_matches g d d' Hc H) as (g' & Hg & <-).
  unfold GetGenesis, get_json_found, gbind in Hg. rewrite kv_get_ok in Hg.
  destruct (db_view d' !! keyGenesis) as [x|] eqn:Hx; [|discriminate Hg].
  assert (gwrap "genesis-check: " HasGenesis d' = (Ret true, d')) as H1.
  { unfold gwrap, HasGenesis, has_key, gbind, gtry. by rewrite kv_get_ok, Hx. }
  assert (gwrap "genesis-load-stored: " GetGenesis d' = (Ret (Found g'), d')) as H2.
  { unfold gwrap, GetGenesis, get_json_found, gbind, gtry. rewrite kv_get_ok, Hx.
    destruct (json_unmarshal x); [|discriminate Hg..]. by injection Hg as ->. }
  unfold ensureGenesisStored. rewrite (gbind_ret _ _ _ _ _ H1). cbn [negb]. rewrite (gbind_ret _ _ _ _ _ H2).
  rewrite (String.eqb_sym (g_ChainID g')). destruct (g_ChainID g2 =? g_ChainID g')%string; [done|by eexists].
Qed.
End Genesis.

(** ** What [Start] leads to *)
Section Started.
Context {L : LevelDB} {HL : LevelDBOk L} {HS : Hashes} {CD : Codecs} {ED : Ed25519} {MO : MapOrder}.
Context {G : GCM} {F : VaultFiles} {VC : VaultCodec} {JC : JSON Config}.
Context (rnd : outcome string) (Getenv : string -> string) (maybeRotateLocked : string -> GoM (Vault * vfs) unit).
Context (gen_pos gen_p2p : outcome (string * string)) (OpenFile : string -> outcome db_t).
Context (senders : list string) (now : Z) (me : nat) (paths : list string).
Notation start := (Start rnd Getenv maybeRotateLocked gen_pos gen_p2p OpenFile senders now me paths).

(** C17. A node made from a configuration never starts: [Start] reads the pool through the store
    before the store is opened, so it panics whatever the configuration, the files and the
    network are, and has changed nothing but the empty pool of the node; the program never gets
    to the wait for a signal. *)
Theorem Start_fresh_panics path f n f' bs : NewFromConfig path f = (Ret n, f') ->
  start {| b_node := n; b_files := f'; b_net := bs |} =
    (Panic, {| b_node := set_mp (NewMempool (c_Mempool (n_cfg n))) n; b_files := f'; b_net := bs |}) /\
  node_main rnd Getenv maybeRotateLocked gen_pos gen_p2p OpenFile senders now me paths path f bs = Panic.
Proof.
  intros H. assert (n_db n = None) as Hdb.
  { unfold NewFromConfig in H. apply gbind_inv in H as (cfg & f1 & _ & H). destruct (Config_Validate cfg) as [r cfg'].
    apply gbind_inv in H as ([] & f2 & _ & H). by injection H as <- <-. }
  assert (start {| b_node := n; b_files := f'; b_net := bs |} =
    (Panic, {| b_node := set_mp (NewMempool (c_Mempool (n_cfg n))) n; b_files := f'; b_net := bs |})) as Hs.
  { unfold Start, reload_pool, gbind, gget, upd, gmodify. cbn. by rewrite Hdb. }
  split; [done|]. unfold node_main. by rewrite H, Hs.
Qed.

(** The listener of the proxy in front of a node takes the port of the node's own: the error is
    dropped, and the node starts without a listener. *)
Theorem p2p_port_taken c bs0 bs s0 p : gw_TCPListen c = "" ->
  startTCPProxy 0 (gw_TCPListen (fill_gateway c)) bs0 = Ret (bs, s0) -> pp_cfg p = fill_p2p {| pg_Bind := ""; pg_Port := 0; pg_KeyvaultPath := ""; pg_KeyvaultEnv := "" |} ->
  p2p_Start me p bs = (Err "bind: address already in use", bs).
Proof.
  intros Hl H Hp. cbn [gw_TCPListen fill_gateway] in H. rewrite Hl in H. unfold startTCPProxy, net_Listen in H.
  destruct (taken bs0 _); [done|]. injection H as <- _. unfold p2p_Start. rewrite Hp. done.
Qed.

(** [Stop] closes the store while the peer-to-peer node still listens and hands messages to it. *)
Theorem Stop_leaves_listener s d p a : n_db (b_node s) = Some d -> n_p2p (b_node s) = Some p ->
  In (a, me) (b_net s) -> (forall r, n_rpc (b_node s) = Some r -> rp_addr r <> a) ->
  exists s', Stop me s = (Ret tt, s') /\ n_ready (b_node s') = false /\ n_closed (b_node s') = true /\
    n_p2p (b_node s') = Some p /\ In (a, me) (b_net s').
Proof.
  intros Hd Hp Ha Hr. unfold Stop, gbind, upd, gmodify, gget, on_net, gzoom. cbn. rewrite Hd.
  destruct (n_rpc (b_node s)) as [r|]; cbn; (eexists; split; [reflexivity|]); split_and!; try done.
  unfold rpc_Stop. destruct (rp_open r); [|done]. apply filter_In. split; [done|]. cbn.
  destruct (String.eqb_spec a (rp_addr r)) as [E|]; [by destruct (Hr r eq_refl)|]. by rewrite andb_false_r.
Qed.
End Started.
