(* ===== verification/ServiceBoot.v ===== *)
(** * Starting the services

    [New] of the wallet and of the storage service and the start of the platform database, over
    the file system of the key vault.  A database file is the tables in it, or nothing; statements
    of [migrate] may fail.  A listener is left out: it is the one of [Boot].
    The theorem: a wallet that has been started comes back from every sequence of restarts in
    which no rotation of the vault is due with the same keys and the same account, whatever a
    new key generation would give ([wallet_restart]). *)

From S2P Require Import Prelude GoLang KV Chain Storage State Fees Validate Config Crypto Finality KeyVault StorageDaemon Node Wallet Api PlatformDB HttpClient Boot.

Section Services.
Context {HS : Hashes} {E : Edwards} {ED : Ed25519} {G : GCM} {F : VaultFiles} {VC : VaultCodec}.
Context {JW : JSON Wallet.WConfig} {JS : JSON SConfig} {JP : JSON PConfig}.
Context (Getenv : string -> string) (maybeRotateLocked : string -> GoM (Vault * vfs) unit).

(** ** services/wallet-daemon *)

Record WServer := { ww_cfg : Wallet.WConfig; ww_wallet : wallet; ww_routes : list string }.

(** [routes]. *)
Definition wallet_routes : list string := ["/healthz"; "/otap/keys"; "/otap/request"; "/otap/build_tx"].

(** The public keys [/otap/keys] shows. *)
Definition otap_keys (w : wallet) : RegistryKeys := ok_Registry (w_keys w).

(** [rnd] are the nonces of the vault, the others what key generation reads. *)
Definition wallet_New (rnd rnd1 rnd2 : outcome string) (gen : outcome (string * string)) (path : string) : GoM vfs WServer :=
  let! cfg := LoadJSON path in
  let! cfg := glift (check_config cfg) in
  let! kv := OpenOrInit rnd Getenv maybeRotateLocked
    {| oo_RotationDays := 5; oo_Path := wc_KeyvaultPath cfg; oo_KEKEnv := wc_KEKEnv cfg |} in
  let! (keys, acct) := (fun f =>
    let '(o, (_, f')) := (let! keys := LoadOrGenOTAPKeys vault_get (SetString rnd) rnd1 rnd2 in
                          let! acct := LoadOrGenWalletAccount vault_get (SetString rnd) gen in
                          gret (keys, acct)) (kv, f) in (o, f')) in
  gret {| ww_cfg := cfg; ww_wallet := {| w_acct := acct; w_keys := keys; w_chainID := ""; w_last := 0 |};
          ww_routes := wallet_routes |}.

(** ** services/storage-daemon *)

Record SServer := { ss_cfg : SConfig; ss_db : tables }.

(** [migrate]: tables that are there stay as they are. *)
Definition migrate (exec_fails : nat -> bool) (file : option tables) : outcome tables :=
  if existsb exec_fails [0; 1; 2; 3; 4]%nat then Err "exec" else Ret (default migrated file).

Definition storage_New (exec_fails : nat -> bool) (db_file : string -> outcome (option tables)) (path : string) : GoM vfs SServer :=
  let! cfg := LoadJSON path in
  let! cfg := glift (check_storage_config cfg) in
  os_MkdirAll (filepath_Dir (sc_Path cfg)) ;;;
  let! file := glift (db_file (sc_Path cfg)) in
  let! db := glift (migrate exec_fails file) in
  gret {| ss_cfg := cfg; ss_db := db |}.

(** ** services/platformdb-daemon *)

Record PServer := { ps_cfg : PConfig; ps_dsn : string; ps_token : string }.

(** [main] up to the listener; errors are [log.Fatal]. *)
Definition platform_main (rnd : outcome string) (pid now : Z) (path : string) : GoM vfs PServer :=
  let! cfg := LoadJSON path in
  let cfg := fill_platform cfg in
  gignore tt (os_MkdirAll "runtime/platformdb") ;;;
  let! kv := OpenOrInit rnd Getenv maybeRotateLocked
    {| oo_RotationDays := 5; oo_Path := pf_KeyvaultPath cfg; oo_KEKEnv := pf_KeyvaultEnv cfg |} in
  let! (key, token) := (fun f =>
    let '(o, (_, f')) := (let! key := platform_key vault_get (SetString rnd) pid in
                          let! token := platform_token vault_get (SetString rnd) now in
                          gret (key, token)) (kv, f) in (o, f')) in
  gret {| ps_cfg := cfg; ps_dsn := platform_dsn cfg key; ps_token := token |}.
End Services.

(** ** Restarts *)
Section Restart.
Context {HS : Hashes} {E : Edwards} {ED : Ed25519} {G : GCM} {F : VaultFiles} {VC : VaultCodec} {JW : JSON Wallet.WConfig}.
Context {GOk : GCMOk G} {FOk : VaultFilesOk F} {VOk : VaultCodecOk VC}.
Context (Getenv : string -> string).

(** What is known of the callees: a nonce has twelve bytes, and hexadecimal digits and the names
    of the entries are valid UTF-8. *)
Hypothesis hex_text : forall b, text_ok (hex_EncodeToString b).
Hypothesis name_text : Forall text_ok ["otap.s_priv"; "otap.v_priv"; "otap.S_pub"; "otap.V_pub"; "wallet.ed25519_pub"; "wallet.ed25519_priv"].
Hypothesis empty_ok : data_ok empty_data.

Definition nonce_ok (rnd : outcome string) : Prop := forall nonce, rnd = Ret nonce -> String.length nonce = 12%nat.

(** A vault that agrees with its file and belongs to [opt]: under its first key. *)
Definition vault_at (opt : OpenOptions) (v : Vault) (f : vfs) : Prop :=
  synced v f /\ v_path v = oo_Path opt /\ v_key v = deriveKey (Getenv (oo_KEKEnv opt)) "k1".

(** The rotation of a start leaves a vault with these data as it is: none is due. *)
Definition idle_at (rot : string -> GoM (Vault * vfs) unit) (opt : OpenOptions) (d : vault_data) : Prop :=
  rotation_idle rot (Getenv (oo_KEKEnv opt)) (opened Getenv opt d).

(** A vault of its own at a path: none yet, or one written under the first key of the same
    secret for which no rotation is due. *)
Definition vault_ours (rot : string -> GoM (Vault * vfs) unit) (opt : OpenOptions) (f : vfs) : Prop :=
  os_Stat (oo_Path opt) f = StatMissing \/ exists v, vault_at opt v f /\ idle_at rot opt (v_data v).

Lemma open_at rnd rot opt v f : vault_at opt v f -> idle_at rot opt (v_data v) -> Getenv (oo_KEKEnv opt) <> "" ->
  exists f', OpenOrInit rnd Getenv rot opt f = (Ret (opened Getenv opt (v_data v)), f') /\ same_files f f' /\
    vault_at opt (opened Getenv opt (v_data v)) f'.
Proof.
  intros (Hsy & Hp & Hk) Hi He.
  destruct (OpenOrInit_opens rnd Getenv rot v f opt Hsy (eq_sym Hp) He Hk) as (f1 & Hf & Hs1 & Ho).
  exists f1. rewrite Ho, rotated_idle by exact Hi. done.
Qed.

Lemma open_ours rnd rot opt f v f' : nonce_ok rnd -> vault_ours rot opt f ->
  OpenOrInit rnd Getenv rot opt f = (Ret v, f') -> Getenv (oo_KEKEnv opt) <> "" /\ vault_at opt v f'.
Proof.
  intros Hn Ho H. assert (Getenv (oo_KEKEnv opt) <> "") as He.
  { unfold OpenOrInit in H. by destruct (String.eqb_spec (Getenv (oo_KEKEnv opt)) ""). }
  split; [done|]. destruct Ho as [Hmiss|(v0 & Hat & Hi)].
  - unfold OpenOrInit in H. destruct (String.eqb_spec (Getenv (oo_KEKEnv opt)) "") as [|_]; [done|]. cbv zeta in H.
    destruct (mkdir_same (filepath_Dir (oo_Path opt)) f) as (f1 & Hd & Hf).
    rewrite (gbind_ret _ _ _ _ _ Hd) in H. unfold gbind at 1, gget in H. destruct (Hf (oo_Path opt)) as [_ Hs].
    rewrite Hs, Hmiss in H. apply gbind_inv in H as ([] & f3 & Hper & [= <- <-]). split_and!; [|done|done].
    refine (persist_synced rnd Hn _ _ _ _ _ Hper); [exact empty_ok|by exists ∅].
  - destruct (open_at rnd rot opt v0 f Hat Hi He) as (f1 & Ho & _ & Hat'). rewrite Ho in H. by injection H as <- <-.
Qed.

Lemma set_at rnd opt k s v f v' f' : nonce_ok rnd -> vault_at opt v f -> text_ok k -> text_ok s ->
  SetString rnd k s (v, f) = (Ret tt, (v', f')) ->
  vault_at opt v' f' /\ forall j, GetString v' j = if (j =? k)%string then Some s else GetString v j.
Proof.
  intros Hn (Hsy & Hp & Hk) Ht Hs H.
  destruct (SetString_synced rnd Hn _ _ _ _ _ _ (synced_sound _ _ Hsy) Ht Hs H) as (H1 & H2 & H3 & H4).
  split; [split_and!; [done|congruence|congruence]|]. intros j. rewrite !GetString_keys, H2.
  destruct (String.eqb_spec j k) as [->|Hne]; [by rewrite lookup_insert_eq|by rewrite lookup_insert_ne].
Qed.

(** The keys that were loaded or created are in the vault. *)
Definition otap_in (v : Vault) (k : OTAPKeys) : Prop :=
  GetString v "otap.s_priv" = Some (pk_ScanPriv (ok_Priv k)) /\ GetString v "otap.v_priv" = Some (pk_SpendPriv (ok_Priv k)) /\
  GetString v "otap.S_pub" = Some (rk_ScanPub (ok_Registry k)) /\ GetString v "otap.V_pub" = Some (rk_SpendPub (ok_Registry k)).
Definition account_in (v : Vault) (a : WalletAccount) : Prop :=
  GetString v "wallet.ed25519_pub" = Some (wa_PubHex a) /\ GetString v "wallet.ed25519_priv" = Some (wa_PrivHex a).

Lemma otap_stored rnd r1 r2 opt v f k v' f' : nonce_ok rnd -> vault_at opt v f ->
  LoadOrGenOTAPKeys vault_get (SetString rnd) r1 r2 (v, f) = (Ret k, (v', f')) -> vault_at opt v' f' /\ otap_in v' k.
Proof.
  intros Hn Hv. unfold LoadOrGenOTAPKeys, vault_get. unfold gbind at 1 2 3 4. cbn [fst].
  assert ((let! (reg, priv) := glift (GenerateKeys r1 r2) in
      SetString rnd "otap.s_priv" (pk_ScanPriv priv) ;;; SetString rnd "otap.v_priv" (pk_SpendPriv priv) ;;;
      SetString rnd "otap.S_pub" (rk_ScanPub reg) ;;; SetString rnd "otap.V_pub" (rk_SpendPub reg) ;;;
      gret {| ok_Registry := reg; ok_Priv := priv |}) (v, f) = (Ret k, (v', f')) -> vault_at opt v' f' /\ otap_in v' k) as Hgen.
  { intros H. apply gbind_inv in H as ([reg priv] & s0 & [= Hg <-] & H).
    assert (text_ok (pk_ScanPriv priv) /\ text_ok (pk_SpendPriv priv) /\ text_ok (rk_ScanPub reg) /\ text_ok (rk_SpendPub reg))
      as (T1 & T2 & T3 & T4).
    { unfold GenerateKeys in Hg. destruct (randomScalar r1), (randomScalar r2); [|done..]. injection Hg as <- <-. split_and!; apply hex_text. }
    pose proof name_text as Hnt. rewrite !Forall_cons in Hnt. destruct Hnt as (N1 & N2 & N3 & N4 & _).
    apply gbind_inv in H as ([] & [v1 f1] & H1 & H). apply gbind_inv in H as ([] & [v2 f2] & H2 & H).
    apply gbind_inv in H as ([] & [v3 f3] & H3 & H). apply gbind_inv in H as ([] & [v4 f4] & H4 & H).
    apply (set_at rnd opt) in H1 as [A1 G1]; [|done..]. apply (set_at rnd opt) in H2 as [A2 G2]; [|done..].
    apply (set_at rnd opt) in H3 as [A3 G3]; [|done..]. apply (set_at rnd opt) in H4 as [A4 G4]; [|done..].
    injection H as <- <- <-. split; [done|]. unfold otap_in. rewrite !G4, !G3, !G2, !G1. done. }
  destruct (GetString v "otap.s_priv") eqn:E1, (GetString v "otap.v_priv") eqn:E2, (GetString v "otap.S_pub") eqn:E3,
    (GetString v "otap.V_pub") eqn:E4; try exact Hgen. intros [= <- <- <-]. by split.
Qed.

Lemma account_stored rnd gen opt v f k a v' f' : nonce_ok rnd -> vault_at opt v f -> otap_in v k ->
  LoadOrGenWalletAccount vault_get (SetString rnd) gen (v, f) = (Ret a, (v', f')) ->
  vault_at opt v' f' /\ otap_in v' k /\ account_in v' a.
Proof.
  intros Hn Hv Hk. unfold LoadOrGenWalletAccount, vault_get. unfold gbind at 1 2. cbn [fst].
  assert ((let! (p, s) := glift gen in
      SetString rnd "wallet.ed25519_pub" (hex_EncodeToString p) ;;; SetString rnd "wallet.ed25519_priv" (hex_EncodeToString s) ;;;
      gret {| wa_PubHex := hex_EncodeToString p; wa_PrivHex := hex_EncodeToString s |}) (v, f) = (Ret a, (v', f')) ->
      vault_at opt v' f' /\ otap_in v' k /\ account_in v' a) as Hgen.
  { intros H. apply gbind_inv in H as ([p s] & s0 & [= Hg <-] & H).
    pose proof name_text as Hnt. rewrite !Forall_cons in Hnt. destruct Hnt as (_ & _ & _ & _ & N1 & N2 & _).
    apply gbind_inv in H as ([] & [v1 f1] & H1 & H). apply gbind_inv in H as ([] & [v2 f2] & H2 & H).
    apply (set_at rnd opt) in H1 as [A1 G1]; [|done..]. apply (set_at rnd opt) in H2 as [A2 G2]; [|done..].
    injection H as <- <- <-. split; [done|]. unfold otap_in, account_in. rewrite !G2, !G1. done. }
  destruct (GetString v "wallet.ed25519_pub") eqn:E1, (GetString v "wallet.ed25519_priv") eqn:E2; try exact Hgen.
  intros [= <- <- <-]. split_and!; [done..|]. by split.
Qed.

(** What one start draws: rotation, the nonces of the vault, and what key generation reads. *)
Record draws := {
  dr_rot : string -> GoM (Vault * vfs) unit; dr_nonce : outcome string; dr_scan : outcome string; dr_spend : outcome string;
  dr_account : outcome (string * string) }.
Definition start (path : string) (x : draws) : GoM vfs WServer :=
  wallet_New Getenv (dr_rot x) (dr_nonce x) (dr_scan x) (dr_spend x) (dr_account x) path.

(** Starts one after the other on the same files; the servers they return. *)
Fixpoint starts (path : string) (l : list draws) : GoM vfs (list WServer) :=
  match l with
  | [] => gret []
  | x :: l => let! w := start path x in let! ws := starts path l in gret (w :: ws)
  end.

(** The options of the wallet's vault. *)
Definition wallet_vault (c : Wallet.WConfig) : OpenOptions :=
  {| oo_RotationDays := 5; oo_Path := wc_KeyvaultPath c; oo_KEKEnv := wc_KEKEnv c |}.

(** The keys and the account of a server are in a vault on disk. *)
Definition holds (c : Wallet.WConfig) (v : Vault) (w : WServer) (f : vfs) : Prop :=
  vault_at (wallet_vault c) v f /\ otap_in v (w_keys (ww_wallet w)) /\ account_in v (w_acct (ww_wallet w)) /\
  w = {| ww_cfg := c; ww_wallet := {| w_acct := w_acct (ww_wallet w); w_keys := w_keys (ww_wallet w); w_chainID := ""; w_last := 0 |};
         ww_routes := wallet_routes |}.

Lemma start_holds x path f w f' cfg c b : nonce_ok (dr_nonce x) -> os_ReadFile path f = Ret b -> json_unmarshal b = Ret cfg ->
  check_config cfg = Ret c -> vault_ours (dr_rot x) (wallet_vault c) f -> start path x f = (Ret w, f') ->
  Getenv (wc_KEKEnv c) <> "" /\ exists v, holds c v w f'.
Proof.
  intros Hn Hb Hj Hc Ho H. unfold start, wallet_New in H.
  apply gbind_inv in H as (c0 & f0 & Hl & H). unfold LoadJSON in Hl. rewrite Hb, Hj in Hl. injection Hl as <- <-.
  apply gbind_inv in H as (c' & f0 & [= Hc' <-] & H). assert (c' = c) as -> by congruence. fold (wallet_vault c) in H.
  apply gbind_inv in H as (v & f1 & Hv & H). destruct (open_ours _ _ _ f v f1 Hn Ho Hv) as [He Hat]. split; [done|].
  apply gbind_inv in H as ([keys acct] & f2 & Hk & H). injection H as <- <-.
  destruct (gbind _ _ (v, f1)) as [o [v2 f3]] eqn:Hrun. injection Hk as -> <-.
  apply gbind_inv in Hrun as (k' & [v1 g1] & H1 & Hrun). apply gbind_inv in Hrun as (a' & [v3 g2] & H2 & Hrun).
  injection Hrun as -> -> -> ->. apply (otap_stored _ _ _ (wallet_vault c)) in H1 as [A1 I1]; [|done..].
  apply (account_stored _ _ (wallet_vault c) _ _ keys) in H2 as (A2 & I2 & I3); [|done..]. by exists v2.
Qed.

Lemma start_again x path f w cfg c b v : os_ReadFile path f = Ret b -> json_unmarshal b = Ret cfg ->
  check_config cfg = Ret c -> Getenv (wc_KEKEnv c) <> "" -> holds c v w f -> idle_at (dr_rot x) (wallet_vault c) (v_data v) ->
  exists f', start path x f = (Ret w, f') /\ same_files f f' /\ holds c (opened Getenv (wallet_vault c) (v_data v)) w f'.
Proof.
  intros Hb Hj Hc He (Hat & I1 & I2 & Hw) Hi.
  destruct (open_at (dr_nonce x) (dr_rot x) (wallet_vault c) v f Hat Hi He) as (f1 & Hop & Hf & Hat1). exists f1.
  assert (forall k, GetString (opened Getenv (wallet_vault c) (v_data v)) k = GetString v k) as Hget by done.
  split; [|split; [done|]; split_and!; [done|done|done|exact Hw]].
  unfold start, wallet_New, LoadJSON. unfold gbind at 1. rewrite Hb, Hj. unfold gbind at 1, glift at 1. rewrite Hc.
  fold (wallet_vault c). rewrite (gbind_ret _ _ _ _ _ Hop). destruct I1 as (J1 & J2 & J3 & J4), I2 as (J5 & J6).
  unfold LoadOrGenOTAPKeys, LoadOrGenWalletAccount, vault_get, gbind. cbn [fst]. rewrite !Hget, J1, J2, J3, J4. cbn [fst gret].
  rewrite !Hget, J5, J6. cbn [fst gret]. destruct w as [wc [[] [[] []] cid last] wr]. cbn in Hw |- *. by simplify_eq.
Qed.

Lemma starts_again path cfg c b w l : json_unmarshal b = Ret cfg -> check_config cfg = Ret c -> Getenv (wc_KEKEnv c) <> "" ->
  forall v f, os_ReadFile path f = Ret b -> holds c v w f ->
  Forall (fun x => idle_at (dr_rot x) (wallet_vault c) (v_data v)) l ->
  exists f', starts path l f = (Ret (repeat w (length l)), f').
Proof.
  intros Hj Hc He. induction l as [|x l IH]; intros v f Hb Hh Hl; [by exists f|].
  apply Forall_cons in Hl as [Hx Hl]. destruct (start_again x path f w cfg c b v Hb Hj Hc He Hh Hx) as (f1 & Hs & Hf & Hh1).
  destruct (IH (opened Getenv (wallet_vault c) (v_data v)) f1) as (f2 & Hr); [by rewrite (proj1 (Hf path))|exact Hh1|exact Hl|].
  exists f2. cbn [starts]. rewrite (gbind_ret _ _ _ _ _ Hs), (gbind_ret _ _ _ _ _ Hr). done.
Qed.

(** C16. Restarting keeps the identity of a wallet.  Once [New] has succeeded, on the first start or
    with a vault under the first key of the secret, its vault [v] is such that every sequence of
    later starts with the same configuration and secret in which no rotation of that vault is
    due succeeds, each with the same one-time address keys and the same account, whatever nonces
    and keys would be drawn.  A start after a rotation fails: [rotated_vault_locked]. *)
Theorem wallet_restart x path f w f' cfg c b : nonce_ok (dr_nonce x) ->
  os_ReadFile path f = Ret b -> json_unmarshal b = Ret cfg -> check_config cfg = Ret c ->
  vault_ours (dr_rot x) (wallet_vault c) f ->
  start path x f = (Ret w, f') -> os_ReadFile path f' = Ret b ->
  exists v, vault_at (wallet_vault c) v f' /\
    forall l, Forall (fun y => idle_at (dr_rot y) (wallet_vault c) (v_data v)) l ->
    exists f2, starts path l f' = (Ret (repeat w (length l)), f2).
Proof.
  intros Hn Hb Hj Hc Ho H Hb'. destruct (start_holds x path f w f' cfg c b Hn Hb Hj Hc Ho H) as (He & v & Hh).
  exists v. split; [apply Hh|]. intros l Hl. exact (starts_again path cfg c b w l Hj Hc He v f' Hb' Hh Hl).
Qed.
End Restart.
