(* ===== verification/MempoolProps.v ===== *)
(** * Properties of the transaction pool

    The counters always equal what they count, entries sit under their own sender and
    nonce, admission respects the limits, and draining takes contiguous nonces. *)

From S2P Require Import Prelude GoLang KV Chain Storage StorageProps State StateProps Fees Config Mempool PoolOrder.

(** ** Sums over maps *)

Definition msum {K} `{Countable K} {A} (f : A -> Z) (m : gmap K A) : Z := sumZ (fun e => f e.2) (map_to_list m).

Section Msum.
Context {K : Type} `{Countable K} {A : Type}.
Implicit Types (m : gmap K A) (f : A -> Z).

Lemma msum_empty f : msum f (∅ : gmap K A) = 0.
Proof. unfold msum. by rewrite map_to_list_empty. Qed.

Lemma msum_insert f m k v : m !! k = None -> msum f (<[k := v]> m) = f v + msum f m.
Proof. intros Hk. unfold msum. rewrite (map_to_list_insert m k v Hk). by rewrite sumZ_cons. Qed.

Lemma msum_delete f m k v : m !! k = Some v -> msum f (delete k m) = msum f m - f v.
Proof.
  intros Hk. rewrite <- (insert_delete_id m k v Hk) at 2.
  rewrite msum_insert by apply lookup_delete_eq. lia.
Qed.

Lemma msum_replace f m k v v' : m !! k = Some v -> msum f (<[k := v']> m) = msum f m - f v + f v'.
Proof.
  intros Hk. rewrite <- insert_delete_eq, msum_insert by apply lookup_delete_eq.
  rewrite (msum_delete f m k v Hk). lia.
Qed.

Lemma size_msum m : Z.of_nat (size m) = msum (fun _ => 1) m.
Proof.
  unfold msum. rewrite <- length_map_to_list. induction (map_to_list m) as [|e l IH]; [done|].
  rewrite sumZ_cons. cbn [length]. lia.
Qed.
End Msum.

(** ** The invariant *)

Definition acct_txs (mp : gmap Z mtx) : Z := msum (fun _ => 1) mp.
Definition acct_bytes (mp : gmap Z mtx) : Z := msum m_SizeHint mp.

Section Props.
Context {HS : Hashes}.

Record entry_ok (acct : string) (nonce : Z) (mt : mtx) : Prop := {
  e_from : m_From mt = acct; e_txfrom : From (m_Tx mt) = acct;
  e_nonce : m_Nonce mt = nonce; e_txnonce : TNonce (m_Tx mt) = nonce;
  e_id : m_TxID mt = TxID (m_Tx mt); e_fee : m_Fee mt = Fee (m_Tx mt);
  e_size : 0 <= m_SizeHint mt; e_rate : ranked mt }.

(** The counters are the sums, and entries are filed where they belong. *)
Record pool_ok (m : Mempool) : Prop := {
  p_txs : mp_totalTxs m = msum acct_txs (mp_byAcct m);
  p_bytes : mp_totalBytes m = msum acct_bytes (mp_byAcct m);
  p_entries : forall acct nonce mt, pool_at m acct nonce = Some mt -> entry_ok acct nonce mt }.

Lemma pool_at_lookup m acct mp nonce : mp_byAcct m !! acct = Some mp ->
  pool_at m acct nonce = mp !! nonce.
Proof. unfold pool_at. by intros ->. Qed.

(** Filing a changed map of an account, possibly dropping it when empty. *)
Lemma pool_ok_file m acct mp mp' dt db by_acct :
  pool_ok m -> default ∅ (mp_byAcct m !! acct) = mp ->
  acct_txs mp' = acct_txs mp + dt -> acct_bytes mp' = acct_bytes mp + db ->
  (forall nonce mt, mp' !! nonce = Some mt -> entry_ok acct nonce mt) ->
  (by_acct = <[acct := mp']> (mp_byAcct m) \/ (mp' = ∅ /\ by_acct = delete acct (mp_byAcct m))) ->
  pool_ok (mp_update m by_acct dt db).
Proof.
  intros Hok Hmp Ht Hb He Hby.
  assert (forall f : gmap Z mtx -> Z, f ∅ = 0 ->
    msum f by_acct = msum f (mp_byAcct m) - f mp + f mp') as Hsum.
  { intros f Hf. destruct (mp_byAcct m !! acct) as [q|] eqn:Eq; cbn in Hmp; subst mp.
    - destruct Hby as [->|[-> ->]]; [by apply msum_replace|].
      rewrite (msum_delete _ _ _ _ Eq). lia.
    - destruct Hby as [->|[-> ->]].
      + rewrite msum_insert by done. lia.
      + rewrite delete_id by done. lia. }
  constructor; cbn [mp_update mp_totalTxs mp_totalBytes mp_byAcct].
  - rewrite Hsum by done. rewrite (p_txs m Hok). lia.
  - rewrite Hsum by done. rewrite (p_bytes m Hok). lia.
  - intros acct' nonce mt. unfold pool_at. cbn [mp_update mp_byAcct]. intros Hl.
    destruct (decide (acct = acct')) as [<-|Hne].
    + destruct Hby as [->|[-> ->]].
      * rewrite lookup_insert_eq in Hl. by apply He.
      * by rewrite lookup_delete_eq in Hl.
    + apply (p_entries m Hok). unfold pool_at.
      destruct Hby as [->|[_ ->]]; [by rewrite lookup_insert_ne in Hl|by rewrite lookup_delete_ne in Hl].
Qed.

(** *** Pruning *)

Lemma prune_entries_ok cut l : forall (mp0 : gmap Z mtx) mp dt db mp' dt' db',
  NoDup l.*1 -> (forall e, In e l -> mp !! e.1 = Some e.2) ->
  (forall k v, mp !! k = Some v -> mp0 !! k = Some v) ->
  acct_txs mp = acct_txs mp0 + dt -> acct_bytes mp = acct_bytes mp0 + db ->
  fold_left (prune_entry cut) l (mp, dt, db) = (mp', dt', db') ->
  (forall k v, mp' !! k = Some v -> mp0 !! k = Some v) /\
  acct_txs mp' = acct_txs mp0 + dt' /\ acct_bytes mp' = acct_bytes mp0 + db'.
Proof.
  induction l as [|e l IH]; intros mp0 mp dt db mp' dt' db' Hnd Hl Hsub Ht Hb; cbn [fold_left].
  { intros [= <- <- <-]. done. }
  rewrite fmap_cons, NoDup_cons in Hnd. destruct Hnd as [Hni Hnd].
  pose proof (Hl e (or_introl eq_refl)) as He. unfold prune_entry at 2. case_goal.
  - apply IH; try done.
    + intros x Hx. rewrite lookup_delete_ne; [apply Hl; by right|]. intros Hk. apply Hni.
      rewrite Hk. apply list_elem_of_fmap. exists x. by rewrite list_elem_of_In.
    + intros k v [_ Hk]%lookup_delete_Some. by apply Hsub.
    + unfold acct_txs in *. rewrite (msum_delete _ _ _ _ He). lia.
    + unfold acct_bytes in *. rewrite (msum_delete _ _ _ _ He). lia.
  - apply IH; try done. intros x Hx. apply Hl. by right.
Qed.

Lemma size_0_empty (mp : gmap Z mtx) : Nat.eqb (size mp) 0 = true -> mp = ∅.
Proof. intros H%Nat.eqb_eq. by apply map_size_empty_inv. Qed.

Lemma prune_acct_ok cut m acct mp : pool_ok m -> mp_byAcct m !! acct = Some mp ->
  pool_ok (prune_acct cut m (acct, mp)) /\
  mp_cfg (prune_acct cut m (acct, mp)) = mp_cfg m /\
  (forall acct', acct' <> acct ->
     mp_byAcct (prune_acct cut m (acct, mp)) !! acct' = mp_byAcct m !! acct').
Proof.
  intros Hok Hl. unfold prune_acct. cbn [fst snd].
  destruct (fold_left (prune_entry cut) (map_to_list mp) (mp, 0, 0)) as [[mp' dt] db] eqn:E.
  apply (prune_entries_ok cut _ mp) in E as (Hsub & Ht & Hb); try lia.
  - split_and!; [|done|].
    + apply (pool_ok_file m acct mp mp' dt db); try done.
      * by rewrite Hl.
      * intros nonce mt Hm%Hsub. apply (p_entries m Hok). by rewrite (pool_at_lookup m acct mp).
      * case_goal; [right; split; [by apply size_0_empty|done]|by left].
    + intros acct' Hne. cbn [mp_update mp_byAcct].
      case_goal; [by rewrite lookup_delete_ne|by rewrite lookup_insert_ne].
  - apply NoDup_fst_map_to_list.
  - intros [k v] Hin%list_elem_of_In%elem_of_map_to_list. done.
  - done.
Qed.

Lemma pruneLocked_ok now m : pool_ok m ->
  pool_ok (pruneLocked now m) /\ mp_cfg (pruneLocked now m) = mp_cfg m.
Proof.
  intros Hok. unfold pruneLocked. cbv zeta. set (cut := i64 _). clearbody cut.
  assert (forall l m', NoDup l.*1 -> pool_ok m' -> mp_cfg m' = mp_cfg m ->
    (forall e, In e l -> mp_byAcct m' !! e.1 = Some e.2) ->
    pool_ok (fold_left (prune_acct cut) l m') /\ mp_cfg (fold_left (prune_acct cut) l m') = mp_cfg m) as H.
  { induction l as [|[acct mp] l IH]; intros m' Hnd Hok' Hc Hl; cbn [fold_left]; [done|].
    rewrite fmap_cons, NoDup_cons in Hnd. destruct Hnd as [Hni Hnd].
    destruct (prune_acct_ok cut m' acct mp Hok' (Hl _ (or_introl eq_refl))) as (P1 & P2 & P3).
    apply IH; [done|done|congruence|]. intros e He. rewrite P3; [apply Hl; by right|].
    intros Hk. apply Hni. rewrite <- Hk. apply list_elem_of_fmap. exists e. by rewrite list_elem_of_In. }
  apply H; [apply NoDup_fst_map_to_list|done|done|].
  intros [k v] Hin%list_elem_of_In%elem_of_map_to_list. done.
Qed.

(** What pruning leaves of an entry. *)
Definition fresh (cut : Z) (o : option mtx) : option mtx :=
  match o with Some e => if m_AddedAt e <=? cut then None else Some e | None => None end.

Definition fresh_at (now : Z) (m : Mempool) (acct : string) (k : Z) : option mtx :=
  fresh (i64 (now - mc_TxTTLSeconds (mp_cfg m))) (pool_at m acct k).

Lemma prune_entries_at cut k l : forall (mp : gmap Z mtx) dt db, NoDup l.*1 ->
  (forall e, In e l -> mp !! e.1 = Some e.2) ->
  (fold_left (prune_entry cut) l (mp, dt, db)).1.1 !! k =
  if decide (k ∈ l.*1) then fresh cut (mp !! k) else mp !! k.
Proof.
  induction l as [|e l IH]; intros mp dt db Hnd Hl; cbn [fold_left]; [done|].
  rewrite fmap_cons, NoDup_cons in Hnd. destruct Hnd as [Hni Hnd].
  pose proof (Hl e (or_introl eq_refl)) as He.
  assert (forall x, In x l -> e.1 <> x.1) as Hne.
  { intros x Hx Heq. apply Hni. rewrite Heq. apply list_elem_of_fmap. exists x. by rewrite list_elem_of_In. }
  assert (k ∈ e.1 :: l.*1 <-> k = e.1 \/ k ∈ l.*1) as Hcons by apply elem_of_cons.
  unfold prune_entry at 2. destruct (m_AddedAt e.2 <=? cut) eqn:Ea; rewrite IH; try done.
  - destruct (decide (k = e.1)) as [->|Hk].
    + rewrite lookup_delete_eq, He. cbn [fresh]. rewrite Ea, fmap_cons.
      destruct (decide (e.1 ∈ l.*1)); by rewrite decide_True by (by left).
    + rewrite lookup_delete_ne by done. rewrite fmap_cons.
      destruct (decide (k ∈ l.*1)); [by rewrite decide_True by (by right)|by rewrite decide_False by naive_solver].
  - intros x Hx. rewrite lookup_delete_ne by (by apply Hne). apply Hl. by right.
  - rewrite fmap_cons. destruct (decide (k = e.1)) as [->|Hk].
    + rewrite decide_False by done. rewrite decide_True by (by left). rewrite He. cbn [fresh]. by rewrite Ea.
    + destruct (decide (k ∈ l.*1)); [by rewrite decide_True by (by right)|by rewrite decide_False by naive_solver].
  - intros x Hx. apply Hl. by right.
Qed.

Lemma prune_acct_at cut m acct mp a k : mp_byAcct m !! acct = Some mp ->
  pool_at (prune_acct cut m (acct, mp)) a k =
  if decide (a = acct) then fresh cut (pool_at m a k) else pool_at m a k.
Proof.
  intros Hl. unfold prune_acct. cbn [fst snd].
  pose proof (prune_entries_at cut k (map_to_list mp) mp 0 0) as Hat.
  destruct (fold_left (prune_entry cut) (map_to_list mp) (mp, 0, 0)) as [[mp' dt] db]. cbn [fst] in Hat.
  assert (mp' !! k = fresh cut (mp !! k)) as E.
  { rewrite Hat; [|apply NoDup_fst_map_to_list|by intros [x v] ?%list_elem_of_In%elem_of_map_to_list].
    case_decide as Hk; [done|]. destruct (mp !! k) as [v|] eqn:Ev; [|done].
    exfalso. apply Hk. apply list_elem_of_fmap. exists (k, v). by rewrite elem_of_map_to_list. }
  unfold pool_at. cbn [mp_update mp_byAcct]. destruct (decide (a = acct)) as [->|Ha].
  - rewrite Hl. cbn [default from_option id]. rewrite <- E. case_goal; [|by rewrite lookup_insert_eq].
    rewrite lookup_delete_eq. by rewrite (size_0_empty mp').
  - case_goal; [by rewrite lookup_delete_ne|by rewrite lookup_insert_ne].
Qed.

(** Pruning removes exactly the entries that are too old. *)
Lemma pruneLocked_at now m a k : pool_ok m -> pool_at (pruneLocked now m) a k = fresh_at now m a k.
Proof.
  intros Hok0. unfold fresh_at, pruneLocked. cbv zeta. set (cut := i64 _). clearbody cut.
  assert (forall l m', NoDup l.*1 -> pool_ok m' -> (forall e, In e l -> mp_byAcct m' !! e.1 = Some e.2) ->
    pool_at (fold_left (prune_acct cut) l m') a k =
    if decide (a ∈ l.*1) then fresh cut (pool_at m' a k) else pool_at m' a k) as H.
  { induction l as [|[acct mp] l IH]; intros m' Hnd Hok Hl; cbn [fold_left]; [done|].
    rewrite fmap_cons, NoDup_cons in Hnd. destruct Hnd as [Hni Hnd]. cbn [fst] in *.
    pose proof (Hl (acct, mp) (or_introl eq_refl)) as He. cbn [fst snd] in He.
    destruct (prune_acct_ok cut m' acct mp Hok He) as (P1 & _ & P3).
    assert (a ∈ acct :: l.*1 <-> a = acct \/ a ∈ l.*1) as Hcons by apply elem_of_cons.
    rewrite IH; [|done|done|].
    - rewrite (prune_acct_at cut m' acct mp a k He), fmap_cons. cbn [fst].
      repeat case_decide; try done; naive_solver.
    - intros e Hin. rewrite P3; [apply Hl; by right|]. intros Hk. apply Hni. rewrite <- Hk.
      apply list_elem_of_fmap. exists e. by rewrite list_elem_of_In. }
  rewrite H; [|apply NoDup_fst_map_to_list|done|by intros [x v] ?%list_elem_of_In%elem_of_map_to_list].
  case_decide as Ha; [done|]. unfold pool_at. destruct (mp_byAcct m !! a) as [mp|] eqn:E; [|done].
  exfalso. apply Ha. apply list_elem_of_fmap. exists (a, mp). by rewrite elem_of_map_to_list.
Qed.

Context {L : LevelDB} {HL : LevelDBOk L} {MO : MapOrder} {HMO : MapOrderOk MO}.

Lemma cur_nonce_run d m acct : state_ok (db_view d) ->
  cur_nonce acct (d, m) = (Ret (nonce (db_view d) acct), (d, m)).
Proof.
  intros Hok. destruct (GetNonce_run d acct) as (o & Hg & Hdef); [apply Hok|].
  unfold cur_nonce. erewrite gbind_ret; cycle 1.
  { unfold on_pool_db, gzoom. cbn [fst]. erewrite gignore_ret by exact Hg. reflexivity. }
  by rewrite Hdef.
Qed.

(** Outputs few enough for the size estimate to be exact. *)
Definition size_ok (tx : Tx) : Prop := Z.of_nat (length (Outputs tx)) < 2 ^ 40.

Lemma size_hint_exact tx : size_ok tx -> m_SizeHint (pool_entry 0 tx) = 180 + 80 * Z.of_nat (length (Outputs tx)).
Proof.
  intros Hs. cbn [pool_entry m_SizeHint]. unfold TxSizeHint, size_ok in *.
  rewrite (proj2 (Z.ltb_ge _ _)) by lia. rewrite !i64_id; unfold is_i64;
    rewrite ?i64_id by (unfold is_i64; lia); lia.
Qed.

Lemma pool_entry_ok now tx : size_ok tx -> entry_ok (From tx) (TNonce tx) (pool_entry now tx).
Proof.
  intros Hs. pose proof (size_hint_exact tx Hs) as E. unfold size_ok in Hs.
  constructor; try done.
  - change (m_SizeHint (pool_entry now tx)) with (m_SizeHint (pool_entry 0 tx)). lia.
  - unfold ranked. cbn [pool_entry m_FeeRate].
    change (TxSizeHint (TxID tx) (Z.of_nat (length (Outputs tx)))) with (m_SizeHint (pool_entry 0 tx)).
    rewrite E. unfold max_int. rewrite (proj2 (Z.ltb_ge _ _)) by lia.
    destruct (f64_of_Z_finite (180 + 80 * Z.of_nat (length (Outputs tx)))) as (q & e & ->); [lia|].
    apply f64_div_not_nan, f64_of_Z_not_nan.
Qed.

(** The entries of two pools are the same. *)
Definition same_entries (m m' : Mempool) : Prop :=
  forall acct n, pool_at m' acct n = pool_at m acct n.

Lemma touch_acct m acct : pool_ok m ->
  let m' := mp_update m (<[acct := default ∅ (mp_byAcct m !! acct)]> (mp_byAcct m)) 0 0 in
  pool_ok m' /\ same_entries m m'.
Proof.
  intros Hok. split.
  - apply (pool_ok_file m acct (default ∅ (mp_byAcct m !! acct)) (default ∅ (mp_byAcct m !! acct)));
      try done; try lia; [|by left].
    intros n mt Hm. by apply (p_entries m Hok).
  - intros acct' n. unfold pool_at. cbn [mp_update mp_byAcct].
    destruct (decide (acct = acct')) as [<-|]; [by rewrite lookup_insert_eq|by rewrite lookup_insert_ne].
Qed.

(** Putting an entry into the map of an account. *)
Lemma file_entry m tx now dt db : pool_ok m -> size_ok tx ->
  let mp := default ∅ (mp_byAcct m !! From tx) in
  let mt := pool_entry now tx in
  dt = match mp !! TNonce tx with Some _ => 0 | None => 1 end ->
  db = m_SizeHint mt - match mp !! TNonce tx with Some old => m_SizeHint old | None => 0 end ->
  let m' := mp_update m (<[From tx := <[TNonce tx := mt]> mp]> (mp_byAcct m)) dt db in
  pool_ok m' /\ forall acct n, pool_at m' acct n =
    if decide (acct = From tx /\ n = TNonce tx) then Some mt else pool_at m acct n.
Proof.
  intros Hok Hs mp mt Hdt Hdb. split.
  - apply (pool_ok_file m (From tx) mp (<[TNonce tx := mt]> mp)); try done.
    + unfold acct_txs. destruct (mp !! TNonce tx) as [old|] eqn:Eo.
      * rewrite (msum_replace _ _ _ _ _ Eo). lia.
      * rewrite msum_insert by done. lia.
    + unfold acct_bytes. destruct (mp !! TNonce tx) as [old|] eqn:Eo.
      * rewrite (msum_replace _ _ _ _ _ Eo). lia.
      * rewrite msum_insert by done. lia.
    + intros n mt' [[<- <-]|[_ Hm]]%lookup_insert_Some; [by apply pool_entry_ok|].
      by apply (p_entries m Hok).
    + by left.
  - intros acct n. unfold pool_at. cbn [mp_update mp_byAcct].
    destruct (decide (acct = From tx)) as [->|Hne].
    + rewrite lookup_insert_eq. cbn [default from_option id].
      destruct (decide (n = TNonce tx)) as [->|Hn].
      * by rewrite lookup_insert_eq, decide_True.
      * rewrite lookup_insert_ne, decide_False by naive_solver. done.
    + rewrite lookup_insert_ne, decide_False by naive_solver. done.
Qed.

Lemma Add_run senders now tx d m r d' m' :
  state_ok (db_view d) -> pool_ok m -> size_ok tx ->
  Add senders now tx (d, m) = (r, (d', m')) ->
  d' = d /\ pool_ok m' /\ mp_cfg m' = mp_cfg m /\
  match r with
  | Ret replaced =>
      pool_at m' (From tx) (TNonce tx) = Some (pool_entry now tx) /\
      (forall acct n, (acct, n) <> (From tx, TNonce tx) ->
         pool_at m' acct n = pool_at (pruneLocked now m) acct n) /\
      (replaced = false -> pool_at (pruneLocked now m) (From tx) (TNonce tx) = None /\
         mp_totalTxs m' <= mc_MaxTxs (mp_cfg m) /\ mp_totalBytes m' <= mc_MaxBytes (mp_cfg m)) /\
      (replaced = true -> exists old, pool_at (pruneLocked now m) (From tx) (TNonce tx) = Some old /\
         mp_totalTxs m' = mp_totalTxs (pruneLocked now m))
  | Err _ => same_entries m m' \/ same_entries (pruneLocked now m) m'
  | Panic => False
  end.
Proof.
  intros Hst Hok Hs. unfold Add. erewrite gbind_ret by reflexivity. cbn [snd].
  case_goal; [intros [= <- <- <-]; split_and!; try done; by left|].
  destruct (pruneLocked_ok now m Hok) as [Hok1 Hc1]. set (m1 := pruneLocked now m) in *.
  erewrite gbind_ret by reflexivity. cbn [fst].
  case_goal; [intros [= <- <- <-]; split_and!; try done; by right|].
  erewrite gbind_ret by (by apply cur_nonce_run). cbv zeta.
  destruct (nonce_policy _ _ _) as [e|]; [intros [= <- <- <-]; split_and!; try done; by right|].
  destruct (touch_acct m1 (From tx) Hok1) as [Hok2 Hse].
  set (m2 := mp_update m1 (<[From tx := default ∅ (mp_byAcct m1 !! From tx)]> (mp_byAcct m1)) 0 0) in *.
  erewrite gbind_ret by reflexivity. cbn [fst].
  assert (default ∅ (mp_byAcct m1 !! From tx) = default ∅ (mp_byAcct m2 !! From tx)) as Emp.
  { unfold m2. cbn [mp_update mp_byAcct]. by rewrite lookup_insert_eq. }
  assert (mp_cfg m2 = mp_cfg m) as Hc2 by done. rewrite Hc2.
  assert (pool_at m1 (From tx) (TNonce tx) = default ∅ (mp_byAcct m1 !! From tx) !! TNonce tx) as Eat by done.
  assert (mp_totalTxs m2 = mp_totalTxs m1) as Ett by (cbn; lia).
  destruct (default ∅ (mp_byAcct m1 !! From tx) !! TNonce tx) as [old|] eqn:Eold; rewrite Emp in Eold |- *.
  - case_goal; [intros [= <- <- <-]; split_and!; try done; by right|].
    erewrite gbind_ret by reflexivity. intros [= <- <- <-].
    destruct (file_entry m2 tx now 0 (m_SizeHint (pool_entry now tx) - m_SizeHint old) Hok2 Hs) as [Hok3 Hat];
      [by rewrite Eold|by rewrite Eold|].
    split_and!; [done|done|done|by rewrite Hat, decide_True| | done |].
    + intros acct n Hne. rewrite Hat, decide_False by naive_solver. apply Hse.
    + intros _. exists old. split; [done|]. cbn [mp_update mp_totalTxs]. lia.
  - case_goal; [intros [= <- <- <-]; split_and!; try done; by right|].
    case_goal; [intros [= <- <- <-]; split_and!; try done; by right|]. zbool.
    erewrite gbind_ret by reflexivity. intros [= <- <- <-].
    destruct (file_entry m2 tx now 1 (m_SizeHint (pool_entry now tx)) Hok2 Hs) as [Hok3 Hat];
      [by rewrite Eold|rewrite Eold; lia|].
    split_and!; [done|done|done|by rewrite Hat, decide_True| | |done].
    + intros acct n Hne. rewrite Hat, decide_False by naive_solver. apply Hse.
    + intros _. split_and!; done.
Qed.

(** C11. Admission keeps the pool consistent on every path: the counters stay equal to the
    number and the total size of the entries, entries stay filed under their sender and
    nonce, and the database is only read. Entries older than the time to live go. A new entry is admitted only within both limits;
    a replacement takes the slot of the old entry; an error leaves the entries as pruning
    left them. *)
Theorem Add_invariant senders now tx d m r d' m' :
  state_ok (db_view d) -> pool_ok m -> size_ok tx ->
  Add senders now tx (d, m) = (r, (d', m')) ->
  d' = d /\ pool_ok m' /\ mp_cfg m' = mp_cfg m /\
  match r with
  | Ret replaced =>
      pool_at m' (From tx) (TNonce tx) = Some (pool_entry now tx) /\
      (forall acct n, (acct, n) <> (From tx, TNonce tx) ->
         pool_at m' acct n = fresh_at now m acct n) /\
      (replaced = false -> fresh_at now m (From tx) (TNonce tx) = None /\
         mp_totalTxs m' <= mc_MaxTxs (mp_cfg m) /\ mp_totalBytes m' <= mc_MaxBytes (mp_cfg m)) /\
      (replaced = true -> exists old, fresh_at now m (From tx) (TNonce tx) = Some old /\
         mp_totalTxs m' = mp_totalTxs (pruneLocked now m))
  | Err _ => same_entries m m' \/ forall acct n, pool_at m' acct n = fresh_at now m acct n
  | Panic => False
  end.
Proof.
  intros Hst Hok Hs H. destruct (Add_run _ _ _ _ _ _ _ _ Hst Hok Hs H) as (-> & Hok' & Hc & Hr).
  split_and!; try done. destruct r as [replaced|e|]; [|destruct Hr as [Hr|Hr]|done].
  - by setoid_rewrite <- (fun a k => pruneLocked_at now m a k Hok).
  - by left.
  - right. by setoid_rewrite <- (fun a k => pruneLocked_at now m a k Hok).
Qed.

(** *** Draining *)

(** Successive nonces modulo 2^64. *)
Fixpoint contiguous (start : Z) (l : list Z) : Prop :=
  match l with [] => True | n :: l' => n = start /\ contiguous (u64 (start + 1)) l' end.

Definition lane (acct : string) (txs : list Tx) : list Z :=
  List.map TNonce (List.filter (fun tx => (From tx =? acct)%string) txs).

(** Serving an account moves on to its next nonce and takes the entry out. *)
Definition served (acct : string) (next : string -> Z) : string -> Z :=
  fun a => if decide (a = acct) then u64 (next acct + 1) else next a.
Definition without (acct : string) (k : Z) (pool : string -> Z -> option mtx) : string -> Z -> option mtx :=
  fun a n => if decide (a = acct /\ n = k) then None else pool a n.

(** The transactions [out] are a priority merge of the lanes of the senders: each is the next
    one of its sender and no next one of any other sender has to be served before it; the
    merge ends when [maxCount] are taken (a limit of 0 or less is none) or no sender has its
    next transaction in the pool. *)
Fixpoint greedy (maxCount n : Z) (next : string -> Z) (pool : string -> Z -> option mtx)
    (out : list Tx) : Prop :=
  match out with
  | [] => 0 < maxCount <= n \/ forall a, pool a (next a) = None
  | tx :: out' =>
      (maxCount <= 0 \/ n < maxCount) /\
      exists mt, pool (From tx) (next (From tx)) = Some mt /\ m_Tx mt = tx /\
        (forall a e, pool a (next a) = Some e -> ahead mt e) /\
        greedy maxCount (n + 1) (served (From tx) next) (without (From tx) (next (From tx)) pool) out'
  end.

(** The transaction of an account and nonce is among [out]. *)
Definition taken (out : list Tx) (a : string) (k : Z) : bool :=
  existsb (fun tx => (From tx =? a)%string && (TNonce tx =? k)) out.

Lemma greedy_ext maxCount out : forall n next next' pool pool',
  (forall a, next' a = next a) -> (forall a k, pool' a k = pool a k) ->
  greedy maxCount n next pool out -> greedy maxCount n next' pool' out.
Proof.
  induction out as [|tx out IH]; intros n next next' pool pool' Hn Hp; cbn [greedy].
  { intros [H|H]; [by left|right]. intros a. by rewrite Hn, Hp. }
  intros (Hm & mt & Hat & Htx & Hb & Hg). split; [done|]. exists mt. rewrite Hn, Hp. split_and!; try done.
  - intros a e. rewrite Hn, Hp. apply Hb.
  - eapply IH; [..|exact Hg].
    + intros a. unfold served. by rewrite !Hn.
    + intros a k. unfold without. by rewrite Hp.
Qed.

Lemma greedy_bound maxCount out : forall n next pool, greedy maxCount n next pool out ->
  0 < maxCount -> n <= maxCount -> n + Z.of_nat (length out) <= maxCount.
Proof.
  induction out as [|tx out IH]; intros n next pool; cbn [greedy length]; [lia|].
  intros (Hm & mt & _ & _ & _ & Hg) Hpos Hn. apply IH in Hg; lia.
Qed.

Lemma greedy_lane maxCount acct out : forall n next pool,
  (forall a k e, pool a k = Some e -> TNonce (m_Tx e) = k) ->
  greedy maxCount n next pool out -> contiguous (next acct) (lane acct out).
Proof.
  induction out as [|tx out IH]; intros n next pool Hf; cbn [greedy]; [done|].
  intros (_ & mt & Hat & Htx & _ & Hg).
  apply IH in Hg; [|intros a k e; unfold without; case_decide; [done|apply Hf]].
  unfold lane in *. cbn [List.filter]. unfold served in Hg.
  destruct (String.eqb_spec (From tx) acct) as [<-|Hne].
  - rewrite decide_True in Hg by done. cbn [List.map contiguous]. split; [|done].
    pose proof (Hf _ _ _ Hat) as E. by rewrite Htx in E.
  - by rewrite decide_False in Hg by done.
Qed.

Definition pool_size (m : Mempool) : nat := Z.to_nat (mp_totalTxs m).

Lemma totalTxs_pos m acct n mt : pool_ok m -> pool_at m acct n = Some mt -> 1 <= mp_totalTxs m.
Proof.
  intros Hok Hat. rewrite (p_txs m Hok). unfold pool_at in Hat.
  destruct (mp_byAcct m !! acct) as [mp|] eqn:E; [|done]. cbn in Hat.
  rewrite <- (insert_delete_id _ _ _ E), msum_insert by apply lookup_delete_eq.
  assert (1 <= acct_txs mp).
  { unfold acct_txs. rewrite <- (insert_delete_id _ _ _ Hat), msum_insert by apply lookup_delete_eq.
    assert (0 <= msum (fun _ : mtx => 1) (delete n mp)); [|lia]. by apply sumZ_nonneg. }
  assert (0 <= msum acct_txs (delete acct (mp_byAcct m))); [|lia].
  apply sumZ_nonneg. intros e _. by apply sumZ_nonneg.
Qed.

(** Taking the entry of one account and nonce out of the pool. *)
Lemma take_entry m acct n cur : pool_ok m -> pool_at m acct n = Some cur ->
  let mp := delete n (default ∅ (mp_byAcct m !! acct)) in
  let m' := mp_update m (if Nat.eqb (size mp) 0 then delete acct (mp_byAcct m)
                         else <[acct := mp]> (mp_byAcct m)) (-1) (- m_SizeHint cur) in
  pool_ok m' /\ (forall a k, pool_at m' a k = without acct n (pool_at m) a k) /\
  S (pool_size m') = pool_size m.
Proof.
  intros Hok Hat mp m'. unfold pool_at in Hat. split_and!.
  - apply (pool_ok_file m acct (default ∅ (mp_byAcct m !! acct)) mp); try done.
    + unfold acct_txs, mp. rewrite (msum_delete _ _ _ _ Hat). lia.
    + unfold acct_bytes, mp. rewrite (msum_delete _ _ _ _ Hat). lia.
    + intros k v [_ Hk]%lookup_delete_Some. by apply (p_entries m Hok).
    + case_goal; [right; split; [by apply size_0_empty|done]|by left].
  - intros a k. unfold without, pool_at, m'. cbn [mp_update mp_byAcct].
    assert (forall x, mp !! x = if decide (x = n) then None else default ∅ (mp_byAcct m !! acct) !! x) as Hmp.
    { intros x. unfold mp. destruct (decide (x = n)) as [->|]; [apply lookup_delete_eq|by apply lookup_delete_ne]. }
    destruct (decide (a = acct)) as [->|Hne].
    + transitivity (mp !! k); [case_goal|].
      3: { rewrite Hmp. destruct (decide (k = n)) as [->|]; [by rewrite decide_True|].
           by rewrite decide_False by naive_solver. }
      * rewrite lookup_delete_eq. zbool. assert (mp = ∅) as -> by (by apply size_0_empty). done.
      * by rewrite lookup_insert_eq.
    + rewrite decide_False by naive_solver.
      case_goal; [by rewrite lookup_delete_ne|by rewrite lookup_insert_ne].
  - unfold pool_size, m'. cbn [mp_update mp_totalTxs].
    pose proof (totalTxs_pos m acct n cur Hok Hat). lia.
Qed.

(** The queue holds exactly the next entry of every account that has one. *)
Record queue_ok (next : string -> Z) (m : Mempool) (pq : list mtx) : Prop := {
  q_heap : heap_ok pq;
  q_mem : forall e, e ∈ pq <-> exists a, pool_at m a (next a) = Some e;
  q_nodup : NoDup (m_From <$> pq) }.

Lemma queue_ranked next m pq : pool_ok m -> queue_ok next m pq -> Forall ranked pq.
Proof.
  intros Hok Hq. apply Forall_forall. intros e [a Ha]%(q_mem _ _ _ Hq). by apply (p_entries m Hok) in Ha as [].
Qed.

Lemma queue_from next m pq e : pool_ok m -> queue_ok next m pq ->
  e ∈ pq <-> pool_at m (m_From e) (next (m_From e)) = Some e.
Proof.
  intros Hok Hq. rewrite (q_mem _ _ _ Hq). split; [|by eauto].
  intros [a Ha]. pose proof (p_entries m Hok _ _ _ Ha) as [Hf _ _ _ _ _ _ _]. by rewrite Hf.
Qed.

(** One round of the second loop on the queue. *)
Lemma queue_step next m m1 pq pq' mt : pool_ok m -> queue_ok next m pq -> heap_ok pq' -> mt :: pq' ≡ₚ pq ->
  let acct := m_From mt in
  pool_ok m1 -> (forall a k, pool_at m1 a k = without acct (next acct) (pool_at m) a k) ->
  queue_ok (served acct next) m1
    (match pool_at m1 acct (u64 (next acct + 1)) with Some e => heap_Push pq' e | None => pq' end).
Proof.
  intros Hok Hq Hh Hp acct Hok1 H1.
  pose proof (q_nodup _ _ _ Hq) as Hnd. rewrite <- Hp, fmap_cons, NoDup_cons in Hnd. destruct Hnd as [Hni Hnd].
  assert (forall e, e ∈ pq' <-> m_From e <> acct /\ pool_at m1 (m_From e) (next (m_From e)) = Some e) as Hmem.
  { intros e. split.
    - intros He. assert (m_From e <> acct) as Hne.
      { intros Heq. apply Hni. fold acct. rewrite <- Heq. by apply list_elem_of_fmap_2. }
      split; [done|]. rewrite H1. unfold without. rewrite decide_False by naive_solver.
      apply (queue_from next m pq); try done. rewrite <- Hp. by right.
    - intros [Hne He]. rewrite H1 in He. unfold without in He. rewrite decide_False in He by naive_solver.
      apply (queue_from next m pq) in He; try done. rewrite <- Hp in He.
      apply elem_of_cons in He as [->|He]; [done|done]. }
  assert (Forall ranked pq') as Hr.
  { apply Forall_forall. intros e [_ He]%Hmem. by apply (p_entries m1 Hok1) in He as []. }
  assert (forall e, pool_at m1 acct (u64 (next acct + 1)) = Some e -> m_From e = acct /\ ranked e) as Hnew.
  { intros e He. by apply (p_entries m1 Hok1) in He as []. }
  assert (forall e a, pool_at m1 a (served acct next a) = Some e <->
    (a = acct /\ pool_at m1 acct (u64 (next acct + 1)) = Some e) \/ (a = m_From e /\ e ∈ pq')) as Hiff.
  { intros e a. rewrite Hmem. unfold served. case_decide as Ha.
    - subst a. split; [naive_solver|]. intros [[_ ?]|[? [? _]]]; [done|congruence].
    - split.
      + intros He. right. pose proof (p_entries m1 Hok1 _ _ _ He) as [Hf _ _ _ _ _ _ _]. subst a. naive_solver.
      + intros [[? _]|[-> [_ He]]]; [done|done]. }
  destruct (pool_at m1 acct (u64 (next acct + 1))) as [new|] eqn:En.
  - destruct (Hnew new eq_refl) as [Hf Hrk]. split.
    + by apply heap_Push_ok.
    + intros e. rewrite heap_Push_perm, elem_of_cons. setoid_rewrite Hiff. naive_solver.
    + rewrite heap_Push_perm, fmap_cons, NoDup_cons. split; [|done]. rewrite Hf. exact Hni.
  - split; [done| |done]. intros e. setoid_rewrite Hiff. naive_solver.
Qed.

Lemma drain_loop_run maxCount : forall fuel n pq expected m next, pool_ok m -> queue_ok next m pq ->
  (forall a k e, pool_at m a k = Some e -> expected !! a = Some (next a)) ->
  (pool_size m <= fuel)%nat ->
  exists out m', drain_loop fuel maxCount n pq expected m = Some (out, m') /\ pool_ok m' /\
    mp_totalTxs m' = mp_totalTxs m - Z.of_nat (length out) /\
    greedy maxCount n next (pool_at m) out /\
    forall a k, pool_at m' a k = if taken out a k then None else pool_at m a k.
Proof.
  induction fuel as [|fuel IH]; intros n pq expected m next Hok Hq Hexp Hf.
  { destruct pq as [|p0 pq0].
    - exists [], m. cbn. split_and!; try done; [lia|]. right. intros a.
      destruct (pool_at m a (next a)) as [e|] eqn:E; [|done].
      exfalso. apply (not_elem_of_nil e). apply (q_mem _ _ _ Hq). by exists a.
    - assert (p0 ∈ p0 :: pq0) as [a Ha]%(q_mem _ _ _ Hq) by left.
      apply totalTxs_pos in Ha; [|done]. unfold pool_size in Hf. lia. }
  destruct pq as [|p0 pq0].
  { exists [], m. cbn. split_and!; try done; [lia|]. right. intros a.
    destruct (pool_at m a (next a)) as [e|] eqn:E; [|done].
    exfalso. apply (not_elem_of_nil e). apply (q_mem _ _ _ Hq). by exists a. }
  cbn [drain_loop]. set (pq := p0 :: pq0) in *.
  destruct (negb ((maxCount <=? 0) || (n <? maxCount))) eqn:Emax.
  { exists [], m. cbn. split_and!; try done; [lia|]. left. zbool. lia. }
  destruct (heap_Pop_ok pq) as (mt & pq' & -> & Hperm & Hh & Hbest);
    [done|by eapply queue_ranked|apply Hq|].
  assert (mt ∈ pq) as Hmt by (rewrite <- Hperm; left).
  apply (queue_from next m pq) in Hmt; [|done..].
  rewrite (Hexp _ _ _ Hmt). cbn [default from_option id]. rewrite Hmt, String.eqb_refl. cbn [negb].
  destruct (take_entry m (m_From mt) (next (m_From mt)) mt Hok Hmt) as (Hok1 & Hat1 & Hsz).
  cbv zeta. cbv zeta in Hok1, Hat1, Hsz. set (m1 := mp_update m _ _ _) in *.
  pose proof (queue_step next m m1 pq pq' mt Hok Hq Hh Hperm Hok1 Hat1) as Hq1. cbv zeta in Hq1.
  match goal with |- context [drain_loop fuel maxCount (n + 1) ?q ?e m1] =>
    destruct (IH (n + 1) q e m1 (served (m_From mt) next) Hok1 Hq1) as (out & m' & -> & Hok' & Ht & Hg & Hrem)
  end.
  { intros a k e He. rewrite Hat1 in He. unfold without in He. case_decide; [done|]. unfold served.
    case_decide as Ha; [subst a; by rewrite lookup_insert_eq|rewrite lookup_insert_ne by done; by eapply Hexp]. }
  { lia. }
  destruct (p_entries m Hok _ _ _ Hmt) as [_ E2 _ E4 _ _ _ _].
  exists (m_Tx mt :: out), m'. split_and!; [done|done| | |].
  - rewrite Ht. cbn [length m1 mp_update mp_totalTxs]. lia.
  - cbn [greedy]. rewrite E2. split; [zbool; lia|]. exists mt. split_and!; try done.
    + intros a e He. apply Hbest. apply (q_mem _ _ _ Hq). by exists a.
    + eapply greedy_ext; [..|exact Hg]; [done|]. intros a k. by rewrite Hat1.
  - intros a k. rewrite Hrem, Hat1. unfold without, taken. cbn [existsb]. rewrite E2, E4.
    destruct (existsb _ out); [by rewrite orb_true_r|]. rewrite orb_false_r.
    destruct (String.eqb_spec (m_From mt) a) as [<-|], (Z.eqb_spec (next (m_From mt)) k) as [<-|];
      cbn [andb]; case_decide; naive_solver.
Qed.

Lemma drain_init_run d m0 m next accts : state_ok (db_view d) -> pool_ok m ->
  (forall a, next a = u64 (nonce (db_view d) a + 1)) -> forall seen pq expected,
  NoDup (seen ++ accts.*1) -> heap_ok pq -> NoDup (m_From <$> pq) ->
  (forall e, e ∈ pq <-> exists a, a ∈ seen /\ pool_at m a (next a) = Some e) ->
  (forall a, a ∈ seen -> expected !! a = Some (next a)) ->
  exists pq' expected', drain_init m accts pq expected (d, m0) = (Ret (pq', expected'), (d, m0)) /\
    heap_ok pq' /\ NoDup (m_From <$> pq') /\
    (forall e, e ∈ pq' <-> exists a, a ∈ seen ++ accts.*1 /\ pool_at m a (next a) = Some e) /\
    (forall a, a ∈ seen ++ accts.*1 -> expected' !! a = Some (next a)).
Proof.
  intros Hst Hok Hnext. induction accts as [|[acct mp] accts IH]; intros seen pq expected Hnd Hh Hf Hmem Hexp;
    cbn [drain_init].
  { exists pq, expected. rewrite fmap_nil, app_nil_r. by split_and!. }
  erewrite gbind_ret by (by apply cur_nonce_run). cbv zeta. rewrite <- Hnext.
  rewrite fmap_cons in *. cbn [fst] in *.
  assert (seen ++ acct :: accts.*1 = (seen ++ [acct]) ++ accts.*1) as Happ by (by rewrite <- app_assoc).
  rewrite Happ in *.
  assert (acct ∉ seen) as Hni.
  { apply NoDup_app in Hnd as [Hnd _]. apply NoDup_app in Hnd as (_ & Hd & _). intros Hin.
    apply (Hd acct Hin). by left. }
  assert (Forall ranked pq) as Hr.
  { apply Forall_forall. intros e (a & _ & He)%Hmem. by apply (p_entries m Hok) in He as []. }
  destruct (pool_at m acct (next acct)) as [mt|] eqn:E; apply IH; try done.
  - apply heap_Push_ok; try done. by apply (p_entries m Hok) in E as [].
  - rewrite heap_Push_perm, fmap_cons, NoDup_cons. split; [|done].
    pose proof (p_entries m Hok _ _ _ E) as [-> _ _ _ _ _ _ _].
    intros (e & -> & (a & Ha & He)%Hmem)%list_elem_of_fmap.
    pose proof (p_entries m Hok _ _ _ He) as [Hfr _ _ _ _ _ _ _]. by rewrite Hfr in Hni.
  - intros e. rewrite heap_Push_perm, elem_of_cons, Hmem. setoid_rewrite elem_of_app.
    setoid_rewrite list_elem_of_singleton. naive_solver.
  - intros a [Ha| ->%list_elem_of_singleton]%elem_of_app; [|by rewrite lookup_insert_eq].
    rewrite lookup_insert_ne by (by intros ->). by apply Hexp.
  - intros e. rewrite Hmem. setoid_rewrite elem_of_app. setoid_rewrite list_elem_of_singleton. naive_solver.
  - intros a [Ha| ->%list_elem_of_singleton]%elem_of_app; [|by rewrite lookup_insert_eq].
    rewrite lookup_insert_ne by (by intros ->). by apply Hexp.
Qed.

(** C8. Draining finishes (as many rounds as the pool has entries are enough) and gives out a
    priority merge of the lanes the senders have in the pool (entries past the time to live
    are gone): each transaction is the one its sender has to make
    next, no sender's next transaction had a higher fee rate (or the same and a higher fee)
    when it was taken, and taking stops only at the requested number or when no sender has a
    next one in the pool.  Exactly what was given out is removed, the pool stays consistent,
    and for every sender the nonces run without a gap from the one after the stored nonce. *)
Theorem Drain_greedy d m now maxCount fuel : state_ok (db_view d) -> pool_ok m ->
  0 <= maxCount <= 2 ^ 40 ->
  let m1 := pruneLocked now m in
  let next := fun a => u64 (nonce (db_view d) a + 1) in
  (pool_size m1 <= fuel)%nat ->
  exists out m', Drain fuel now maxCount (d, m) = (Ret (Some out), (d, m')) /\ pool_ok m' /\
    mp_totalTxs m' = mp_totalTxs m1 - Z.of_nat (length out) /\
    (0 < maxCount -> Z.of_nat (length out) <= maxCount) /\
    greedy maxCount 0 next (fresh_at now m) out /\
    (forall acct, contiguous (next acct) (lane acct out)) /\
    forall a k, pool_at m' a k = if taken out a k then None else fresh_at now m a k.
Proof.
  intros Hst Hok Hmax m1 next Hf. destruct (pruneLocked_ok now m Hok) as [Hok1 _]. fold m1 in Hok1.
  unfold Drain. erewrite gbind_ret by reflexivity. cbn [snd]. fold m1.
  erewrite gbind_ret by reflexivity. cbn [fst].
  destruct (drain_init_run d m1 m1 next (range (mp_byAcct m1)) Hst Hok1 ltac:(done) [] [] ∅)
    as (pq & expected & R & Hh & Hnd & Hmem & Hexp);
    [apply range_NoDup|intros k; cbn; lia|constructor| |by intros a ?%not_elem_of_nil|].
  { intros e. split; [by intros ?%not_elem_of_nil|]. by intros (a & ?%not_elem_of_nil & _). }
  erewrite gbind_ret by exact R. cbv beta iota.
  assert (make_cap_ok maxCount tx_size = true) as ->.
  { unfold make_cap_ok, tx_size. apply andb_true_intro. split; apply Z.leb_le; lia. }
  cbn [negb].
  assert (forall a k e, pool_at m1 a k = Some e -> a ∈ [] ++ (range (mp_byAcct m1)).*1) as Hdom.
  { intros a k e He. cbn [app]. apply range_keys. unfold pool_at in He.
    destruct (mp_byAcct m1 !! a); [by eexists|done]. }
  destruct (drain_loop_run maxCount fuel 0 pq expected m1 next Hok1) as
    (out & m' & Hd & Hok' & Ht & Hg & Hrem); [|by eauto|done|].
  { split; [done| |done]. intros e. rewrite Hmem. naive_solver. }
  rewrite Hd. exists out, m'. split_and!; try done.
  - intros Hpos. apply greedy_bound in Hg; lia.
  - eapply greedy_ext; [..|exact Hg]; [done|]. intros a k. by rewrite <- pruneLocked_at.
  - intros acct. eapply greedy_lane; [|exact Hg]. intros a k e He.
    by apply (p_entries m1 Hok1) in He as [].
  - intros a k. by rewrite Hrem, <- pruneLocked_at.
Qed.
End Props.
