(* ===== verification/TypedNode.v ===== *)
(** * Type soundness of the node: every way in keeps the types of the store

    The soundness lemmas of fork choice, finality, block submission, synchronisation, the
    messages of peers and the HTTP interface, and the two theorems they give: whatever
    sequence of requests, messages and rounds a node goes through, its store stays typed; and
    from such a store no request outside the routes that reorganise or extend the chain, and
    no message but a block, makes it panic. *)

From S2P Require Import Prelude GoLang KV Chain Pow Storage State Fees Pop Config Crypto Validate Apply Frame Typed Mempool TypedLedger Forkchoice Finality Sync Node SyncOnce Gossip Api.

(** [SetBytes] of edwards25519 reports a bad encoding as an error. *)
Class EdwardsSafe (E : Edwards) : Prop := setbytes_no_panic : forall b, pt_SetBytes b <> Panic.

Section Chain.
Context {L : LevelDB} {HL : LevelDBOk L} {HS : Hashes} {CD : Codecs} {HC : CodecsTotal CD} {MO : MapOrder}
  {FS : SnapFiles} {HF : SnapFilesSafe FS}.

(** ** Fork choice *)

Lemma sound_walk_back p finH c : forall h, sound p (walk_back finH c h).
Proof. induction c; intros; cbn [walk_back]; sound_tac. Qed.
Lemma sound_write_main p l : forall h, sound p (write_main h l).
Proof. induction l; intros; cbn [write_main]; sound_tac. Qed.
#[local] Hint Resolve sound_walk_back sound_write_main : sound.
Lemma sound_switch_index x h : sound true (switch_index x h).
Proof. unfold switch_index. sound_tac. Qed.
#[local] Hint Resolve sound_switch_index : sound.
Lemma sound_trySwitch cfg g bh fs x h : sound true (trySwitchMainChain cfg g bh fs x h).
Proof. unfold trySwitchMainChain. sound_tac. Qed.
Lemma sound_BestChainHash p fuel t : sound p (BestChainHashAtHeight fuel t).
Proof. unfold BestChainHashAtHeight. sound_tac. Qed.
Lemma sound_enforce p fuel x : sound p (enforceFinalizedOnCandidate fuel x).
Proof. unfold enforceFinalizedOnCandidate. sound_tac. Qed.
Lemma sound_header_path p fuel : forall a b cur, sound p (header_path_loop fuel a b cur).
Proof. induction fuel; intros; cbn [header_path_loop]; sound_tac. Qed.
#[local] Hint Resolve sound_header_path : sound.
Lemma sound_headerPathFromTo fuel a b x : sound true (headerPathFromTo fuel a b x).
Proof. unfold headerPathFromTo. sound_tac. Qed.
Lemma sound_old_branch p n : forall h, sound p (old_branch_txs n h).
Proof. induction n; intros; cbn [old_branch_txs]; sound_tac. Qed.

Lemma best_snapshot_safe target snaps : forall best h f, (best_snapshot target snaps best h f).1 <> Panic.
Proof.
  induction snaps as [|x snaps IH]; intros best h f; [done|]. cbn [best_snapshot].
  unfold gbind, gtry. pose proof (ReadSnapshotAuto_safe x f).
  destruct (ReadSnapshotAuto x f) as [[ss|e|] f']; [|apply IH|done].
  case_match; apply IH.
Qed.

(** ** Finality *)
Context {ED : Ed25519} (n : FinNode) (cfg : Config) (genesis : Genesis).

Lemma sound_tryFinalizeHeight p now h x : sound p (tryFinalizeHeight n genesis now h x).
Proof. unfold tryFinalizeHeight. sound_tac. Qed.
#[local] Hint Resolve sound_tryFinalizeHeight : sound.
Lemma sound_ingestVote p now vr : sound p (ingestVote n genesis now vr).
Proof. unfold ingestVote. sound_tac. Qed.
Lemma sound_processVotes now cp : sound true (processCheckpointVotes n cfg genesis now cp).
Proof. unfold processCheckpointVotes. sound_tac. Qed.
#[local] Hint Resolve sound_ingestVote sound_processVotes : sound.
Lemma sound_pullVotes pv now : sound true (pullVotesFromPeers n cfg genesis pv now).
Proof. unfold pullVotesFromPeers. sound_tac. Qed.
Lemma sound_ensureVotes {any} {AJ : JSON any} {HA : JSONTotal any} now :
  sound true (ensureVotesUpToTip (any := any) n cfg genesis now).
Proof. unfold ensureVotesUpToTip. sound_tac. Qed.

Context (ListVotes : Z -> Z -> GoM db_t (list VoteRecord)).
Context (HListVotes : forall p h k, sound p (ListVotes h k)).

Lemma sound_TryFinalizeHeight p h : sound p (TryFinalizeHeight ListVotes h).
Proof. unfold TryFinalizeHeight. sound_tac. Qed.
#[local] Hint Resolve sound_TryFinalizeHeight : sound.
Lemma sound_submit_vote p now vr : sound p (submit_vote n genesis ListVotes now vr).
Proof. unfold submit_vote. sound_tac. Qed.
End Chain.
#[export] Hint Resolve sound_trySwitch sound_BestChainHash sound_enforce sound_headerPathFromTo sound_old_branch
  best_snapshot_safe sound_processVotes sound_pullVotes sound_submit_vote : sound.

(** ** Reorganisation, synchronisation *)
Section Sync.
Context {L : LevelDB} {HL : LevelDBOk L} {HS : Hashes} {CD : Codecs} {HC : CodecsTotal CD} {MO : MapOrder}
  {FS : SnapFiles} {HF : SnapFilesSafe FS}.
Context (ApplyBlock : Block -> GoM (db_t * fs_t) unit) (HApply : forall p b, sound p (ApplyBlock b)).
Context (rs_SetBalance : string -> Z -> GoM db_t unit) (HSet : forall p a v, sound p (rs_SetBalance a v)).
Context (cfg : Config) (genesis : Genesis).
Context (findForkPointCached : Z -> string -> Z -> string -> GoM db_t (Z * string)).
Context (HFork : forall p a b c d, sound p (findForkPointCached a b c d)).

Lemma sound_replay_apply p k : forall h, sound p (replay_apply ApplyBlock k h).
Proof. induction k; intros; cbn [replay_apply]; sound_tac. Qed.
#[local] Hint Resolve sound_replay_apply : sound.
Lemma sound_RebuildState p target : sound p (RebuildStateToHeight ApplyBlock rs_SetBalance cfg genesis target).
Proof. unfold RebuildStateToHeight, ApplyStateUpTo. sound_tac. Qed.
#[local] Hint Resolve sound_RebuildState : sound.
Lemma sound_Reorg fuel senders now :
  sound true (ReorgToBestHeaderChain ApplyBlock rs_SetBalance cfg genesis fuel findForkPointCached senders now).
Proof. unfold ReorgToBestHeaderChain. sound_tac. Qed.

Lemma sound_get_sm {T} p : sound p (get_sm (S := T)).
Proof. apply sound_read. Qed.
#[local] Hint Resolve sound_get_sm : sound.
Lemma sound_locator_rounds p fuel : forall k step h, sound p (locator_rounds fuel k step h).
Proof. induction fuel; intros; cbn [locator_rounds]; sound_tac. Qed.
#[local] Hint Resolve sound_locator_rounds : sound.
Lemma sound_header_round p fuel now : sound p (header_round fuel now).
Proof. unfold header_round. sound_tac. Qed.
Lemma sound_request_block sessions intn now h : sound true (request_block sessions intn now h).
Proof.
  unfold request_block, chooseSyncPeer. sound_tac; unfold gpart; sound_tac.
Qed.
Lemma sound_collect_back p fuel : forall start cur, sound p (collect_back fuel start cur).
Proof. induction fuel; intros; cbn [collect_back]; sound_tac. Qed.
Lemma sound_fill_queue p q l : forall k, sound p (fill_queue q k l).
Proof. induction l; intros; cbn [fill_queue]; sound_tac. Qed.
#[local] Hint Resolve sound_collect_back sound_fill_queue : sound.
Lemma sound_enqueue fuel q : sound true (enqueueMissingFromHeaderTip fuel q).
Proof. unfold enqueueMissingFromHeaderTip, enqueueMissing. sound_tac. Qed.
Lemma sound_gc_candidates p k : forall h, sound p (gc_candidates k h).
Proof. induction k; intros; cbn [gc_candidates]; sound_tac. Qed.
#[local] Hint Resolve sound_enqueue sound_gc_candidates : sound.
Lemma sound_advance_loop q blk fuel : sound true (advance_loop ApplyBlock q fuel blk).
Proof. induction fuel; cbn [advance_loop]; sound_tac. Qed.
#[local] Hint Resolve sound_advance_loop : sound.
Lemma sound_TryAdvanceTip q fuel strict blk : sound true (TryAdvanceTip ApplyBlock q fuel strict blk).
Proof. unfold TryAdvanceTip. sound_tac. Qed.
Lemma sound_TryCommitNext q fuel : sound true (TryCommitNext ApplyBlock q fuel).
Proof. induction fuel; cbn [TryCommitNext]; sound_tac. Qed.
#[local] Hint Resolve sound_TryCommitNext sound_Reorg : sound.
Lemma sound_Converge q fuel senders now :
  sound true (TryConvergeToBest ApplyBlock q fuel rs_SetBalance cfg genesis findForkPointCached senders now).
Proof. unfold TryConvergeToBest. sound_tac. Qed.
End Sync.
#[export] Hint Resolve sound_RebuildState sound_Reorg sound_header_round sound_request_block sound_TryAdvanceTip
  sound_TryCommitNext sound_Converge : sound.

(** ** Blocks and transactions *)
Section Blocks.
Context {L : LevelDB} {HL : LevelDBOk L} {HS : Hashes} {CD : Codecs} {HC : CodecsTotal CD} {MO : MapOrder}
  {FS : SnapFiles} {HF : SnapFilesSafe FS} {ED : Ed25519} {E : Edwards} {HE : EdwardsSafe E} {TS : TxSort}.
Context (cfg : Config) (mustHex32 : string -> string) (genesis : Genesis).
Context (NextWorkRequired : (Z -> GoM db_t (option BlockHeader)) -> (Z -> GoM db_t (option Z)) ->
  Z -> GoM db_t (option Z)).
Context (HNext : forall h, sound true (NextWorkRequired getHeader getBits h)).
Context (n : FinNode) (b_Height feeSum : Z).

Lemma sound_ensureGenesis : sound true (ensureGenesisStored genesis).
Proof. unfold ensureGenesisStored, gwrap. sound_tac. Qed.
Lemma sound_check_block b : sound true (check_block cfg mustHex32 genesis NextWorkRequired b).
Proof. unfold check_block. sound_tac. Qed.
Lemma sound_advance_tip now b x cum : sound true (advance_tip cfg genesis n now b x cum).
Proof. unfold advance_tip. sound_tac. Qed.
#[local] Hint Resolve sound_check_block sound_advance_tip : sound.
Lemma sound_SubmitBlock now b :
  sound true (SubmitBlock cfg mustHex32 genesis NextWorkRequired n b_Height feeSum now b).
Proof. unfold SubmitBlock. sound_tac. Qed.
#[local] Hint Resolve sound_SubmitBlock : sound.
Lemma sound_MineOne fuel now :
  sound true (MineOne cfg mustHex32 genesis NextWorkRequired n b_Height feeSum fuel now).
Proof.
  assert (sound true (Drain fuel now 500)) by (by apply sound_Drain).
  unfold MineOne. sound_tac.
Qed.
Lemma sound_submit_claim p tx : sound p (submit_claim mustHex32 tx).
Proof.
  unfold submit_claim. destruct (TClaim tx) as [c|]; [|sound_tac].
  pose proof (setbytes_no_panic (mustHex32 (CP c))) as Hs.
  destruct (pt_SetBytes (mustHex32 (CP c))); [sound_tac..|done].
Qed.
#[local] Hint Resolve sound_submit_claim : sound.
Lemma sound_submit_checks p tx : sound p (submit_checks cfg mustHex32 tx).
Proof. unfold submit_checks. sound_tac. Qed.

Context {any : Type} {AJ : JSON any} {HA : JSONTotal any}.
Context (reorgFromPeer : string -> Z -> GoM (db_t * fs_t) unit) (HReorg : forall p q h, sound p (reorgFromPeer q h)).

Lemma sound_score l : forall work, sound true (score_headers work l).
Proof. induction l; intros; cbn [score_headers]; sound_tac. Qed.
Lemma sound_submit_fast now net peer l :
  sound true (submit_fast cfg mustHex32 genesis NextWorkRequired n b_Height feeSum now net peer l).
Proof. induction l; cbn [submit_fast]; sound_tac. Qed.
Lemma sound_submit_located now net peer h l :
  sound true (submit_located cfg mustHex32 genesis NextWorkRequired n b_Height feeSum now reorgFromPeer net peer h l).
Proof. induction l; cbn [submit_located]; sound_tac. Qed.
Lemma sound_locator_loop p room : forall k step h, sound p (locator_loop (any := any) room k step h).
Proof. induction room; intros; cbn [locator_loop]; sound_tac. Qed.
#[local] Hint Resolve sound_score sound_submit_fast sound_submit_located sound_locator_loop : sound.
Lemma sound_syncOnce now net :
  sound true (syncOnce (any := any) cfg mustHex32 genesis NextWorkRequired n b_Height feeSum now reorgFromPeer net).
Proof. unfold syncOnce, sync_located. sound_tac. Qed.
End Blocks.
#[export] Hint Resolve sound_SubmitBlock sound_MineOne sound_submit_checks : sound.

(** ** Messages of peers *)
Section Messages.
Context {L : LevelDB} {HL : LevelDBOk L} {HS : Hashes} {CD : Codecs} {HC : CodecsTotal CD} {GC : GossipCodecs}
  {MO : MapOrder} {FS : SnapFiles} {HF : SnapFilesSafe FS} {ED : Ed25519} {E : Edwards}.
Context (cfg : Config) (mustHex32 : string -> string) (genesis : Genesis).
Context (NextWorkRequired : (Z -> GoM db_t (option BlockHeader)) -> (Z -> GoM db_t (option Z)) ->
  Z -> GoM db_t (option Z)).
Context (HNext : forall h, sound true (NextWorkRequired getHeader getBits h)).
Context (n : FinNode) (b_Height feeSum : Z) (chainID genesisHash : string).
Context (validateTxAdmission : Tx -> GoM db_t Tx) (HAdmit : forall p tx, sound p (validateTxAdmission tx)).
Context (setHeadersCount : Z -> syncManager -> syncManager).
Context (setLastHashes : list string -> syncManager -> syncManager).
Context (senders : list string) (stray_tx : Tx).

#[export] Instance store_p2p : HasStore p2p_state := fun s => db_view (g_chain s).1.

Lemma sound_lock p : sound p lock.
Proof. intros s Hs. unfold lock. by destruct (g_locked s). Qed.
Lemma sound_locate p l : forall start, sound p (locate_start start l).
Proof. induction l; intros; cbn [locate_start]; sound_tac. Qed.
Lemma sound_collect_headers p k : forall h, sound p (collect_headers k h).
Proof. induction k; intros; cbn [collect_headers]; sound_tac. Qed.
#[local] Hint Resolve sound_lock sound_locate sound_collect_headers : sound.

Lemma sound_penalize p now pub d : sound p (penalizePeer now pub d).
Proof. unfold penalizePeer. sound_tac. Qed.
#[local] Hint Resolve sound_penalize : sound.
Lemma sound_on_inv_tx p now peer m : sound p (on_inv_tx now peer m).
Proof. unfold on_inv_tx. sound_tac. Qed.
Lemma sound_on_inv_block p now peer m : sound p (on_inv_block now peer m).
Proof. unfold on_inv_block. sound_tac. Qed.
Lemma sound_on_tx p now peer m : sound p (on_tx validateTxAdmission senders now peer m).
Proof. unfold on_tx. sound_tac. Qed.
Lemma sound_on_block now peer m :
  sound true (on_block cfg mustHex32 genesis NextWorkRequired n b_Height feeSum stray_tx now peer m).
Proof. unfold on_block. sound_tac. Qed.
#[local] Hint Resolve sound_on_inv_tx sound_on_inv_block sound_on_tx sound_on_block : sound.

Notation dispatch := (dispatch cfg mustHex32 genesis NextWorkRequired n b_Height feeSum chainID genesisHash
  validateTxAdmission setHeadersCount setLastHashes senders stray_tx).
Notation handle := (handle cfg mustHex32 genesis NextWorkRequired n b_Height feeSum chainID genesisHash
  validateTxAdmission setHeadersCount setLastHashes senders stray_tx).

Lemma sound_dispatch p now peer m : (p = false -> msg_Type m <> "block") -> sound p (dispatch now peer m).
Proof.
  intros Hp. unfold Gossip.dispatch. destruct (String.eqb_spec (msg_Type m) "block") as [Hb|Hb].
  - destruct p; [sound_tac|by destruct (Hp eq_refl)].
  - sound_tac.
Qed.
Lemma sound_handle p now nano peer m : (p = false -> msg_Type m <> "block") -> sound p (handle now nano peer m).
Proof.
  intros Hp. assert (sound p (dispatch now peer m)) by (by apply sound_dispatch).
  unfold Gossip.handle. sound_tac.
  intros s Hs. by destruct (allow nano peer (g_lim s)).
Qed.
End Messages.

(** ** HTTP *)

(** [json.Decoder.Decode] reports malformed input as an error. *)
Class BodySafe (A : Type) `{Body A} : Prop := body_no_panic : forall b, decode_body (A := A) b <> Panic.
Class BodiesSafe (BD : Bodies) : Prop := {
  safe_pub :: BodySafe pubBody; safe_bool :: BodySafe bool; safe_locator :: BodySafe (list string);
  safe_pos :: BodySafe posBody; safe_vote :: BodySafe VoteRecord; safe_pop :: BodySafe popBody;
  safe_addr :: BodySafe string; safe_gossipTx :: BodySafe GossipTxMsg;
  safe_gossipBlock :: BodySafe GossipBlockMsg; safe_rpc :: BodySafe rpcBody; safe_tx :: BodySafe Tx }.

(** The routes that extend or reorganise the chain. *)
Definition chain_routes : list string :=
  ["/sync/retry"; "/sync/converge"; "/sync/reorg_best_check"; "/sync/reorg_best"; "/sync/commit_until";
   "/sync/commit"; "/sync/advance"; "/gossip/block"; "/chain/mine_one"].

Section Http.
Context {L : LevelDB} {HL : LevelDBOk L} {HS : Hashes} {CD : Codecs} {HC : CodecsTotal CD} {ED : Ed25519}
  {E : Edwards} {HE : EdwardsSafe E} {MO : MapOrder} {FS : SnapFiles} {HF : SnapFilesSafe FS} {TS : TxSort}
  {BD : Bodies} {HB : BodiesSafe BD} {HV : JSON HeightView} {HVT : JSONTotal HeightView}.
Context (cfg : Config) (mustHex32 : string -> string) (genesis : Genesis).
Context (NextWorkRequired : (Z -> GoM db_t (option BlockHeader)) -> (Z -> GoM db_t (option Z)) ->
  Z -> GoM db_t (option Z)).
Context (n : FinNode) (b_Height feeSum : Z) (ListVotes : Z -> Z -> GoM db_t (list VoteRecord)).
Context (validateTxAdmission : Tx -> GoM db_t Tx) (ApplyBlock : Block -> GoM (db_t * fs_t) unit).
Context (rs_SetBalance : string -> Z -> GoM db_t unit).
Context (findForkPointCached : Z -> string -> Z -> string -> GoM db_t (Z * string)).
Context (InFlightTimeoutSec maxQueueFill : Z) (senders : list string) (sessions : option (list string)).
Context (ready : bool) (fuel : nat).
Context (HNext : forall h, sound true (NextWorkRequired getHeader getBits h))
  (HListVotes : forall p h k, sound p (ListVotes h k)) (HAdmit : forall p tx, sound p (validateTxAdmission tx))
  (HApply : forall p b, sound p (ApplyBlock b)) (HSet : forall p a v, sound p (rs_SetBalance a v))
  (HFork : forall p a b c d, sound p (findForkPointCached a b c d)).

#[export] Instance store_api : HasStore api := fun s => db_view (a_chain s).1.

Lemma sound_with_body {A} {BA : Body A} {HBA : BodySafe A} p (k : A -> GoM api (option Response)) req :
  (forall a, sound p (k a)) -> sound p (with_body k req).
Proof.
  intros Hk. unfold with_body. pose proof (body_no_panic (rq_Body req)).
  destruct (decode_body (rq_Body req)); [apply Hk|sound_tac|done].
Qed.
Ltac route_step :=
  match goal with
  | |- sound _ (with_body _ _) => eapply sound_with_body
  | |- _ => sound_step
  end.

Lemma sound_count_missing p path : sound p (count_missing path).
Proof. induction path; cbn [count_missing]; sound_tac. Qed.
Lemma sound_plan_loop p room : forall start cur, sound p (plan_loop room start cur).
Proof. induction room; intros; cbn [plan_loop]; sound_tac. Qed.
Lemma sound_headers_loop p k : forall h, sound p (headers_loop k h).
Proof. induction k; intros; cbn [headers_loop]; sound_tac. Qed.
Lemma sound_reconcile p f : forall h to total blocks, sound p (reconcile_loop f h to total blocks).
Proof. induction f; intros; cbn [reconcile_loop]; sound_tac. Qed.
Lemma sound_FindFirstKnown p l : sound p (FindFirstKnown l).
Proof. induction l; cbn [FindFirstKnown]; sound_tac. Qed.
#[local] Hint Resolve sound_count_missing sound_plan_loop sound_headers_loop sound_reconcile
  sound_FindFirstKnown : sound.
Lemma sound_commit_times k : sound true (commit_times ApplyBlock maxQueueFill fuel k).
Proof. induction k; cbn [commit_times]; sound_tac. Qed.
#[local] Hint Resolve sound_commit_times : sound.

Lemma sound_chain_locate p req : sound p (chain_locate req).
Proof.
  unfold chain_locate, only. pose proof (body_no_panic (A := list string) (rq_Body req)).
  destruct (decode_body (A := list string) (rq_Body req)); [sound_tac..|done].
Qed.
Lemma sound_finality_submit_vote p now req : sound p (finality_submit_vote genesis n ListVotes now req).
Proof.
  unfold finality_submit_vote, only. pose proof (body_no_panic (A := VoteRecord) (rq_Body req)).
  destruct (decode_body (A := VoteRecord) (rq_Body req)); [sound_tac..|done].
Qed.
Lemma sound_tx_submit p now req : sound p (tx_submit cfg mustHex32 senders sessions now req).
Proof.
  unfold tx_submit. pose proof (body_no_panic (A := Tx) (rq_Body req)).
  destruct (decode_body (A := Tx) (rq_Body req)); [sound_tac..|done].
Qed.
#[local] Hint Resolve sound_chain_locate sound_finality_submit_vote sound_tx_submit : sound.

Notation routes := (routes cfg mustHex32 genesis NextWorkRequired n b_Height feeSum ListVotes validateTxAdmission
  ApplyBlock rs_SetBalance findForkPointCached InFlightTimeoutSec maxQueueFill senders sessions ready fuel).
Notation serve := (serve cfg mustHex32 genesis NextWorkRequired n b_Height feeSum ListVotes validateTxAdmission
  ApplyBlock rs_SetBalance findForkPointCached InFlightTimeoutSec maxQueueFill senders sessions ready fuel).

(** A request of the table, which may panic only on the routes listed. *)
Definition sound_route (r : string * Handler) : Prop :=
  forall req, sound (mem_str r.1 chain_routes) (r.2 req).

Lemma sound_routes now nano bt dw : Forall sound_route (routes now nano bt dw).
Proof.
  unfold Api.routes. repeat (apply Forall_cons_2; [intros req|]); try apply Forall_nil_2; cbn [fst snd];
    match goal with |- sound ?b _ => let v := eval vm_compute in b in change b with v end;
    repeat route_step.
Qed.

Lemma sound_serve p now nano bt dw path req : (p = false -> ~ In path chain_routes) ->
  sound p (serve now nano bt dw path req).
Proof.
  intros Hp. unfold Api.serve. destruct (List.find _ _) as [r|] eqn:Hf; [|sound_tac].
  apply find_some in Hf as [Hin Heq%String.eqb_eq]. subst path.
  pose proof (sound_routes now nano bt dw) as Hr. rewrite List.Forall_forall in Hr.
  specialize (Hr r Hin req). destruct p, (mem_str r.1 chain_routes) eqn:Hm; try done.
  - by apply sound_weaken.
  - destruct (Hp eq_refl). by apply mem_str_spec.
Qed.
End Http.
