(* ===== verification/TypeSafety.v ===== *)
(** * Type safety of a running node

    [entry] collects the ways a node's store is changed: requests, messages of peers, rounds of
    synchronisation and of finality, the header round and the block workers, the payout of an
    epoch, and genesis.  Six functions the source calls and declares nowhere are collected in
    [Undeclared]; nothing is assumed of them.  A run of a handler is [settled] when it comes out
    the same whatever these functions are, which is the case when it reaches none of them, and
    only settled runs are steps of [entry]; [request_settled] and [message_settled] show that
    the message [tx] and the routes of [undeclared_routes] apart every run is settled, block
    submission and mining included.  The last part shows that the header round ends. *)

From S2P Require Import Prelude GoLang KV Chain Pow Storage State Fees Pop Config Crypto Validate Apply Frame Typed Mempool TypedLedger Forkchoice Finality Sync Node SyncOnce Gossip Api TypedNode.

Section Epoch.
Context {L : LevelDB} {HL : LevelDBOk L} {HS : Hashes} {CD : Codecs} {HC : CodecsTotal CD} {MO : MapOrder}.

Lemma sound_weights_loop p l : forall t, sound p (weights_loop l t).
Proof. induction l; intros; cbn [weights_loop]; sound_tac. Qed.
Lemma sound_pay_loop p drain t l : forall r, sound p (pay_loop drain t r l).
Proof. induction l as [|[]]; intros; cbn [pay_loop]; sound_tac. Qed.
#[local] Hint Resolve sound_weights_loop sound_pay_loop : sound.
Lemma sound_Distribute p h params : sound p (DistributeIfEpoch h params).
Proof. unfold DistributeIfEpoch. sound_tac. Qed.
End Epoch.

Section Node.
Context {L : LevelDB} {HL : LevelDBOk L} {HS : Hashes} {CD : Codecs} {HC : CodecsTotal CD} {GC : GossipCodecs}
  {ED : Ed25519} {E : Edwards} {HE : EdwardsSafe E} {MO : MapOrder} {FS : SnapFiles} {HF : SnapFilesSafe FS}
  {TS : TxSort} {BD : Bodies} {HB : BodiesSafe BD} {HV : JSON HeightView} {HVT : JSONTotal HeightView}
  {any : Type} {AJ : JSON any} {HA : JSONTotal any}.
Context (cfg : Config) (mustHex32 : string -> string) (genesis : Genesis).
Context (NextWorkRequired : (Z -> GoM db_t (option BlockHeader)) -> (Z -> GoM db_t (option Z)) ->
  Z -> GoM db_t (option Z)).
Context (n : FinNode) (b_Height feeSum : Z) (chainID genesisHash : string).
Context (setHeadersCount : Z -> syncManager -> syncManager) (setLastHashes : list string -> syncManager -> syncManager)
  (stray_tx : Tx) (InFlightTimeoutSec maxQueueFill BlockTime Window : Z).

(** What the source calls and declares nowhere, the difficulty rule apart. *)
Record Undeclared := {
  u_ListVotes : Z -> Z -> GoM db_t (list VoteRecord);
  u_validateTxAdmission : Tx -> GoM db_t Tx;
  u_ApplyBlock : Block -> GoM (db_t * fs_t) unit;
  u_SetBalance : string -> Z -> GoM db_t unit;
  u_findForkPointCached : Z -> string -> Z -> string -> GoM db_t (Z * string);
  u_reorgFromPeer : string -> Z -> GoM (db_t * fs_t) unit;
}.

(** A run that comes out the same whatever the undeclared functions are. *)
Definition settled {X} (run : Undeclared -> X) : Prop := forall u u', run u = run u'.

Definition request (u : Undeclared) (senders : list string) (sessions : option (list string)) (ready : bool) (fuel : nat)
    (now nano : Z) (path : string) (req : Request) : GoM api (option Response) :=
  serve cfg mustHex32 genesis NextWorkRequired n b_Height feeSum (u_ListVotes u) (u_validateTxAdmission u)
    (u_ApplyBlock u) (u_SetBalance u) (u_findForkPointCached u) InFlightTimeoutSec maxQueueFill senders sessions ready
    fuel now nano BlockTime Window path req.

Definition message (u : Undeclared) (senders : list string) (now nano : Z) (peer : string) (m : Msg) :
    GoM p2p_state (option unit) :=
  handle cfg mustHex32 genesis NextWorkRequired n b_Height feeSum chainID genesisHash (u_validateTxAdmission u)
    setHeadersCount setLastHashes senders stray_tx now nano peer m.

Definition sync_round (u : Undeclared) (net : Answers) (now : Z) : GoM (db_t * fs_t) unit :=
  syncOnce (any := any) cfg mustHex32 genesis NextWorkRequired n b_Height feeSum now (u_reorgFromPeer u) net.

Definition advance (u : Undeclared) (fuel : nat) (strict : bool) (blk : Block) :=
  TryAdvanceTip (u_ApplyBlock u) maxQueueFill fuel strict blk.

Inductive entry : db_t * fs_t -> db_t * fs_t -> Prop :=
| by_genesis c : entry c (on_db (ensureGenesisStored genesis) c).2
| by_request u senders sessions ready fuel now nano path req s :
    settled (fun u => request u senders sessions ready fuel now nano path req s) ->
    entry (a_chain s) (a_chain (request u senders sessions ready fuel now nano path req s).2)
| by_message u senders now nano peer m s :
    settled (fun u => message u senders now nano peer m s) ->
    entry (g_chain s) (g_chain (message u senders now nano peer m s).2)
| by_sync u net now c : settled (fun u => sync_round u net now c) -> entry c (sync_round u net now c).2
| by_peer_votes votes now c : entry c (on_db (pullVotesFromPeers n cfg genesis votes now) c).2
| by_own_votes now c : entry c (on_db (ensureVotesUpToTip (any := any) n cfg genesis now) c).2
| by_header_round fuel now sm d f : entry (d, f) ((header_round fuel now (d, sm)).2.1, f)
| by_worker sessions intn now h sm d f : entry (d, f) ((request_block sessions intn now h (d, sm)).2.1, f)
| by_advance u fuel strict blk sm c :
    settled (fun u => advance u fuel strict blk (c, sm)) -> entry c (advance u fuel strict blk (c, sm)).2.1
| by_epoch h params c : entry c (on_db (DistributeIfEpoch h params) c).2.

(** ** What is settled always *)

(** The routes that can reach an undeclared function. *)
Definition undeclared_routes : list string :=
  ["/finality/submit_vote"; "/finality/tally"; "/gossip/tx"; "/sync/rebuild"; "/sync/retry"; "/sync/converge"; "/sync/reorg_best";
   "/sync/commit_until"; "/sync/commit"; "/sync/advance"].

Lemma find_agree (excl : list string) (l l' : list (string * Handler)) path :
  Forall2 (fun r r' => r.1 = r'.1 /\ (mem_str r.1 excl = false -> r.2 = r'.2)) l l' -> ~ In path excl ->
  match List.find (fun r => (r.1 =? path)%string) l with Some r => r.2 | None => fun _ => code 404 end =
  match List.find (fun r => (r.1 =? path)%string) l' with Some r => r.2 | None => fun _ => code 404 end.
Proof.
  intros Hl Hp. induction Hl as [|r r' l l' [H1 H2] _ IH]; [done|]. cbn [List.find].
  rewrite <- H1. destruct (String.eqb_spec r.1 path) as [<-|]; [|done].
  apply H2. destruct (mem_str r.1 excl) eqn:Hm; [|done]. by apply mem_str_spec in Hm.
Qed.

Lemma request_settled senders sessions ready fuel now nano path req s :
  ~ In path undeclared_routes ->
  settled (fun u => request u senders sessions ready fuel now nano path req s).
Proof.
  intros Hp u u'. refine (f_equal (fun h : Handler => h req s) (find_agree undeclared_routes _ _ path _ Hp)).
  unfold routes.
  repeat (apply Forall2_cons_2; [cbn [fst snd]; split; [reflexivity|intros Hm;
    lazymatch goal with |- ?h = ?h => reflexivity | _ => vm_compute in Hm; discriminate Hm end]|]).
  apply Forall2_nil_2.
Qed.

Lemma message_settled senders now nano peer m s : msg_Type m <> "tx" ->
  settled (fun u => message u senders now nano peer m s).
Proof.
  intros Hm u u'. unfold message, handle, dispatch. by apply String.eqb_neq in Hm as ->.
Qed.

(** ** Soundness, with undeclared functions that report an error *)

Definition quiet : Undeclared := {|
  u_ListVotes _ _ := gret []; u_validateTxAdmission tx := gret tx; u_ApplyBlock _ := gret tt;
  u_SetBalance _ _ := gret tt; u_findForkPointCached _ _ _ _ := gret (0, ""); u_reorgFromPeer _ _ := gret tt |}.

Section Sound.
(** The difficulty rule is handed two readers and writes nothing. *)
Hypothesis NextWork_reads : forall P h, keeps P (NextWorkRequired getHeader getBits h).

Lemma sound_NextWork h : sound true (NextWorkRequired getHeader getBits h).
Proof.
  intros s Hs. split; [|done]. replace (store_of (NextWorkRequired getHeader getBits h s).2) with (store_of s); [done|].
  apply map_eq. intros k. symmetry. by apply (NextWork_reads (fun _ => True) h).
Qed.

Lemma sound_request p senders sessions ready fuel now nano path req : (p = false -> ~ In path chain_routes) ->
  sound p (request quiet senders sessions ready fuel now nano path req).
Proof. intros Hp. apply sound_serve; first [exact Hp | exact sound_NextWork | intros; apply sound_ret]. Qed.

Lemma sound_message p senders now nano peer m : (p = false -> msg_Type m <> "block") ->
  sound p (message quiet senders now nano peer m).
Proof. intros Hp. apply sound_handle; [exact sound_NextWork|intros; apply sound_ret|exact Hp]. Qed.

Lemma sound_run {S A} `{HasStore S} (m : GoM S A) s : sound true m -> typed (store_of s) ->
  typed (store_of (m s).2).
Proof. intros Hm Hs. by apply Hm. Qed.

Lemma entry_typed c c' : entry c c' -> typed (store_of c) -> typed (store_of c').
Proof.
  destruct 1; intros Ht; try match goal with Hu : settled _ |- _ => specialize (Hu u quiet); cbn beta in Hu; rewrite Hu end.
  - apply sound_run; [|done]. unfold on_db. sound_step. apply sound_ensureGenesis.
  - by apply (sound_run (request quiet senders sessions ready fuel now nano path req) s (sound_request true _ _ _ _ _ _ _ _ ltac:(done))).
  - by apply (sound_run (message quiet senders now nano peer m) s (sound_message true _ _ _ _ _ ltac:(done))).
  - refine (sound_run (sync_round quiet net now) c _ Ht).
    apply sound_syncOnce; [exact sound_NextWork|exact HA|intros; apply sound_ret].
  - apply sound_run; [|done]. sound_tac.
  - apply sound_run; [|done]. unfold on_db. sound_step. by apply sound_ensureVotes.
  - exact (sound_run (header_round fuel now) (d, sm) (sound_header_round _ _ _) Ht).
  - exact (sound_run (request_block sessions intn now h) (d, sm) (sound_request_block _ _ _ _) Ht).
  - refine (sound_run (advance quiet fuel strict blk) (c, sm) _ Ht).
    apply sound_TryAdvanceTip. intros. apply sound_ret.
  - apply sound_run; [|done]. unfold on_db. sound_step. apply sound_Distribute.
Qed.

Lemma run_typed c c' : rtc entry c c' -> typed (store_of c) -> typed (store_of c').
Proof. induction 1 as [|c c1 c' H _ IH]; intros Ht; [done|]. by eapply IH, entry_typed. Qed.

Lemma start_typed (c0 : db_t * fs_t) : db_view c0.1 = ∅ -> typed (store_of c0).
Proof. intros H0. unfold store_of, store_pair, store_of, store_db. rewrite H0. apply typed_empty. Qed.

(** C5. Type preservation: starting from an empty store, whatever requests, messages of peers,
    rounds of synchronisation and of finality, block workers and payouts a node runs, in any
    order and with any arguments, every value in its store can be read at the Go type its key
    stands for.  The steps are the runs that do not depend on a function declared nowhere
    ([settled]: nothing can be said of the writes of one), and the difficulty rule, which is
    given two readers, is taken to write nothing. *)
Theorem store_stays_typed c0 c : db_view c0.1 = ∅ -> rtc entry c0 c -> typed (db_view c.1).
Proof. intros H0 Hrun. exact (run_typed c0 c Hrun (start_typed c0 H0)). Qed.

End Sound.
End Node.

(** In a typed store no read fails and none returns a partly decoded value: blocks,
    transactions, headers and genesis are absent or there, the listings of validators, votes,
    checkpoints, participants and peers succeed, balances and nonces are read. *)
Theorem typed_reads {L : LevelDB} {HL : LevelDBOk L} {HS : Hashes} {CD : Codecs} (d : db_t) :
  typed (db_view d) ->
  (forall h, exists o, GetBlockByHash h d = (Ret match o with Some b => Found b | None => NotFound end, d) /\
     (o = None <-> db_view d !! keyBlockByHash h = None)) /\
  (forall h, exists o, GetTx h d = (Ret o, d) /\ (o = None <-> db_view d !! keyTx h = None)) /\
  (forall h, exists o, GetHeaderByHash h d = (Ret o, d) /\ (o = None <-> db_view d !! keyHdrHash h = None)) /\
  (exists o, GetGenesis d = (Ret match o with Some g => Found g | None => NotFound end, d) /\
     (o = None <-> db_view d !! keyGenesis = None)) /\
  (forall k, exists l, ListValidators k d = (Ret l, d)) /\
  (forall h, exists l, ListVotesForHeight h d = (Ret l, d)) /\
  (forall k, exists l, ListCheckpoints k d = (Ret l, d)) /\
  (forall k, exists l, ListParticipants k d = (Ret l, d)) /\
  (forall k, exists l, ListPeers k d = (Ret l, d)) /\
  (forall id, exists o, GetBalance id d = (Ret o, d)) /\ (forall id, exists o, GetNonce id d = (Ret o, d)).
Proof.
  intros Hd. split_and!; intros.
  1,4: by apply (typed_get_json_found d Hd).
  1,2: by apply (typed_get_json d Hd).
  1,3,4,5: apply (typed_scan d Hd); intros x [y ->]%str_prefix_spec; reflexivity.
  - by apply typed_ListVotes.
  - by apply typed_GetBalance.
  - by apply typed_GetNonce.
Qed.

(** ** The header round ends *)
Section Rounds.
Context {L : LevelDB} {HL : LevelDBOk L} {HS : Hashes} {CD : Codecs} {HC : CodecsTotal CD}.

(** What ignores its errors returns. *)
Lemma ignored_returns {S A} `{HasStore S} (x : A) (m : GoM S A) s : sound false m -> typed (store_of s) ->
  exists a s', gignore x m s = (Ret a, s') /\ typed (store_of s').
Proof.
  intros Hm Ht. destruct (Hm s Ht) as [H1 H2]. unfold gignore. destruct (m s) as [[a|e|] s']; [eauto..|].
  by destruct (H2 eq_refl).
Qed.

(** [h + 2 * step] does not grow, so the step never wraps and the height falls. *)
Lemma locator_rounds_end fuel : forall n step h d, typed (store_of d) -> 0 < step -> 0 <= h -> h + 2 * step < M64 ->
  h < Z.of_nat fuel -> exists l d', locator_rounds fuel n step h d = (Ret (Some l), d') /\ typed (store_of d').
Proof.
  induction fuel as [|fuel IH]; intros n step h d Ht Hs Hh Hb Hf; [lia|]. cbn [locator_rounds].
  destruct (n <? 32); cbn [negb]; [|by exists [], d].
  destruct (ignored_returns (NotFound, "") (GetBlockByHeight h) d) as (r & d1 & Hr & Ht1); [sound_tac|done|].
  unfold gbind at 1. rewrite Hr. set (here := match found_ok r.1 with Some _ => _ | None => _ end). cbv zeta.
  destruct (Z.eqb_spec h 0) as [|Hnz]; [by eexists _, d1|].
  set (step' := if 10 <? n + len here then u64 (step * 2) else step).
  assert (0 < step' /\ (if h <? step' then 0 else u64 (h - step')) < h /\ 0 <= (if h <? step' then 0 else u64 (h - step')) /\
    (h <? step' = false -> u64 (h - step') + 2 * step' < M64)) as (H1 & H2 & H3 & H4).
  { unfold step'. unfold u64 in *. destruct (10 <? n + len here).
    - rewrite (Z.mod_small (step * 2)) by lia. destruct (Z.ltb_spec h (step * 2)); [split_and!; (lia || done)|].
      rewrite Z.mod_small by lia. split_and!; lia.
    - destruct (Z.ltb_spec h step); [split_and!; (lia || done)|]. rewrite Z.mod_small by lia. split_and!; lia. }
  assert (exists l d', locator_rounds fuel (n + len here) step' (if h <? step' then 0 else u64 (h - step')) d1 =
    (Ret (Some l), d') /\ typed (store_of d')) as (l & d' & Hl & Ht').
  { destruct (h <? step') eqn:E; [|apply IH; auto; lia].
    destruct fuel as [|fuel']; [lia|]. cbn [locator_rounds]. destruct (n + len here <? 32); cbn [negb]; [|by exists [], d1].
    destruct (ignored_returns (NotFound, "") (GetBlockByHeight 0) d1) as (r2 & d2 & Hr2 & Ht2); [sound_tac|done|].
    unfold gbind at 1. rewrite Hr2. by eexists _, d2. }
  exists (here ++ l), d'. split; [|done]. unfold gbind. by rewrite Hl.
Qed.

(** C37. One round of asking for headers ends: on a typed store whose tip is at most 2^64 - 3, a
    number of iterations above the height of the tip is enough for the locator, whatever blocks
    are missing from the index, and the round returns a request or, when paused, none. *)
Theorem header_round_ends fuel now d sm :
  let tipH := match (GetTip d).1 with Ret (Some (h, _)) => h | _ => 0 end in
  typed (db_view d) -> 0 <= tipH <= M64 - 3 -> tipH < Z.of_nat fuel ->
  exists r s', header_round fuel now (d, sm) = (Ret (Some r), s').
Proof.
  intros tipH Ht Hb Hf. unfold header_round. unfold gbind at 1, get_sm. cbn [fst snd].
  destruct (isPaused sm); [by eexists _, _|]. unfold gbind at 1, put_sm, gmodify. cbn [fst].
  set (sm1 := touchRequest now sm). unfold gbind at 1.
  destruct (ignored_returns None (on_sm_db (S := syncManager) GetTip) (d, sm1)) as (t & s1 & H1 & Ht1); [sound_tac|done|].
  assert (default 0 (option_map fst t) = tipH) as Htip.
  { unfold gignore, on_sm_db, gzoom in H1. unfold tipH. cbn [fst] in H1.
    destruct (GetTip d) as [[[[h x]|]|e|] d'] eqn:E; cbn [fst]; by simplify_eq. }
  rewrite H1. cbv zeta. rewrite Htip. unfold gbind at 1.
  destruct (ignored_returns None (on_sm_db (S := syncManager) GetHeaderFrontier) s1) as (f & s2 & H2 & Ht2); [sound_tac|done|].
  rewrite H2. destruct s2 as [d2 sm2].
  destruct (locator_rounds_end fuel 0 1 tipH d2 Ht2) as (l & d' & Hl & _); [lia..|].
  unfold gbind at 1, on_sm_db, gzoom. cbn [fst]. rewrite Hl. by eexists _, _.
Qed.
End Rounds.
