(* ===== verification/Instances.v ===== *)
(** * A concrete instance of every interface

    The store is a finite map, the hash is SHA-256, the codecs are binary codes, the file
    system has no files, the curve is the additive group of integers modulo the order of
    edwards25519's base point, the authenticated encryption appends a SHA-256 tag, and
    ed25519 accepts every signature.  The laws of the interfaces hold of them, so the
    theorems stated over the interfaces are about something. *)

From S2P Require Import Prelude GoLang KV Chain Sha2 Storage State Crypto Validate Forkchoice.

(** ** Decidable equality and codes of the stored records

    A record is coded as the list of the codes of its fields. *)

Ltac code_record := intros []; cbn; by rewrite ?decode_encode.

#[export] Instance header_eq_dec : EqDecision BlockHeader.
Proof. solve_decision. Defined.
Definition header_to (r : BlockHeader) : list positive :=
  [encode (Version r); encode (ChainID r); encode (Height r); encode (TimeUnix r);
   encode (PrevHash r); encode (StateRoot r); encode (HTxRoot r); encode (Bits r);
   encode (Nonce r)].
Definition header_of (l : list positive) : option BlockHeader :=
  match l with
  | [p0; p1; p2; p3; p4; p5; p6; p7; p8] =>
      x0 ← decode p0; x1 ← decode p1; x2 ← decode p2; x3 ← decode p3; x4 ← decode p4;
      x5 ← decode p5; x6 ← decode p6; x7 ← decode p7; x8 ← decode p8;
      Some {| Version := x0; ChainID := x1; Height := x2; TimeUnix := x3; PrevHash := x4;
              StateRoot := x5; HTxRoot := x6; Bits := x7; Nonce := x8 |}
  | _ => None
  end.
Lemma header_of_to r : header_of (header_to r) = Some r.
Proof. revert r. code_record. Qed.
#[export] Instance header_countable : Countable BlockHeader := inj_countable header_to header_of header_of_to.

#[export] Instance out_eq_dec : EqDecision TxOut.
Proof. solve_decision. Defined.
Definition out_to (r : TxOut) : list positive :=
  [encode (Amount r); encode (Asset r); encode (Address r); encode (OP r); encode (OR r);
   encode (OTag r); encode (EncMemo r); encode (PolicyBits r)].
Definition out_of (l : list positive) : option TxOut :=
  match l with
  | [p0; p1; p2; p3; p4; p5; p6; p7] =>
      x0 ← decode p0; x1 ← decode p1; x2 ← decode p2; x3 ← decode p3; x4 ← decode p4;
      x5 ← decode p5; x6 ← decode p6; x7 ← decode p7;
      Some {| Amount := x0; Asset := x1; Address := x2; OP := x3; OR := x4; OTag := x5;
              EncMemo := x6; PolicyBits := x7 |}
  | _ => None
  end.
Lemma out_of_to r : out_of (out_to r) = Some r.
Proof. revert r. code_record. Qed.
#[export] Instance out_countable : Countable TxOut := inj_countable out_to out_of out_of_to.

#[export] Instance claim_eq_dec : EqDecision OTAPClaim.
Proof. solve_decision. Defined.
Definition claim_to (r : OTAPClaim) : list positive :=
  [encode (CP r); encode (CR r); encode (CTag r); encode (CTo r); encode (CAmount r);
   encode (ClaimSigHex r)].
Definition claim_of (l : list positive) : option OTAPClaim :=
  match l with
  | [p0; p1; p2; p3; p4; p5] =>
      x0 ← decode p0; x1 ← decode p1; x2 ← decode p2; x3 ← decode p3; x4 ← decode p4;
      x5 ← decode p5;
      Some {| CP := x0; CR := x1; CTag := x2; CTo := x3; CAmount := x4; ClaimSigHex := x5 |}
  | _ => None
  end.
Lemma claim_of_to r : claim_of (claim_to r) = Some r.
Proof. revert r. code_record. Qed.
#[export] Instance claim_countable : Countable OTAPClaim := inj_countable claim_to claim_of claim_of_to.

#[export] Instance tx_eq_dec : EqDecision Tx.
Proof. solve_decision. Defined.
Definition tx_to (r : Tx) : list positive :=
  [encode (From r); encode (PubKey r); encode (SigHex r); encode (TType r);
   encode (TClaim r); encode (TVersion r); encode (TNonce r); encode (Fee r);
   encode (GasAsset r); encode (Outputs r); encode (Memo r)].
Definition tx_of (l : list positive) : option Tx :=
  match l with
  | [p0; p1; p2; p3; p4; p5; p6; p7; p8; p9; p10] =>
      x0 ← decode p0; x1 ← decode p1; x2 ← decode p2; x3 ← decode p3; x4 ← decode p4;
      x5 ← decode p5; x6 ← decode p6; x7 ← decode p7; x8 ← decode p8; x9 ← decode p9;
      x10 ← decode p10;
      Some {| From := x0; PubKey := x1; SigHex := x2; TType := x3; TClaim := x4;
              TVersion := x5; TNonce := x6; Fee := x7; GasAsset := x8; Outputs := x9;
              Memo := x10 |}
  | _ => None
  end.
Lemma tx_of_to r : tx_of (tx_to r) = Some r.
Proof. revert r. code_record. Qed.
#[export] Instance tx_countable : Countable Tx := inj_countable tx_to tx_of tx_of_to.

#[export] Instance block_eq_dec : EqDecision Block.
Proof. solve_decision. Defined.
Definition block_to (r : Block) : list positive :=
  [encode (Header r); encode (Txs r)].
Definition block_of (l : list positive) : option Block :=
  match l with
  | [p0; p1] =>
      x0 ← decode p0; x1 ← decode p1;
      Some {| Header := x0; Txs := x1 |}
  | _ => None
  end.
Lemma block_of_to r : block_of (block_to r) = Some r.
Proof. revert r. code_record. Qed.
#[export] Instance block_countable : Countable Block := inj_countable block_to block_of block_of_to.

#[export] Instance vote_eq_dec : EqDecision VoteRecord.
Proof. solve_decision. Defined.
Definition vote_to (r : VoteRecord) : list positive :=
  [encode (vr_Height r); encode (vr_BlockHash r); encode (vr_ChainID r);
   encode (vr_PubkeyHex r); encode (vr_SigHex r); encode (vr_TimeUnix r)].
Definition vote_of (l : list positive) : option VoteRecord :=
  match l with
  | [p0; p1; p2; p3; p4; p5] =>
      x0 ← decode p0; x1 ← decode p1; x2 ← decode p2; x3 ← decode p3; x4 ← decode p4;
      x5 ← decode p5;
      Some {| vr_Height := x0; vr_BlockHash := x1; vr_ChainID := x2; vr_PubkeyHex := x3;
              vr_SigHex := x4; vr_TimeUnix := x5 |}
  | _ => None
  end.
Lemma vote_of_to r : vote_of (vote_to r) = Some r.
Proof. revert r. code_record. Qed.
#[export] Instance vote_countable : Countable VoteRecord := inj_countable vote_to vote_of vote_of_to.

#[export] Instance validator_eq_dec : EqDecision Validator.
Proof. solve_decision. Defined.
Definition validator_to (r : Validator) : list positive :=
  [encode (va_PubkeyHex r); encode (va_Name r); encode (va_Weight r);
   encode (va_AddedUnix r); encode (va_Slashed r)].
Definition validator_of (l : list positive) : option Validator :=
  match l with
  | [p0; p1; p2; p3; p4] =>
      x0 ← decode p0; x1 ← decode p1; x2 ← decode p2; x3 ← decode p3; x4 ← decode p4;
      Some {| va_PubkeyHex := x0; va_Name := x1; va_Weight := x2; va_AddedUnix := x3;
              va_Slashed := x4 |}
  | _ => None
  end.
Lemma validator_of_to r : validator_of (validator_to r) = Some r.
Proof. revert r. code_record. Qed.
#[export] Instance validator_countable : Countable Validator := inj_countable validator_to validator_of validator_of_to.

#[export] Instance checkpoint_eq_dec : EqDecision Checkpoint.
Proof. solve_decision. Defined.
Definition checkpoint_to (r : Checkpoint) : list positive :=
  [encode (cp_Height r); encode (cp_HashHex r); encode (cp_TimeUnix r)].
Definition checkpoint_of (l : list positive) : option Checkpoint :=
  match l with
  | [p0; p1; p2] =>
      x0 ← decode p0; x1 ← decode p1; x2 ← decode p2;
      Some {| cp_Height := x0; cp_HashHex := x1; cp_TimeUnix := x2 |}
  | _ => None
  end.
Lemma checkpoint_of_to r : checkpoint_of (checkpoint_to r) = Some r.
Proof. revert r. code_record. Qed.
#[export] Instance checkpoint_countable : Countable Checkpoint := inj_countable checkpoint_to checkpoint_of checkpoint_of_to.

#[export] Instance peerstat_eq_dec : EqDecision PeerStat.
Proof. solve_decision. Defined.
#[export] Instance peerstat_countable : Countable PeerStat.
Proof.
  refine (inj_countable' (fun p => (ps_PubkeyHex p, ps_Score p, ps_BannedUntil p, ps_UpdatedUnix p))
    (fun '(k, s, b, u) => {| ps_PubkeyHex := k; ps_Score := s; ps_BannedUntil := b; ps_UpdatedUnix := u |}) _).
  by intros [].
Defined.

(** The records below are coded as the tuple of their fields. *)
Ltac code_tuple to from := refine (inj_countable' to from _); by intros [].

#[export] Instance participant_eq_dec : EqDecision Participant.
Proof. solve_decision. Defined.
#[export] Instance participant_countable : Countable Participant.
Proof.
  code_tuple (fun r => (pt_ID r, pt_Weight r, pt_AddedAt r))
    (fun '(i, w, a) => {| pt_ID := i; pt_Weight := w; pt_AddedAt := a |}).
Defined.
#[export] Instance event_eq_dec : EqDecision PoPEvent.
Proof. solve_decision. Defined.
#[export] Instance event_countable : Countable PoPEvent.
Proof.
  code_tuple (fun r => (ev_ID r, ev_Type r, ev_Delta r, ev_TimeUnix r))
    (fun '(i, t, d, u) => {| ev_ID := i; ev_Type := t; ev_Delta := d; ev_TimeUnix := u |}).
Defined.
#[export] Instance candidate_eq_dec : EqDecision Candidate.
Proof. solve_decision. Defined.
#[export] Instance candidate_countable : Countable Candidate.
Proof.
  code_tuple (fun r => (ca_Height r, ca_Hash r, ca_PrevHash r))
    (fun '(h, x, p) => {| ca_Height := h; ca_Hash := x; ca_PrevHash := p |}).
Defined.
#[export] Instance peer_eq_dec : EqDecision Peer.
Proof. solve_decision. Defined.
#[export] Instance peer_countable : Countable Peer.
Proof. code_tuple (fun r => (pe_Addr r, pe_AddedUnix r)) (fun '(a, u) => {| pe_Addr := a; pe_AddedUnix := u |}). Defined.
#[export] Instance memtx_eq_dec : EqDecision memTx.
Proof. solve_decision. Defined.
#[export] Instance memtx_countable : Countable memTx.
Proof.
  code_tuple (fun r => (mt_Origin r, mt_Tx r, mt_ExpiresUnix r))
    (fun '(o, t, x) => {| mt_Origin := o; mt_Tx := t; mt_ExpiresUnix := x |}).
Defined.

#[export] Instance gfinality_eq_dec : EqDecision GenesisFinality.
Proof. solve_decision. Defined.
#[export] Instance gfinality_countable : Countable GenesisFinality.
Proof.
  code_tuple (fun r => (gf_CheckpointInterval r, gf_ThresholdNum r, gf_ThresholdDen r))
    (fun '(i, a, b) => {| gf_CheckpointInterval := i; gf_ThresholdNum := a; gf_ThresholdDen := b |}).
Defined.
#[export] Instance gvalidator_eq_dec : EqDecision GenesisValidator.
Proof. solve_decision. Defined.
#[export] Instance gvalidator_countable : Countable GenesisValidator.
Proof.
  code_tuple (fun r => (gv_Name r, gv_PubkeyHex r, gv_Weight r))
    (fun '(a, b, w) => {| gv_Name := a; gv_PubkeyHex := b; gv_Weight := w |}).
Defined.
#[export] Instance allocation_eq_dec : EqDecision Allocation.
Proof. solve_decision. Defined.
#[export] Instance allocation_countable : Countable Allocation.
Proof.
  code_tuple (fun r => (ga_Tag r, ga_Address r, ga_Balance r))
    (fun '(t, a, b) => {| ga_Tag := t; ga_Address := a; ga_Balance := b |}).
Defined.
#[export] Instance genesis_eq_dec : EqDecision Genesis.
Proof. solve_decision. Defined.
#[export] Instance genesis_countable : Countable Genesis.
Proof.
  code_tuple (fun r => (g_ChainID r, g_Network r, g_GenesisTimeUnix r, g_ProtocolVersion r,
      g_PoWLeadingZeroBits r, g_Finality r, g_Validators r, g_Allocations r, g_Params r))
    (fun '(a, b, c, d, e, f, g, h, i) =>
      {| g_ChainID := a; g_Network := b; g_GenesisTimeUnix := c; g_ProtocolVersion := d;
         g_PoWLeadingZeroBits := e; g_Finality := f; g_Validators := g; g_Allocations := h; g_Params := i |}).
Defined.

(** ** The interfaces *)

(** A codec for types the examples never write. *)
Definition no_codec {A} (dflt : A) : JSON A :=
  {| json_marshal _ := Err "unsupported"; json_unmarshal _ := Err "unsupported"; json_partial _ := dflt |}.

Definition zero_header : BlockHeader :=
  {| Version := 0; ChainID := ""; Height := 0; TimeUnix := 0; PrevHash := ""; StateRoot := "";
     HTxRoot := ""; Bits := 0; Nonce := 0 |}.
Definition zero_tx : Tx :=
  {| From := ""; PubKey := ""; SigHex := ""; TType := ""; TClaim := None; TVersion := 0; TNonce := 0;
     Fee := 0; GasAsset := ""; Outputs := []; Memo := "" |}.
Definition zero_block : Block := {| Header := zero_header; Txs := [] |}.
Definition zero_vote : VoteRecord :=
  {| vr_Height := 0; vr_BlockHash := ""; vr_ChainID := ""; vr_PubkeyHex := ""; vr_SigHex := ""; vr_TimeUnix := 0 |}.
Definition zero_validator : Validator :=
  {| va_PubkeyHex := ""; va_Name := ""; va_Weight := 0; va_AddedUnix := 0; va_Slashed := false |}.
Definition zero_checkpoint : Checkpoint := {| cp_Height := 0; cp_HashHex := ""; cp_TimeUnix := 0 |}.
Definition zero_genesis : Genesis :=
  {| g_ChainID := ""; g_Network := ""; g_GenesisTimeUnix := 0; g_ProtocolVersion := 0;
     g_PoWLeadingZeroBits := 0; g_Finality := None; g_Validators := []; g_Allocations := []; g_Params := "" |}.

#[export] Instance ref_codecs : Codecs := {|
  codec_Block := RefCodec.countable_json zero_block;
  codec_Header := RefCodec.countable_json zero_header;
  codec_Tx := RefCodec.countable_json zero_tx;
  codec_Genesis := RefCodec.countable_json zero_genesis;
  codec_Checkpoint := RefCodec.countable_json zero_checkpoint;
  codec_Vote := RefCodec.countable_json zero_vote;
  codec_Validator := RefCodec.countable_json zero_validator;
  codec_Participant := RefCodec.countable_json {| pt_ID := ""; pt_Weight := 0; pt_AddedAt := 0 |};
  codec_Event := RefCodec.countable_json {| ev_ID := ""; ev_Type := ""; ev_Delta := 0; ev_TimeUnix := 0 |};
  codec_Candidate := RefCodec.countable_json {| ca_Height := 0; ca_Hash := ""; ca_PrevHash := "" |};
  codec_Peer := RefCodec.countable_json {| pe_Addr := ""; pe_AddedUnix := 0 |};
  codec_PeerStat := RefCodec.countable_json zero_PeerStat;
  codec_memTx := RefCodec.countable_json {| mt_Origin := ""; mt_Tx := zero_tx; mt_ExpiresUnix := 0 |};
|}.

#[export] Instance utf8_vote : Utf8 VoteRecord := fun _ => true.
#[export] Instance utf8_tx : Utf8 Tx := fun _ => true.
#[export] Instance utf8_peerstat : Utf8 PeerStat := fun _ => true.
#[export] Instance peerstat_codec_ok : JSONOk PeerStat := RefCodec.countable_json_ok zero_PeerStat.
#[export] Instance vote_codec_ok : JSONOk VoteRecord := RefCodec.countable_json_ok zero_vote.
#[export] Instance tx_codec_ok : JSONOk Tx := RefCodec.countable_json_ok zero_tx.

(** No snapshot files. *)
#[export] Instance no_files : SnapFiles := {|
  fs_t := unit; Join a b := a +:+ "/" +:+ b; MkdirAll _ := gret tt; WriteFile _ _ := gret tt;
  ReadFile _ _ := Err "no such file"; ReadDir _ _ := Ret [];
  enc_json _ := Err "unsupported"; dec_json _ := Err "unsupported";
  enc_gob _ := Err "unsupported"; dec_gob _ := Err "unsupported";
|}.

#[export] Instance any_signature : Ed25519 := {|
  ed_Verify _ _ _ := true; ed_Sign _ _ := list_str (repeat "0"%char 64);
|}.

(** *** The group *)

Definition order : Z := 2 ^ 252 + 27742317777372353535851937790883648493.
Definition zmod : Type := dsig (fun z : Z => 0 <= z < order).
Lemma order_pos : 0 < order.
Proof. done. Qed.
Definition to_zmod (z : Z) : zmod := dexist (z mod order) (Z.mod_pos_bound z order order_pos).

Lemma to_zmod_val (a : zmod) : to_zmod (`a) = a.
Proof.
  apply dsig_eq. simpl. apply Z.mod_small. exact (proj2_dsig a).
Qed.
Lemma to_zmod_eq a b : a mod order = b mod order -> to_zmod a = to_zmod b.
Proof. intros H. by apply dsig_eq. Qed.
Lemma zmod_fits (a : zmod) : 0 <= `a < 256 ^ Z.of_nat 32.
Proof. pose proof (proj2_dsig a) as [H1 H2]. split; [done|]. etransitivity; [exact H2|]. done. Qed.

#[export] Instance toy_curve : Edwards := {|
  scalar := zmod; point := zmod;
  sc_Add a b := to_zmod (`a + `b); sc_Multiply a b := to_zmod (`a * `b);
  ScalarBaseMult a := a; ScalarMult a p := to_zmod (`a * `p);
  pt_Add p q := to_zmod (`p + `q); pt_Equal p q := bool_decide (p = q);
  pt_Bytes p := le_put 32 (`p); sc_Bytes s := le_put 32 (`s);
  pt_SetBytes b := if Nat.eqb (String.length b) 32 then Ret (to_zmod (le_get b)) else Err "bad length";
  sc_SetCanonicalBytes b :=
    if Nat.eqb (String.length b) 32 && (le_get b <? order) then Ret (to_zmod (le_get b)) else Err "bad scalar";
  sc_SetUniformBytes b := if Nat.eqb (String.length b) 64 then Ret (to_zmod (le_get b)) else Err "bad length";
  sha512 b := Sum256 b +:+ Sum256 ("1" +:+ b);
|}.

#[export] Instance toy_curve_ok : EdwardsOk toy_curve.
Proof.
  split; cbn -[le_put le_get Sum256].
  - done.
  - done.
  - intros a b. apply to_zmod_eq. by rewrite Z.mul_comm.
  - intros p q. apply bool_decide_eq_true.
  - intros p. apply le_put_length.
  - intros s. apply le_put_length.
  - intros p. rewrite le_put_length, le_get_put. cbn [Nat.eqb].
    rewrite Z.mod_small by apply zmod_fits. by rewrite to_zmod_val.
  - intros s. rewrite le_put_length, le_get_put. cbn [Nat.eqb andb].
    rewrite Z.mod_small by apply zmod_fits. rewrite to_zmod_val.
    by rewrite (proj2 (Z.ltb_lt _ _) (proj2 (proj2_dsig s))).
  - intros b ->. by eexists.
  - intros b. by rewrite str_length_app, !Sum256_length.
Qed.

(** *** Encryption with a tag *)

#[export] Instance toy_aead : AEAD := {|
  aead_Seal k n p a := Sum256 (k +:+ n +:+ p +:+ a) +:+ p;
  aead_Open k n c a :=
    let p := str_drop 32 c in
    if (str_take 32 c =? Sum256 (k +:+ n +:+ p +:+ a))%string then Ret p else Err "message authentication failed";
  hkdf_key s i := Ret (Sum256 (s +:+ i));
|}.

#[export] Instance toy_aead_ok : AEADOk toy_aead.
Proof.
  split; cbn -[Sum256 str_drop str_take].
  - intros k n p a. pose proof (Sum256_length (k +:+ n +:+ p +:+ a)) as Hl.
    set (t := Sum256 (k +:+ n +:+ p +:+ a)) in *.
    rewrite <- Hl. rewrite str_drop_app, str_take_app. by rewrite String.eqb_refl.
  - intros s i. eexists. split; [done|]. apply Sum256_length.
Qed.

(** *** Sorting by fee *)

#[export] Existing Instance sha2_hashes.

#[export] Instance fee_before_dec : RelDecision fee_before.
Proof. intros a b. unfold fee_before. apply _. Defined.
#[export] Instance fee_before_trans : Transitive fee_before.
Proof.
  intros a b c [H1|[H1 H2]] [H3|[H3 H4]]; unfold fee_before; [left; lia..|].
  right. split; [congruence|]. exact (transitivity (R := String.le) H2 H4).
Qed.
#[export] Instance fee_before_total : Total fee_before.
Proof.
  intros a b. unfold fee_before. destruct (Z.lt_trichotomy (Fee a) (Fee b)) as [|[|]]; [tauto| |tauto].
  destruct (total String.le (TxID a) (TxID b)); [left|right]; right; done.
Qed.
#[export] Instance tx_sort : TxSort := merge_sort fee_before.
#[export] Instance tx_sort_ok : TxSortOk tx_sort.
Proof.
  split; intros l; [apply merge_sort_Permutation|apply StronglySorted_merge_sort; apply _].
Qed.
