(* ===== verification/Witnesses.v ===== *)
(** * The theorems at concrete inputs

    One lemma per theorem with hypotheses: the hypotheses hold of a concrete store, block or
    transaction and the theorem gives the stated result for it.  The interfaces are the ones
    of [Instances]. *)

From Stdlib Require Import SpecFloat.
From S2P Require Import Prelude GoLang KV Chain Sha2 Pow Storage StorageProps State StateProps Fees Pop Config Crypto Validate Apply Frame Ledger LedgerProps Mempool MempoolProps Forkchoice ForkchoiceProps Finality FinalityProps Node NodeProps Instances.
Import MapDB.

(** ** Concrete data *)

Definition db0 : db_t (LevelDB := map_db) := (∅ : gmap string string).

(** Two accounts. *)
Definition bank : db_t (LevelDB := map_db) :=
  <[keyBal "bob" := BE_PutUint64 (u64 50)]> (<[keyBal "alice" := BE_PutUint64 (u64 1000)]> (db0 : gmap string string)).

Lemma db0_none k : db_view db0 !! k = None.
Proof. exact (lookup_empty k). Defined.
Lemma db0_cell k : cell_ok (db_view db0) k.
Proof. unfold cell_ok. by rewrite db0_none. Defined.
Lemma db0_ok : state_ok (db_view db0).
Proof. intros id. split_and!; [apply db0_cell| |apply db0_cell]. unfold balance, cell. by rewrite db0_none. Defined.
Lemma bank_ok : state_ok (db_view bank).
Proof.
  apply (state_ok_put_bal _ "bob" 50); [|unfold is_i64; lia|lia].
  apply (state_ok_put_bal _ "alice" 1000); [exact db0_ok|unfold is_i64; lia|lia].
Defined.

Definition hash_a : string := list_str (repeat "a"%char 32).
Definition header0 : BlockHeader :=
  {| Version := 1; ChainID := "reserve-test"; Height := 0; TimeUnix := 1700000000; PrevHash := hash_a;
     StateRoot := hash_a; HTxRoot := hash_a; Bits := 545259519; Nonce := 7 |}.

Definition pay (to : string) (amount : Z) : TxOut :=
  {| Amount := amount; Asset := "USDR"; Address := to; OP := ""; OR := ""; OTag := ""; EncMemo := "";
     PolicyBits := 0 |}.
(** A transfer of alice's with a signature of the right shape. *)
Definition transfer (nonce fee : Z) (outs : list TxOut) : Tx :=
  {| From := "alice"; PubKey := "alice"; SigHex := ""; TType := "transfer"; TClaim := None;
     TVersion := 1; TNonce := nonce; Fee := fee; GasAsset := "USDR"; Outputs := outs; Memo := "hello" |}.

Ltac concrete := repeat split; vm_compute; congruence || (try done).

(** ** Encodings *)

Lemma transfer_wf n : 0 <= n < 10 -> wf_tx (transfer n 5 [pay "bob" 10]).
Proof.
  intros Hn. unfold wf_tx. split_and!; try (cbn; unfold is_u32, is_u64, is_i64, len32; cbn; lia).
  - constructor; [|constructor]. unfold wf_out. split_and!; cbn; unfold is_u32, is_i64, len32; cbn; lia.
  - done.
Defined.

Lemma CanonicalTxBytes_binding_witness :
  CanonicalTxBytes (transfer 1 5 [pay "bob" 10]) true <> CanonicalTxBytes (transfer 2 5 [pay "bob" 10]) true.
Proof.
  intros H. apply (CanonicalTxBytes_binding true) in H; [done|apply transfer_wf; lia..].
Defined.

Lemma header0_wf : wf_header header0.
Proof. unfold wf_header. split_and!; try (cbn; unfold is_u32, is_u64, is_i64, len32; cbn; lia). all: done. Defined.

Definition header1 : BlockHeader := set_nonce header0 1.
Lemma BytesForHash_inj_witness : (BytesForHash header0 =? BytesForHash header1)%string = false.
Proof.
  assert (wf_header header1) as H1 by exact header0_wf.
  apply String.eqb_neq. intros H. pose proof (BytesForHash_inj header0 header1 header0_wf H1 H) as E.
  discriminate E.
Defined.

(** A hash that is SHA-256 except on strings of 128 bytes, which all get one digest: two
    bodies with different second transactions have the same root, and the theorem finds the
    colliding pair of concatenated ids. *)
Definition weak_sha (s : string) : string := if Nat.eqb (String.length s) 128 then Sum256 "" else Sum256 s.
Definition weak_hashes : Hashes := {| sha256 := weak_sha; hash256 := Sum256 |}.
Lemma weak_hashes_ok : HashesOk weak_hashes.
Proof.
  assert (forall b, String.length (weak_sha b) = 32%nat) as H
    by (intros b; unfold weak_sha; destruct (String.length b =? 128)%nat; apply Sum256_length).
  exact (Build_HashesOk weak_hashes H Sum256_length).
Defined.

Lemma TxRoot_binding_witness :
  let b1 := [transfer 1 5 []; transfer 2 5 []] in
  let b2 := [transfer 1 5 []; transfer 3 5 []] in
  TxRoot (H := weak_hashes) b1 = TxRoot (H := weak_hashes) b2 /\
  collides (HS := weak_hashes) (TxRoot_inputs (HS := weak_hashes) b1) (TxRoot_inputs (HS := weak_hashes) b2).
Proof.
  intros b1 b2. assert (TxRoot (H := weak_hashes) b1 = TxRoot (H := weak_hashes) b2) as Hr by (vm_compute; reflexivity).
  split; [exact Hr|].
  destruct (TxRoot_binding (HO := weak_hashes_ok) b1 b2 eq_refl Hr) as [He|Hc]; [|exact Hc].
  vm_compute in He. discriminate He.
Defined.

Lemma TxRoot_duplicate_last_witness :
  TxRoot [transfer 1 5 []; transfer 2 5 []; transfer 3 5 []; transfer 3 5 []] =
  TxRoot [transfer 1 5 []; transfer 2 5 []; transfer 3 5 []].
Proof. exact (TxRoot_duplicate_last [transfer 1 5 []; transfer 2 5 []] (transfer 3 5 []) eq_refl ltac:(done)). Defined.

(** ** Proof of work *)

Lemma Compact_Big_precision_witness :
  let r := CompactToBig (BigToCompact (2 ^ 240 + 12345)) in
  r <= 2 ^ 240 + 12345 /\ (2 ^ 240 + 12345 - r) * 2 ^ 15 < 2 ^ 240 + 12345.
Proof. apply (Compact_Big_precision (2 ^ 240 + 12345)). split; [vm_compute; congruence|vm_compute; reflexivity]. Defined.

Lemma Work64_exponent_blind_witness :
  exists m j, CompactToBig 545259519 = m * 256 ^ Z.of_nat j /\ 0 < m < 2 ^ 23 /\
    Work64 545259519 = Ret ((M64 - 1) / (m * 256 ^ (8 - Z.of_nat (big_len m)) + 1)).
Proof. apply (Work64_exponent_blind 545259519); [unfold is_u32; lia|vm_compute; discriminate]. Defined.

Lemma Retarget_direction_witness :
  let prev := Z.lor (u32 (Z.shiftl 32 24)) 8388606 in
  CompactToBig (Retarget prev 2000 1000) < CompactToBig prev.
Proof. apply (Retarget_direction 32 8388606 2000 1000); unfold is_i64; lia. Defined.

Lemma MineHeader_first_witness :
  exists hash n h', MineHeader 50 header0 = Some (hash, n, h') /\
    exists k, (k < 50)%nat /\ solves header0 k = true /\ (forall i, (i < k)%nat -> solves header0 i = false) /\
      h' = attempt header0 k /\ hash = HeaderHash h' /\ n = Nonce h'.
Proof.
  destruct (MineHeader 50 header0) as [[[hash n] h']|] eqn:E; [|vm_compute in E; discriminate].
  exists hash, n, h'. split; [reflexivity|].
  apply (MineHeader_first 50 header0 hash n h'); [unfold is_u64; cbn; lia|done].
Defined.

(** ** The store *)

Lemma skey_put_get_witness :
  exists d', db_put (skey_bytes (KBal "alice")) "x" db0 = (Ret tt, d') /\
    kv_get (skey_bytes (KNonce "alice")) d' =
      (Ret (if decide (KBal "alice" = KNonce "alice") then Some "x" else db_view db0 !! skey_bytes (KNonce "alice")), d').
Proof. apply (skey_put_get (KBal "alice") (KNonce "alice") "x" db0); done. Defined.

Definition vote1 : VoteRecord :=
  {| vr_Height := 20; vr_BlockHash := "h"; vr_ChainID := "reserve-test";
     vr_PubkeyHex := hex_EncodeToString hash_a;
     vr_SigHex := hex_EncodeToString (hash_a +:+ hash_a); vr_TimeUnix := 1 |}.

Lemma votes_wf_db0 : votes_wf db0.
Proof. intros h p b _ Hb. rewrite db0_none in Hb. discriminate. Defined.

Lemma PutVote_listing_witness :
  exists d' out, PutVote vote1 db0 = (Ret tt, d') /\ votes_wf d' /\
    ListVotesForHeight 20 d' = (Ret out, d') /\ NoDup (List.map vr_PubkeyHex out) /\
    forall r, In r out <-> (r = vote1 /\ vr_Height vote1 = 20) \/
      (stored_vote db0 r /\ vr_Height r = 20 /\ ~ (vr_Height vote1 = 20 /\ vr_PubkeyHex vote1 = vr_PubkeyHex r)).
Proof. apply (PutVote_listing vote1 db0 20); [exact votes_wf_db0|done|unfold is_u64; cbn; lia|unfold is_u64; lia]. Defined.

Definition pools1 : db_t (LevelDB := map_db) :=
  <[keyFeePoolTreasury := BE_PutUint64 300]> (db0 : gmap string string).
Lemma pools1_ok : pools_ok pools1.
Proof. intros k _. exact (cell_ok_put (db_view db0) keyFeePoolTreasury k 300 (db0_cell k)). Defined.

Lemma DrainFeePool_conserves_witness :
  exists d' drained remaining,
    DrainFeePool "treasury" 120 pools1 = (Ret (drained, remaining), d') /\ pools_ok d' /\
    drained + remaining = pool pools1 keyFeePoolTreasury /\ 0 <= drained /\
    pool d' keyFeePoolTreasury = remaining /\
    drained = (if 120 =? 0 then pool pools1 keyFeePoolTreasury else Z.min 120 (pool pools1 keyFeePoolTreasury)) /\
    forall k', k' <> keyFeePoolTreasury -> pool d' k' = pool pools1 k'.
Proof. apply (DrainFeePool_conserves pools1 "treasury" keyFeePoolTreasury 120); [exact pools1_ok|done|unfold is_u64; lia]. Defined.

(** ** Account state *)

Lemma AddBalance_exact_witness :
  (exists d', AddBalance "alice" (-100) bank = (Ret 900, d') /\ state_ok (db_view d') /\ balance (db_view d') "alice" = 900) /\
  AddBalance "bob" (-100) bank = (Err "insufficient funds", bank).
Proof.
  split.
  - destruct (AddBalance_exact bank "alice" (-100) bank_ok ltac:(unfold is_i64; lia)) as [H _].
    destruct H as (d' & H1 & H2 & H3 & _); [vm_compute; split; congruence|]. exists d'. done.
  - apply (AddBalance_exact bank "bob" (-100) bank_ok ltac:(unfold is_i64; lia)).
    vm_compute. intros [H _]. by apply H.
Defined.

Lemma AddBalance_clamp_differs_witness :
  exists d', AddBalance_clamp "bob" (-100) bank = (Ret 0, d') /\ balance (db_view d') "bob" = 0 /\
    AddBalance "bob" (-100) bank = (Err "insufficient funds", bank).
Proof.
  apply (AddBalance_clamp_differs bank "bob" (-100) bank_ok ltac:(unfold is_i64; lia)).
  vm_compute. intros [H _]. by apply H.
Defined.

Lemma ResetState_equiv_Wipe_witness : exists d1 d2,
  ResetState bank = (Ret tt, d1) /\ WipeStatePrefixes bank = (Ret tt, d2) /\ db_view d1 = db_view d2 /\
  forall k, db_view d1 !! k = if is_state_key k then None else db_view bank !! k.
Proof. exact (ResetState_equiv_Wipe bank). Defined.

Lemma Export_Restore_roundtrip_witness :
  exists bal non d2, ExportStateMaps bank = (Ret (bal, non), bank) /\
    (forall ver h tip t, RestoreSnapshot {| sn_Version := ver; sn_Height := h; sn_TipHash := tip;
       sn_CreatedUnix := t; sn_Balances := bal; sn_Nonces := non |} pools1 = (Ret tt, d2)) /\
    forall k, db_view d2 !! k = if is_state_key k then db_view bank !! k else db_view pools1 !! k.
Proof. exact (Export_Restore_roundtrip bank pools1 bank_ok). Defined.

(** ** Economics *)

Lemma SplitFees_conserves_witness :
  let s := SplitFees 1001 {| fp_GasAsset := "USDR"; fp_BaseFeeMin := 100; fp_PerByte := 2;
                             fp_OTAPMultiplier := 10; fp_Mode := ModeDefense |} in
  split_sum s = 1001 /\ 0 <= ToValidators s /\ 0 <= ToParticipation s /\ 0 <= ToTreasury s /\ 0 <= ToDefensePool s.
Proof. apply SplitFees_conserves; lia. Defined.

Definition shares : list (Participant * Z) :=
  [({| pt_ID := "p1"; pt_Weight := 3; pt_AddedAt := 0 |}, 3);
   ({| pt_ID := "p2"; pt_Weight := 2; pt_AddedAt := 0 |}, 2)].

Lemma pay_loop_conserves_witness :
  exists d' lost paid, pay_loop 101 5 101 shares bank = (Ret (lost, None), d') /\ state_ok (db_view d') /\
    (forall id, balance (db_view d') id = balance (db_view bank) id + credited paid id) /\
    paid_sum paid + lost = 101 /\ (if last_counts shares then lost = 0 else 0 <= lost <= wcount shares).
Proof.
  apply (pay_loop_conserves 101 shares bank).
  - lia.
  - vm_compute. split; reflexivity.
  - exact bank_ok.
  - intros p w [[= <- <-]|[[= <- <-]|[]]]; cbn; lia.
  - cbn. repeat constructor; set_solver.
  - intros p w [[= <- <-]|[[= <- <-]|[]]]; vm_compute; done.
Defined.

(** ** Cryptography *)

Definition rnd64 (c : ascii) : string := list_str (repeat c 64).

Lemma otap_claimable_witness :
  exists reg priv out K k x P sig,
    GenerateKeys (Ret (rnd64 "1")) (Ret (rnd64 "2")) = Ret (reg, priv) /\
    BuildOutput (Ret (rnd64 "3")) "reserve-test" "ctx" reg = Ret (out, K) /\
    Detect "reserve-test" "ctx" out (pk_ScanPriv priv) (rk_SpendPub reg) = Ret (Some K) /\
    DetectWithK "reserve-test" "ctx" out (pk_ScanPriv priv) (rk_SpendPub reg) = Ret (Some (K, k)) /\
    OneTimePriv (pk_SpendPriv priv) k = Ret x /\ DecodePointHex (oo_P out) = Ret P /\
    ScalarBaseMult x = P /\ schnorr_Sign (Ret (rnd64 "4")) x P "msg" = Ret sig /\
    schnorr_Verify P "msg" sig = true.
Proof. apply (otap_claimable (rnd64 "1") (rnd64 "2") (rnd64 "3") (rnd64 "4") "reserve-test" "ctx" "msg"); reflexivity. Defined.

(** ** Blocks and the ledger *)

Definition cfg_with (issuance : bool) (reward : Z) : Config :=
  fill_defaults
    {| c_Info := {| ni_Name := "n"; ni_RuntimeRoot := "r"; ni_LogFile := "l" |};
       c_LevelDBPath := "db"; c_Keyvault := {| kc_Path := "kv"; kc_KEKEnv := "KEK"; kc_RotationDays := 5 |};
       c_RPC := {| rc_Bind := "127.0.0.1"; rc_Port := 8080 |}; c_GenesisFile := "genesis.json";
       c_Finality := {| fc_Enabled := true; fc_CheckpointInterval := 20; fc_ThresholdNum := 2;
         fc_ThresholdDen := 3; fc_Validators := []; fc_Peers := ["http://peer"]; fc_GossipIntervalSeconds := 3 |};
       c_Sync := {| sc_Enabled := false; sc_Peers := []; sc_IntervalSeconds := 0; sc_MaxBlocksPerRound := 0 |};
       c_Fees := {| fe_GasAsset := "USDR"; fe_BaseFeeMin := 1; fe_PerByte := 1; fe_OTAPMultiplier := 1; fe_Mode := "NORMAL" |};
       c_PoP := {| pc_EpochBlocks := 0; pc_MinPayout := 0 |};
       c_Mempool := {| mc_MaxTxsPerSender := 0; mc_MaxTxs := 100; mc_MaxBytes := 100000; mc_TxTTLSeconds := 100;
         mc_AllowFutureNonces := true; mc_MaxNonceGap := 10; mc_RBFMinFeeBump := f64_zero |};
       c_Issuance := {| ic_Enabled := issuance; ic_BlockReward := reward; ic_RewardAsset := "USDR";
         ic_CoinbaseTo := "miner"; ic_Reward := reward |};
       c_P2P := {| p2_Enabled := false; p2_Bind := ""; p2_Port := 0; p2_Allowlist := [] |};
       c_Gossip := {| gc_Enabled := false; gc_Peers := []; gc_TimeoutSeconds := 0; gc_MaxHops := 0 |};
       c_State := {| st_SnapshotInterval := 0; st_SnapshotDir := ""; st_SnapshotFormat := "" |};
       c_Node := {| nc_Role := "miner"; nc_ReadOnly := false; nc_AllowPublicSubmit := true |};
       c_PoS := {| pos_ValidatorSource := "" |};
       c_Limits := {| lc_MaxBlockBytes := 0; lc_MaxBlockTxs := 0; lc_MaxTxOutputs := 0 |};
       c_Validation := {| vc_ValidateForkState := false; vc_MaxReplayBlocks := 0 |} |}.

Definition block_of_txs (txs : list Tx) : Block := {| Header := header0; Txs := txs |}.
Definition tx1 : Tx := transfer 1 5 [pay "bob" 10].

Lemma accepted_block_applies_witness :
  exists d' a', applyBlockTxs (block_of_txs [tx1]) bank = (Ret tt, d') /\
    spec_block (cfg_with false 0) (acc_of bank) (block_of_txs [tx1]) = Some a' /\
    acc_eq (acc_of d') a' /\ state_ok (db_view d') /\
    supply ["alice"; "bob"] (acc_of d') =
      supply ["alice"; "bob"] (acc_of bank) + minted (cfg_with false 0) (block_of_txs [tx1])
      - sumZ dropped (block_parts (cfg_with false 0) (block_of_txs [tx1])).2.
Proof.
  apply (accepted_block_applies (cfg_with false 0) (block_of_txs [tx1]) bank ["alice"; "bob"]).
  - exact bank_ok.
  - repeat constructor; set_solver.
  - intros k Hk. change (k ∈ ["alice"; "bob"]) in Hk. exact Hk.
  - intros tx [<-|[]]. split_and!; [|done|unfold is_u64; cbn; lia|done].
    unfold amounts_ok. split_and!; cbn; try done. intros o [<-|[]]. done.
  - intros H. discriminate.
  - vm_compute. reflexivity.
  - vm_compute. reflexivity.
Defined.

Definition theft : Tx :=
  {| From := "alice"; PubKey := "alice"; SigHex := ""; TType := "transfer"; TClaim := None; TVersion := 1;
     TNonce := 1; Fee := 5; GasAsset := "USDR";
     Outputs := [{| Amount := 40; Asset := ""; Address := "alice"; OP := ""; OR := ""; OTag := "";
                    EncMemo := ""; PolicyBits := 0 |};
                 {| Amount := - 40; Asset := ""; Address := "bob"; OP := ""; OR := ""; OTag := "";
                    EncMemo := ""; PolicyBits := 0 |}];
     Memo := "" |}.

Lemma negative_output_theft_witness :
  (exists s', tip_tx cached_ops theft (bank, empty_sim) = (Ret tt, (bank, s'))) /\
  exists d', apply_tx theft bank = (Ret tt, d') /\
    balance (db_view d') "bob" = balance (db_view bank) "bob" - 40 /\
    balance (db_view d') "alice" = balance (db_view bank) "alice" + 40 - 5.
Proof.
  apply (negative_output_theft bank theft 40 "bob").
  - exact bank_ok.
  - unfold tx_wf. split_and!; [|discriminate|unfold is_u64; cbn; lia|reflexivity].
    unfold exact_tx. split_and!; [|vm_compute; reflexivity|vm_compute; split; [discriminate|reflexivity]|exact I].
    intros o [<-|[<-|[]]]; unfold is_i64; cbn; lia.
  - reflexivity.
  - lia.
  - discriminate.
  - discriminate.
  - cbn. lia.
  - reflexivity.
  - vm_compute. reflexivity.
  - vm_compute. split; [discriminate|reflexivity].
  - vm_compute. discriminate.
Defined.

(** A claim of 100 with a fee of 5 from a bucket of 500: alice, who had 1000, has 1100. *)
Definition bucket_db : db_t (LevelDB := map_db) := <[keyBal "otap:P" := BE_PutUint64 (u64 500)]> (bank : gmap string string).
Lemma bucket_db_ok : state_ok (db_view bucket_db).
Proof. apply (state_ok_put_bal _ "otap:P" 500); [exact bank_ok|unfold is_i64; lia|lia]. Defined.
Definition claim0 : OTAPClaim := {| CP := "P"; CR := "R"; CTag := ""; CTo := "alice"; CAmount := 100; ClaimSigHex := "" |}.
Definition claim_tx : Tx :=
  {| From := "alice"; PubKey := "alice"; SigHex := ""; TType := "otap_claim"; TClaim := Some claim0;
     TVersion := 1; TNonce := 1; Fee := 5; GasAsset := "USDR"; Outputs := []; Memo := "" |}.

Lemma claim_fee_from_bucket_witness : exists d', apply_tx claim_tx bucket_db = (Ret tt, d') /\
  balance (db_view d') "otap:P" = 395 /\ balance (db_view d') "alice" = 1100.
Proof.
  destruct (claim_fee_from_bucket bucket_db claim_tx claim0) as (d' & Hr & Hk).
  - exact bucket_db_ok.
  - unfold tx_wf. split_and!; [|discriminate|unfold is_u64; cbn; lia|reflexivity].
    unfold exact_tx. split_and!; try (intros o []); vm_compute; repeat split; try discriminate; reflexivity.
  - reflexivity.
  - reflexivity.
  - discriminate.
  - vm_compute. reflexivity.
  - cbn. lia.
  - cbn. lia.
  - vm_compute. discriminate.
  - vm_compute. reflexivity.
  - exists d'. split; [exact Hr|]. rewrite !Hk. split; vm_compute; reflexivity.
Defined.

(** Of two transactions the one with the next nonce is kept, the one with a gap is not. *)
Lemma FilterTxs_valid_body_witness :
  FilterTxsBySimState [tx1; transfer 5 9 []] bank = (Ret [tx1], bank) /\
  ValidateBlockStateTip (cfg_with false 0) {| Header := header0; Txs := [tx1] |} bank = (Ret tt, bank).
Proof.
  destruct (FilterTxs_valid_body (cfg_with false 0) bank [tx1; transfer 5 9 []] header0 bank_ok) as (Hf & _ & _ & Hv).
  - intros tx [<-|[<-|[]]]; split; reflexivity.
  - assert (greedy_body (txs_pass bank) [] (sort_txs [tx1; transfer 5 9 []]) = [tx1]) as Hg by (vm_compute; reflexivity).
    rewrite Hg in Hf, Hv. split; [exact Hf|exact (Hv eq_refl)].
Defined.

(** A reward that names a sender. *)
Definition bad_reward : Tx :=
  {| From := "alice"; PubKey := ""; SigHex := ""; TType := "coinbase"; TClaim := None; TVersion := 1;
     TNonce := 1; Fee := 5; GasAsset := "USDR"; Outputs := [pay "miner" 100]; Memo := "" |}.

Lemma coinbase_debits_sender_witness :
  let b := {| Header := header0; Txs := [bad_reward] |} in
  ValidateBlockBasic (cfg_with true 100) (fun s => s) b = Ret tt /\
  ValidateBlockStateTip (cfg_with true 100) b bank = (Ret tt, bank) /\
  exists d', applyBlockTxs b bank = (Ret tt, d') /\
    balance (db_view d') "alice" = balance (db_view bank) "alice" - (100 + 5) /\
    balance (db_view d') "miner" = balance (db_view bank) "miner" + 100.
Proof.
  apply (coinbase_debits_sender (cfg_with true 100) (fun s => s) header0 bank bad_reward (pay "miner" 100) 100).
  - exact bank_ok.
  - repeat split. lia.
  - repeat split; try discriminate; unfold is_u64; cbn; lia.
  - vm_compute. discriminate.
  - vm_compute. reflexivity.
Defined.

Lemma issuance_excludes_fees_witness :
  ValidateBlockBasic (cfg_with true 100) (fun s => s) (block_of_txs [bad_reward; tx1]) <> Ret tt.
Proof.
  apply (issuance_excludes_fees (cfg_with true 100) (fun s => s) (block_of_txs [bad_reward; tx1]) 100);
    [repeat split; lia|vm_compute; reflexivity|vm_compute; reflexivity].
Defined.

(** ** The transaction pool *)

Definition pool0 : Mempool := NewMempool (c_Mempool (cfg_with false 0)).
Lemma pool0_ok : pool_ok pool0.
Proof. split; [reflexivity|reflexivity|]. intros acct n mt H. unfold pool_at, pool0 in H. cbn in H. by rewrite lookup_empty in H. Defined.

Lemma Add_invariant_witness :
  let s' := (Add [] 1000 tx1 (bank, pool0)).2 in
  s'.1 = bank /\ pool_ok s'.2 /\ pool_at s'.2 "alice" 1 = Some (pool_entry 1000 tx1).
Proof.
  destruct (Add [] 1000 tx1 (bank, pool0)) as [r [d' m']] eqn:E.
  assert (r = Ret false) as -> 
    by (change r with ((r, (d', m')).1); rewrite <- E; vm_compute; reflexivity).
  destruct (Add_invariant [] 1000 tx1 bank pool0 (Ret false) d' m' bank_ok pool0_ok ltac:(vm_compute; reflexivity) E)
    as (H1 & H2 & _ & H3 & _).
  split_and!; assumption.
Defined.

(** The pool with one transaction. *)
Definition pool_of (tx : Tx) : Mempool :=
  {| mp_cfg := mp_cfg pool0; mp_byAcct := {[ From tx := {[ TNonce tx := pool_entry 1000 tx ]} ]};
     mp_totalTxs := 1; mp_totalBytes := m_SizeHint (pool_entry 1000 tx) |}.

(** Two senders, the second with the better fee rate. *)
Definition bob_tx : Tx :=
  {| From := "bob"; PubKey := "bob"; SigHex := ""; TType := "transfer"; TClaim := None;
     TVersion := 1; TNonce := 1; Fee := 9; GasAsset := "USDR"; Outputs := [pay "alice" 1]; Memo := "" |}.
Definition filed (m : Mempool) (tx : Tx) : Mempool :=
  mp_update m (<[From tx := {[TNonce tx := pool_entry 1000 tx]}]> (mp_byAcct m)) 1
    (m_SizeHint (pool_entry 1000 tx)).
Definition pool2 : Mempool := filed (filed pool0 tx1) bob_tx.

Lemma filed_ok m tx : pool_ok m -> size_ok tx -> mp_byAcct m !! From tx = None -> pool_ok (filed m tx).
Proof.
  intros Hok Hs Hn. unfold filed. pose proof (file_entry m tx 1000 1 (m_SizeHint (pool_entry 1000 tx)) Hok Hs) as H.
  rewrite Hn in H. cbn [default from_option id] in H. rewrite lookup_empty in H.
  destruct (H eq_refl ltac:(lia)) as [H1 _]. by rewrite insert_empty in H1.
Qed.

Lemma Drain_greedy_witness :
  exists out m', Drain 10 1000 5 (bank, pool2) = (Ret (Some out), (bank, m')) /\
    out = [bob_tx; tx1] /\ pool_ok m' /\ mp_totalTxs m' = 0 /\
    greedy 5 0 (fun a => u64 (nonce (db_view bank) a + 1)) (fresh_at 1000 pool2) out.
Proof.
  destruct (Drain_greedy bank pool2 1000 5 10 bank_ok) as (out & m' & H & Hok & Ht & _ & Hg & _).
  - apply filed_ok; [apply filed_ok; [exact pool0_ok|reflexivity|reflexivity]|reflexivity|reflexivity].
  - lia.
  - vm_compute. repeat constructor.
  - assert (Some out = Some [bob_tx; tx1]) as [= ->].
    { assert ((Drain 10 1000 5 (bank, pool2)).1 = Ret (Some [bob_tx; tx1])) as E by (vm_compute; reflexivity).
      rewrite H in E. by injection E as ->. }
    exists [bob_tx; tx1], m'. split_and!; try done.
Defined.
