(* ===== verification/NodeWitnesses.v ===== *)
(** * The theorems on fork choice, finality and block submission at concrete inputs *)

From S2P Require Import Prelude GoLang KV Chain Sha2 Pow Storage StorageProps State StateProps Fees Config Crypto Validate Apply Frame Ledger LedgerProps Mempool MempoolProps Forkchoice ForkchoiceProps Finality FinalityProps Node NodeProps Instances Witnesses.
Import MapDB.

(** In a finite map, an operation that only reads leaves the map as it was. *)
Lemma run_read {A} (m : GoM (db_t (LevelDB := map_db)) A) d r :
  keeps (fun _ => True) m -> (m d).1 = r -> m d = (r, d).
Proof.
  intros Hk <-. assert ((m d).2 = d) as H.
  { apply (map_eq (M := gmap string)). intros k. exact (Hk d k I). }
  destruct (m d) as [o d']. cbn in *. by subst.
Defined.

(** Run a reader by evaluation. *)
Ltac run_reader := apply run_read; [frame|vm_compute; reflexivity].

(** ** A store with a genesis block, a main block and a competing block *)

Definition code {A} `{Countable A} (a : A) : string := RefCodec.bits_of (encode a).

Definition fs0 : fs_t (SnapFiles := no_files) := tt.

Definition hash_b : string := list_str (repeat "b"%char 32).
Definition header_at (h t : Z) (prev : string) : BlockHeader :=
  {| Version := 1; ChainID := "reserve-test"; Height := h; TimeUnix := t; PrevHash := prev;
     StateRoot := hash_a; HTxRoot := hash_a; Bits := 545259519; Nonce := 0 |}.
Definition genesis_block : Block := {| Header := header_at 0 100 hash_b; Txs := [] |}.
Definition main_blk : Block := {| Header := header_at 1 200 hash_a; Txs := [] |}.
Definition other_blk : Block := {| Header := header_at 1 300 hash_a; Txs := [] |}.

(** Keys of the three blocks; children name [hash_a] as their parent. *)
Definition key_g : string := Hash_String hash_a.

Definition chain_db : db_t (LevelDB := map_db) :=
  <[keyBlockByHash "m1" := code main_blk]> (<[keyBlockByHash "o1" := code other_blk]>
  (<[keyBlockByHash key_g := code genesis_block]>
  (<[keyHashByHeight 0 := key_g]> (<[keyHashByHeight 1 := "m1"]>
  (<[keyTipHeight := "1"]> (<[keyTipBlockID := "m1"]>
  (<[keyFinalizedHeight := "0"]> (<[keyFinalizedHash_meta := key_g]>
  (<[keyFinalized := BE_PutUint64 1]>
  (<[keyHeaderTipH := BE_PutUint64 1]> (<[keyHeaderTipHash := "o1"]>
  (db0 : gmap string string)))))))))))).

Lemma trySwitchMainChain_finalized_witness :
  let '(o, (d', f')) := trySwitchMainChain (cfg_with false 0) zero_genesis 0 0 "o1" 1 (chain_db, fs0) in
  (exists path, chain_down chain_db "o1" 1 0 path /\ last path = Some key_g /\ (forall e, o <> Err e) /\
     (forall h, is_u64 h -> main_hash d' h =
        if (0 <=? h) && (h <=? 1) then path !! Z.to_nat (1 - h) else main_hash chain_db h) /\
     GetTip d' = (Ret (Some (1, "o1")), d') /\ switch_anchor d' = (Ret (0, key_g), d')) \/
  ((forall path, chain_down chain_db "o1" 1 0 path -> last path <> Some key_g) /\
   is_ret o = false /\ d' = chain_db /\ f' = fs0).
Proof.
  assert (is_u64 1) as H1 by (unfold is_u64; lia).
  assert (switch_anchor chain_db = (Ret (0, key_g), chain_db)) as H2 by (unfold switch_anchor; run_reader).
  exact (trySwitchMainChain_finalized (cfg_with false 0) zero_genesis 0 0 "o1" 1 0 key_g chain_db fs0
           H1 ltac:(lia) ltac:(lia) H2).
Defined.

(** The stored blocks are the three. *)
Lemma chain_db_blocks h b : db_view chain_db !! keyBlockByHash h = Some b ->
  (h = "m1" /\ b = code main_blk) \/ (h = "o1" /\ b = code other_blk) \/ (h = key_g /\ b = code genesis_block).
Proof.
  assert (forall a, keyBlockByHash a = keyBlockByHash h -> a = h) as Hinj by (intros a; apply str_app_inj_l).
  intros H. change (db_view chain_db) with (chain_db : gmap string string) in H. unfold chain_db in H.
  do 3 (apply lookup_insert_Some in H as [[K <-]|[_ H]]; [apply Hinj in K as <-; tauto|]).
  do 9 (apply lookup_insert_Some in H as [[K _]|[_ H]]; [discriminate K|]).
  pose proof (db0_none (keyBlockByHash h)) as H0. change (db_view db0) with (db0 : gmap string string) in H0.
  congruence.
Defined.

Lemma chain_db_decodes h b : db_view chain_db !! keyBlockByHash h = Some b ->
  json_unmarshal (A := Block) b = Ret main_blk \/ json_unmarshal (A := Block) b = Ret other_blk \/
  json_unmarshal (A := Block) b = Ret genesis_block.
Proof.
  intros [[_ ->]|[[_ ->]|[_ ->]]]%chain_db_blocks; [left|right; left|right; right];
    cbn; unfold code; by rewrite RefCodec.of_bits_of, decode_encode.
Defined.

Lemma chain_db_linked : linked chain_db.
Proof.
  assert (forall h b, block_at chain_db h = Some b -> b = main_blk \/ b = other_blk \/ b = genesis_block) as Hb.
  { intros h b. unfold block_at. destruct (db_view chain_db !! keyBlockByHash h) as [x|] eqn:E; [|discriminate].
    apply chain_db_decodes in E as [-> | [-> | ->]]; intros [= <-]; tauto. }
  assert (block_at chain_db (Hash_String hash_b) = None) as Hnone.
  { unfold block_at. destruct (db_view chain_db !! keyBlockByHash (Hash_String hash_b)) as [x|] eqn:E; [|reflexivity].
    apply chain_db_blocks in E as [[E _]|[[E _]|[E _]]]; vm_compute in E; discriminate. }
  assert (block_at chain_db key_g = Some genesis_block) as Hg.
  { unfold block_at. destruct (db_view chain_db !! keyBlockByHash key_g) as [x|] eqn:E.
    - apply chain_db_blocks in E as [[E _]|[[E _]|[_ ->]]]; [vm_compute in E; discriminate..|].
      cbn. unfold code. by rewrite RefCodec.of_bits_of, decode_encode.
    - exfalso. change (db_view chain_db) with (chain_db : gmap string string) in E. unfold chain_db in E.
      do 2 (apply lookup_insert_None in E as [E _]). by rewrite lookup_insert_eq in E. }
  split.
  - intros h b H. apply chain_db_decodes in H as [H|[H|H]]; eauto.
  - intros h b H. apply Hb in H as [-> | [-> | ->]]; vm_compute; discriminate.
  - intros h b p H Hp. apply Hb in H as [-> | [-> | ->]]; cbn [Header main_blk other_blk genesis_block header_at PrevHash] in Hp.
    + change (Hash_String hash_a) with key_g in Hp. rewrite Hg in Hp. injection Hp as <-. reflexivity.
    + change (Hash_String hash_a) with key_g in Hp. rewrite Hg in Hp. injection Hp as <-. reflexivity.
    + rewrite Hnone in Hp. discriminate.
Defined.

Lemma chain_db_other : block_at chain_db "o1" = Some other_blk.
Proof. vm_compute. reflexivity. Defined.

Lemma Reorg_refuses_other_finalized_witness :
  ReorgToBestHeaderChain (fun _ => gret tt) (fun _ _ => gret tt) (cfg_with false 0) zero_genesis 5
    (fun _ _ _ _ => gret (0, "")) [] 0 (chain_db, fs0, pool0)
  = (Err "violates_finalized", (chain_db, fs0, pool0)).
Proof.
  apply (Reorg_refuses_other_finalized (fun _ => gret tt) (fun _ _ => gret tt) (fun _ _ _ _ => gret (0, ""))
           (cfg_with false 0) zero_genesis [] 0 5 chain_db fs0 pool0 1 "m1" 1 "o1" other_blk main_blk other_blk 1).
  - exact chain_db_linked.
  - vm_compute. reflexivity.
  - vm_compute. reflexivity.
  - lia.
  - vm_compute. reflexivity.
  - exact chain_db_other.
  - vm_compute. repeat constructor.
  - run_reader.
  - unfold GetHeaderTip. run_reader.
  - discriminate.
  - discriminate.
  - apply anc_here. exact chain_db_other.
  - reflexivity.
  - vm_compute. discriminate.
Defined.

Lemma BuildBlockLocator_spec_witness :
  exists hs loc, BuildBlockLocator (any := Block) 100 chain_db = (Ret loc, chain_db) /\
    Forall2 (fun h x => main_hash chain_db h = Some x) hs loc /\ Z.of_nat (length loc) <= 100 /\
    head hs = Some 1 /\ StronglySorted (fun a b => b < a) hs /\ (76 <= 100 -> last hs = Some 0).
Proof.
  apply (BuildBlockLocator_spec (any := Block) chain_db 1 "m1" 100).
  - unfold is_u64. lia.
  - lia.
  - run_reader.
  - intros h Hh. assert (h = 0 \/ h = 1) as [-> | ->] by lia; unfold readable_at.
    + exists key_g, (code genesis_block), genesis_block. split_and!; vm_compute; reflexivity.
    + exists "m1", (code main_blk), main_blk. split_and!; vm_compute; reflexivity.
Defined.

(** ** Finality *)

Lemma VoteMessage_binding_witness :
  ("c" = "c" /\ 1 = 1 /\ "h" = "h") \/
  (vote_text "c" 1 "h" <> vote_text "c" 1 "h" /\ sha256 (vote_text "c" 1 "h") = sha256 (vote_text "c" 1 "h")).
Proof.
  apply (VoteMessage_binding "c" "c" 1 1 "h" "h"); try reflexivity; try (unfold is_u64; lia);
    unfold no_bar; cbn; intros [E|[]]; discriminate.
Defined.

Definition validator_n (p : string) (w : Z) : Validator :=
  {| va_PubkeyHex := p; va_Name := p; va_Weight := w; va_AddedUnix := 1; va_Slashed := false |}.
Definition vote_n (p h : string) : VoteRecord :=
  {| vr_Height := 20; vr_BlockHash := h; vr_ChainID := ""; vr_PubkeyHex := p; vr_SigHex := ""; vr_TimeUnix := 1 |}.

(** Three validators, two of which voted for the same block. *)
Definition fin_db : db_t (LevelDB := map_db) :=
  <[keyValidator "a" := code (validator_n "a" 1)]> (<[keyValidator "b" := code (validator_n "b" 1)]>
  (<[keyValidator "c" := code (validator_n "c" 1)]>
  (<[keyVote 20 "a" := code (vote_n "a" "x")]> (<[keyVote 20 "b" := code (vote_n "b" "x")]>
  (db0 : gmap string string))))).
Definition fin_vals : list Validator := [validator_n "a" 1; validator_n "b" 1; validator_n "c" 1].
Definition fin_votes : list VoteRecord := [vote_n "a" "x"; vote_n "b" "x"].

Lemma TryFinalizeHeight_quorum_witness :
  exists d', TryFinalizeHeight (fun h _ => ListVotesForHeight h) 20 fin_db = (Ret tt, d') /\
    cell (db_view d') keyFinalized = 20 /\ db_view d' !! keyFinalizedHash = Some "x".
Proof.
  destruct (TryFinalizeHeight_quorum (fun h _ => ListVotesForHeight h) 20 fin_votes fin_vals fin_db)
    as (d' & Hrun & Hcase).
  - run_reader.
  - run_reader.
  - cbn. repeat constructor; set_solver.
  - vm_compute. reflexivity.
  - unfold is_u64. lia.
  - vm_compute. exact I.
  - intros cp. discriminate.
  - exists d'. split; [exact Hrun|].
    assert (0 < total_weight fin_vals /\
      2 * total_weight fin_vals <= 3 * support (weight_of fin_vals) fin_votes "x") as Hq
      by (vm_compute; split; [reflexivity|discriminate]).
    destruct Hcase as [(hash & _ & Huniq & _ & H1 & H2 & _)|[[Hno|Hle] _]].
    + rewrite (Huniq "x" Hq). split; assumption.
    + exfalso. exact (Hno "x" Hq).
    + exfalso. revert Hle. vm_compute. auto.
Defined.

Definition fin_node : FinNode :=
  {| finalityEnabled := true; checkpointInterval := 20; thresholdNum := 2; thresholdDen := 3;
     validators := [{| fv_Name := "v"; fv_PubkeyHex := hex_EncodeToString hash_a; fv_Weight := 1 |}];
     localPubHex := ""; localPrivHex := "" |}.

Lemma registry_finality_stalls_witness :
  tryFinalizeHeight fin_node zero_genesis 0 20 "x" fin_db = (Ret tt, fin_db).
Proof.
  apply (registry_finality_stalls fin_node zero_genesis "x" 20 0 fin_vals fin_votes fin_db).
  - run_reader.
  - run_reader.
  - discriminate.
  - cbn. repeat constructor; set_solver.
  - intros v [<-|[<-|[<-|[]]]]; cbn; lia.
  - intros v [<-|[<-|[<-|[]]]]; vm_compute; reflexivity.
  - vm_compute. reflexivity.
  - reflexivity.
  - reflexivity.
Defined.

Definition genesis1 : Genesis :=
  {| g_ChainID := "reserve-test"; g_Network := "test"; g_GenesisTimeUnix := 100; g_ProtocolVersion := 1;
     g_PoWLeadingZeroBits := 1; g_Finality := None; g_Validators := []; g_Allocations := []; g_Params := "" |}.

(** The store with a tip at height 20. *)
Definition tip_db : db_t (LevelDB := map_db) :=
  <[keyTipHeight := "20"]> (<[keyTipBlockID := "t"]> (db0 : gmap string string)).

Lemma pullVotes_first_vote_stands_witness :
  let d' := (pullVotesFromPeers fin_node (cfg_with false 0) genesis1 (fun _ _ => Ret [vote1]) 0 tip_db).2 in
  votes_verified genesis1 d' /\ votes_extend tip_db d'.
Proof.
  apply (pullVotes_first_vote_stands fin_node (cfg_with false 0) genesis1 (fun _ _ => Ret [vote1]) 0 tip_db).
  - intros peer h vs [= <-]. repeat constructor; vm_compute; done.
  - intros h p b _ H. change (db_view tip_db) with (tip_db : gmap string string) in H. unfold tip_db in H.
    do 2 (apply lookup_insert_Some in H as [[K _]|[_ H]]; [discriminate K|]).
    pose proof (db0_none (keyVote h p)) as H0. change (db_view db0) with (db0 : gmap string string) in H0. congruence.
Defined.

(** ** Admission and submission *)

Definition pk : string := hex_EncodeToString hash_a.
Definition rich_db : db_t (LevelDB := map_db) :=
  <[keyBal pk := BE_PutUint64 (u64 1000)]> (db0 : gmap string string).
Lemma rich_db_ok : state_ok (db_view rich_db).
Proof. apply (state_ok_put_bal _ pk 1000); [exact db0_ok|unfold is_i64; lia|lia]. Defined.

Definition signed_tx (ty : string) : Tx :=
  {| From := pk; PubKey := pk; SigHex := hex_EncodeToString (hash_a +:+ hash_b); TType := ty; TClaim := None;
     TVersion := 1; TNonce := 1; Fee := 500; GasAsset := "USDR"; Outputs := [pay "bob" 10]; Memo := "" |}.

(** Without issuance the transaction makes a block; with a reward of 600 in both fields the
    block of reward and transaction is not valid. *)
Lemma submit_checks_runs issuance r :
  submit_checks (cfg_with issuance r) (fun s => s) (signed_tx "transfer") rich_db = (Ret (inr (signed_tx "transfer")), rich_db).
Proof.
  apply run_read.
  - assert (forall id, keeps (fun _ => True) (GetNonce id)) by (intros; apply keeps_GetNonce).
    assert (forall id, keeps (fun _ => True) (GetBalance id)) by (intros; apply keeps_GetBalance).
    unfold submit_checks, submit_claim. frame.
  - vm_compute. reflexivity.
Defined.

Lemma submitted_tx_is_minable_witness :
  body_valid (cfg_with false 0) (fun s => s) rich_db header0 [signed_tx "transfer"] /\
  ~ body_valid (cfg_with true 600) (fun s => s) rich_db header0
      [coinbase_tx (cfg_with true 600); signed_tx "transfer"].
Proof.
  split.
  - refine (proj2 (proj2 (submitted_tx_is_minable (cfg_with false 0) (fun s => s) rich_db rich_db header0
      (signed_tx "transfer") (signed_tx "transfer") rich_db_ok _ _ _ (submit_checks_runs false 0))) _);
      [discriminate|discriminate|split; vm_compute; congruence|discriminate].
  - intros Hv. refine (proj1 (proj2 (submitted_tx_is_minable (cfg_with true 600) (fun s => s) rich_db rich_db header0
      (signed_tx "transfer") (signed_tx "transfer") rich_db_ok _ _ _ (submit_checks_runs true 600))) Hv eq_refl _);
      [|discriminate|split; vm_compute; congruence|vm_compute; reflexivity].
    intros _. split; [vm_compute; discriminate|vm_compute; reflexivity].
Defined.

(** No difficulty rule. *)
Definition no_rule : (Z -> GoM (db_t (LevelDB := map_db)) (option BlockHeader)) ->
  (Z -> GoM db_t (option Z)) -> Z -> GoM db_t (option Z) := fun _ _ _ => gret None.
Lemma no_rule_reads P h : keeps P (no_rule getHeader getBits h).
Proof. apply keeps_ret. Defined.

Lemma SubmitBlock_changes_only_admissible_witness :
  let '(o, (d', f')) := SubmitBlock (cfg_with false 0) (fun s => s) genesis1 no_rule fin_node 0 0 0 main_blk (rich_db, fs0) in
  db_view d' = db_view rich_db \/ admissible (cfg_with false 0) (fun s => s) genesis1 rich_db main_blk.
Proof.
  pose proof (SubmitBlock_changes_only_admissible (cfg_with false 0) (fun s => s) genesis1 no_rule no_rule_reads
    fin_node 0 0 0 main_blk rich_db fs0) as H. exact H.
Defined.

(** A store whose tip is the genesis block, and a mined block on top of it. *)
Definition base_db : db_t (LevelDB := map_db) :=
  <[keyBlockByHash key_g := code genesis_block]> (<[keyHashByHeight 0 := key_g]>
  (<[keyTipHeight := "0"]> (<[keyTipBlockID := key_g]> (rich_db : gmap string string)))).
Definition mined : Block :=
  match MineHeader 50 (header_at 1 200 hash_a) with
  | Some (_, _, h) => {| Header := h; Txs := [signed_tx "transfer"] |}
  | None => main_blk
  end.

Lemma mined_link : Hash_String (PrevHash (Header mined)) = key_g /\ Height (Header mined) = 1.
Proof. vm_compute. split; reflexivity. Defined.

Lemma SubmitBlock_tip_keeps_accounts_witness :
  accounts_kept base_db
    (SubmitBlock (cfg_with false 0) (fun s => s) genesis1 no_rule fin_node 0 0 0 mined (base_db, fs0)).2.1.
Proof.
  assert (GetTip base_db = (Ret (Some (0, key_g)), base_db)) as Ht by run_reader.
  pose proof (SubmitBlock_tip_keeps_accounts (cfg_with false 0) (fun s => s) genesis1 no_rule no_rule_reads
    fin_node 0 0 0 mined base_db fs0 0 key_g Ht (proj1 mined_link) (proj2 mined_link)) as H. exact H.
Defined.

(** The same with a tip elsewhere that has more work. *)
Definition fork_db : db_t (LevelDB := map_db) :=
  <[keyTipHeight := "5"]> (<[keyTipBlockID := "t5"]> (<[keyTipWork := BE_PutUint64 1000000]>
  (<[keyWork key_g := BE_PutUint64 7]> (base_db : gmap string string)))).

Lemma SubmitBlock_losing_branch_indexed_witness :
  exists d' f', SubmitBlock (cfg_with false 0) (fun s => s) genesis1 no_rule fin_node 0 0 0 mined (fork_db, fs0)
      = (Ret tt, (d', f')) /\
    GetTip d' = (Ret (Some (5, "t5")), d') /\
    main_hash d' (Height (Header mined)) = Some (Hash_String (HeaderHash (Header mined))).
Proof.
  assert (exists w, Work64 (Bits (Header mined)) = Ret w /\ Cumulative 7 w <= 1000000) as (w & Hw & Hle).
  { eexists. split; [vm_compute; reflexivity|vm_compute; discriminate]. }
  destruct (SubmitBlock (cfg_with false 0) (fun s => s) genesis1 no_rule fin_node 0 0 0 mined (fork_db, fs0))
    as [o [d' f']] eqn:Hrun.
  assert (o = Ret tt) as ->
    by (change o with ((o, (d', f')).1); rewrite <- Hrun; vm_compute; reflexivity).
  exists d', f'. split; [reflexivity|]. destruct mined_link as [Hp Hh].
  apply (SubmitBlock_losing_branch_indexed (cfg_with false 0) (fun s => s) genesis1 no_rule no_rule_reads
           fin_node 0 0 0 mined fork_db fs0 d' f' 5 "t5" 1000000 w 7).
  - run_reader.
  - rewrite Hh. discriminate.
  - left. rewrite Hp. vm_compute. discriminate.
  - unfold GetTipWork. run_reader.
  - exact Hw.
  - rewrite Hp. unfold GetWork. run_reader.
  - exact Hle.
  - exact Hrun.
Defined.

(** ** Mining with a transaction that calls itself a reward *)

Definition reward_pool : Mempool := pool_of (signed_tx "coinbase").
Definition drained := Drain 10 1000 500 (base_db, reward_pool).

Lemma reward_in_pool_stops_mining_witness :
  produces_block (MineOne (cfg_with false 0) (fun s => s) genesis1 no_rule fin_node 0 0 10 1000
                    (base_db, fs0, reward_pool)) = false.
Proof.
  assert (drained.1 = Ret (Some [signed_tx "coinbase"])) as Hret by (vm_compute; reflexivity).
  assert (drained = (Ret (Some [signed_tx "coinbase"]), (drained.2.1, drained.2.2))) as Hrun.
  { rewrite <- Hret. destruct drained as [o [d m]]. reflexivity. }
  apply (reward_in_pool_stops_mining (cfg_with false 0) (fun s => s) genesis1 no_rule fin_node 0 0 10 1000
           base_db fs0 reward_pool [signed_tx "coinbase"] drained.2.1 drained.2.2 (signed_tx "coinbase") Hrun);
    [by left|reflexivity].
Defined.
