(* ===== verification/NetWitnesses.v ===== *)
(** * The theorems on synchronisation, gossip and the HTTP interface at concrete inputs *)

From S2P Require Import Prelude GoLang KV Chain Sha2 Storage StorageProps State Fees Config Crypto Validate Apply Frame Mempool Forkchoice Finality Sync SyncProps Node Gossip GossipProps Api ApiProps Instances Witnesses NodeWitnesses.
Import MapDB.

(** ** The block scheduler *)

(** One worker with one announced block: it takes the hash and marks it in flight. *)
Definition run1 : list event := [EvHeaders 1 ["h"]; EvWorker 0; EvWorker 0; EvWorker 0].
Definition sm1 : syncManager := addInFlight 5 "h" (popPending (setHeaders 1 ["h"] new_syncManager)).2.
Definition sched1 : sched (L := map_db) :=
  {| sc_db := db0; sc_sm := sm1; sc_workers := [Flying "h"]; sc_sent := [] |}.

Lemma run1_steps : steps 4 (sched0 db0 1) run1 sched1.
Proof.
  eapply steps_cons; [constructor|]. eapply steps_cons; [apply step_check; [reflexivity|vm_compute; reflexivity]|].
  eapply steps_cons; [eapply step_pop; reflexivity|].
  eapply steps_cons; [apply (step_add _ _ 0 "h" 5); reflexivity|]. apply steps_nil.
Defined.

Lemma scheduler_invariant_witness :
  status_ok sm1 /\ inflightCount sm1 <= 4 /\ (forall h, tracked sm1 h -> announced run1 h).
Proof.
  destruct (scheduler_invariant 4 db0 1 run1 sched1 run1_steps) as (H1 & H2 & H3 & _).
  split; [exact H1|]. split; [exact H2|exact H3].
Defined.

Lemma announced_not_forgotten_witness : held sched1 "h".
Proof.
  apply (announced_not_forgotten 4 db0 1 [] 1 ["h"] [EvWorker 0; EvWorker 0; EvWorker 0] sched1 "h" run1_steps).
  - constructor.
  - discriminate.
  - intros H. repeat (apply elem_of_cons in H as [H|H]; [discriminate H|]). inversion H.
Defined.

Lemma race_queues_twice_witness :
  exists evs s, steps 4 (sched0 db0 1) evs s /\ sm_pending (sc_sm s) = ["h"; "h"].
Proof. apply (race_queues_twice 4 db0 "h"); [discriminate|lia]. Defined.

(** A store with its tip at genesis and two headers above it, without their blocks. *)
Definition hdr_db : db_t (LevelDB := map_db) :=
  <[keyTipHeight := "0"]> (<[keyTipBlockID := "g"]>
  (<[keyHeaderTipH := BE_PutUint64 2]> (<[keyHeaderTipHash := "h2"]>
  (<[keyHdrHash "h2" := code (header_at 2 300 hash_a)]>
  (<[keyHdrHash key_g := code (header_at 1 200 hash_b)]> (db0 : gmap string string)))))).

Lemma hdr_db_blocks h : db_view hdr_db !! keyBlockByHash h = None.
Proof.
  change (db_view hdr_db) with (hdr_db : gmap string string). unfold hdr_db.
  do 6 (rewrite lookup_insert_ne by discriminate). apply lookup_empty.
Defined.
Lemma hdr_db_linked : linked hdr_db.
Proof.
  split; [intros h b H|intros h b H|intros h b p H _]; unfold block_at in H; rewrite hdr_db_blocks in H; discriminate.
Defined.

Lemma enqueueMissing_spec_witness :
  exists sm' new, enqueueMissing 5 100 (hdr_db, new_syncManager) = (Ret (Some tt), (hdr_db, sm')) /\
    filled hdr_db [key_g; "h2"] new_syncManager sm' new /\
    (forall h, h ∈ ["h2"; key_g] -> tracked sm' h).
Proof.
  destruct (enqueueMissing_spec hdr_db new_syncManager 5 100 0 "g" 2 "h2" ["h2"; key_g] hdr_db_linked
    ltac:(unfold GetTip; run_reader) ltac:(unfold GetHeaderTip; run_reader) ltac:(discriminate) ltac:(lia) ltac:(lia))
    as (sm' & new & H1 & H2 & H3).
  - apply (hp_cons hdr_db "h2" (header_at 2 300 hash_a)); [run_reader|reflexivity|lia|].
    apply (hp_one hdr_db key_g (header_at 1 200 hash_b)); [run_reader|reflexivity].
  - cbn. lia.
  - exists sm', new. split; [exact H1|]. split; [exact H2|]. intros h Hh.
    apply H3; [vm_compute; reflexivity|vm_compute; discriminate|exact Hh| |].
    + intros ->. repeat (apply elem_of_cons in Hh as [Hh|Hh]; [discriminate Hh|]). inversion Hh.
    + unfold block_at. by rewrite hdr_db_blocks.
Defined.

(** ** Gossip *)

#[export] Instance no_gossip_codecs : GossipCodecs := {|
  codec_hello := no_codec {| he_ver := ""; he_chain_id := ""; he_genesis_hash := ""; he_caps := [] |};
  codec_helloView := no_codec {| hv_chain_id := None; hv_genesis_hash := None |};
  codec_anchor := no_codec {| an_Height := 0; an_Hash := ""; an_Set := false |};
  codec_headersReq := no_codec {| hq_From := 0; hq_Count := 0; hq_Locator := [] |};
  codec_headersResp := no_codec {| hr_From := 0; hr_Headers := []; hr_Hashes := [] |};
  codec_peers := no_codec [];
|}.

(** The handler, with undeclared names that do nothing. *)
Definition dispatch0 :=
  dispatch (cfg_with false 0) (fun s => s) genesis1 no_rule fin_node 0 0 "" "" (fun tx => gret tx)
    (fun _ sm => sm) (fun _ sm => sm) [] zero_tx.
Definition handle0 :=
  handle (cfg_with false 0) (fun s => s) genesis1 no_rule fin_node 0 0 "" "" (fun tx => gret tx)
    (fun _ sm => sm) (fun _ sm => sm) [] zero_tx.

Definition gossip0 (d : db_t (LevelDB := map_db)) (sm : option syncManager) : p2p_state :=
  {| g_chain := (d, fs0); g_mp := pool0; g_sm := sm; g_lim := newPeerLimiter (f64_of_Z 30) (f64_of_Z 60);
     g_seenTx := ∅; g_seenBlk := ∅; g_locked := false; g_out := [] |}.

Definition deliver0 :=
  deliver (cfg_with false 0) (fun s => s) genesis1 no_rule fin_node 0 0 "" "" (fun tx => gret tx)
    (fun _ sm => sm) (fun _ sm => sm) [] zero_tx.
Definition twice : p2p_state :=
  (dispatch0 2 "p2" (msg_id "inv_tx" "t") (dispatch0 1 "p1" (msg_id "inv_tx" "t") (gossip0 db0 None)).2).2.

(** The first announcement is asked for, the second ends it. *)
Lemma repeat_stops_relay_witness :
  g_locked (deliver0 [(3, 3, "p3", msg_id "inv_tx" "u")] twice) = true /\
  exists l, g_out (deliver0 [(3, 3, "p3", msg_id "inv_tx" "u")] twice) = [(Some "p1", msg_id "get_tx" "t")] ++ l /\
  Forall (fun x : option string * Msg => ~ asks x.2) l.
Proof.
  exact (repeat_stops_relay (cfg_with false 0) (fun s => s) genesis1 no_rule fin_node 0 0 "" "" (fun tx => gret tx)
    (fun _ sm => sm) (fun _ sm => sm) [] zero_tx 1 2 "p1" "p2" "t" (gossip0 db0 None)
    [(3, 3, "p3", msg_id "inv_tx" "u")] eq_refl ltac:(discriminate) eq_refl).
Defined.

Lemma db0_stat p : stat_ok db0 p.
Proof. intros b H. by rewrite db0_none in H. Defined.

Lemma any_pub p : pub_ok p.
Proof. intros ???. reflexivity. Defined.

Definition penalized : db_t (LevelDB := map_db) := (penalizePeer 100 "bad" (-60) db0).2.

Definition after_penalty : p2p_state := upd_chain (penalized, fs0) (gossip0 db0 None).

Lemma penalizePeer_bans_witness :
  handle0 699 0 "bad" (msg_id "inv_tx" "t") after_penalty = (Ret (Some tt), after_penalty).
Proof.
  assert (penalizePeer 100 "bad" (-60) db0 = (Ret tt, penalized)) as Hp by reflexivity.
  destruct (penalizePeer_bans (cfg_with false 0) (fun s => s) genesis1 no_rule fin_node 0 0 "" "" (fun tx => gret tx)
    (fun _ sm => sm) (fun _ sm => sm) [] zero_tx 100 (-60) "bad" (gossip0 db0 None) penalized
    (db0_stat "bad") (any_pub "bad")
    ltac:(change (ps_Score (stat_of (g_chain (gossip0 db0 None)).1 "bad")) with 0; unfold is_i64; lia)
    ltac:(lia) Hp) as [H _].
  apply H; [|lia]. change (ps_Score (stat_of (g_chain (gossip0 db0 None)).1 "bad")) with 0. lia.
Defined.

(** A store with block 1 finalized; the peer has shown no anchor. *)
Definition final_db : db_t (LevelDB := map_db) := <[keyFinalized := BE_PutUint64 1]> (db0 : gmap string string).

Lemma unanchored_ignored_witness : exists d',
  dispatch0 5 "p" (msg_data "block" "anything") (gossip0 final_db (Some new_syncManager)) =
    (Ret (Some tt), upd_chain (d', fs0) (gossip0 final_db (Some new_syncManager))) /\
  (forall k, k <> keyPeerStat "p" -> db_view d' !! k = db_view final_db !! k) /\
  ps_Score (stat_of d' "p") = -5.
Proof.
  assert (ps_Score (stat_of final_db "p") = 0) as H0 by (vm_compute; reflexivity).
  destruct (unanchored_ignored (cfg_with false 0) (fun s => s) genesis1 no_rule fin_node 0 0 "" "" (fun tx => gret tx)
    (fun _ sm => sm) (fun _ sm => sm) [] zero_tx 5 "p" (msg_data "block" "anything")
    (gossip0 final_db (Some new_syncManager)) new_syncManager (BE_PutUint64 1)) as (d' & H1 & H2 & H3).
  - by left.
  - vm_compute. reflexivity.
  - vm_compute. reflexivity.
  - vm_compute. reflexivity.
  - reflexivity.
  - reflexivity.
  - intros b H. discriminate H.
  - apply any_pub.
  - exists d'. split; [exact H1|]. split; [exact H2|].
    cbn [g_chain gossip0 fst] in H3. rewrite H0 in H3. exact H3.
Defined.

Lemma answer_headers_spec_witness :
  let req := {| hq_From := 0; hq_Count := 5; hq_Locator := ["x"; key_g] |} in
  exists bs, answer_headers req chain_db = (Ret {| hr_From := 1; hr_Headers := map Header bs;
      hr_Hashes := map (fun b => Hash_String (BlockHash b)) bs |}, chain_db) /\ len bs <= 5 /\
  (forall i b, bs !! i = Some b -> main_block chain_db (1 + Z.of_nat i) = Some b /\ 1 + Z.of_nat i <= 1).
Proof.
  cbv zeta. assert (known_start chain_db 0 ["x"; key_g] = 1) as Hk by (vm_compute; reflexivity).
  destruct (answer_headers_spec chain_db {| hq_From := 0; hq_Count := 5; hq_Locator := ["x"; key_g] |} 1 "m1"
    chain_db_linked ltac:(unfold GetTip; run_reader) ltac:(unfold is_u64; lia) ltac:(cbn; unfold is_u64; lia)
    ltac:(cbn [hq_From hq_Locator]; rewrite Hk; lia)) as (bs & H1 & H2 & H3 & _).
  cbn [hq_From hq_Locator] in *. rewrite Hk in *. exists bs. split; [exact H1|]. split; [exact H2|exact H3].
Defined.

Lemma limiter_burst_witness :
  (allow_many 100 1000000000 "p" (newPeerLimiter (f64_of_Z 30) (f64_of_Z 60))).1 = replicate 60 true ++ replicate 40 false.
Proof.
  exact (proj1 (limiter_burst 100 (newPeerLimiter (f64_of_Z 30) (f64_of_Z 60)) "p" 60 1000000000 0
    ltac:(split; reflexivity) ltac:(right; split; reflexivity) ltac:(lia) ltac:(lia))).
Defined.

(** ** The HTTP interface *)

Definition no_body {A} (dflt : A) : Body A := {| decode_body _ := Err "EOF"; decode_partial _ := dflt |}.
#[export] Instance no_bodies : Bodies := {|
  body_pub := no_body {| pb_Pub := ""; pb_Seconds := 0 |}; body_bool := no_body false; body_locator := no_body [];
  body_pos := no_body {| po_PubkeyHex := ""; po_Name := ""; po_Weight := 0 |}; body_vote := no_body zero_vote;
  body_pop := no_body {| pp_ID := ""; pp_Weight := 0; pp_Type := ""; pp_Delta := 0 |}; body_addr := no_body "";
  body_gossipTx := no_body {| gt_Tx := zero_tx; gt_Hop := 0 |};
  body_gossipBlock := no_body {| gb_Block := zero_block; gb_Hash := ""; gb_Hop := 0 |};
  body_rpc := no_body {| rpc_Method := ""; rpc_txid := None |}; body_tx := no_body zero_tx;
|}.
#[export] Instance no_height_view : JSON HeightView := no_codec {| Forkchoice.hv_Height := 0 |}.

Definition serve0 :=
  serve (cfg_with false 0) (fun s => s) genesis1 no_rule fin_node 0 0 (fun _ _ => gret []) (fun tx => gret tx)
    (fun _ => gret tt) (fun _ _ => gret tt) (fun _ _ _ _ => gret (0, "")) 30 100 [] None true 10.
Definition api0 : api :=
  {| a_chain := (chain_db, fs0); a_sm := None; a_mp := pool0; a_auto := false; a_posts := []; a_sent := [] |}.
Definition get_req (q : string -> string) : Request := {| rq_Method := "GET"; rq_Query := q; rq_Body := "" |}.

Lemma other_methods_safe_witness :
  (serve0 0 0 0 0 "/chain/reorg_best" (get_req (fun _ => "")) api0).2 = api0.
Proof.
  apply (other_methods_safe (cfg_with false 0) (fun s => s) genesis1 no_rule fin_node 0 0 (fun _ _ => gret [])
    (fun tx => gret tx) (fun _ => gret tt) (fun _ _ => gret tt) (fun _ _ _ _ => gret (0, "")) 30 100 [] None true 10).
  - intros h k s. reflexivity.
  - discriminate.
Defined.

Definition too_large (k : string) : string := if (k =? "to")%string then "99999999999999999999" else "5".

Lemma reconcile_never_ends_witness : fees_reconcile 50 (get_req too_large) api0 = (Ret None, api0).
Proof. apply (reconcile_never_ends 50); [vm_compute; reflexivity|vm_compute; split; discriminate || reflexivity]. Defined.
