(* ===== verification/ServiceWitnesses.v ===== *)
(** * The theorems on the vault, the services and the transport at concrete inputs

    The file system is a finite map, encryption puts a SHA-256 tag in front and JSON is a binary
    code. *)

From S2P Require Import Prelude GoLang KV Chain Sha2 Storage State Config Crypto Finality KeyVault StorageDaemon Node Sync Gossip Transport Wallet Instances Witnesses.

(** ** The key vault *)

#[export] Instance toy_gcm : GCM := {|
  gcm_Seal k n p := Sum256 (k +:+ n +:+ p) +:+ p;
  gcm_Open k n c :=
    let p := str_drop 32 c in
    if (str_take 32 c =? Sum256 (k +:+ n +:+ p))%string then Ret p else Err "message authentication failed";
|}.
#[export] Instance toy_gcm_ok : GCMOk toy_gcm.
Proof.
  intros k n p. cbn -[Sum256 str_drop str_take]. pose proof (Sum256_length (k +:+ n +:+ p)) as Hl.
  set (t := Sum256 (k +:+ n +:+ p)) in *. rewrite <- Hl. rewrite str_drop_app, str_take_app. by rewrite String.eqb_refl.
Qed.

#[export] Instance map_files : VaultFiles := {|
  vfs := gmap string string;
  os_Stat p f := match f !! p with Some _ => StatOk | None => StatMissing end;
  os_ReadFile p f := match f !! p with Some c => Ret c | None => Err "no such file" end;
  os_WriteFile p c f := (Ret tt, <[p := c]> f);
  os_MkdirAll _ := gret tt;
  filepath_Dir p := p;
|}.
#[export] Instance map_files_ok : VaultFilesOk map_files.
Proof. split; cbn; [|done|done]. intros p c f f' [= <-]. by rewrite lookup_insert_eq. Qed.

#[export] Instance vval_eq_dec : EqDecision vval.
Proof. solve_decision. Defined.
Definition vval_to (v : vval) : string + string := match v with VStr s => inl s | VOther s => inr s end.
Definition vval_of (x : string + string) : option vval := Some (match x with inl s => VStr s | inr s => VOther s end).
#[export] Instance vval_countable : Countable vval.
Proof. refine (inj_countable vval_to vval_of _). by intros []. Defined.

(** The entries of a vault as a list. *)
Definition data_code : Type := option (list (string * vval) + string) * list (string * string).
Definition data_to (d : vault_data) : data_code :=
  (match vd_kv d with KvNone => None | KvMap m => Some (inl (map_to_list m)) | KvOther s => Some (inr s) end,
   map_to_list (vd_rest d)).
Definition data_of (x : data_code) : vault_data :=
  {| vd_kv := match x.1 with
              | None => KvNone | Some (inl l) => KvMap (list_to_map l) | Some (inr s) => KvOther s end;
     vd_rest := list_to_map x.2 |}.
Lemma data_of_to d : data_of (data_to d) = d.
Proof. destruct d as [[|m|s] r]; unfold data_of, data_to; cbn; by rewrite ?list_to_map_to_list. Qed.

#[export] Instance bin_vault : VaultCodec := {|
  vault_marshal d := Ret (RefCodec.bits_of (encode (data_to d)));
  vault_unmarshal s :=
    match RefCodec.of_bits s with
    | Some p => match decode p with Some x => Ret (Some (data_of x)) | None => Err "invalid code" end
    | None => Err "invalid code"
    end;
|}.
#[export] Instance bin_vault_ok : VaultCodecOk bin_vault.
Proof.
  refine {| text_ok _ := True; data_ok _ := True |}; [|done].
  intros d _. eexists. split; [done|]. cbn. by rewrite RefCodec.of_bits_of, decode_encode, data_of_to.
Defined.

Definition nonce12 : string := list_str (repeat "n"%char 12).
Definition vault0 : Vault :=
  {| v_rotationDays := 5; v_path := "vault"; v_key := deriveKey "secret" "k1"; v_data := empty_data |}.
Definition files0 : vfs (VaultFiles := map_files) :=
  <["vault" := magic +:+ nonce12 +:+ gcm_Seal (v_key vault0) nonce12 (RefCodec.bits_of (encode (data_to empty_data)))]> ∅.
Definition opts0 : OpenOptions := {| oo_RotationDays := 5; oo_Path := "vault"; oo_KEKEnv := "KEK" |}.
Definition env0 (k : string) : string := if (k =? "KEK")%string then "secret" else "".
Definition no_rotation (_ : string) : GoM (Vault * vfs (VaultFiles := map_files)) unit := gret tt.

Definition sets0 : list (string * string) := [("a", "1"); ("b", "2"); ("a", "3")].
Definition after_sets := gfor sets0 (fun e => SetString (Ret nonce12) e.1 e.2) (vault0, files0).

Lemma vault0_synced : synced vault0 files0.
Proof.
  exists nonce12, (RefCodec.bits_of (encode (data_to empty_data))).
  split; [reflexivity|]. split; [unfold files0; cbn -[v_key]; by rewrite lookup_insert_eq|].
  split; [unfold files0; cbn -[v_key]; by rewrite lookup_insert_eq|].
  split; [cbn; by rewrite RefCodec.of_bits_of, decode_encode, data_of_to|].
  split; [exact I|by eexists].
Defined.

Lemma vault_reopen_witness : exists v2 f2,
  OpenOrInit (Ret nonce12) env0 no_rotation opts0 after_sets.2.2 = (Ret v2, f2) /\
  GetString v2 "a" = Some "3" /\ GetString v2 "b" = Some "2" /\ GetString v2 "c" = None.
Proof.
  assert (after_sets = (Ret tt, (after_sets.2.1, after_sets.2.2))) as Hrun by reflexivity.
  destruct (vault_reopen (Ret nonce12) env0 no_rotation ltac:(by intros n [= <-]) sets0 vault0 files0 after_sets.2.1
    after_sets.2.2 opts0 vault0_synced) as (v2 & f2 & _ & _ & Hg & _ & Hidle).
  - repeat constructor.
  - exact Hrun.
  - reflexivity.
  - discriminate.
  - reflexivity.
  - exists v2, f2. split; [|rewrite !Hg; split_and!; reflexivity].
    apply Hidle. intros f. exists (Ret tt). split; [discriminate|reflexivity].
Defined.

(** A cipher that shows its key, for the refusal of another one. *)
Definition key_gcm : GCM := {|
  gcm_Seal k n p := k +:+ p;
  gcm_Open k n c := if str_prefix k c then Ret (str_drop (String.length k) c) else Err "message authentication failed";
|}.
(** The vault after a rotation to the key id [k2]. *)
Definition vault_k2 : Vault :=
  {| v_rotationDays := 5; v_path := "vault"; v_key := deriveKey "secret" "k2"; v_data := empty_data |}.
Definition files_k2 : vfs (VaultFiles := map_files) :=
  <["vault" := magic +:+ nonce12 +:+ gcm_Seal (GCM := key_gcm) (v_key vault_k2) nonce12 (RefCodec.bits_of (encode (data_to empty_data)))]> ∅.
Lemma vault_k2_synced : synced (G := key_gcm) vault_k2 files_k2.
Proof.
  exists nonce12, (RefCodec.bits_of (encode (data_to empty_data))).
  split; [reflexivity|]. split; [unfold files_k2; cbn -[v_key]; by rewrite lookup_insert_eq|].
  split; [unfold files_k2; cbn -[v_key]; by rewrite lookup_insert_eq|].
  split; [cbn; by rewrite RefCodec.of_bits_of, decode_encode, data_of_to|].
  split; [exact I|by eexists].
Defined.
Lemma key_gcm_refuses nonce b : exists e, gcm_Open (GCM := key_gcm) (deriveKey "secret" "k1") nonce
  (gcm_Seal (GCM := key_gcm) (deriveKey "secret" "k2") nonce b) = Err e.
Proof.
  exists "message authentication failed". cbn [gcm_Open gcm_Seal key_gcm].
  destruct (str_prefix (deriveKey "secret" "k1") (deriveKey "secret" "k2" +:+ b)) eqn:Hp; [|reflexivity].
  exfalso. apply str_prefix_spec in Hp as [t Ht].
  apply str_app_inj_length in Ht as [Hk _]; [vm_compute in Hk; discriminate Hk|vm_compute; reflexivity].
Defined.

Lemma rotated_vault_locked_witness : exists e f1,
  OpenOrInit (G := key_gcm) (Ret nonce12) env0 no_rotation opts0 files_k2 = (Err e, f1) /\ same_files files_k2 f1.
Proof.
  apply (rotated_vault_locked (Ret nonce12) env0 no_rotation vault_k2 files_k2 opts0 "k2" vault_k2_synced eq_refl);
    [discriminate|reflexivity|exact key_gcm_refuses].
Defined.

(** Two copies of the vault, each written once. *)
Definition first_set := SetString (Ret nonce12) "a" "1" (vault0, files0).
Definition second_set := SetString (Ret nonce12) "b" "2" (vault0, first_set.2.2).


(** A file that is not a vault. *)
Definition junk : vfs (VaultFiles := map_files) := <["vault" := "not a key vault, but long"]> ∅.

Lemma open_failure_keeps_file_witness : exists e f',
  OpenOrInit (Ret nonce12) env0 no_rotation opts0 junk = (Err e, f') /\ e = "invalid keyvault header" /\
  forall p, os_ReadFile p f' = os_ReadFile p junk.
Proof.
  exists "invalid keyvault header", junk.
  assert (OpenOrInit (Ret nonce12) env0 no_rotation opts0 junk = (Err "invalid keyvault header", junk)) as Ho
    by reflexivity.
  destruct (open_failure_keeps_file (Ret nonce12) env0 no_rotation opts0 junk _ _ ltac:(discriminate) Ho) as [Hf Hc].
  split; [exact Ho|]. split; [|exact Hf].
  destruct (Hc "not a key vault, but long" ltac:(discriminate) eq_refl) as [_ H2].
  apply H2; [cbn; lia|discriminate].
Defined.

(** ** The storage daemon *)

Definition alloc_req (account : option string) : allocSlotReq :=
  {| al_AccountID := account; al_Purpose := "receive"; al_ExpiresAt := None |}.
Definition one_slot : tables := (handleAllocSlot no_fault 7 "POST" (Ret (alloc_req (Some "alice"))) migrated).2.

Lemma migrated_ok : slots_ok migrated.
Proof. split; cbn; [intros a b ra rb H|intros a r H|intros a r H|intros k c H|lia]; by rewrite lookup_empty in H. Defined.

Lemma slots_invariant_witness : slots_ok one_slot.
Proof.
  apply (slots_invariant migrated one_slot migrated_ok).
  - intros k c H. cbn in H. by rewrite lookup_empty in H.
  - apply (step_alloc no_fault 7 "POST" (Ret (alloc_req (Some "alice"))) migrated 200
      (Some {| ar_SlotID := 1; ar_DerivationIndex := 0; ar_ExpiresAt := None |}) one_slot). reflexivity.
Defined.

Definition alice_row : slot :=
  {| sl_account := Some "alice"; sl_purpose := "receive"; sl_index := 0; sl_created := 7; sl_expires := None;
     sl_status := "allocated"; sl_hash := None; sl_conf_height := None; sl_conf_txid := None; sl_conf_at := None |}.

Lemma second_account_gets_nothing_witness :
  alloc_many 3 8 (alloc_req (Some "bob")) one_slot = ([None; None; None], one_slot).
Proof.
  exact (second_account_gets_nothing 3 8 one_slot 1 alice_row (alloc_req (Some "bob"))
           eq_refl eq_refl eq_refl ltac:(discriminate) eq_refl).
Defined.

(** ** The transport *)

#[export] Instance hello_eq_dec : EqDecision hello.
Proof. solve_decision. Defined.
#[export] Instance hello_countable : Countable hello.
Proof.
  refine (inj_countable' (fun h => (h_Type h, h_Pub h, h_Nonce h, h_Sig h))
            (fun '(t, p, n, s) => {| h_Type := t; h_Pub := p; h_Nonce := n; h_Sig := s |}) _). by intros [].
Defined.
#[export] Instance msg_eq_dec : EqDecision Msg.
Proof. solve_decision. Defined.
#[export] Instance msg_countable : Countable Msg.
Proof.
  refine (inj_countable' (fun m => (msg_Type m, msg_ID m, msg_Hash m, msg_Data m))
            (fun '(t, i, h, d) => {| msg_Type := t; msg_ID := i; msg_Hash := h; msg_Data := d |}) _). by intros [].
Defined.
#[export] Instance bin_transport : TransportCodecs := {|
  codec_helloLine := RefCodec.countable_json {| h_Type := ""; h_Pub := ""; h_Nonce := ""; h_Sig := "" |};
  codec_Msg := RefCodec.countable_json (msg "");
|}.

Lemma bits_one_line p : one_line (RefCodec.bits_of p).
Proof. intros c. induction p; cbn; [intros [<-|?]; [done|auto]..|done]. Qed.
Lemma bin_line h : line_codec h.
Proof.
  exists (RefCodec.bits_of (encode h)). split; [done|]. split; [apply bits_one_line|].
  cbn. by rewrite RefCodec.of_bits_of, decode_encode.
Defined.

Definition pub32 (c : ascii) : string := list_str (repeat c 32).
Lemma any_pair c priv : key_pair (pub32 c) priv.
Proof. split; [done|]. intros m. split; reflexivity. Defined.

Definition session_key (a b c d : string) : string := Sum256 (a +:+ b +:+ c +:+ d).
Definition hello_of (c : ascii) : hello := make_hello (hex_EncodeToString (pub32 c)) "" (String c "").

Lemma handshake_agrees_witness : exists key,
  DialSession session_key (hex_EncodeToString (pub32 "a")) "" "a" (Ret tt) (hello_line (hello_of "b") +:+ "x") =
    (hello_line (hello_of "a"), Ret {| s_PeerPub := hex_EncodeToString (pub32 "b"); s_Key := key; s_In := "x" |}) /\
  ServeSession session_key (hex_EncodeToString (pub32 "b")) "" "b" (Ret tt) (hello_line (hello_of "a") +:+ "y") =
    (hello_line (hello_of "b"), Ret {| s_PeerPub := hex_EncodeToString (pub32 "a"); s_Key := key; s_In := "y" |}).
Proof.
  exact (handshake_agrees session_key (pub32 "a") "" "a" (pub32 "b") "" "b" "y" "x"
           (any_pair "a" "") (any_pair "b" "") (bin_line _) (bin_line _)).
Defined.

(** The node [b] with a session of [a]. *)
Definition node_b : P2PNode :=
  {| pn_pubHex := hex_EncodeToString (pub32 "b"); pn_priv := "";
     pn_sessions := <[hex_EncodeToString (pub32 "a") :=
       {| s_PeerPub := hex_EncodeToString (pub32 "a"); s_Key := "old"; s_In := "old" |}]> ∅ |}.

Lemma replayed_hello_takes_session_witness :
  pn_sessions (handleConn session_key "c" (Ret tt) (hello_line (hello_of "a") +:+ "") node_b).2
    !! hex_EncodeToString (pub32 "a") <> pn_sessions node_b !! hex_EncodeToString (pub32 "a").
Proof.
  destruct (replayed_hello_takes_session session_key (hello_of "a") node_b "c" "" (bin_line _)
              (make_hello_ok (pub32 "a") "" "a" (any_pair "a" ""))) as (_ & H & _).
  change (h_Pub (hello_of "a")) with (hex_EncodeToString (pub32 "a")) in H. rewrite H.
  unfold node_b. cbn [pn_sessions]. rewrite lookup_insert_eq. intros E.
  apply (f_equal (fun o => match o with Some s => s_In s | None => "" end)) in E. discriminate E.
Defined.

(** ** The wallet *)

#[export] Instance bin_memo : MemoCodec := {|
  memo_marshal slot note := RefCodec.bits_of (encode (slot, note));
  memo_unmarshal s :=
    match RefCodec.of_bits s with
    | Some p => match decode p : option (Z * string) with
                | Some (slot, _) => Ret (Some (SlotNumber (f64_of_Z slot))) | None => Err "invalid code" end
    | None => Err "invalid code"
    end;
|}.
#[export] Instance bin_memo_ok : MemoCodecOk bin_memo.
Proof. intros slot note. cbn -[f64_of_Z]. by rewrite RefCodec.of_bits_of, decode_encode. Qed.

Definition scan_key : scalar (Edwards := toy_curve) := to_zmod 5.
Definition spend_key : scalar (Edwards := toy_curve) := to_zmod 9.
Definition priv64 : string := list_str (repeat "p"%char 64).
Definition wallet_at (last : Z) : wallet :=
  {| w_acct := {| wa_PubHex := hex_EncodeToString (pub32 "w"); wa_PrivHex := hex_EncodeToString priv64 |};
     w_keys := {| ok_Registry := {| rk_ScanPub := hex_EncodeToString (pt_Bytes (ScalarBaseMult scan_key));
                                    rk_SpendPub := hex_EncodeToString (pt_Bytes (ScalarBaseMult spend_key)) |};
                  ok_Priv := {| pk_ScanPriv := hex_EncodeToString (sc_Bytes scan_key);
                                pk_SpendPriv := hex_EncodeToString (sc_Bytes spend_key) |} |};
     w_chainID := "reserve-test"; w_last := last |}.
Definition build_req : otapBuildReq :=
  {| bq_Recipient := ok_Registry (w_keys (wallet_at 0)); bq_Amount := 70; bq_Asset := ""; bq_SlotID := 12;
     bq_Note := "rent" |}.
Definition built : Z * option TxOut * wallet :=
  handleOTAPBuildTx (Err "offline") (Ret (rnd64 "3")) (Ret nonce12) (wallet_at 3) "POST" (Ret build_req).
Definition built_out : TxOut := default (pay "" 0) built.1.2.
Definition node_says (blocks : Z -> outcome (list (list TxOut))) : NodeAnswers :=
  {| na_ChainInfo := Ret ("reserve-test", 6); na_Block := blocks; na_Nonce := fun _ => Ret 4 |}.

Lemma claim_signatures_verify_witness : exists tx c P,
  scan_output 99 6 (wallet_at 5) (node_says (fun _ => Ret [])) (fun _ => Ret (rnd64 "4")) 0 built_out =
    [MarkConfirmed 12 6 "txid_todo" 99; SubmitTx tx] /\
  TClaim tx = Some c /\ CP c = OP built_out /\ CAmount c = 70 /\ CTo c = From tx /\ TNonce tx = 5 /\
  DecodePointHex (OP built_out) = Ret P /\ schnorr_Verify P (SigningBytes tx) (ClaimSigHex c) = true /\
  VerifyWithPubHex (PubKey tx) (SigHex tx) (SigningBytes tx) = true.
Proof.
  assert (wallet_of (wallet_at 5) scan_key spend_key (pub32 "w") priv64) as Hw
    by (split; [reflexivity..|apply any_pair|reflexivity]).
  apply (claim_signatures_verify (wallet_at 5) (wallet_at 3) scan_key spend_key (pub32 "w") priv64 build_req
           (rnd64 "3") nonce12 (Err "offline") built_out (wallet_at 3) 99 6 (node_says (fun _ => Ret []))
           (fun _ => Ret (rnd64 "4")) 0 4 (rnd64 "4") Hw).
  - discriminate.
  - reflexivity.
  - reflexivity.
  - reflexivity.
  - reflexivity.
  - vm_compute. reflexivity.
  - reflexivity.
  - vm_compute. reflexivity.
  - reflexivity.
  - reflexivity.
  - reflexivity.
Defined.

(** Blocks 6 is there, 7 is not. *)
Definition blocks67 (h : Z) : outcome (list (list TxOut)) := if h =? 6 then Ret [[built_out]] else Err "not found".
Definition says67 : NodeAnswers := {| na_ChainInfo := Ret ("reserve-test", 8); na_Block := blocks67; na_Nonce := fun _ => Ret 4 |}.

Lemma poll_scans_in_order_witness :
  exists bs, w_last (poll_tick 99 says67 (fun _ => Ret (rnd64 "4")) (wallet_at 5)).1 = 5 + Z.of_nat (length bs) /\
  (forall i b, bs !! i = Some b -> blocks67 (6 + Z.of_nat i) = Ret b).
Proof.
  destruct (poll_scans_in_order 99 says67 (fun _ => Ret (rnd64 "4")) (wallet_at 5) "reserve-test" 8 eq_refl
              ltac:(cbn; lia) ltac:(lia)) as [_ H].
  destruct (H ltac:(cbn; lia)) as (bs & _ & Hl & _ & Hin & _). exists bs. split; [exact Hl|exact Hin].
Defined.
