(* ===== verification/HttpWitnesses.v ===== *)
(** * The theorems on the HTTP clients at concrete inputs

    One server holds the whole world; addresses are split as net/http splits them and values
    travel in binary codes. *)

From S2P Require Import Prelude GoLang KV Chain Sha2 Storage StorageProps State Fees Config Crypto Validate Apply Frame Mempool Forkchoice Finality Sync KeyVault StorageDaemon Node Wallet SyncOnce Gossip Transport Api GossipProps ApiProps HttpClient HttpProps Instances Witnesses NodeWitnesses NetWitnesses ServiceWitnesses.
Import MapDB.

(** ** The wire *)

Definition bits {A} `{Countable A} (a : A) : string := RefCodec.bits_of (encode a).
Definition unbits {A} `{Countable A} (s : string) : outcome A :=
  match RefCodec.of_bits s with
  | Some p => match decode p with Some a => Ret a | None => Err "invalid code" end
  | None => Err "invalid code"
  end.
Lemma unbits_bits {A} `{Countable A} (a : A) : unbits (bits a) = Ret a.
Proof. unfold unbits, bits. by rewrite RefCodec.of_bits_of, decode_encode. Qed.

(** The entries that clients look at. *)
Definition wire_text (b : resp_body) : string :=
  match b with
  | RJson (JObj [(_, JStr c); (_, JInt h); (_, JStr t); _; _]) => bits (c, h, t)
  | RJson (JObj [(_, JInt f); (_, JInt k); (_, JHeaders hs)]) => bits (f, k, hs)
  | RJson (JObj [(_, JInt h); (_, JStr x); (_, JBlock b)]) => bits (h, x, b)
  | RJson (JObj [(_, JStr x); (_, JBlock b)]) => bits (x, b)
  | RText s => s
  | _ => ""
  end.

Definition via {A B} `{Countable A} (f : A -> B) (dflt : B) : Body B :=
  {| decode_body s := olet a := unbits s in Ret (f a); decode_partial _ := dflt |}.
#[export] Instance wire_codecs : ClientCodecs := {|
  out_chainInfo := via (fun '(c, h, t) => {| ci_ChainID := c; ci_Height := h; ci_Tip := t; ci_TipWork := 0 |})
    {| ci_ChainID := ""; ci_Height := 0; ci_Tip := ""; ci_TipWork := 0 |};
  out_headers := via (fun '(f, k, hs) => {| ho_From := f; ho_Count := k; ho_Headers := hs |})
    {| ho_From := 0; ho_Count := 0; ho_Headers := [] |};
  out_block := via (fun '(h, x, b) => {| br_Height := h; br_Hash := x; br_Block := b |})
    {| br_Height := 0; br_Hash := ""; br_Block := zero_block |};
  out_blockByHash := via (fun '(x, b) => {| bh_Hash := x; bh_Block := b |}) {| bh_Hash := ""; bh_Block := zero_block |};
  out_locate := no_body {| lr_Found := false; lr_Hash := ""; lr_Height := 0 |};
  out_votes := no_body {| vo_Height := 0; vo_Votes := [] |};
  out_walletInfo := no_body {| wi_ChainID := ""; wi_Height := 0; wi_Tip := "" |};
  out_walletBlock := no_body {| wb_Height := 0; wb_Hash := ""; wb_Txs := [] |};
  out_stateInfo := no_body {| si_ID := ""; si_Balance := 0; si_Nonce := 0 |};
  out_submit := no_body {| so_txid := None |};
  out_alloc := no_body {| ar_SlotID := 0; ar_DerivationIndex := 0; ar_ExpiresAt := None |};
  in_locator := no_codec []; in_alloc := no_codec (alloc_req None);
  in_confirm := no_codec {| mk_SlotID := 0; mk_Height := 0; mk_TxID := ""; mk_ConfirmedAt := 0 |};
|}.
#[export] Instance wire_bodies : Bodies := {|
  body_pub := body_pub; body_bool := body_bool; body_locator := body_locator; body_pos := body_pos;
  body_vote := body_vote; body_pop := body_pop; body_addr := body_addr; body_gossipTx := body_gossipTx;
  body_gossipBlock := body_gossipBlock; body_rpc := body_rpc;
  body_tx := {| decode_body := json_unmarshal; decode_partial := json_partial |};
|}.
#[export] Instance utf8_header : Utf8 BlockHeader := fun _ => true.
#[export] Instance utf8_block : Utf8 Block := fun _ => true.

Lemma wire_decodes bt dw : decodes bt dw wire_text.
Proof. split; intros; cbn [wire_text decode_body out_chainInfo out_headers out_block out_blockByHash wire_codecs via]; by rewrite unbits_bits. Defined.

(** The client: the server answers every address that starts with its own. *)
Definition toy_http {S} (base : string) (srv : Server S) (method url body : string) : GoM S (Z * string) :=
  let '(path, raw) := cut_char "?" (str_drop (String.length base) url) in srv method path (query_get raw) body.

Lemma cut_none sep s : has_char sep s = false -> cut_char sep s = (s, "").
Proof.
  induction s as [|c s IH]; [done|]. cbn [has_char cut_char]. intros [-> Hs]%orb_false_iff. by rewrite IH.
Qed.
Lemma path_no_mark s : plain_path s -> has_char "?" s = false.
Proof.
  induction s as [|c s IH]; [done|]. intros Hs. cbn [has_char]. apply orb_false_iff. split.
  - assert (path_char c = true) as Hc by (apply Hs; by left).
    destruct c as [[] [] [] [] [] [] [] []]; (discriminate Hc || reflexivity).
  - apply IH. intros x Hx. apply Hs. by right.
Qed.
Lemma toy_reaches {S} base (srv : Server S) : reaches (toy_http base srv) base (fun s => s) (fun s _ => s) srv.
Proof.
  intros method path l body w Hp _. unfold toy_http, address. rewrite str_drop_app. unfold gzoom.
  pose proof (path_no_mark path Hp) as Hn.
  destruct l as [|e l].
  - rewrite str_app_nil_r, cut_none by done. by destruct (srv _ _ _ _ _).
  - change ("?" +:+ query_of (e :: l)) with (String "?" (query_of (e :: l))). rewrite cut_sep by done.
    by destruct (srv _ _ _ _ _).
Qed.

(** ** A peer with the chain of three blocks *)

Definition serve1 :=
  serve (BD := wire_bodies) (cfg_with false 0) (fun s => s) genesis1 no_rule fin_node 0 0 (fun _ _ => gret [])
    (fun tx => gret tx) (fun _ => gret tt) (fun _ _ => gret tt) (fun _ _ _ _ => gret (0, "")) 30 100 [] None true 10
    0 0 10 100.
Definition peer_http := toy_http "http://peer" (node_server wire_text serve1).

Lemma chain_db_texts : texts chain_db.
Proof.
  split; [done|done|]. intros h x H.
  change (db_view chain_db) with (chain_db : gmap string string) in H. unfold chain_db in H.
  repeat (apply lookup_insert_Some in H as [[_ <-]|[_ H]]; [vm_compute; reflexivity|]).
  pose proof (db0_none (keyHashByHeight h)) as H0. change (db_view db0) with (db0 : gmap string string) in H0. congruence.
Defined.

Lemma peer_answers_witness :
  let net := answers peer_http api0 in
  fetchChainInfo net "http://peer" =
    Ret {| ci_ChainID := g_ChainID genesis1; ci_Height := 1; ci_Tip := "m1"; ci_TipWork := 0 |} /\
  fetchBlockByHash net "http://peer" "o1" = Ret {| bh_Hash := "o1"; bh_Block := other_blk |}.
Proof.
  cbv zeta.
  destruct (peer_answers (cfg_with false 0) (fun s => s) genesis1 no_rule fin_node 0 0 (fun _ _ => gret [])
    (fun tx => gret tx) (fun _ => gret tt) (fun _ _ => gret tt) (fun _ _ _ _ => gret (0, "")) 30 100 [] None true 10
    0 0 10 100 wire_text peer_http (fun s => s) (fun s _ => s) api0 "http://peer" (toy_reaches _ _) eq_refl
    chain_db 1 "m1" (wire_decodes 10 100) eq_refl chain_db_linked chain_db_texts) as (H1 & _ & _ & H4).
  - run_reader.
  - unfold is_u64. lia.
  - vm_compute. reflexivity.
  - vm_compute. reflexivity.
  - split; [exact H1|]. pose proof (H4 "o1" (plain_const "o1" eq_refl) ltac:(discriminate)) as H.
    rewrite chain_db_other in H. exact H.
Defined.

(** ** The claim of a wallet *)

Definition tick : list action := Eval vm_compute in (poll_tick 99 says67 (fun _ => Ret (rnd64 "4")) (wallet_at 5)).2.
Definition claim0 : Tx := Eval vm_compute in match tick with _ :: SubmitTx tx :: _ => tx | _ => zero_tx end.

Lemma claims_change_nothing_witness : exists st,
  client_SubmitTx peer_http "http://peer" claim0 api0 = (Err ("tx/submit " +:+ FormatUint st), api0) /\ In st [400; 403].
Proof.
  apply (claims_change_nothing (cfg_with false 0) (fun s => s) genesis1 no_rule fin_node 0 0 (fun _ _ => gret [])
    (fun tx => gret tx) (fun _ => gret tt) (fun _ _ => gret tt) (fun _ _ _ _ => gret (0, "")) 30 100 [] None true 10
    0 0 10 100 wire_text peer_http (fun s => s) (fun s _ => s) api0 "http://peer" (toy_reaches _ _) eq_refl
    99 says67 (fun _ => Ret (rnd64 "4")) (wallet_at 5) claim0).
  - assert ((poll_tick 99 says67 (fun _ => Ret (rnd64 "4")) (wallet_at 5)).2 = tick) as -> by (vm_compute; reflexivity).
    right. left. reflexivity.
  - cbn. by rewrite RefCodec.of_bits_of, decode_encode.
Defined.
