(* ===== verification/TypeWitnesses.v ===== *)
(** * Type safety at a concrete run

    A node that stores its genesis block, is given a peer over HTTP and is asked for its
    anchor by a peer, over the concrete store and codecs. *)

From S2P Require Import Prelude GoLang KV Chain Pow Storage State Fees Pop Config Crypto Validate Apply Frame Typed Mempool TypedLedger Forkchoice Finality Sync Node SyncOnce Gossip Api TypedNode TypeSafety Instances Witnesses NodeWitnesses NetWitnesses.
Import MapDB.

(** ** The laws hold of the instances *)

Lemma countable_total {A} `{Countable A} (dflt : A) : @JSONTotal A (RefCodec.countable_json dflt).
Proof.
  split.
  - intros a. eexists. split; [reflexivity|]. unfold reads_as. cbn.
    by rewrite RefCodec.of_bits_of, decode_encode.
  - intros b. cbn. destruct (RefCodec.of_bits b) as [q|]; [|done]. by destruct (decode q).
Qed.

#[export] Instance ref_codecs_total : CodecsTotal ref_codecs.
Proof. split; apply countable_total. Qed.
#[export] Instance no_files_safe : SnapFilesSafe no_files.
Proof. by split. Qed.
#[export] Instance toy_curve_safe : EdwardsSafe toy_curve.
Proof. intros b. cbn. by destruct (Nat.eqb _ _). Qed.

(** Addresses are read as they are written. *)
Definition addr_bodies : Bodies := {|
  body_pub := body_pub; body_bool := body_bool; body_locator := body_locator; body_pos := body_pos;
  body_vote := body_vote; body_pop := body_pop;
  body_addr := {| decode_body s := Ret s; decode_partial _ := "" |};
  body_gossipTx := body_gossipTx; body_gossipBlock := body_gossipBlock; body_rpc := body_rpc; body_tx := body_tx;
|}.
Lemma addr_bodies_safe : BodiesSafe addr_bodies.
Proof. by split. Qed.

#[export] Instance height_eq_dec : EqDecision HeightView.
Proof. solve_decision. Defined.
#[export] Instance height_countable : Countable HeightView.
Proof. code_tuple (fun r => Forkchoice.hv_Height r) (fun h => {| Forkchoice.hv_Height := h |}). Defined.
Definition height_codec : JSON HeightView := RefCodec.countable_json {| Forkchoice.hv_Height := 0 |}.
Definition any_codec : JSON Z := RefCodec.countable_json 0.

(** ** The run *)

Definition safe_entry := entry (BD := addr_bodies) (HV := height_codec) (any := Z) (AJ := any_codec)
  (cfg_with false 0) (fun s => s) genesis1 no_rule fin_node 0 0 "" "" (fun _ sm => sm)
  (fun _ sm => sm) zero_tx 30 100 10 100.
Definition safe_request := request (BD := addr_bodies) (HV := height_codec)
  (cfg_with false 0) (fun s => s) genesis1 no_rule fin_node 0 0 30 100 10 100.
Definition safe_message := message
  (cfg_with false 0) (fun s => s) genesis1 no_rule fin_node 0 0 "" "" (fun _ sm => sm)
  (fun _ sm => sm) zero_tx.

(** Undeclared functions that panic: the run does not reach them. *)
Definition wild : Undeclared (L := map_db) (FS := no_files) := {|
  u_ListVotes _ _ := gpanic; u_validateTxAdmission _ := gpanic; u_ApplyBlock _ := gpanic;
  u_SetBalance _ _ := gpanic; u_findForkPointCached _ _ _ _ := gpanic; u_reorgFromPeer _ _ := gpanic |}.

Definition first_store : gmap string string * unit := (∅, tt).
Definition with_genesis : gmap string string * unit := (on_db (ensureGenesisStored genesis1) first_store).2.
Definition api_at (c : gmap string string * unit) : api :=
  {| a_chain := c; a_sm := None; a_mp := pool0; a_auto := false; a_posts := []; a_sent := [] |}.
Definition add_peer : Request :=
  {| rq_Method := "POST"; rq_Query := (fun _ => ""); rq_Body := "10.0.0.1:18444" |}.
Definition with_peer : gmap string string * unit := a_chain (safe_request wild [] None true 10%nat 7 7 "/peers/add" add_peer (api_at with_genesis)).2.

Lemma safe_run : rtc safe_entry first_store with_peer.
Proof.
  eapply rtc_l; [apply by_genesis|]. eapply rtc_l; [|apply rtc_refl].
  change (safe_entry (a_chain (api_at with_genesis)) with_peer). unfold with_peer, safe_request. apply by_request.
  apply request_settled. cbn. intuition discriminate.
Qed.

Lemma store_stays_typed_witness :
  typed (db_view with_peer.1) /\
  (ListPeers 10 with_peer.1).1 = Ret [{| pe_Addr := "10.0.0.1:18444"; pe_AddedUnix := 7 |}] /\
  (HasGenesis with_peer.1).1 = Ret true.
Proof.
  split; [|split; vm_compute; reflexivity].
  refine (store_stays_typed (HB := addr_bodies_safe) (HVT := countable_total _) (HA := countable_total _)
    _ _ _ _ _ _ _ _ _ _ _ _ _ _ _ _ no_rule_reads first_store with_peer eq_refl safe_run).
Defined.

Definition p2p_at (c : gmap string string * unit) : p2p_state := start_state c pool0 None.


Lemma with_peer_typed : typed (db_view with_peer.1).
Proof.
  refine (run_typed (L := map_db) (FS := no_files) (HB := addr_bodies_safe) (HVT := countable_total _) (HA := countable_total _)
    _ _ _ _ _ _ _ _ _ _ _ _ _ _ _ _ no_rule_reads first_store with_peer safe_run _). apply typed_empty.
Qed.

Lemma typed_reads_witness : exists l, ListPeers 10 with_peer.1 = (Ret l, with_peer.1).
Proof.
  destruct (typed_reads (L := map_db) with_peer.1 with_peer_typed) as (_ & _ & _ & _ & _ & _ & _ & _ & Hp & _). apply Hp.
Defined.

Lemma header_round_ends_witness : exists r s', header_round 1 7 (with_peer.1, new_syncManager) = (Ret (Some r), s').
Proof.
  apply (header_round_ends (L := map_db) 1 7 with_peer.1 new_syncManager with_peer_typed).
  - vm_compute. split; discriminate.
  - vm_compute. reflexivity.
Defined.
