(* ===== verification/WebWitnesses.v ===== *)
(** * The flat web directory at a concrete file system

    Files are a finite map from paths to contents, and a directory is what the paths below it
    show; the hash is SHA-256. *)

From S2P Require Import Prelude GoLang KV Chain Sha2 WebFS WebPages.

#[local] Existing Instance sha2_hashes.
#[local] Existing Instance sha2_hashes_ok.

Definition slash_join (d n : string) : string := d +:+ "/" +:+ n.
Definition plain_nameb (n : string) : bool :=
  negb (n =? "")%string && negb (n =? ".")%string && negb (n =? "..")%string &&
  negb (existsb (fun c => Ascii.eqb c "/") (str_list n)).
Lemma plain_nameb_spec n : plain_nameb n = true <-> plain_name n.
Proof.
  unfold plain_nameb, plain_name. rewrite !andb_true_iff, !negb_true_iff, !String.eqb_neq.
  assert (existsb (fun c => Ascii.eqb c "/") (str_list n) = false <-> ~ In "/"%char (str_list n)) as ->; [|tauto].
  rewrite <- not_true_iff_false, existsb_exists. split; intros H1 H2; apply H1.
  - by exists "/"%char.
  - by destruct H2 as (x & Hx & ->%Ascii.eqb_eq).
Qed.

Definition entry_of (d : string) (e : string * string) : option (string * bool) :=
  let n := str_trim_prefix (d +:+ "/") e.1 in
  if str_prefix (d +:+ "/") e.1 && plain_nameb n then Some (n, false) else None.

#[local] Instance map_web : WebFiles := {|
  wfs := gmap string string; filepath_Join := slash_join; web_MkdirAll _ := gret tt;
  web_ReadDir d f := (omap (entry_of d) (map_to_list f), None);
  web_ReadFile p f := match f !! p with Some c => Ret c | None => Err "no such file" end;
  web_WriteFile p c := gmodify <[p := c]>; web_Remove p := gmodify (delete p);
|}.

Lemma entry_of_spec d k v n : entry_of d (k, v) = Some (n, false) <-> k = slash_join d n /\ plain_name n.
Proof.
  unfold entry_of. cbn [fst]. split.
  - destruct (str_prefix (d +:+ "/") k) eqn:Hp; [|done]. apply str_prefix_spec in Hp as [r ->].
    rewrite str_trim_prefix_app. destruct (plain_nameb r) eqn:Hr; [|done]. intros [= <-].
    split; [unfold slash_join; by rewrite str_app_assoc|by apply plain_nameb_spec].
  - intros [-> Hn%plain_nameb_spec]. unfold slash_join. rewrite <- str_app_assoc, str_prefix_app, str_trim_prefix_app.
    by rewrite Hn.
Qed.

Lemma in_dir d (f : gmap string string) n :
  In (n, false) (omap (entry_of d) (map_to_list f)) <-> plain_name n /\ is_Some (f !! slash_join d n).
Proof.
  rewrite <- list_elem_of_In, list_elem_of_omap. split.
  - intros ([k v] & Hk%elem_of_map_to_list & [-> Hn]%entry_of_spec). split; [done|by exists v].
  - intros [Hn [v Hv]]. exists (slash_join d n, v). rewrite elem_of_map_to_list, entry_of_spec. done.
Qed.

#[local] Instance map_web_ok : WebFilesOk map_web.
Proof.
  refine {| web_view := (fun f : wfs (WebFiles := map_web) => f : gmap string string) |}; cbn.
  - intros d n1 n2 _ _ H. unfold slash_join in H. rewrite <- !str_app_assoc in H.
    by apply str_app_inj_length in H as [_ H].
  - done.
  - intros d f n. by rewrite in_dir.
  - intros d f n _ H1 H2. by apply in_dir.
  - intros p f c H. destruct (f !! p); by simplify_eq.
  - done.
  - intros p c f q Hq. by apply lookup_insert_ne.
  - intros p f q Hq. by apply lookup_delete_ne.
Defined.

(** ** A site of one page with one asset *)

Definition site : WConfig :=
  {| wc_RuntimeWebDir := "run"; wc_Bundles := [{| wb_Name := "portal"; wb_SourceDir := "src"; wb_Entry := "index.html" |}] |}.
Definition sources : gmap string string :=
  <["run/old.js" := "stale"]> (<["src/app.js" := "x"]> {["src/index.html" := "<script src={{asset:app.js}}>"]}).
Definition built : gmap string string := Eval vm_compute in (EnsureFlatWebFS site sources).2.

Lemma EnsureFlatWebFS_publishes_witness :
  built !! "run/portal.index.html" = Some "<script src=app.2d711642b726.js>" /\
  built !! "run/app.2d711642b726.js" = Some "x" /\ built !! "run/old.js" = None /\
  bundle_done "run" sources built {| wb_Name := "portal"; wb_SourceDir := "src"; wb_Entry := "index.html" |}.
Proof.
  split_and!; [vm_compute; reflexivity..|].
  apply (EnsureFlatWebFS_publishes (W := map_web) site sources built).
  - vm_cast_no_check (@eq_refl (outcome unit * gmap string string) (Ret tt, built)).
  - apply Forall_cons_2; [|apply Forall_nil_2]. split; [split_and!; [done..|not_in]|]. intros n m _. discriminate.
  - apply NoDup_singleton.
  - by left.
Defined.

Definition template : list tok := chars "<a href={{" ++ [THole "a.js"] ++ chars ">" ++ [THole "b.js"].

Lemma expand_fills_witness :
  expand "<a href={{{{asset:a.js}}>{{asset:b.js}}" (range {["a.js" := "a.0123456789ab.js"]}) =
  "<a href={{a.0123456789ab.js>{{asset:b.js}}".
Proof.
  refine (expand_fills {["a.js" := "a.0123456789ab.js"]} template _ _).
  - cbn. repeat split; try done; not_in.
  - intros n v [<- <-]%lookup_singleton_Some. unfold hole_name, hole_value, no_char. split_and!; cbn; try lia; not_in.
Defined.
