(* ===== verification/GatewayWitnesses.v ===== *)
(** * The gateway at a concrete configuration

    The prefixes of config/gateway/gateway.json in front of the node of [HttpWitnesses], and a
    site of three bundles. *)

From S2P Require Import Prelude GoLang KV Chain Sha2 WebFS WebPages Storage Config Crypto Finality Sync Node Gossip PlatformDB Api HttpClient HttpProps Instances Witnesses NodeWitnesses NetWitnesses ServiceWitnesses HttpWitnesses WebWitnesses Gateway GatewayMux GatewayServe GatewayProps TcpProxy.
Import MapDB.

#[local] Existing Instance map_web.
#[local] Existing Instance map_web_ok.

Definition bundle_at (name src : string) : Bundle := {| wb_Name := name; wb_SourceDir := src; wb_Entry := "index.html" |}.
Definition gateway_cfg : GConfig := {|
  gw_TCPEnabled := true; gw_TCPListen := ""; gw_TCPTarget := ""; gw_TokenEnv := ""; gw_Bind := ""; gw_Port := 0;
  gw_Web := {| ws_RuntimeWebDir := "run"; ws_Marketing := bundle_at "marketing" "m"; ws_Portal := bundle_at "portal" "p";
    ws_Wallet := bundle_at "wallet" "w" |};
  gw_Routes := [{| ro_PathPrefix := "/api"; ro_Target := "http://peer" |};
    {| ro_PathPrefix := "/api/node"; ro_Target := "http://peer" |}];
  gw_Services := [] |}.
Definition parse_url (s : string) : outcome URL := Ret (plain_url s).

Lemma gateway_cfg_ok : routes_ok parse_url gateway_cfg.
Proof.
  split.
  - by intros rt [<-|[<-|[]]].
  - by intros rt [<-|[<-|[]]].
  - by intros rt pg [<-|[<-|[]]]; destruct pg.
  - apply (bool_decide_unpack _). vm_compute. exact I.
  - intros rt _. by eexists.
Defined.

Lemma gateway_routes_witness :
  exists m, new_mux parse_url gateway_cfg = Ret m /\
  mux_route m "/api/node/chain/info" = To (Proxy "/api/node" (plain_url "http://peer")) /\
  mux_route m "/api/nodes" = To (Proxy "/api" (plain_url "http://peer")) /\
  mux_route m "/api/healthz" = To (Own ApiHealthz) /\ mux_route m "/apis" = To (Own Web).
Proof.
  destruct (gateway_routes parse_url gateway_cfg gateway_cfg_ok) as (m & Hm & Hr). exists m. split; [done|].
  split_and!; apply Hr; try reflexivity.
  - apply (to_proxy _ _ _ {| ro_PathPrefix := "/api/node"; ro_Target := "http://peer" |});
      [by intros []|right; by left|by right| |done].
    intros rt [<-|[<-|[]]] _; cbn; lia.
  - apply (to_proxy _ _ _ {| ro_PathPrefix := "/api"; ro_Target := "http://peer" |});
      [by intros []|by left|by right| |done].
    intros rt [<-|[<-|[]]] [H|H]; cbn in *; (lia || discriminate).
  - by apply (to_own _ _ _ ApiHealthz).
  - apply to_web; [by intros []|]. by intros rt [<-|[<-|[]]] [H|H].
Defined.

Definition gateway_mux : mux := Eval vm_compute in match new_mux parse_url gateway_cfg with Ret m => m | _ => [] end.

(** ** Through the gateway to the node *)

Definition web_serve : WebServe := {|
  web_Stat p f := match f !! p with Some _ => Some false | None => None end;
  serve_dir _ _ _ := GAnswer 404 ""; serve_error _ := GAnswer 404 "";
|}.
#[local] Existing Instance web_serve.

Definition get_path (p : string) : GRequest :=
  {| gr_Method := "GET"; gr_Path := p; gr_Query := ""; gr_Body := ""; gr_Max := None; gr_Forwarded := ""; gr_Remote := "c" |}.
Definition handle_peer := handler (V := unit) peer_http (fun _ _ s => s) (fun _ => gret tt) (fun _ => None) (fun _ => "")
  "0.0.0.0:8080" (fun s => s) gateway_cfg gateway_mux.
Definition gateway_at (f : gmap string string) : gstate (Net := api) :=
  {| gs_world := {| gx_net := api0; gx_files := f |}; gs_lim := newRateLimiter (f64_of_Z 20) (f64_of_Z 40) |}.

Lemma gateway_forwards_witness :
  (handle_peer 5 (get_path "/api/node/chain/info") (gateway_at ∅)).1 =
  relayed (node_server wire_text serve1 "GET" "/chain/info" (query_get "") "" api0).1.
Proof.
  unfold handle_peer. erewrite (gateway_forwards peer_http (fun _ _ s => s) (fun _ => gret tt) (fun _ => None) (fun _ => "")
    "0.0.0.0:8080" (fun s => s) parse_url (fun s => s) (fun s _ => s) (node_server wire_text serve1) gateway_cfg gateway_mux
    5 (get_path "/api/node/chain/info") (gateway_at ∅) {| ro_PathPrefix := "/api/node"; ro_Target := "http://peer" |}
    "http://peer" "/chain/info" []).
  - by destruct (node_server _ _ _ _ _ _ _).
  - exact gateway_cfg_ok.
  - vm_compute. reflexivity.
  - apply to_proxy with (rt := {| ro_PathPrefix := "/api/node"; ro_Target := "http://peer" |});
      [by intros []|right; by left|by right| |done].
    intros rt [<-|[<-|[]]] _; cbn; lia.
  - apply toy_reaches.
  - right. by left.
  - done.
  - done.
  - intros x H. repeat (destruct H as [<-|H]; [reflexivity|]). destruct H.
  - done.
  - by apply Forall_nil_2.
  - done.
  - cbn. lia.
  - intros _. vm_compute. reflexivity.
Defined.

(** ** A site *)

Definition site_sources : gmap string string :=
  <["m/index.html" := "<script src={{asset:app.js}}>"]> (<["m/app.js" := "x"]>
    (<["p/index.html" := "portal"]> {["w/index.html" := "wallet"]})).
Definition site_built : gmap string string := Eval vm_compute in
  (EnsureFlatWebFS (HS := sha2_hashes) (web_config gateway_cfg) site_sources).2.
Definition site_page : list tok := chars "<script src=" ++ [THole "app.js"] ++ chars ">".

Lemma site_sources_assets n v : asset_of (HS := sha2_hashes) "m" site_sources n v -> n = "app.js" /\ v = "app.2d711642b726.js".
Proof.
  intros (Hp & Hh & x & Hx & ->). cbn [web_view map_web_ok] in Hx.
  change (filepath_Join "m" n) with ("m/" +:+ n) in Hx. unfold site_sources in Hx.
  apply lookup_insert_Some in Hx as [[E <-]|[_ Hx]]; [apply (str_app_inj_length "m/" "m/") in E as [_ <-]; done|].
  apply lookup_insert_Some in Hx as [[E <-]|[_ Hx]].
  { apply (str_app_inj_length "m/" "m/") in E as [_ <-]; [|done]. split; [done|]. vm_compute. reflexivity. }
  apply lookup_insert_Some in Hx as [[[=] _]|[_ Hx]]. by apply lookup_singleton_Some in Hx as [[=] _].
Qed.

Lemma gateway_serves_site_witness :
  (exists assets, assets !! "app.js" = Some "app.2d711642b726.js" /\
    handle_peer 5 (get_path "/") (gateway_at site_built) = (Ret (GAnswer 200 (filled assets site_page)), gateway_at site_built)) /\
  exists x, handle_peer 5 (get_path "/app.2d711642b726.js") (gateway_at site_built) = (Ret (GAnswer 200 x), gateway_at site_built).
Proof.
  destruct (gateway_serves_site (HS := sha2_hashes) (HSO := sha2_hashes_ok) peer_http (fun _ _ s => s) (fun _ => gret tt)
    (fun _ => None) (fun _ : jany unit => "") "0.0.0.0:8080" (fun s => s) parse_url gateway_cfg gateway_mux 5 (gateway_at site_built)
    site_sources site_built gateway_cfg_ok) as [Hpage Hasset].
  - vm_compute. reflexivity.
  - by split.
  - vm_cast_no_check (@eq_refl (outcome unit * gmap string string) (Ret tt, site_built)).
  - repeat (apply Forall_cons_2; [split; [split_and!; [done..|not_in]|intros n x _; discriminate]|]). apply Forall_nil_2.
  - reflexivity.
  - intros n x Hx. cbn [web_view map_web_ok] in Hx.
    set (o := site_built !! _) in Hx.
    change (match o with Some _ => Some false | None => None end = Some false /\
      match o with Some c => Ret c | None => Err "no such file" end = Ret x). by rewrite Hx.
  - split.
    + destruct (Hpage (get_path "/") (bundle_at "marketing" "m")) as (t & _ & Hh & Hfill).
      * split_and!; try done; [by intros []|]. by intros rt [<-|[<-|[]]] [H|H].
      * done.
      * destruct (Hfill site_page) as (assets & Ha & ->).
        -- vm_compute. reflexivity.
        -- clear. cbn. repeat split; try done; not_in.
        -- clear. intros n v [-> _]%site_sources_assets. unfold mentionable, hole_name, no_char. split_and!; try done; not_in.
        -- exists assets. split; [|exact Hh]. apply Ha. split_and!; [split_and!; [done..|not_in]|done|].
           exists "x". split; vm_compute; reflexivity.
    + destruct (Hasset (bundle_at "marketing" "m") (get_path "/app.2d711642b726.js") "app.js" "x") as (x & _ & Hh);
        [by left|split_and!; [done..|not_in]|done|not_in|reflexivity|vm_compute; reflexivity| |by exists x].
      by intros rt [<-|[<-|[]]] [H|H].
Defined.

(** ** The TCP proxy *)

Lemma tcp_relays_witness :
  relayed_in_order {| k_sent := "abc"; k_forwarded := "ab"; k_reply := ""; k_returned := ""; k_open := true |}.
Proof.
  eapply (tcp_relays 1 "0.0.0.0:9" "127.0.0.1:8" [("127.0.0.1:8", 2%nat)] _ _
    {| tp_waiting := 0; tp_links := [{| k_sent := "abc"; k_forwarded := "ab"; k_reply := ""; k_returned := ""; k_open := true |}] |});
    [reflexivity| |by left].
  eapply rtc_l; [apply step_connect|]. eapply rtc_l; [apply step_proxy, (accept_joined _ _ _ 0 [] 2%nat); reflexivity|].
  eapply rtc_l; [exact (step_link _ _ _ 0 [] _ _ [] (client_sends new_link "abc"))|].
  eapply rtc_l; [|apply rtc_refl]. apply (step_link _ _ _ 0 [] _ _ []).
  refine (copy_out {| k_sent := "abc"; k_forwarded := ""; k_reply := ""; k_returned := ""; k_open := true |} "ab" "c" _ _); reflexivity.
Defined.

