(* ===== verification/BootWitnesses.v ===== *)
(** * Starting a node at concrete files

    The configuration of [Witnesses] in a file, a genesis file, no key vault yet, and an empty
    store. *)

From S2P Require Import Prelude GoLang KV Chain Pow Storage State Config Crypto Validate Apply Mempool Finality KeyVault Node Wallet Transport Gateway TcpProxy Boot ServiceBoot Instances Witnesses NodeWitnesses ServiceWitnesses.
Import MapDB.

#[local] Instance config_codec : JSON Config := {|
  json_marshal _ := Ret ""; json_unmarshal _ := Ret (cfg_with false 0); json_partial _ := cfg_with false 0;
|}.

Definition boot_files : vfs (VaultFiles := map_files) :=
  <["node.json" := "{}"]> {["genesis.json" := RefCodec.bits_of (encode genesis1)]}.
Definition boot_node : NodeS := Eval vm_compute in
  match NewFromConfig "node.json" boot_files with
  | (Ret n, _) => n
  | _ => {| n_cfg := cfg_with false 0; n_db := None; n_vault := None; n_rpc := None; n_genesis := None; n_mp := None;
            n_p2p := None; n_fin := None; n_ready := false; n_sm := None; n_closed := false |}
  end.

Lemma Start_fresh_panics_witness :
  node_main (Ret nonce12) env0 no_rotation (Err "") (Err "") (fun _ => Ret db0) [] 0 1 ["/healthz"] "node.json" boot_files [] = Panic.
Proof.
  apply (Start_fresh_panics (Ret nonce12) env0 no_rotation (Err "") (Err "") (fun _ => Ret db0) [] 0 1 ["/healthz"]
    "node.json" boot_files boot_node boot_files []).
  vm_cast_no_check (@eq_refl (outcome NodeS * gmap string string) (Ret boot_node, boot_files)).
Defined.

(** ** A vault as text *)

(** A character after a one, the end of a string as a zero; entries after an
    [e] and the end of a list as a dot. *)
Fixpoint text_of (s rest : string) : string :=
  match s with EmptyString => String "0" rest | String c s' => String "1" (String c (text_of s' rest)) end.
Fixpoint read_text (s : string) : option (string * string) :=
  match s with
  | String "0" rest => Some ("", rest)
  | String "1" (String c s') => match read_text s' with Some (x, rest) => Some (String c x, rest) | None => None end
  | _ => None
  end.
Lemma read_text_of s rest : read_text (text_of s rest) = Some (s, rest).
Proof. induction s as [|c s IH]; [done|]. cbn. by rewrite IH. Qed.

Fixpoint entries_of (l : list (string * string)) (rest : string) : string :=
  match l with [] => String "." rest | (k, v) :: l' => String "e" (text_of k (text_of v (entries_of l' rest))) end.
Fixpoint read_entries (n : nat) (s : string) : option (list (string * string) * string) :=
  match n, s with
  | S n, String "e" s => match read_text s with
      | Some (k, s) => match read_text s with
          | Some (v, s) => match read_entries n s with Some (l, s) => Some ((k, v) :: l, s) | None => None end
          | None => None end
      | None => None end
  | _, String "." s => Some ([], s)
  | _, _ => None
  end.
Lemma read_entries_of l rest n : (length l <= n)%nat -> read_entries n (entries_of l rest) = Some (l, rest).
Proof.
  revert n. induction l as [|[k v] l IH]; intros [|n] Hn; cbn in Hn; try lia; [done..|]. cbn [entries_of read_entries].
  by rewrite !read_text_of, IH by lia.
Qed.
Lemma text_of_length s rest : (String.length rest < String.length (text_of s rest))%nat.
Proof. induction s as [|c s IH]; cbn; lia. Qed.
Lemma entries_of_length l rest : (length l <= String.length (entries_of l rest))%nat.
Proof.
  induction l as [|[k v] l IH]; cbn; [lia|]. pose proof (text_of_length k (text_of v (entries_of l rest))).
  pose proof (text_of_length v (entries_of l rest)). lia.
Qed.

(** Values carry a letter that says what they are. *)
Definition value_text (v : vval) : string := match v with VStr s => String "s" s | VOther s => String "o" s end.
Definition text_value (s : string) : vval :=
  match s with String "s" x => VStr x | String _ x => VOther x | EmptyString => VOther "" end.
Lemma text_value_text v : text_value (value_text v) = v.
Proof. by destruct v. Qed.

Definition vault_text (d : vault_data) : string :=
  entries_of (map_to_list (vd_rest d)) (match vd_kv d with
    | KvNone => "n" | KvOther s => String "o" s
    | KvMap m => String "m" (entries_of (List.map (fun e => (e.1, value_text e.2)) (map_to_list m)) "") end).
Definition text_vault (s : string) : option vault_data :=
  match read_entries (String.length s) s with
  | Some (rest, kv) =>
      match kv with
      | String "n" _ => Some {| vd_kv := KvNone; vd_rest := list_to_map rest |}
      | String "o" x => Some {| vd_kv := KvOther x; vd_rest := list_to_map rest |}
      | String "m" x =>
          match read_entries (String.length x) x with
          | Some (l, _) => Some {| vd_kv := KvMap (list_to_map (List.map (fun e => (e.1, text_value e.2)) l)); vd_rest := list_to_map rest |}
          | None => None
          end
      | _ => None
      end
  | None => None
  end.
Lemma text_vault_text d : text_vault (vault_text d) = Some d.
Proof.
  unfold text_vault, vault_text. rewrite read_entries_of by apply entries_of_length.
  destruct d as [[|m|x] r]; cbn [vd_kv vd_rest]; rewrite list_to_map_to_list; [done| |done].
  rewrite read_entries_of by apply entries_of_length. rewrite List.map_map. do 3 f_equal.
  rewrite <- (list_to_map_to_list m) at 2. f_equal. rewrite <- (List.map_id (map_to_list m)) at 2.
  apply map_ext. intros [k v]. cbn. by rewrite text_value_text.
Qed.

Definition text_codec : VaultCodec := {|
  vault_marshal d := Ret (vault_text d);
  vault_unmarshal s := match text_vault s with Some d => Ret (Some d) | None => Err "invalid text" end;
|}.
Definition text_codec_ok : VaultCodecOk text_codec.
Proof.
  refine {| text_ok _ := True; data_ok _ := True |}; [|done].
  intros d _. eexists. split; [done|]. cbn. by rewrite text_vault_text.
Defined.
#[local] Existing Instance text_codec.
#[local] Existing Instance text_codec_ok.

(** ** Genesis twice *)

Lemma genesis_pins_chain_witness :
  let d1 := (ensureGenesisStored genesis1 db0).2 in ensureGenesisStored genesis1 d1 = (Ret tt, d1).
Proof.
  intros d1. assert (exists b, json_marshal genesis1 = Ret b /\ json_unmarshal b = Ret genesis1) as Hc.
  { eexists. split; [reflexivity|]. cbn. by rewrite RefCodec.of_bits_of, decode_encode. }
  assert (ensureGenesisStored genesis1 db0 = (Ret tt, d1)) as H.
  { subst d1. destruct (ensureGenesisStored genesis1 db0) as [o d] eqn:He.
    assert (o = Ret tt) as -> by (change o with (o, d).1; rewrite <- He; vm_compute; reflexivity). reflexivity. }
  pose proof (genesis_pins_chain (L := map_db) genesis1 db0 d1 Hc H genesis1) as Hp. by rewrite String.eqb_refl in Hp.
Defined.

(** ** A wallet that is started three times *)

Definition wallet_cfg : Wallet.WConfig := {|
  wc_Bind := ""; wc_Port := 9020; wc_Storage := "http://s"; wc_Node := "http://n"; wc_Polling := true; wc_Interval := 0;
  wc_KeyvaultPath := "vault"; wc_KEKEnv := "KEK" |}.
#[local] Instance wallet_codec : JSON Wallet.WConfig := {|
  json_marshal _ := Ret ""; json_unmarshal _ := Ret wallet_cfg; json_partial _ := wallet_cfg;
|}.
Definition wallet_files : vfs (VaultFiles := map_files) := {["wallet.json" := "{}"]}.
Definition draw (c1 c2 : ascii) (acct : string * string) : draws (F := map_files) :=
  {| dr_rot := no_rotation; dr_nonce := Ret nonce12; dr_scan := Ret (rnd64 c1); dr_spend := Ret (rnd64 c2); dr_account := Ret acct |}.
Definition wallet_start := start env0 "wallet.json".
Definition first_start := wallet_start (draw "1" "2" ("pub", "priv")) wallet_files.

Lemma wallet_restart_witness : exists w f1 f2, first_start = (Ret w, f1) /\
  starts env0 "wallet.json" [draw "3" "4" ("other", "keys"); draw "5" "6" ("more", "keys")] f1 = (Ret [w; w], f2).
Proof.
  destruct first_start as [o f1] eqn:Hf. assert (exists w, o = Ret w) as [w ->].
  { assert (is_ret first_start.1 = true) as H.
    { vm_cast_no_check (@eq_refl bool true). }
    rewrite Hf in H. destruct o; [by eexists|done..]. }
  exists w, f1.
  destruct (wallet_restart env0) with (x := draw "1" "2" ("pub", "priv")) (path := "wallet.json") (f := wallet_files) (w := w)
    (f' := f1) (cfg := wallet_cfg)
    (c := match check_config wallet_cfg with Ret c => c | _ => wallet_cfg end) (b := "{}") as (v & _ & Hall).
  - done.
  - repeat (apply Forall_cons_2; [exact I|]). apply Forall_nil_2.
  - exact I.
  - by intros nonce [= <-].
  - reflexivity.
  - reflexivity.
  - reflexivity.
  - left. reflexivity.
  - exact Hf.
  - assert (os_ReadFile "wallet.json" first_start.2 = Ret "{}") as H by (vm_compute; reflexivity). by rewrite Hf in H.
  - destruct (Hall [draw "3" "4" ("other", "keys"); draw "5" "6" ("more", "keys")]) as [f2 H2]; [|by exists f2].
    clear. repeat (apply Forall_cons_2; [intros f; exists (Ret tt); split; [discriminate|reflexivity]|]). apply Forall_nil_2.
Defined.
